(** * Foto-Hosting: the database access layer

    A shallow embedding of [db.py], [admin_db.py] and [db_pool.py]:
    the query builders of the statistics views, the schema reconciler
    [ensure_schema], the image and user operations, and the scoped
    acquisition of pooled connections, with the properties the design
    document states about them.

    Python values are modelled as follows: a [str] is the list of its
    Unicode code points, an [int] is a [Z], [None] is the [None] of an
    [option], a naive [datetime] is the number of microseconds since
    0001-01-01 00:00:00, and a call that can raise returns a [result]. *)

From Stdlib Require Import ZArith NArith List Bool Lia String Ascii.
From Stdlib Require Import DecimalString Permutation Sorted.
Import ListNotations.

Set Implicit Arguments.

(* ================================================================== *)
(** * Python strings *)
(* ================================================================== *)

Module Py.

(** A Python [str]: its code points, in order. *)
Definition str := list N.

(** String literals of the source are written as UTF-8 text and decoded
    to code points (one to four bytes per code point). *)
Fixpoint utf8_decode (bs : list N) : str :=
  match bs with
  | [] => []
  | b0 :: t0 =>
    if (b0 <? 128)%N then b0 :: utf8_decode t0
    else
      match t0 with
      | [] => []
      | b1 :: t1 =>
        if (b0 <? 224)%N
        then ((b0 mod 32) * 64 + b1 mod 64)%N :: utf8_decode t1
        else
          match t1 with
          | [] => []
          | b2 :: t2 =>
            if (b0 <? 240)%N
            then ((b0 mod 16) * 4096 + (b1 mod 64) * 64 + b2 mod 64)%N
                 :: utf8_decode t2
            else
              match t2 with
              | [] => []
              | b3 :: t3 =>
                ((b0 mod 8) * 262144 + (b1 mod 64) * 4096
                 + (b2 mod 64) * 64 + b3 mod 64)%N :: utf8_decode t3
              end
          end
      end
  end.

Definition lit (s : string) : str :=
  utf8_decode (map N_of_ascii (list_ascii_of_string s)).

(** [a == b] on strings. *)
Fixpoint str_eqb (a b : str) : bool :=
  match a, b with
  | [], [] => true
  | x :: a', y :: b' => (x =? y)%N && str_eqb a' b'
  | _, _ => false
  end.

(** [a == b] where either side may be [None]. *)
Definition opt_str_eqb (a b : option str) : bool :=
  match a, b with
  | None, None => true
  | Some x, Some y => str_eqb x y
  | _, _ => false
  end.

(** [x in l] for a list of strings. *)
Definition str_in (x : str) (l : list str) : bool :=
  existsb (str_eqb x) l.

(** [s.startswith(p)]. *)
Fixpoint startswith (s p : str) {struct p} : bool :=
  match p, s with
  | [], _ => true
  | _ :: _, [] => false
  | y :: p', x :: s' => (x =? y)%N && startswith s' p'
  end.

(** [sub in s]: [sub] occurs in [s] as a contiguous run. *)
Fixpoint contains (sub s : str) : bool :=
  startswith s sub ||
  match s with
  | [] => false
  | _ :: s' => contains sub s'
  end.

(** [s[n:]] for [0 <= n]. *)
Definition slice_from (n : nat) (s : str) : str := skipn n s.

(** [s.split(sep)] for a separator of one character: the pieces between
    the separators, empty ones included; the empty string gives one
    empty piece. *)
Fixpoint split (sep : N) (s : str) : list str :=
  match s with
  | [] => [[]]
  | c :: t =>
    if (c =? sep)%N then [] :: split sep t
    else
      match split sep t with
      | [] => [[c]]
      | w :: ws => (c :: w) :: ws
      end
  end.

(** [str.isspace] for one character: the white space of Unicode as
    CPython has it. *)
Definition isspace (c : N) : bool :=
  ((9 <=? c) && (c <=? 13) ||
   (28 <=? c) && (c <=? 32) ||
   (c =? 133) || (c =? 160) || (c =? 5760) ||
   (8192 <=? c) && (c <=? 8202) ||
   (c =? 8232) || (c =? 8233) || (c =? 8239) || (c =? 8287) ||
   (c =? 12288))%N.

Fixpoint lstrip (s : str) : str :=
  match s with
  | [] => []
  | c :: t => if isspace c then lstrip t else s
  end.

Definition rstrip (s : str) : str := rev (lstrip (rev s)).

(** [s.strip()]. *)
Definition strip (s : str) : str := rstrip (lstrip s).

(** [sep.join(l)]. *)
Fixpoint join (sep : str) (l : list str) : str :=
  match l with
  | [] => []
  | [x] => x
  | x :: rest => x ++ sep ++ join sep rest
  end.

(** Truth value of a string in a condition: the empty string is false. *)
Definition nonempty (s : str) : bool :=
  match s with [] => false | _ :: _ => true end.

(** Truth value of an optional string: [None] and [''] are false. *)
Definition truthy (o : option str) : bool :=
  match o with Some s => nonempty s | None => false end.

(** [str(z)] for an [int], as an f-string renders it. *)
Definition str_of_int (z : Z) : str :=
  lit (NilZero.string_of_int (Z.to_int z)).

(** Outcome of a call: a value, or an exception that leaves the
    function. *)
Inductive result (E A : Type) : Type :=
| Return (a : A)
| Raise (e : E).
Arguments Return {E A} a.
Arguments Raise {E A} e.

Lemma str_eqb_refl (a : str) : str_eqb a a = true.
Proof.
  induction a as [|x a IH]; simpl; [reflexivity|].
  now rewrite N.eqb_refl.
Qed.

Lemma str_eqb_eq (a b : str) : str_eqb a b = true <-> a = b.
Proof.
  split.
  - revert b; induction a as [|x a IH]; intros [|y b]; simpl; try discriminate.
    + reflexivity.
    + intros H. apply andb_true_iff in H as [Hxy Hab].
      apply N.eqb_eq in Hxy. f_equal; auto.
  - intros ->. apply str_eqb_refl.
Qed.

Lemma str_eqb_neq (a b : str) : str_eqb a b = false <-> a <> b.
Proof.
  split.
  - intros H E. apply str_eqb_eq in E. congruence.
  - intros H. destruct (str_eqb a b) eqn:E; [|reflexivity].
    apply str_eqb_eq in E. contradiction.
Qed.

Lemma startswith_app (p r : str) : startswith (p ++ r) p = true.
Proof.
  induction p as [|x p IH]; simpl; [reflexivity|].
  now rewrite N.eqb_refl.
Qed.

End Py.

(* ================================================================== *)
(** * The statistics table and the statements read against it *)
(* ================================================================== *)

Module Sql.
Import Py.

(** A value bound to a placeholder of a statement. *)
Inductive param : Type :=
| PStr (s : str)
| PInt (z : Z)
| PTime (t : Z)
| PNull.

(** What [cursor.execute(text, params)] receives. *)
Record statement : Type := Statement {
  text : str;
  params : list param
}.

(** A row of [statistics] (columns of [create_table_statistics]). *)
Record statistics_row : Type := StatRow {
  st_id : Z;
  st_action_type : str;
  st_user_email : option str;
  st_file_id : option Z;
  st_ip_address : option str;
  st_user_agent : option str;
  st_additional_info : option str;
  st_timestamp : Z
}.

(** ** Conditions of a WHERE clause, as the store reads them *)

(** Truth values of SQL: a comparison with NULL is unknown, and WHERE
    keeps a row only when its condition is true. *)
Inductive tv : Type := TTrue | TFalse | TUnknown.

Definition tv_of_bool (b : bool) : tv := if b then TTrue else TFalse.

Definition tv_and (a b : tv) : tv :=
  match a, b with
  | TFalse, _ | _, TFalse => TFalse
  | TTrue, TTrue => TTrue
  | _, _ => TUnknown
  end.

Definition tv_is_true (a : tv) : bool :=
  match a with TTrue => true | _ => false end.

Inductive expr : Type :=
| Col (name : str)          (* column *)
| Lower (name : str).       (* LOWER(column) *)

Inductive atom : Type :=
| AEq (e : expr)                    (* e = %s *)
| AIsNull (e : expr)                (* e IS NULL *)
| AIsNotNull (e : expr)             (* e IS NOT NULL *)
| ANotLike (e : expr) (pat : str)   (* e NOT LIKE 'pat' *)
| AIn (e : expr) (n : nat).         (* e IN (%s,...,%s), n placeholders *)

(** [strip_prefix p s] is the rest of [s] after its prefix [p]. *)
Fixpoint strip_prefix (p s : str) {struct p} : option str :=
  match p, s with
  | [], _ => Some s
  | _ :: _, [] => None
  | y :: p', x :: s' => if (x =? y)%N then strip_prefix p' s' else None
  end.

Definition is_ident_char (c : N) : bool :=
  ((97 <=? c) && (c <=? 122) || (65 <=? c) && (c <=? 90) ||
   (48 <=? c) && (c <=? 57) || (c =? 95))%N.

(** The longest run of identifier characters at the head of [s], and
    what follows it. *)
Fixpoint take_ident (s : str) : str * str :=
  match s with
  | [] => ([], [])
  | c :: t =>
    if is_ident_char c
    then let (i, r) := take_ident t in (c :: i, r)
    else ([], s)
  end.

(** The characters up to the next single quote, and what follows the
    quote. *)
Fixpoint take_quoted (s : str) : option (str * str) :=
  match s with
  | [] => None
  | c :: t =>
    if (c =? 39)%N then Some ([], t)
    else match take_quoted t with
         | Some (q, r) => Some (c :: q, r)
         | None => None
         end
  end.

(** [%s,%s,...,%s)]: the number of placeholders and what follows the
    closing parenthesis. *)
Fixpoint parse_placeholders (s : str) : option (nat * str) :=
  match s with
  | a :: b :: c :: r =>
    if ((a =? 37) && (b =? 115))%N then
      if (c =? 41)%N then Some (1%nat, r)
      else if (c =? 44)%N then
        match parse_placeholders r with
        | Some (n, r') => Some (S n, r')
        | None => None
        end
      else None
    else None
  | _ => None
  end.

Definition kw_lower : str := Eval vm_compute in lit "LOWER(".
Definition kw_close : str := Eval vm_compute in lit ")".
Definition kw_eq : str := Eval vm_compute in lit " = %s".
Definition kw_is_null : str := Eval vm_compute in lit " IS NULL".
Definition kw_is_not_null : str := Eval vm_compute in lit " IS NOT NULL".
Definition kw_not_like : str := Eval vm_compute in lit " NOT LIKE '".
Definition kw_in : str := Eval vm_compute in lit " IN (".
Definition kw_and : str := Eval vm_compute in lit " AND ".
Definition kw_where : str := Eval vm_compute in lit " WHERE ".

Definition parse_expr (s : str) : option (expr * str) :=
  match strip_prefix kw_lower s with
  | Some r =>
    let (name, r') := take_ident r in
    match strip_prefix kw_close r' with
    | Some r'' => if nonempty name then Some (Lower name, r'') else None
    | None => None
    end
  | None =>
    let (name, r) := take_ident s in
    if nonempty name then Some (Col name, r) else None
  end.

Definition parse_pred (e : expr) (s : str) : option (atom * str) :=
  match strip_prefix kw_eq s with
  | Some r => Some (AEq e, r)
  | None =>
  match strip_prefix kw_is_null s with
  | Some r => Some (AIsNull e, r)
  | None =>
  match strip_prefix kw_is_not_null s with
  | Some r => Some (AIsNotNull e, r)
  | None =>
  match strip_prefix kw_not_like s with
  | Some r =>
    match take_quoted r with
    | Some (pat, r') => Some (ANotLike e pat, r')
    | None => None
    end
  | None =>
  match strip_prefix kw_in s with
  | Some r =>
    match parse_placeholders r with
    | Some (n, r') => Some (AIn e n, r')
    | None => None
    end
  | None => None
  end end end end end.

Definition parse_atom (s : str) : option (atom * str) :=
  match parse_expr s with
  | Some (e, r) => parse_pred e r
  | None => None
  end.

(** [atom AND atom AND ...]; every atom takes at least one character,
    so the length of the text is fuel enough. *)
Fixpoint parse_conj (fuel : nat) (s : str) : option (list atom * str) :=
  match fuel with
  | O => None
  | S fuel' =>
    match parse_atom s with
    | None => None
    | Some (a, r) =>
      match strip_prefix kw_and r with
      | Some r' =>
        match parse_conj fuel' r' with
        | Some (l, r'') => Some (a :: l, r'')
        | None => None
        end
      | None => Some ([a], r)
      end
    end
  end.

(** An optional WHERE clause at the head of [s]. *)
Definition parse_where (s : str) : option (list atom * str) :=
  match strip_prefix kw_where s with
  | Some r => parse_conj (List.length r) r
  | None => Some ([], s)
  end.

(** ** Evaluation of conditions on a row *)

(** LOWER of the store on the letters A-Z. *)
Definition lower_char (c : N) : N :=
  if ((65 <=? c) && (c <=? 90))%N then (c + 32)%N else c.

Definition lower (s : str) : str := map lower_char s.

(** [s LIKE pat]: [%] (37) stands for any run of characters, [_] (95)
    for one character. *)
Fixpoint like (pat : str) : str -> bool :=
  match pat with
  | [] => fun s => match s with [] => true | _ :: _ => false end
  | p :: pat' =>
    if (p =? 37)%N then
      fix star (s : str) : bool :=
        like pat' s || match s with [] => false | _ :: s' => star s' end
    else
      fun s =>
        match s with
        | [] => false
        | c :: s' => ((p =? 95) || (p =? c))%N && like pat' s'
        end
  end.

Definition c_action_type : str := Eval vm_compute in lit "action_type".
Definition c_user_email : str := Eval vm_compute in lit "user_email".
Definition c_user_agent : str := Eval vm_compute in lit "user_agent".
Definition c_additional_info : str := Eval vm_compute in lit "additional_info".

(** The text columns of [statistics]: [None] for a name that is not
    one, [Some None] for NULL. *)
Definition text_column (name : str) (r : statistics_row)
  : option (option str) :=
  if str_eqb name c_action_type then Some (Some (st_action_type r))
  else if str_eqb name c_user_email then Some (st_user_email r)
  else if str_eqb name c_user_agent then Some (st_user_agent r)
  else if str_eqb name c_additional_info then Some (st_additional_info r)
  else None.

Definition known_text_column (name : str) : bool :=
  str_eqb name c_action_type || str_eqb name c_user_email ||
  str_eqb name c_user_agent || str_eqb name c_additional_info.

Definition atom_known (a : atom) : bool :=
  match a with
  | AEq e | AIsNull e | AIsNotNull e | ANotLike e _ | AIn e _ =>
    match e with Col name | Lower name => known_text_column name end
  end.

Definition eval_expr (e : expr) (r : statistics_row) : option (option str) :=
  match e with
  | Col name => text_column name r
  | Lower name => option_map (option_map lower) (text_column name r)
  end.

(** The first [n] bound values, which must all be text or NULL, and the
    values after them. *)
Fixpoint take_text_params (n : nat) (ps : list param)
  : option (list (option str) * list param) :=
  match n with
  | O => Some ([], ps)
  | S n' =>
    match ps with
    | PStr s :: ps' =>
      match take_text_params n' ps' with
      | Some (l, r) => Some (Some s :: l, r)
      | None => None
      end
    | PNull :: ps' =>
      match take_text_params n' ps' with
      | Some (l, r) => Some (None :: l, r)
      | None => None
      end
    | _ => None
    end
  end.

(** [v = p] in SQL. *)
Definition sql_eq (v p : option str) : tv :=
  match v, p with
  | Some a, Some b => tv_of_bool (str_eqb a b)
  | _, _ => TUnknown
  end.

(** [v IN (p1, ..., pn)]: true when some [v = pi] is true, false when
    all are false, unknown otherwise. *)
Fixpoint sql_in (v : option str) (l : list (option str)) : tv :=
  match l with
  | [] => TFalse
  | p :: l' =>
    match sql_eq v p, sql_in v l' with
    | TTrue, _ | _, TTrue => TTrue
    | TFalse, TFalse => TFalse
    | _, _ => TUnknown
    end
  end.

(** One condition on one row: its truth value and the bound values left
    for the rest of the statement; [None] when the store rejects it
    (unknown column, missing or ill-typed value). *)
Definition eval_atom (a : atom) (ps : list param) (r : statistics_row)
  : option (tv * list param) :=
  match a with
  | AEq e =>
    match eval_expr e r, take_text_params 1 ps with
    | Some v, Some ([p], ps') => Some (sql_eq v p, ps')
    | _, _ => None
    end
  | AIsNull e =>
    match eval_expr e r with
    | Some v => Some (tv_of_bool (match v with None => true | Some _ => false end), ps)
    | None => None
    end
  | AIsNotNull e =>
    match eval_expr e r with
    | Some v => Some (tv_of_bool (match v with None => false | Some _ => true end), ps)
    | None => None
    end
  | ANotLike e pat =>
    match eval_expr e r with
    | Some (Some s) => Some (tv_of_bool (negb (like pat s)), ps)
    | Some None => Some (TUnknown, ps)
    | None => None
    end
  | AIn e n =>
    match eval_expr e r, take_text_params n ps with
    | Some v, Some (l, ps') => Some (sql_in v l, ps')
    | _, _ => None
    end
  end.

(** A conjunction of conditions on one row. *)
Fixpoint eval_conj (atoms : list atom) (ps : list param) (r : statistics_row)
  : option (tv * list param) :=
  match atoms with
  | [] => Some (TTrue, ps)
  | a :: rest =>
    match eval_atom a ps r with
    | Some (t, ps') =>
      match eval_conj rest ps' r with
      | Some (t', ps'') => Some (tv_and t t', ps'')
      | None => None
      end
    | None => None
    end
  end.

(** The bound values a conjunction leaves over; it does not depend on
    the row. *)
Fixpoint params_after (atoms : list atom) (ps : list param)
  : option (list param) :=
  match atoms with
  | [] => Some ps
  | a :: rest =>
    let n := match a with AEq _ => 1%nat | AIn _ n => n | _ => 0%nat end in
    match take_text_params n ps with
    | Some (_, ps') => params_after rest ps'
    | None => None
    end
  end.

(** The rows a conjunction keeps: those on which it is true. [None]
    when the store rejects the conjunction on some row. *)
Fixpoint keep_rows (atoms : list atom) (ps : list param)
  (rows : list statistics_row) : option (list statistics_row) :=
  match rows with
  | [] => Some []
  | r :: rows' =>
    match eval_conj atoms ps r, keep_rows atoms ps rows' with
    | Some (t, _), Some kept =>
      Some (if tv_is_true t then r :: kept else kept)
    | _, _ => None
    end
  end.

End Sql.

(* ================================================================== *)
(** * The store: catalogue, rows and the statements of the schema *)
(* ================================================================== *)

Module Store.
Import Py.
Export Sql.

(** Exceptions that reach the Python code. *)
Inductive exn : Type :=
| UndefinedTable (table : str)        (* relation does not exist *)
| UndefinedColumn (column : str)
| DuplicateColumn (column : str)
| DuplicateObject (name : str)        (* constraint already exists *)
| InvalidForeignKey                   (* no unique key on the referenced column *)
| ForeignKeyViolation (constraint : str)
| UniqueViolation (constraint : str)
| NumericValueOutOfRange
| StringDataRightTruncation
| SyntaxOrDataError                   (* the store rejects the statement *)
| OperationalError                    (* the store cannot be reached *)
| AttributeError                      (* a method called on None *)
| TypeError                           (* None subscripted *)
| OverflowError                       (* date value out of range *)
| IndexError                          (* a sequence indexed past its end *)
| ValueError.                         (* unsupported format character *)

(** ** Catalogue *)

Inductive on_delete : Type := NoAction | Cascade | SetNull.

(** The relations of the application. *)
Inductive relation : Type := Users | Images | Statistics.

Record foreign_key : Type := ForeignKey {
  fk_name : str;
  fk_column : str;
  fk_ref_table : relation;
  fk_ref_column : str;
  fk_on_delete : on_delete
}.

Record column : Type := Column {
  col_name : str;
  col_type : str;
  col_not_null : bool;
  col_default : option str
}.

Record table : Type := Table {
  t_columns : list column;
  t_primary_key : option str;
  t_foreign_keys : list foreign_key
}.

Definition on_delete_eqb (a b : on_delete) : bool :=
  match a, b with
  | NoAction, NoAction | Cascade, Cascade | SetNull, SetNull => true
  | _, _ => false
  end.

Definition relation_eqb (a b : relation) : bool :=
  match a, b with
  | Users, Users | Images, Images | Statistics, Statistics => true
  | _, _ => false
  end.

Definition foreign_key_eqb (a b : foreign_key) : bool :=
  str_eqb (fk_name a) (fk_name b) && str_eqb (fk_column a) (fk_column b) &&
  relation_eqb (fk_ref_table a) (fk_ref_table b) &&
  str_eqb (fk_ref_column a) (fk_ref_column b) &&
  on_delete_eqb (fk_on_delete a) (fk_on_delete b).

Definition column_eqb (a b : column) : bool :=
  str_eqb (col_name a) (col_name b) && str_eqb (col_type a) (col_type b) &&
  Bool.eqb (col_not_null a) (col_not_null b) &&
  opt_str_eqb (col_default a) (col_default b).

Fixpoint list_eqb {A : Type} (eqb : A -> A -> bool) (l1 l2 : list A) : bool :=
  match l1, l2 with
  | [], [] => true
  | x :: l1', y :: l2' => eqb x y && list_eqb eqb l1' l2'
  | _, _ => false
  end.

Definition table_eqb (a b : table) : bool :=
  list_eqb column_eqb (t_columns a) (t_columns b) &&
  opt_str_eqb (t_primary_key a) (t_primary_key b) &&
  list_eqb foreign_key_eqb (t_foreign_keys a) (t_foreign_keys b).

(** ** Rows *)

Record users_row : Type := UserRow {
  u_email : str;
  u_password_hash : str;
  u_created_at : Z
}.

Record images_row : Type := ImageRow {
  i_id : Z;
  i_filename : str;
  i_original_name : str;
  i_size : Z;
  i_upload_time : Z;
  i_file_type : str;
  i_user_email : option str;
  i_expiration_date : option Z
}.

(** The three relations the application uses; [None] for a relation
    that does not exist. A column a table lacks is NULL in its rows. *)
Record store : Type := Db {
  users_table : option table;
  users_rows : list users_row;
  images_table : option table;
  images_rows : list images_row;
  images_serial : Z;
  statistics_table : option table;
  statistics_rows : list statistics_row;
  statistics_serial : Z
}.

Definition relation_name (r : relation) : str :=
  match r with
  | Users => lit "users"
  | Images => lit "images"
  | Statistics => lit "statistics"
  end.

Definition c_email : str := Eval vm_compute in lit "email".
Definition c_id : str := Eval vm_compute in lit "id".
Definition c_expiration_date : str := Eval vm_compute in lit "expiration_date".
Definition c_file_id : str := Eval vm_compute in lit "file_id".

(** [information_schema.tables]: the definition of a relation of the
    public schema. *)
Definition lookup_table (r : relation) (s : store) : option table :=
  match r with
  | Users => users_table s
  | Images => images_table s
  | Statistics => statistics_table s
  end.

Definition set_table (r : relation) (t : option table) (s : store) : store :=
  match r with
  | Users =>
    Db t (users_rows s) (images_table s) (images_rows s) (images_serial s)
       (statistics_table s) (statistics_rows s) (statistics_serial s)
  | Images =>
    Db (users_table s) (users_rows s) t (images_rows s) (images_serial s)
       (statistics_table s) (statistics_rows s) (statistics_serial s)
  | Statistics =>
    Db (users_table s) (users_rows s) (images_table s) (images_rows s)
       (images_serial s) t (statistics_rows s) (statistics_serial s)
  end.

Definition set_users_rows (l : list users_row) (s : store) : store :=
  Db (users_table s) l (images_table s) (images_rows s) (images_serial s)
     (statistics_table s) (statistics_rows s) (statistics_serial s).

Definition set_images_rows (l : list images_row) (s : store) : store :=
  Db (users_table s) (users_rows s) (images_table s) l (images_serial s)
     (statistics_table s) (statistics_rows s) (statistics_serial s).

Definition set_statistics_rows (l : list statistics_row) (s : store) : store :=
  Db (users_table s) (users_rows s) (images_table s) (images_rows s)
     (images_serial s) (statistics_table s) l (statistics_serial s).

Definition has_column (name : str) (t : table) : bool :=
  existsb (fun c => str_eqb (col_name c) name) (t_columns t).

Definition has_constraint (name : str) (t : table) : bool :=
  existsb (fun k => str_eqb (fk_name k) name) (t_foreign_keys t).

(** [SELECT EXISTS (... information_schema.tables ...)]. *)
Definition table_exists (r : relation) (s : store) : bool :=
  match lookup_table r s with Some _ => true | None => false end.

(** [SELECT EXISTS (... information_schema.columns ...)]. *)
Definition column_exists (r : relation) (cname : str) (s : store) : bool :=
  match lookup_table r s with
  | Some t => has_column cname t
  | None => false
  end.

(** A foreign key can be declared when the referenced relation exists
    and the referenced column is its key. *)
Definition fk_target_ok (k : foreign_key) (s : store) : result exn unit :=
  match lookup_table (fk_ref_table k) s with
  | Some t =>
    if opt_str_eqb (t_primary_key t) (Some (fk_ref_column k))
    then Return tt else Raise InvalidForeignKey
  | None => Raise (UndefinedTable (relation_name (fk_ref_table k)))
  end.

Fixpoint fk_targets_ok (ks : list foreign_key) (s : store) : result exn unit :=
  match ks with
  | [] => Return tt
  | k :: ks' =>
    match fk_target_ok k s with
    | Return _ => fk_targets_ok ks' s
    | Raise e => Raise e
    end
  end.

Definition user_known (email : str) (s : store) : bool :=
  existsb (fun u => str_eqb (u_email u) email) (users_rows s).

Definition image_known (id : Z) (s : store) : bool :=
  existsb (fun i => (i_id i =? id)%Z) (images_rows s).

(** The rows of [r] respect the foreign key [k]: every value of its
    column is NULL or a key of the referenced relation. *)
Definition rows_respect (r : relation) (k : foreign_key) (s : store) : bool :=
  match r, fk_ref_table k with
  | Images, Users =>
    if str_eqb (fk_column k) c_user_email then
      forallb (fun i => match i_user_email i with
                        | Some e => user_known e s
                        | None => true
                        end) (images_rows s)
    else true
  | Statistics, Users =>
    if str_eqb (fk_column k) c_user_email then
      forallb (fun x => match st_user_email x with
                        | Some e => user_known e s
                        | None => true
                        end) (statistics_rows s)
    else true
  | Statistics, Images =>
    if str_eqb (fk_column k) c_file_id then
      forallb (fun x => match st_file_id x with
                        | Some i => image_known i s
                        | None => true
                        end) (statistics_rows s)
    else true
  | _, _ => true
  end.

(** ** Statements of the schema *)

(** [CREATE TABLE IF NOT EXISTS r (...)]: nothing happens when the
    relation exists; otherwise it is created empty, provided its foreign
    keys have their targets. *)
Definition create_table_if_not_exists (r : relation) (t : table) (s : store)
  : result exn store :=
  match lookup_table r s with
  | Some _ => Return s
  | None =>
    match fk_targets_ok (t_foreign_keys t) s with
    | Return _ => Return (set_table r (Some t) s)
    | Raise e => Raise e
    end
  end.

(** The rows of [r] after a column is added: the new column is NULL in
    each of them. *)
Definition null_column (r : relation) (cname : str) (s : store) : store :=
  match r with
  | Images =>
    if str_eqb cname c_user_email then
      set_images_rows
        (map (fun i => ImageRow (i_id i) (i_filename i) (i_original_name i)
                         (i_size i) (i_upload_time i) (i_file_type i)
                         None (i_expiration_date i)) (images_rows s)) s
    else if str_eqb cname c_expiration_date then
      set_images_rows
        (map (fun i => ImageRow (i_id i) (i_filename i) (i_original_name i)
                         (i_size i) (i_upload_time i) (i_file_type i)
                         (i_user_email i) None) (images_rows s)) s
    else s
  | _ => s
  end.

(** [ALTER TABLE r ADD COLUMN c]. *)
Definition alter_add_column (r : relation) (c : column) (s : store)
  : result exn store :=
  match lookup_table r s with
  | None => Raise (UndefinedTable (relation_name r))
  | Some t =>
    if has_column (col_name c) t then Raise (DuplicateColumn (col_name c))
    else
      Return (null_column r (col_name c)
                (set_table r (Some (Table (t_columns t ++ [c])
                                          (t_primary_key t)
                                          (t_foreign_keys t))) s))
  end.

(** [ALTER TABLE r ADD CONSTRAINT name FOREIGN KEY ...]. *)
Definition alter_add_constraint (r : relation) (k : foreign_key) (s : store)
  : result exn store :=
  match lookup_table r s with
  | None => Raise (UndefinedTable (relation_name r))
  | Some t =>
    if has_constraint (fk_name k) t then Raise (DuplicateObject (fk_name k))
    else if negb (has_column (fk_column k) t)
    then Raise (UndefinedColumn (fk_column k))
    else
      match fk_target_ok k s with
      | Raise e => Raise e
      | Return _ =>
        if rows_respect r k s then
          Return (set_table r (Some (Table (t_columns t)
                                           (t_primary_key t)
                                           (t_foreign_keys t ++ [k]))) s)
        else Raise (ForeignKeyViolation (fk_name k))
      end
  end.

(** ** Statements on rows *)

Definition c_password_hash : str := Eval vm_compute in lit "password_hash".
Definition c_created_at : str := Eval vm_compute in lit "created_at".
Definition k_users_pkey : str := Eval vm_compute in lit "users_pkey".

(** The first of [cols] that [t] lacks. *)
Fixpoint missing_column (cols : list str) (t : table) : option str :=
  match cols with
  | [] => None
  | c :: cols' => if has_column c t then missing_column cols' t else Some c
  end.

(** The foreign keys of [r] from column [col] to the key of [target]. *)
Definition fks_from (r : relation) (col : str) (target : relation) (s : store)
  : list foreign_key :=
  match lookup_table r s with
  | Some t =>
    filter (fun k => str_eqb (fk_column k) col &&
                     relation_eqb (fk_ref_table k) target) (t_foreign_keys t)
  | None => []
  end.

(** [INSERT INTO users (cols) VALUES (...)]. *)
Definition insert_user (cols : list str) (row : users_row) (s : store)
  : result exn store :=
  match users_table s with
  | None => Raise (UndefinedTable (relation_name Users))
  | Some t =>
    match missing_column cols t with
    | Some c => Raise (UndefinedColumn c)
    | None =>
      if opt_str_eqb (t_primary_key t) (Some c_email) &&
         user_known (u_email row) s
      then Raise (UniqueViolation k_users_pkey)
      else Return (set_users_rows (users_rows s ++ [row]) s)
    end
  end.

Definition in_int4 (z : Z) : bool :=
  ((-2147483648 <=? z) && (z <=? 2147483647))%Z.

(** The first foreign key of [ks] that the value [v] breaks. *)
Fixpoint broken_fk {A : Type} (known : A -> bool) (v : option A)
  (ks : list foreign_key) : option foreign_key :=
  match ks, v with
  | k :: ks', Some x => if known x then broken_fk known v ks' else Some k
  | _, _ => None
  end.

Definition images_insert_columns : list str :=
  Eval vm_compute in
  map lit ["filename"; "original_name"; "size"; "upload_time"; "file_type";
           "user_email"; "expiration_date"]%string.

(** [INSERT INTO images (filename, ..., expiration_date) VALUES (...)]:
    the identifier comes from the sequence of the table.
    [images_serial] is the value of the sequence as the INSERT finds it.
    The store does not give back the value a refused INSERT has taken,
    and that is not followed here: after a refused INSERT only the rows
    are those of the store, the sequence may be further on. *)
Definition insert_image (filename original_name : str) (size upload_time : Z)
  (file_type : str) (user_email : option str) (expiration_date : option Z)
  (s : store) : result exn store :=
  match images_table s with
  | None => Raise (UndefinedTable (relation_name Images))
  | Some t =>
    match missing_column images_insert_columns t with
    | Some c => Raise (UndefinedColumn c)
    | None =>
      if negb (in_int4 size) then Raise NumericValueOutOfRange
      else
        match broken_fk (fun e => user_known e s) user_email
                (fks_from Images c_user_email Users s) with
        | Some k => Raise (ForeignKeyViolation (fk_name k))
        | None =>
          let id := (images_serial s + 1)%Z in
          Return (Db (users_table s) (users_rows s) (images_table s)
                     (images_rows s ++
                      [ImageRow id filename original_name size upload_time
                                file_type user_email expiration_date])
                     id
                     (statistics_table s) (statistics_rows s)
                     (statistics_serial s))
        end
    end
  end.

Definition statistics_insert_columns : list str :=
  Eval vm_compute in
  map lit ["action_type"; "user_email"; "file_id"; "ip_address"; "user_agent";
           "additional_info"]%string.

Definition ty_varchar50 : str := Eval vm_compute in lit "VARCHAR(50)".
Definition ty_varchar255 : str := Eval vm_compute in lit "VARCHAR(255)".

(** A text value fits the declared type of its column. *)
Definition fits (cname : str) (v : option str) (t : table) : bool :=
  match v with
  | None => true
  | Some x =>
    forallb (fun c =>
      if str_eqb (col_name c) cname then
        if str_eqb (col_type c) ty_varchar50 then (List.length x <=? 50)%nat
        else if str_eqb (col_type c) ty_varchar255
        then (List.length x <=? 255)%nat
        else true
      else true) (t_columns t)
  end.

(** [INSERT INTO statistics (action_type, ..., additional_info)]: the
    timestamp column takes its default, the time of the statement.
    As for [images], the value a refused INSERT has taken from the
    sequence is not followed; and whether a text is an address the
    type INET accepts is not checked, so that what is proved of a call
    is proved of one that returned [True] or is about rows. *)
Definition insert_statistics (now : Z) (action_type : str)
  (user_email : option str) (file_id : option Z)
  (ip_address user_agent additional_info : option str) (s : store)
  : result exn store :=
  match statistics_table s with
  | None => Raise (UndefinedTable (relation_name Statistics))
  | Some t =>
    match missing_column statistics_insert_columns t with
    | Some c => Raise (UndefinedColumn c)
    | None =>
      if negb (fits c_action_type (Some action_type) t &&
               fits c_user_email user_email t)
      then Raise StringDataRightTruncation
      else
        match broken_fk (fun e => user_known e s) user_email
                (fks_from Statistics c_user_email Users s) with
        | Some k => Raise (ForeignKeyViolation (fk_name k))
        | None =>
          match broken_fk (fun i => image_known i s) file_id
                  (fks_from Statistics c_file_id Images s) with
          | Some k => Raise (ForeignKeyViolation (fk_name k))
          | None =>
            let id := (statistics_serial s + 1)%Z in
            Return (Db (users_table s) (users_rows s) (images_table s)
                       (images_rows s) (images_serial s)
                       (statistics_table s)
                       (statistics_rows s ++
                        [StatRow id action_type user_email file_id ip_address
                                 user_agent additional_info now])
                       id)
          end
        end
    end
  end.

(** ** Deletion and the referential actions *)

Definition st_refers_image (gone : Z -> bool) (x : statistics_row) : bool :=
  match st_file_id x with Some i => gone i | None => false end.

Definition st_refers_user (gone : str -> bool) (x : statistics_row) : bool :=
  match st_user_email x with Some e => gone e | None => false end.

Definition i_refers_user (gone : str -> bool) (i : images_row) : bool :=
  match i_user_email i with Some e => gone e | None => false end.

(** The rows of [statistics] after keys of [images] are deleted, one
    foreign key on [file_id] at a time. *)
Fixpoint settle_statistics_file_id (gone : Z -> bool) (ks : list foreign_key)
  (s : store) : result exn store :=
  match ks with
  | [] => Return s
  | k :: ks' =>
    match fk_on_delete k with
    | NoAction =>
      if existsb (st_refers_image gone) (statistics_rows s)
      then Raise (ForeignKeyViolation (fk_name k))
      else settle_statistics_file_id gone ks' s
    | SetNull =>
      settle_statistics_file_id gone ks'
        (set_statistics_rows
           (map (fun x =>
                   if st_refers_image gone x
                   then StatRow (st_id x) (st_action_type x) (st_user_email x)
                                None (st_ip_address x) (st_user_agent x)
                                (st_additional_info x) (st_timestamp x)
                   else x) (statistics_rows s)) s)
    | Cascade =>
      settle_statistics_file_id gone ks'
        (set_statistics_rows
           (filter (fun x => negb (st_refers_image gone x))
                   (statistics_rows s)) s)
    end
  end.

(** The rows of [statistics] after keys of [users] are deleted. *)
Fixpoint settle_statistics_user_email (gone : str -> bool)
  (ks : list foreign_key) (s : store) : result exn store :=
  match ks with
  | [] => Return s
  | k :: ks' =>
    match fk_on_delete k with
    | NoAction =>
      if existsb (st_refers_user gone) (statistics_rows s)
      then Raise (ForeignKeyViolation (fk_name k))
      else settle_statistics_user_email gone ks' s
    | SetNull =>
      settle_statistics_user_email gone ks'
        (set_statistics_rows
           (map (fun x =>
                   if st_refers_user gone x
                   then StatRow (st_id x) (st_action_type x) None
                                (st_file_id x) (st_ip_address x)
                                (st_user_agent x) (st_additional_info x)
                                (st_timestamp x)
                   else x) (statistics_rows s)) s)
    | Cascade =>
      settle_statistics_user_email gone ks'
        (set_statistics_rows
           (filter (fun x => negb (st_refers_user gone x))
                   (statistics_rows s)) s)
    end
  end.

(** [DELETE FROM images WHERE doomed]: the rows go, and [statistics]
    follows its foreign keys on [file_id]. *)
Definition delete_images_where (doomed : images_row -> bool) (s : store)
  : result exn store :=
  match images_table s with
  | None => Raise (UndefinedTable (relation_name Images))
  | Some _ =>
    let ids := map i_id (filter doomed (images_rows s)) in
    match settle_statistics_file_id (fun i => existsb (Z.eqb i) ids)
            (fks_from Statistics c_file_id Images s) s with
    | Raise e => Raise e
    | Return s' =>
      Return (set_images_rows
                (filter (fun i => negb (doomed i)) (images_rows s')) s')
    end
  end.

(** The rows of [images] after keys of [users] are deleted, one foreign
    key on [user_email] at a time. *)
Fixpoint settle_images_user_email (gone : str -> bool) (ks : list foreign_key)
  (s : store) : result exn store :=
  match ks with
  | [] => Return s
  | k :: ks' =>
    match fk_on_delete k with
    | NoAction =>
      if existsb (i_refers_user gone) (images_rows s)
      then Raise (ForeignKeyViolation (fk_name k))
      else settle_images_user_email gone ks' s
    | SetNull =>
      settle_images_user_email gone ks'
        (set_images_rows
           (map (fun i =>
                   if i_refers_user gone i
                   then ImageRow (i_id i) (i_filename i) (i_original_name i)
                                 (i_size i) (i_upload_time i) (i_file_type i)
                                 None (i_expiration_date i)
                   else i) (images_rows s)) s)
    | Cascade =>
      match delete_images_where (i_refers_user gone) s with
      | Raise e => Raise e
      | Return s' => settle_images_user_email gone ks' s'
      end
    end
  end.

(** [DELETE FROM users WHERE email = %s], as the store carries it out
    under the foreign keys that reference [users]. *)
Definition delete_user (email : str) (s : store) : result exn store :=
  match users_table s with
  | None => Raise (UndefinedTable (relation_name Users))
  | Some _ =>
    let gone := str_eqb email in
    match settle_images_user_email gone
            (fks_from Images c_user_email Users s) s with
    | Raise e => Raise e
    | Return s1 =>
      match settle_statistics_user_email gone
              (fks_from Statistics c_user_email Users s1) s1 with
      | Raise e => Raise e
      | Return s2 =>
        Return (set_users_rows
                  (filter (fun u => negb (str_eqb (u_email u) email))
                          (users_rows s2)) s2)
      end
    end
  end.

End Store.

(* ================================================================== *)
(** * db.py *)
(* ================================================================== *)

Module Db.
Import Py.
Export Store.

(** The variables of the process environment the module reads. *)
Record environ : Type := Environ {
  CREATE_ADMIN_USER : option str;
  ADMIN_EMAIL : option str;
  ADMIN_PASSWORD : option str;
  ADMIN_EMAILS : option str
}.

(** The world a call runs in. [reachable]: whether a connection can be
    opened. [fault]: an error with which the store answers every
    statement (a lost connection, a full disk, ...), for the failures
    that do not follow from the rows and the catalogue. [clock]:
    [datetime.now()]. [pending]: the state a rollback returns to, when a
    connection has statements not yet committed; at most one connection
    has such statements at a time. [sent]: every statement given to
    [cursor.execute], in order. *)
Record env : Type := Env {
  getenv : environ;
  reachable : bool;
  fault : option exn;
  clock : Z;
  db : store;
  pending : option store;
  sent : list statement
}.

(** A computation that reads and changes the world and may raise. *)
Definition M (A : Type) : Type := env -> result exn A * env.

Definition ret {A : Type} (a : A) : M A := fun w => (Return a, w).

Definition raise {A : Type} (e : exn) : M A := fun w => (Raise e, w).

Definition bind {A B : Type} (c : M A) (k : A -> M B) : M B :=
  fun w =>
    match c w with
    | (Return a, w') => k a w'
    | (Raise e, w') => (Raise e, w')
    end.

(** [try: c except Exception as e: h e]. *)
Definition try_except {A : Type} (c : M A) (h : exn -> M A) : M A :=
  fun w =>
    match c w with
    | (Return a, w') => (Return a, w')
    | (Raise e, w') => h e w'
    end.

Notation "x <- c ;; k" := (bind c (fun x => k))
  (at level 61, c at next level, right associativity).
Notation "c ;;; k" := (bind c (fun _ => k))
  (at level 61, right associativity).

Definition lift {A : Type} (r : result exn A) : M A :=
  match r with
  | Return a => ret a
  | Raise e => raise e
  end.

(** A connection; the store behind it is the [db] of the world. *)
Inductive connection : Type := Connection.

(** [connect_db()]: every error of [psycopg2.connect] is caught and
    turned into [None]. *)
Definition connect_db : M (option connection) :=
  fun w => (Return (if reachable w then Some Connection else None), w).

(** [conn.cursor()] where [conn] may be [None]. *)
Definition cursor (conn : option connection) : M unit :=
  match conn with
  | Some _ => ret tt
  | None => raise AttributeError
  end.

Definition with_sent (st : statement) (w : env) : env :=
  Env (getenv w) (reachable w) (fault w) (clock w) (db w) (pending w)
      (sent w ++ [st]).

(** [cur.execute(st)] followed by a fetch, for a statement that reads. *)
Definition fetch {A : Type} (st : statement) (sem : store -> result exn A)
  : M A :=
  fun w =>
    let w' := with_sent st w in
    match fault w with
    | Some e => (Raise e, w')
    | None => (sem (db w), w')
    end.

(** [cur.execute(st)] for a statement that writes: its effect stays
    pending until the connection commits. *)
Definition execute (st : statement) (sem : store -> result exn store)
  : M unit :=
  fun w =>
    let w' := with_sent st w in
    match fault w with
    | Some e => (Raise e, w')
    | None =>
      match sem (db w) with
      | Raise e => (Raise e, w')
      | Return s' =>
        (Return tt,
         Env (getenv w) (reachable w) (fault w) (clock w) s'
             (match pending w with Some p => Some p | None => Some (db w) end)
             (sent w'))
      end
    end.

(** [conn.commit()]. *)
Definition commit : M unit :=
  fun w =>
    (Return tt,
     Env (getenv w) (reachable w) (fault w) (clock w) (db w) None (sent w)).

(** [conn.rollback()]. *)
Definition rollback : M unit :=
  fun w =>
    (Return tt,
     Env (getenv w) (reachable w) (fault w) (clock w)
         (match pending w with Some p => p | None => db w end) None (sent w)).

(** [datetime.now()]. *)
Definition now : M Z := fun w => (Return (clock w), w).

(** ** The statements of the source, character for character *)

(** db.py, create_table_images. *)
Definition sql_create_table_images : str :=
  Eval vm_compute in lit "
        CREATE TABLE IF NOT EXISTS images (
        id SERIAL PRIMARY KEY,                    -- Уникальный ID (автоинкремент)
        filename TEXT NOT NULL,                   -- Имя файла на сервере
        original_name TEXT NOT NULL,              -- Оригинальное имя файла
        size INTEGER NOT NULL,                    -- Размер файла в байтах
        upload_time TIMESTAMP DEFAULT CURRENT_TIMESTAMP,  -- Время загрузки
        file_type TEXT NOT NULL,                  -- Тип файла (расширение)
        user_email TEXT,                          -- Email владельца
        expiration_date TIMESTAMP,                -- Дата истечения срока
        FOREIGN KEY (user_email) REFERENCES users(email) ON DELETE CASCADE
    );".

(** db.py, create_table_users. *)
Definition sql_create_table_users : str :=
  Eval vm_compute in lit "
        CREATE TABLE IF NOT EXISTS users (
        email TEXT PRIMARY KEY,                   -- Email (уникальный идентификатор)
        password_hash TEXT NOT NULL,              -- Хеш пароля (SHA-256)
        created_at TIMESTAMP DEFAULT CURRENT_TIMESTAMP  -- Дата регистрации
    );".

(** db.py, create_table_statistics. *)
Definition sql_create_table_statistics : str :=
  Eval vm_compute in lit "
        CREATE TABLE IF NOT EXISTS statistics (
            id SERIAL PRIMARY KEY,
            action_type VARCHAR(50) NOT NULL,
            user_email VARCHAR(255),
            file_id INTEGER,
            ip_address INET,
            user_agent TEXT,
            additional_info TEXT,
            timestamp TIMESTAMP DEFAULT CURRENT_TIMESTAMP
        )
        ".

(** db.py, save_image. *)
Definition sql_save_image : str :=
  Eval vm_compute in lit "
        INSERT INTO images (filename, original_name, size, upload_time, file_type, user_email, expiration_date)
            VALUES (%s, %s, %s, %s, %s, %s, %s)
    ".

(** db.py, get_total_images. *)
Definition sql_count_images : str :=
  Eval vm_compute in lit "SELECT COUNT(*) FROM images".

(** db.py, get_image_by_id. *)
Definition sql_image_by_id : str :=
  Eval vm_compute in lit "SELECT * FROM images WHERE id = %s".

(** db.py, delete_image. *)
Definition sql_delete_image : str :=
  Eval vm_compute in lit "DELETE FROM images WHERE id = %s".

(** db.py, register_user and ensure_admin_user; admin_db.py, log_statistics. *)
Definition sql_user_by_email : str :=
  Eval vm_compute in lit "SELECT email FROM users WHERE email = %s".

(** db.py, authenticate_user. *)
Definition sql_user_credentials : str :=
  Eval vm_compute in lit "SELECT email, password_hash FROM users WHERE email = %s".

(** db.py, register_user. *)
Definition sql_insert_user : str :=
  Eval vm_compute in lit "INSERT INTO users (email, password_hash) VALUES (%s, %s)".

(** db.py, get_user_images. *)
Definition sql_user_images : str :=
  Eval vm_compute in lit "SELECT * FROM images WHERE user_email = %s ORDER BY upload_time DESC LIMIT %s OFFSET %s".

(** db.py, get_total_user_images. *)
Definition sql_count_user_images : str :=
  Eval vm_compute in lit "SELECT COUNT(*) FROM images WHERE user_email = %s".

(** db.py, get_expired_images. *)
Definition sql_expired_images : str :=
  Eval vm_compute in lit "SELECT * FROM images WHERE expiration_date IS NOT NULL AND expiration_date < %s".

(** db.py, ensure_schema. *)
Definition sql_users_exists : str :=
  Eval vm_compute in lit "
            SELECT EXISTS (
                SELECT FROM information_schema.tables 
                WHERE table_schema = 'public' 
                AND table_name = 'users'
            );
        ".

(** db.py, ensure_schema. *)
Definition sql_images_exists : str :=
  Eval vm_compute in lit "
            SELECT EXISTS (
                SELECT FROM information_schema.tables 
                WHERE table_schema = 'public' 
                AND table_name = 'images'
            );
        ".

(** db.py, ensure_schema. *)
Definition sql_user_email_exists : str :=
  Eval vm_compute in lit "
                SELECT EXISTS (
                    SELECT FROM information_schema.columns 
                    WHERE table_schema = 'public' 
                    AND table_name = 'images' 
                    AND column_name = 'user_email'
                );
            ".

(** db.py, ensure_schema. *)
Definition sql_add_user_email : str :=
  Eval vm_compute in lit "ALTER TABLE images ADD COLUMN user_email TEXT".

(** db.py, ensure_schema. *)
Definition sql_add_fk_user_email : str :=
  Eval vm_compute in lit "
                    ALTER TABLE images 
                    ADD CONSTRAINT fk_images_user_email 
                    FOREIGN KEY (user_email) REFERENCES users(email) ON DELETE SET NULL
                ".

(** db.py, ensure_schema. *)
Definition sql_expiration_date_exists : str :=
  Eval vm_compute in lit "
                SELECT EXISTS (
                    SELECT FROM information_schema.columns 
                    WHERE table_schema = 'public' 
                    AND table_name = 'images' 
                    AND column_name = 'expiration_date'
                );
            ".

(** db.py, ensure_schema. *)
Definition sql_add_expiration_date : str :=
  Eval vm_compute in lit "ALTER TABLE images ADD COLUMN expiration_date TIMESTAMP".

(** db.py, ensure_schema. *)
Definition sql_statistics_exists : str :=
  Eval vm_compute in lit "
            SELECT EXISTS (
                SELECT FROM information_schema.tables 
                WHERE table_schema = 'public' 
                AND table_name = 'statistics'
            );
        ".

(** db.py, ensure_admin_user. *)
Definition sql_insert_admin : str :=
  Eval vm_compute in lit "INSERT INTO users (email, password_hash, created_at) VALUES (%s, %s, NOW())".

(** admin_db.py, get_statistics_with_filters. *)
Definition sql_statistics_list : str :=
  Eval vm_compute in lit "SELECT action_type, user_email, ip_address, timestamp, additional_info FROM statistics".

(** admin_db.py, get_statistics_count. *)
Definition sql_statistics_count : str :=
  Eval vm_compute in lit "SELECT COUNT(*) FROM statistics".

(** admin_db.py, get_statistics_with_filters. *)
Definition sql_page_tail : str :=
  Eval vm_compute in lit " ORDER BY timestamp DESC LIMIT %s OFFSET %s".

(** admin_db.py, log_statistics. *)
Definition sql_log_statistics : str :=
  Eval vm_compute in lit "
        INSERT INTO statistics (action_type, user_email, file_id, ip_address, user_agent, additional_info)
        VALUES (%s, %s, %s, %s, %s, %s)
        ".

(** init_db.py, create_table_users. *)
Definition sql_init_users : str :=
  Eval vm_compute in lit "
        CREATE TABLE IF NOT EXISTS users (
        email TEXT PRIMARY KEY,
        password_hash TEXT NOT NULL,
        created_at TIMESTAMP DEFAULT CURRENT_TIMESTAMP
    );".

(** init_db.py, create_table_images. *)
Definition sql_init_images : str :=
  Eval vm_compute in lit "
        CREATE TABLE IF NOT EXISTS images (
        id SERIAL PRIMARY KEY,
        filename TEXT NOT NULL,
        original_name TEXT NOT NULL,
        size INTEGER NOT NULL,
        upload_time TIMESTAMP DEFAULT CURRENT_TIMESTAMP,
        file_type TEXT NOT NULL,
        user_email TEXT,
        expiration_date TIMESTAMP,
        FOREIGN KEY (user_email) REFERENCES users(email) ON DELETE CASCADE
    );".

(** init_db.py, create_table_statistics. *)
Definition sql_init_statistics : str :=
  Eval vm_compute in lit "
        CREATE TABLE IF NOT EXISTS statistics (
        id SERIAL PRIMARY KEY,
        action_type TEXT NOT NULL,
        user_email TEXT,
        file_id INTEGER,
        ip_address TEXT,
        user_agent TEXT,
        timestamp TIMESTAMP DEFAULT CURRENT_TIMESTAMP,
        additional_info TEXT,
        FOREIGN KEY (user_email) REFERENCES users(email) ON DELETE SET NULL,
        FOREIGN KEY (file_id) REFERENCES images(id) ON DELETE SET NULL
    );".

(** ** The relations the CREATE statements declare *)

Definition ty_text : str := Eval vm_compute in lit "TEXT".
Definition ty_serial : str := Eval vm_compute in lit "SERIAL".
Definition ty_integer : str := Eval vm_compute in lit "INTEGER".
Definition ty_timestamp : str := Eval vm_compute in lit "TIMESTAMP".
Definition ty_inet : str := Eval vm_compute in lit "INET".
Definition current_timestamp : str := Eval vm_compute in lit "CURRENT_TIMESTAMP".

(** [sql_create_table_users] (and [sql_init_users]). *)
Definition ddl_users : table :=
  Eval vm_compute in
  Table [Column (lit "email") ty_text true None;
         Column (lit "password_hash") ty_text true None;
         Column (lit "created_at") ty_timestamp false (Some current_timestamp)]
        (Some (lit "email")) [].

(** [sql_create_table_images] (and [sql_init_images]); the store names
    the foreign key after the table and the column. *)
Definition ddl_images : table :=
  Eval vm_compute in
  Table [Column (lit "id") ty_serial true None;
         Column (lit "filename") ty_text true None;
         Column (lit "original_name") ty_text true None;
         Column (lit "size") ty_integer true None;
         Column (lit "upload_time") ty_timestamp false (Some current_timestamp);
         Column (lit "file_type") ty_text true None;
         Column (lit "user_email") ty_text false None;
         Column (lit "expiration_date") ty_timestamp false None]
        (Some (lit "id"))
        [ForeignKey (lit "images_user_email_fkey") (lit "user_email")
                    Users (lit "email") Cascade].

(** [sql_create_table_statistics]. *)
Definition ddl_statistics : table :=
  Eval vm_compute in
  Table [Column (lit "id") ty_serial true None;
         Column (lit "action_type") ty_varchar50 true None;
         Column (lit "user_email") ty_varchar255 false None;
         Column (lit "file_id") ty_integer false None;
         Column (lit "ip_address") ty_inet false None;
         Column (lit "user_agent") ty_text false None;
         Column (lit "additional_info") ty_text false None;
         Column (lit "timestamp") ty_timestamp false (Some current_timestamp)]
        (Some (lit "id")) [].

(** [sql_init_statistics], the relation [init_db.py] declares. *)
Definition ddl_init_statistics : table :=
  Eval vm_compute in
  Table [Column (lit "id") ty_serial true None;
         Column (lit "action_type") ty_text true None;
         Column (lit "user_email") ty_text false None;
         Column (lit "file_id") ty_integer false None;
         Column (lit "ip_address") ty_text false None;
         Column (lit "user_agent") ty_text false None;
         Column (lit "timestamp") ty_timestamp false (Some current_timestamp);
         Column (lit "additional_info") ty_text false None]
        (Some (lit "id"))
        [ForeignKey (lit "statistics_user_email_fkey") (lit "user_email")
                    Users (lit "email") SetNull;
         ForeignKey (lit "statistics_file_id_fkey") (lit "file_id")
                    Images (lit "id") SetNull].

(** The column and the constraint of the ALTER statements. *)
Definition col_user_email : column :=
  Eval vm_compute in Column (lit "user_email") ty_text false None.

Definition col_expiration_date : column :=
  Eval vm_compute in Column (lit "expiration_date") ty_timestamp false None.

Definition fk_images_user_email : foreign_key :=
  Eval vm_compute in
  ForeignKey (lit "fk_images_user_email") (lit "user_email")
             Users (lit "email") SetNull.

(** ** What the store answers to the reading statements *)

Definition images_of (s : store) : result exn (list images_row) :=
  match images_table s with
  | None => Raise (UndefinedTable (relation_name Images))
  | Some _ => Return (images_rows s)
  end.

(** [a <= b] on strings, code point by code point. *)
Fixpoint str_leb (a b : str) : bool :=
  match a, b with
  | [], _ => true
  | _ :: _, [] => false
  | x :: a', y :: b' => (x <? y)%N || ((x =? y)%N && str_leb a' b')
  end.

(** [l] in descending order of [leb]. The store leaves open how it
    orders rows that compare equal, and may order them differently from
    one statement to the next; here they stay in the order of [l].
    What is proved about pages is proved for rows that all differ in
    the sort key, where descending order is one order only, or does not
    depend on the order of equal rows. *)
Fixpoint insert_desc {A : Type} (leb : A -> A -> bool) (x : A) (l : list A)
  : list A :=
  match l with
  | [] => [x]
  | y :: l' => if leb x y then y :: insert_desc leb x l' else x :: l
  end.

Definition sort_desc {A : Type} (leb : A -> A -> bool) (l : list A) : list A :=
  fold_right (insert_desc leb) [] l.

(** [... LIMIT limit OFFSET offset]: the store refuses negative values. *)
Definition limit_offset {A : Type} (limit offset : Z) (l : list A)
  : result exn (list A) :=
  if ((limit <? 0) || (offset <? 0))%Z then Raise SyntaxOrDataError
  else Return (firstn (Z.to_nat limit) (skipn (Z.to_nat offset) l)).

Definition c_filename : str := Eval vm_compute in lit "filename".
Definition c_size : str := Eval vm_compute in lit "size".
Definition c_upload_time : str := Eval vm_compute in lit "upload_time".

(** [SELECT * FROM images ORDER BY column DESC LIMIT l OFFSET o]. *)
Definition select_images_ordered (column : str) (limit offset : Z) (s : store)
  : result exn (list images_row) :=
  match images_table s with
  | None => Raise (UndefinedTable (relation_name Images))
  | Some t =>
    if negb (has_column column t) then Raise (UndefinedColumn column)
    else
      let leb :=
        if str_eqb column c_id then fun a b => (i_id a <=? i_id b)%Z
        else if str_eqb column c_filename
        then fun a b => str_leb (i_filename a) (i_filename b)
        else if str_eqb column c_size then fun a b => (i_size a <=? i_size b)%Z
        else fun a b => (i_upload_time a <=? i_upload_time b)%Z in
      limit_offset limit offset (sort_desc leb (images_rows s))
  end.

(** [SELECT * FROM images WHERE user_email = %s ORDER BY upload_time DESC
    LIMIT %s OFFSET %s]. *)
Definition select_user_images (email : str) (limit offset : Z) (s : store)
  : result exn (list images_row) :=
  match images_table s with
  | None => Raise (UndefinedTable (relation_name Images))
  | Some t =>
    if negb (has_column c_user_email t) then Raise (UndefinedColumn c_user_email)
    else
      limit_offset limit offset
        (sort_desc (fun a b => (i_upload_time a <=? i_upload_time b)%Z)
           (filter (fun i => opt_str_eqb (i_user_email i) (Some email))
                   (images_rows s)))
  end.

(** [SELECT * FROM images WHERE expiration_date IS NOT NULL AND
    expiration_date < %s]. *)
Definition select_expired_images (t0 : Z) (s : store)
  : result exn (list images_row) :=
  match images_table s with
  | None => Raise (UndefinedTable (relation_name Images))
  | Some t =>
    if negb (has_column c_expiration_date t)
    then Raise (UndefinedColumn c_expiration_date)
    else
      Return (filter (fun i => match i_expiration_date i with
                               | Some x => (x <? t0)%Z
                               | None => false
                               end) (images_rows s))
  end.

(** [SELECT email FROM users WHERE email = %s], then [fetchone()]. *)
Definition select_user (email : str) (s : store)
  : result exn (option users_row) :=
  match users_table s with
  | None => Raise (UndefinedTable (relation_name Users))
  | Some _ => Return (find (fun u => str_eqb (u_email u) email) (users_rows s))
  end.

(** ** Dates *)

Definition microseconds_per_day : Z := 86400000000.

(** One past [datetime.max], the last microsecond of the year 9999. *)
Definition datetime_end : Z := 3652059 * microseconds_per_day.

(** [timedelta(days=d)]. *)
Definition timedelta_days (d : Z) : result exn Z :=
  if (Z.abs d <=? 999999999)%Z then Return (d * microseconds_per_day)%Z
  else Raise OverflowError.

(** [t + delta] on a [datetime]. *)
Definition datetime_add (t delta : Z) : result exn Z :=
  let r := (t + delta)%Z in
  if ((0 <=? r) && (r <? datetime_end))%Z then Return r else Raise OverflowError.

(** ** Tables *)

Definition create_table_images : M bool :=
  conn <- connect_db ;;
  match conn with
  | None => ret false
  | Some _ =>
    cursor conn ;;;
    execute (Statement sql_create_table_images [])
            (create_table_if_not_exists Images ddl_images) ;;;
    commit ;;;
    ret true
  end.

Definition create_table_users : M bool :=
  conn <- connect_db ;;
  match conn with
  | None => ret false
  | Some _ =>
    cursor conn ;;;
    execute (Statement sql_create_table_users [])
            (create_table_if_not_exists Users ddl_users) ;;;
    commit ;;;
    ret true
  end.

Definition create_table_statistics : M bool :=
  try_except
    (conn <- connect_db ;;
     cursor conn ;;;
     execute (Statement sql_create_table_statistics [])
             (create_table_if_not_exists Statistics ddl_statistics) ;;;
     commit ;;;
     ret true)
    (fun _ => ret false).

(** ** Images *)

Definition opt_param (o : option str) : param :=
  match o with Some x => PStr x | None => PNull end.

Definition opt_time_param (o : option Z) : param :=
  match o with Some t => PTime t | None => PNull end.

Definition save_image (filename original_name : str) (size upload_time : Z)
  (file_type : str) (user_email : option str) (storage_days : Z) : M bool :=
  conn <- connect_db ;;
  match conn with
  | None => ret false
  | Some _ =>
    cursor conn ;;;
    expiration_date <-
      (if truthy user_email then
         t <- now ;;
         delta <- lift (timedelta_days storage_days) ;;
         e <- lift (datetime_add t delta) ;;
         ret (Some e)
       else ret None) ;;
    execute (Statement sql_save_image
               [PStr filename; PStr original_name; PInt size; PTime upload_time;
                PStr file_type; opt_param user_email;
                opt_time_param expiration_date])
            (insert_image filename original_name size upload_time file_type
                          user_email expiration_date) ;;;
    commit ;;;
    ret true
  end.

Definition allowed_columns : list str :=
  Eval vm_compute in map lit ["id"; "filename"; "size"; "upload_time"]%string.

Definition images_order_by : str :=
  Eval vm_compute in lit "SELECT * FROM images ORDER BY ".
Definition desc_limit : str := Eval vm_compute in lit " DESC LIMIT ".
Definition kw_offset : str := Eval vm_compute in lit " OFFSET ".

(** [f"SELECT * FROM images ORDER BY {sort_by} DESC LIMIT {per_page}
    OFFSET {offset}"], after the check of [sort_by]. *)
Definition get_images_list_query (page per_page : Z) (sort_by : str) : str :=
  let sort_by := if str_in sort_by allowed_columns then sort_by
                 else c_upload_time in
  let offset := ((page - 1) * per_page)%Z in
  images_order_by ++ sort_by ++ desc_limit ++
  str_of_int per_page ++ kw_offset ++ str_of_int offset.

Definition get_images_list (page per_page : Z) (sort_by : str)
  : M (list images_row) :=
  conn <- connect_db ;;
  match conn with
  | None => ret []
  | Some _ =>
    cursor conn ;;;
    let sort_by' := if str_in sort_by allowed_columns then sort_by
                    else c_upload_time in
    let offset := ((page - 1) * per_page)%Z in
    result <- fetch (Statement (get_images_list_query page per_page sort_by) [])
                    (select_images_ordered sort_by' per_page offset) ;;
    ret result
  end.

Definition get_total_images : M Z :=
  conn <- connect_db ;;
  match conn with
  | None => ret 0%Z
  | Some _ =>
    cursor conn ;;;
    result <- fetch (Statement sql_count_images [])
                    (fun s => match images_of s with
                              | Return l => Return (Z.of_nat (List.length l))
                              | Raise e => Raise e
                              end) ;;
    ret result
  end.

Definition get_image_by_id (image_id : Z) : M (option images_row) :=
  conn <- connect_db ;;
  match conn with
  | None => ret None
  | Some _ =>
    cursor conn ;;;
    result <- fetch (Statement sql_image_by_id [PInt image_id])
                    (fun s => match images_of s with
                              | Return l =>
                                Return (find (fun i => (i_id i =? image_id)%Z) l)
                              | Raise e => Raise e
                              end) ;;
    ret result
  end.

Definition delete_image (image_id : Z) : M bool :=
  conn <- connect_db ;;
  match conn with
  | None => ret false
  | Some _ =>
    cursor conn ;;;
    execute (Statement sql_delete_image [PInt image_id])
            (delete_images_where (fun i => (i_id i =? image_id)%Z)) ;;;
    commit ;;;
    ret true
  end.

Definition get_user_images (email : str) (page per_page : Z)
  : M (list images_row) :=
  conn <- connect_db ;;
  match conn with
  | None => ret []
  | Some _ =>
    cursor conn ;;;
    let offset := ((page - 1) * per_page)%Z in
    result <- fetch (Statement sql_user_images
                       [PStr email; PInt per_page; PInt offset])
                    (select_user_images email per_page offset) ;;
    ret result
  end.

Definition get_expired_images : M (list images_row) :=
  conn <- connect_db ;;
  match conn with
  | None => ret []
  | Some _ =>
    cursor conn ;;;
    t <- now ;;
    result <- fetch (Statement sql_expired_images [PTime t])
                    (select_expired_images t) ;;
    ret result
  end.

(** ** Users *)

Definition getenv_default (v : option str) (default : str) : str :=
  match v with Some x => x | None => default end.

Definition admin_example : str := Eval vm_compute in lit "admin@example.com".

Definition msg_admin_password_unset : str :=
  Eval vm_compute in
  lit "Ошибка конфигурации: пароль администратора не установлен.".
Definition msg_admin_mismatch : str :=
  Eval vm_compute in
  lit "Неверный логин или пароль для регистрации администратора. Логин или пароль должен быть правильным!!!.".
Definition msg_no_connection : str :=
  Eval vm_compute in lit "Ошибка подключения к базе данных".
Definition msg_already_exists : str :=
  Eval vm_compute in lit "Пользователь с таким email уже существует".
Definition msg_registered : str :=
  Eval vm_compute in lit "Регистрация прошла успешно".
Definition msg_registration_error : str :=
  Eval vm_compute in lit "Ошибка при регистрации: ".

(** [str(e)]: a text for the condition; the wording of the store is not
    modelled. *)
Definition str_of_exn (e : exn) : str :=
  match e with
  | UndefinedTable t => lit "relation does not exist: " ++ t
  | UndefinedColumn c => lit "column does not exist: " ++ c
  | DuplicateColumn c => lit "column already exists: " ++ c
  | DuplicateObject n => lit "constraint already exists: " ++ n
  | InvalidForeignKey => lit "there is no unique constraint matching given keys"
  | ForeignKeyViolation k => lit "violates foreign key constraint " ++ k
  | UniqueViolation k => lit "duplicate key value violates unique constraint " ++ k
  | NumericValueOutOfRange => lit "integer out of range"
  | StringDataRightTruncation => lit "value too long"
  | SyntaxOrDataError => lit "statement rejected"
  | OperationalError => lit "server closed the connection unexpectedly"
  | AttributeError => lit "'NoneType' object has no attribute 'cursor'"
  | TypeError => lit "'NoneType' object is not subscriptable"
  | OverflowError => lit "date value out of range"
  | IndexError => lit "list index out of range"
  | ValueError => lit "unsupported format character"
  end.

(** The administrator addresses of [register_user]: the entries of
    ADMIN_EMAILS, stripped, the empty ones dropped, and ADMIN_EMAIL. *)
Definition admin_emails_of (cfg : environ) : list str :=
  let admin_email := getenv_default (ADMIN_EMAIL cfg) admin_example in
  let admin_emails_str := getenv_default (ADMIN_EMAILS cfg) admin_example in
  let admin_emails :=
    filter nonempty (map strip (split 44 admin_emails_str)) in
  if negb (str_in admin_email admin_emails)
  then admin_emails ++ [admin_email] else admin_emails.

Section Hashing.

(** [hashlib.sha256(p.encode()).hexdigest()]. *)
Variable sha256_hexdigest : str -> str.

Definition register_user (email password : str) : M (bool * str) :=
  fun w =>
  let admin_emails := admin_emails_of (getenv w) in
  let refused :=
    if str_in email admin_emails then
      let admin_password := ADMIN_PASSWORD (getenv w) in
      if negb (truthy admin_password) then Some msg_admin_password_unset
      else if negb (opt_str_eqb (Some password) admin_password)
      then Some msg_admin_mismatch
      else None
    else None in
  match refused with
  | Some msg => (Return (false, msg), w)
  | None =>
    (conn <- connect_db ;;
     match conn with
     | None => ret (false, msg_no_connection)
     | Some _ =>
       cursor conn ;;;
       found <- fetch (Statement sql_user_by_email [PStr email])
                      (select_user email) ;;
       match found with
       | Some _ => ret (false, msg_already_exists)
       | None =>
         let password_hash := sha256_hexdigest password in
         try_except
           (t <- now ;;
            execute (Statement sql_insert_user [PStr email; PStr password_hash])
                    (insert_user [c_email; c_password_hash]
                                 (UserRow email password_hash t)) ;;;
            commit ;;;
            ret (true, msg_registered))
           (fun e =>
              rollback ;;;
              ret (false, msg_registration_error ++ str_of_exn e))
       end
     end) w
  end.

Definition kw_true : str := Eval vm_compute in lit "true".
Definition kw_false : str := Eval vm_compute in lit "false".

(** [ensure_admin_user()]. The flag is compared after [lower()]; only
    the letters A-Z can lower to the letters of ['true']. *)
Definition ensure_admin_user : M bool :=
  fun w =>
  let create_admin :=
    str_eqb (lower (getenv_default (CREATE_ADMIN_USER (getenv w)) kw_false))
            kw_true in
  if negb create_admin then (Return true, w)
  else
    match ADMIN_EMAIL (getenv w), ADMIN_PASSWORD (getenv w) with
    | Some admin_email, Some admin_password =>
      if negb (nonempty admin_email) || negb (nonempty admin_password)
      then (Return false, w)
      else
        try_except
          (conn <- connect_db ;;
           match conn with
           | None => ret false
           | Some _ =>
             cursor conn ;;;
             existing_admin <- fetch (Statement sql_user_by_email
                                                [PStr admin_email])
                                     (select_user admin_email) ;;
             match existing_admin with
             | None =>
               let password_hash := sha256_hexdigest admin_password in
               t <- now ;;
               execute (Statement sql_insert_admin
                                  [PStr admin_email; PStr password_hash])
                       (insert_user [c_email; c_password_hash; c_created_at]
                                    (UserRow admin_email password_hash t)) ;;;
               commit ;;;
               ret true
             | Some _ => ret true
             end
           end)
          (fun _ => ret false) w
    | _, _ => (Return false, w)
    end.

(** ** The schema reconciler *)

Definition exists_query (text : str) (answer : store -> bool) : M bool :=
  fetch (Statement text []) (fun s => Return (answer s)).

Definition ensure_schema : M bool :=
  conn <- connect_db ;;
  match conn with
  | None => ret false
  | Some _ =>
    cursor conn ;;;
    try_except
      (users <- exists_query sql_users_exists (table_exists Users) ;;
       (if negb users then create_table_users ;;; ret tt else ret tt) ;;;
       images <- exists_query sql_images_exists (table_exists Images) ;;
       (if negb images then create_table_images ;;; ret tt
        else
          user_email <- exists_query sql_user_email_exists
                                     (column_exists Images c_user_email) ;;
          (if negb user_email then
             execute (Statement sql_add_user_email [])
                     (alter_add_column Images col_user_email) ;;;
             execute (Statement sql_add_fk_user_email [])
                     (alter_add_constraint Images fk_images_user_email) ;;;
             commit
           else ret tt) ;;;
          expiration_date <- exists_query sql_expiration_date_exists
                               (column_exists Images c_expiration_date) ;;
          (if negb expiration_date then
             execute (Statement sql_add_expiration_date [])
                     (alter_add_column Images col_expiration_date) ;;;
             commit
           else ret tt)) ;;;
       statistics <- exists_query sql_statistics_exists
                                  (table_exists Statistics) ;;
       (if negb statistics then create_table_statistics ;;; ret tt
        else ret tt) ;;;
       ensure_admin_user ;;;
       ret true)
      (fun _ => rollback ;;; ret false)
  end.

End Hashing.

(** [init_db.py], [main()]: the three relations created in order, the
    run stopping at the first that cannot be created. *)
Definition init_create (text : str) (r : relation) (t : table) : M bool :=
  conn <- connect_db ;;
  match conn with
  | None => ret false
  | Some _ =>
    cursor conn ;;;
    execute (Statement text []) (create_table_if_not_exists r t) ;;;
    commit ;;;
    ret true
  end.

Definition init_db_main : M bool :=
  users <- init_create sql_init_users Users ddl_users ;;
  if negb users then ret false
  else
    images <- init_create sql_init_images Images ddl_images ;;
    if negb images then ret false
    else init_create sql_init_statistics Statistics ddl_init_statistics.

(** ** Evaluation of the monad in proofs *)

Ltac run_monad :=
  cbv beta iota zeta
      delta [bind ret raise lift connect_db cursor fetch execute commit
             rollback now try_except with_sent exists_query
             fst snd reachable fault sent db pending clock getenv].

End Db.

(* ================================================================== *)
(** * admin_db.py *)
(* ================================================================== *)

Module AdminDb.
Import Py.
Export Db.

Definition GUEST : str := Eval vm_compute in lit "Гость".
Definition ACTIVE_USERS : str := Eval vm_compute in lit "ACTIVE_USERS".
Definition CUSTOM_LIST : str := Eval vm_compute in lit "CUSTOM_LIST:".

Definition cond_action_type : str := Eval vm_compute in lit "action_type = %s".
Definition cond_guest : str := Eval vm_compute in lit "user_email IS NULL".
Definition cond_active : str :=
  Eval vm_compute in
  lit "user_email IS NOT NULL AND user_email NOT LIKE '%example.com%' AND LOWER(user_email) NOT LIKE '%admin%'".
Definition cond_user_email : str := Eval vm_compute in lit "user_email = %s".
Definition placeholder : str := Eval vm_compute in lit "%s".
Definition comma : str := Eval vm_compute in lit ",".
Definition in_open : str := Eval vm_compute in lit "user_email IN (".
Definition in_close : str := Eval vm_compute in lit ")".

(** [[u.strip() for u in user_email[12:].split(',') if u.strip()]]. *)
Definition custom_user_list (user_email : str) : list str :=
  filter nonempty (map strip (split 44 (slice_from 12 user_email))).

(** [f"user_email IN ({placeholders})"] with
    [placeholders = ','.join(['%s'] * len(user_list))]. *)
Definition cond_in (n : nat) : str :=
  in_open ++ join comma (repeat placeholder n) ++ in_close.

(** The block that composes [conditions] and [params] from the two
    filters; [get_statistics_with_filters] and [get_statistics_count]
    both contain it. *)
Definition filter_conditions (action_type user_email : option str)
  : list str * list param :=
  let conditions : list str := [] in
  let params : list param := [] in
  let '(conditions, params) :=
    match action_type with
    | Some a =>
      if nonempty a
      then (conditions ++ [cond_action_type], params ++ [PStr a])
      else (conditions, params)
    | None => (conditions, params)
    end in
  match user_email with
  | Some u =>
    if nonempty u then
      if str_eqb u GUEST then (conditions ++ [cond_guest], params)
      else if str_eqb u ACTIVE_USERS then (conditions ++ [cond_active], params)
      else if startswith u CUSTOM_LIST then
        let user_list := custom_user_list u in
        match user_list with
        | _ :: _ =>
          (conditions ++ [cond_in (List.length user_list)],
           params ++ map PStr user_list)
        | [] => (conditions, params)
        end
      else (conditions ++ [cond_user_email], params ++ [PStr u])
    else (conditions, params)
  | None => (conditions, params)
  end.

(** [query += " WHERE " + " AND ".join(conditions)] when there are
    conditions. *)
Definition add_where (query : str) (conditions : list str) : str :=
  match conditions with
  | [] => query
  | _ :: _ => query ++ kw_where ++ join kw_and conditions
  end.

(** What [get_statistics_with_filters] gives to [cur.execute]. *)
Definition get_statistics_with_filters_statement
  (action_type user_email : option str) (limit offset : Z) : statement :=
  let query := sql_statistics_list in
  let '(conditions, params) := filter_conditions action_type user_email in
  let query := add_where query conditions in
  let query := query ++ sql_page_tail in
  let params := params ++ [PInt limit; PInt offset] in
  Statement query params.

(** What [get_statistics_count] gives to [cur.execute]. *)
Definition get_statistics_count_statement
  (action_type user_email : option str) : statement :=
  let query := sql_statistics_count in
  let '(conditions, params) := filter_conditions action_type user_email in
  let query := add_where query conditions in
  Statement query params.

(** ** What the driver does with a statement and its values *)

(** [cursor.execute(text, values)] with a list of values: the driver
    formats the text itself, before the store sees anything. It first
    goes through the text and takes one value of the list for every
    [%] that is followed neither by [%] (a percent sign) nor by [(] (a
    value asked by name, which a list does not have), whatever the
    character after it; when the list has no value left it raises
    IndexError. The result is the values left over. *)
Fixpoint take_values (q : str) (values : list param)
  : result exn (list param) :=
  match q with
  | [] => Return values
  | c :: rest =>
    if (c =? 37)%N then
      match rest with
      | d :: rest' =>
        if (d =? 37)%N then take_values rest' values
        else if (d =? 40)%N then Raise TypeError
        else
          match values with
          | [] => Raise IndexError
          | _ :: values' => take_values rest values'
          end
      | [] =>
        match values with
        | [] => Raise IndexError
        | _ :: values' => Return values'
        end
      end
    else take_values rest values
  end.

(** Every [%] of the text reads [%%] or [%s]: the conversions the
    driver knows. *)
Fixpoint conversions_known (q : str) : bool :=
  match q with
  | [] => true
  | c :: rest =>
    if (c =? 37)%N then
      match rest with
      | d :: rest' =>
        ((d =? 37) || (d =? 115))%N && conversions_known rest'
      | [] => false
      end
    else conversions_known rest
  end.

(** The formatting as a whole. When no value was taken the text goes
    to the store as it is. Otherwise the values are merged in: a
    conversion other than [%s] raises ValueError, and values left over
    raise TypeError. A text with a literal [%] and a list of values
    therefore never reaches the store. *)
Definition bind_values (st : statement) : result exn unit :=
  match take_values (text st) (params st) with
  | Raise e => Raise e
  | Return rest =>
    if Nat.eqb (List.length rest) (List.length (params st)) then Return tt
    else if negb (conversions_known (text st)) then Raise ValueError
    else
      match rest with
      | [] => Return tt
      | _ :: _ => Raise TypeError
      end
  end.

(** ** What the store answers to the statistics statements *)

Inductive shape : Type := Paged | Counted.

(** A statement on [statistics] as the store reads it: which of the
    two SELECT heads it has and the conditions of its WHERE clause. *)
Definition parse_statistics_select (q : str) : option (shape * list atom) :=
  match strip_prefix sql_statistics_list q with
  | Some r =>
    match parse_where r with
    | Some (atoms, r') =>
      if str_eqb r' sql_page_tail then Some (Paged, atoms) else None
    | None => None
    end
  | None =>
    match strip_prefix sql_statistics_count q with
    | Some r =>
      match parse_where r with
      | Some (atoms, []) => Some (Counted, atoms)
      | _ => None
      end
    | None => None
    end
  end.

(** The rows the WHERE clause of a statement keeps, before they are
    ordered, sliced or counted; [None] when the driver cannot format
    the statement or the store rejects it. *)
Definition matching_rows (st : statement) (rows : list statistics_row)
  : option (list statistics_row) :=
  match bind_values st with
  | Raise _ => None
  | Return _ =>
    match parse_statistics_select (text st) with
    | Some (_, atoms) =>
      if forallb atom_known atoms then
        match params_after atoms (params st) with
        | Some _ => keep_rows atoms (params st) rows
        | None => None
        end
      else None
    | None => None
    end
  end.

Definition statistics_list_columns : list str :=
  Eval vm_compute in
  map lit ["action_type"; "user_email"; "ip_address"; "timestamp";
           "additional_info"]%string.

Inductive answer : Type :=
| Rows (l : list statistics_row)
| Count (n : Z).

(** What [cursor.execute] answers to a statement on [statistics]: the
    error of the driver when it cannot format the statement, the answer
    of the store otherwise. *)
Definition select_statistics (st : statement) (s : store) : result exn answer :=
  match bind_values st with
  | Raise e => Raise e
  | Return _ =>
  match statistics_table s with
  | None => Raise (UndefinedTable (relation_name Statistics))
  | Some t =>
    match parse_statistics_select (text st) with
    | None => Raise SyntaxOrDataError
    | Some (sh, atoms) =>
      match matching_rows st (statistics_rows s),
            params_after atoms (params st) with
      | Some kept, Some rest =>
        match sh, rest with
        | Paged, [PInt limit; PInt offset] =>
          match missing_column statistics_list_columns t with
          | Some c => Raise (UndefinedColumn c)
          | None =>
            match limit_offset limit offset
                    (sort_desc (fun a b => (st_timestamp a <=? st_timestamp b)%Z)
                               kept) with
            | Return l => Return (Rows l)
            | Raise e => Raise e
            end
          end
        | Counted, [] => Return (Count (Z.of_nat (List.length kept)))
        | _, _ => Raise SyntaxOrDataError
        end
      | _, _ => Raise SyntaxOrDataError
      end
    end
  end
  end.

(** ** The functions *)

Definition get_statistics_with_filters (action_type user_email : option str)
  (limit offset : Z) : M (list statistics_row) :=
  try_except
    (conn <- connect_db ;;
     cursor conn ;;;
     let st := get_statistics_with_filters_statement action_type user_email
                 limit offset in
     a <- fetch st (select_statistics st) ;;
     match a with
     | Rows statistics => ret statistics
     | Count _ => raise TypeError
     end)
    (fun _ => ret []).

Definition get_statistics_count (action_type user_email : option str) : M Z :=
  try_except
    (conn <- connect_db ;;
     cursor conn ;;;
     let st := get_statistics_count_statement action_type user_email in
     a <- fetch st (select_statistics st) ;;
     match a with
     | Count count => ret count
     | Rows _ => raise TypeError
     end)
    (fun _ => ret 0%Z).

Definition opt_int_param (o : option Z) : param :=
  match o with Some z => PInt z | None => PNull end.

Definition log_statistics (action_type : str) (user_email : option str)
  (file_id : option Z) (ip_address user_agent additional_info : option str)
  : M bool :=
  try_except
    (conn <- connect_db ;;
     cursor conn ;;;
     user_email <-
       (match user_email with
        | Some u =>
          if nonempty u then
            found <- fetch (Statement sql_user_by_email [PStr u])
                           (select_user u) ;;
            match found with
            | Some _ => ret user_email
            | None => ret None
            end
          else ret user_email
        | None => ret user_email
        end) ;;
     t <- now ;;
     execute (Statement sql_log_statistics
                [PStr action_type; opt_param user_email; opt_int_param file_id;
                 opt_param ip_address; opt_param user_agent;
                 opt_param additional_info])
             (insert_statistics t action_type user_email file_id ip_address
                                user_agent additional_info) ;;;
     commit ;;;
     ret true)
    (fun _ => ret false).

End AdminDb.

(* ================================================================== *)
(** * The filters of the statistics views *)
(* ================================================================== *)

Module Filters.
Import Py.
Import AdminDb.

Lemma strip_prefix_app (p r : str) : strip_prefix p (p ++ r) = Some r.
Proof.
  induction p as [|x p IH]; simpl; [reflexivity|].
  now rewrite N.eqb_refl.
Qed.

Lemma parse_placeholders_join (n : nat) (rest : str) :
  parse_placeholders (join comma (repeat placeholder (S n)) ++ in_close ++ rest)
  = Some (S n, rest).
Proof.
  induction n as [|n IH].
  - reflexivity.
  - change (repeat placeholder (S (S n)))
      with (placeholder :: repeat placeholder (S n)).
    change (join comma (placeholder :: repeat placeholder (S n)))
      with (placeholder ++ comma ++ join comma (repeat placeholder (S n))).
    rewrite <- !app_assoc.
    change (parse_placeholders
              (placeholder ++ comma ++
               join comma (repeat placeholder (S n)) ++ in_close ++ rest))
      with (match parse_placeholders
                    (join comma (repeat placeholder (S n)) ++ in_close ++ rest)
            with Some (k, r') => Some (S k, r') | None => None end).
    now rewrite IH.
Qed.

(** The user filter, by the branch of the source it takes. *)
Inductive user_case : Type :=
| NoUser | Guest | Active | CustomEmpty | Custom (x : str) (l : list str) | Exact (u : str).

Definition classify (user_email : option str) : user_case :=
  match user_email with
  | Some u =>
    if nonempty u then
      if str_eqb u GUEST then Guest
      else if str_eqb u ACTIVE_USERS then Active
      else if startswith u CUSTOM_LIST then
        match custom_user_list u with
        | [] => CustomEmpty
        | x :: l => Custom x l
        end
      else Exact u
    else NoUser
  | None => NoUser
  end.

Definition action_atoms (action_type : option str) : list atom :=
  if truthy action_type then [AEq (Col c_action_type)] else [].

Definition like_example : str := Eval vm_compute in lit "%example.com%".
Definition like_admin : str := Eval vm_compute in lit "%admin%".

Definition user_atoms (c : user_case) : list atom :=
  match c with
  | NoUser | CustomEmpty => []
  | Guest => [AIsNull (Col c_user_email)]
  | Active => [AIsNotNull (Col c_user_email);
               ANotLike (Col c_user_email) like_example;
               ANotLike (Lower c_user_email) like_admin]
  | Custom x l => [AIn (Col c_user_email) (S (List.length l))]
  | Exact _ => [AEq (Col c_user_email)]
  end.

Definition user_conditions (c : user_case) : list str :=
  match c with
  | NoUser | CustomEmpty => []
  | Guest => [cond_guest]
  | Active => [cond_active]
  | Custom x l => [cond_in (S (List.length l))]
  | Exact _ => [cond_user_email]
  end.

Definition user_params (c : user_case) : list param :=
  match c with
  | Custom x l => map PStr (x :: l)
  | Exact u => [PStr u]
  | _ => []
  end.

Definition action_conditions (a : option str) : list str :=
  if truthy a then [cond_action_type] else [].

Definition action_params (a : option str) : list param :=
  match a with Some x => if nonempty x then [PStr x] else [] | None => [] end.

Lemma filter_conditions_cases (a u : option str) :
  filter_conditions a u =
  (action_conditions a ++ user_conditions (classify u),
   action_params a ++ user_params (classify u)).
Proof.
  unfold filter_conditions, action_conditions, action_params, classify, truthy.
  destruct a as [x|]; [destruct (nonempty x)|];
  (destruct u as [y|]; [destruct (nonempty y)|];
   [ destruct (str_eqb y GUEST); [reflexivity|];
     destruct (str_eqb y ACTIVE_USERS); [reflexivity|];
     destruct (startswith y CUSTOM_LIST); [|reflexivity];
     destruct (custom_user_list y); reflexivity
   | reflexivity | reflexivity ]).
Qed.

Lemma parse_atom_in (X rest : str) (n : nat) :
  parse_placeholders X = Some (n, rest) ->
  parse_atom (in_open ++ X) = Some (AIn (Col c_user_email) n, rest).
Proof.
  intros H. unfold parse_atom, parse_expr. cbn.
  unfold parse_pred. cbn. rewrite H. reflexivity.
Qed.

Lemma add_where_app (q : str) (cs : list str) :
  add_where q cs = q ++ add_where [] cs.
Proof. destruct cs; simpl; [now rewrite app_nil_r | reflexivity]. Qed.

Definition is_tail (t : str) : Prop := t = [] \/ t = sql_page_tail.

Lemma is_tail_no_and (t : str) : is_tail t -> strip_prefix kw_and t = None.
Proof. intros [-> | ->]; reflexivity. Qed.

Lemma parse_atom_action (Y : str) :
  parse_atom (cond_action_type ++ Y) = Some (AEq (Col c_action_type), Y).
Proof. reflexivity. Qed.

Lemma parse_conj_last (fuel : nat) (s r : str) (a : atom) :
  parse_atom s = Some (a, r) -> strip_prefix kw_and r = None ->
  parse_conj (S fuel) s = Some ([a], r).
Proof. intros Ha Hr. cbn [parse_conj]. now rewrite Ha, Hr. Qed.

Lemma parse_conj_more (fuel : nat) (s r r' : str) (a : atom) (l : list atom) :
  parse_atom s = Some (a, kw_and ++ r) ->
  parse_conj fuel r = Some (l, r') ->
  parse_conj (S fuel) s = Some (a :: l, r').
Proof.
  intros Ha Hr. cbn [parse_conj]. rewrite Ha, strip_prefix_app, Hr.
  reflexivity.
Qed.

Lemma parse_where_conditions (a u : option str) (tail : str) :
  is_tail tail ->
  parse_where
    (add_where [] (action_conditions a ++ user_conditions (classify u)) ++ tail)
  = Some (action_atoms a ++ user_atoms (classify u), tail).
Proof.
  intros Ht. unfold action_conditions, action_atoms.
  destruct (classify u) as [ | | | |x l|e]; destruct (truthy a);
    try (destruct Ht as [-> | ->]; vm_compute; reflexivity);
    unfold user_conditions, user_atoms, cond_in, add_where;
    assert (Hp := parse_placeholders_join (List.length l) tail);
    apply parse_atom_in in Hp;
    cbn [app join]; rewrite <- !app_assoc;
    unfold parse_where; rewrite strip_prefix_app.
  - (* an action type and a list *)
    rewrite length_app. change (List.length cond_action_type) with 16%nat.
    cbn [Nat.add].
    eapply parse_conj_more; [apply parse_atom_action|].
    rewrite length_app. change (List.length kw_and) with 5%nat. cbn [Nat.add].
    apply parse_conj_last; [exact Hp | now apply is_tail_no_and].
  - (* a list alone *)
    rewrite length_app. change (List.length in_open) with 15%nat.
    cbn [Nat.add].
    apply parse_conj_last; [exact Hp | now apply is_tail_no_and].
Qed.

Definition example_com : str := Eval vm_compute in lit "example.com".
Definition admin : str := Eval vm_compute in lit "admin".

Definition is_active_address (e : str) : bool :=
  negb (contains example_com e) && negb (contains admin (lower e)).

Definition wanted_action (action_type : option str) (r : statistics_row) : bool :=
  match action_type with
  | Some a => if nonempty a then str_eqb (st_action_type r) a else true
  | None => true
  end.

Definition claimed_user (user_email : option str) (r : statistics_row) : bool :=
  match user_email with
  | Some u =>
    if nonempty u then
      if str_eqb u GUEST then
        match st_user_email r with None => true | Some _ => false end
      else if str_eqb u ACTIVE_USERS then
        match st_user_email r with
        | Some e => is_active_address e
        | None => false
        end
      else if startswith u CUSTOM_LIST then
        match st_user_email r with
        | Some e => str_in e (custom_user_list u)
        | None => false
        end
      else opt_str_eqb (st_user_email r) (Some u)
    else true
  | None => true
  end.

Definition wanted_user (user_email : option str) (r : statistics_row) : bool :=
  match user_email with
  | Some u =>
    if nonempty u then
      if str_eqb u GUEST then
        match st_user_email r with None => true | Some _ => false end
      else if str_eqb u ACTIVE_USERS then
        match st_user_email r with
        | Some e => is_active_address e
        | None => false
        end
      else if startswith u CUSTOM_LIST then
        match custom_user_list u, st_user_email r with
        | [], _ => true
        | l, Some e => str_in e l
        | _, None => false
        end
      else opt_str_eqb (st_user_email r) (Some u)
    else true
  | None => true
  end.

Definition plain (p : str) : bool :=
  forallb (fun c => negb (c =? 37)%N && negb (c =? 95)%N) p.

Lemma like_percent (pat s : str) :
  like (37%N :: pat) s
  = like pat s || match s with [] => false | _ :: s' => like (37%N :: pat) s' end.
Proof. destruct s; reflexivity. Qed.

Lemma like_any (s : str) : like [37%N] s = true.
Proof.
  induction s as [|c s IH]; [reflexivity|].
  rewrite like_percent, IH. apply orb_true_r.
Qed.

Lemma like_prefix (p s : str) :
  plain p = true -> like (p ++ [37%N]) s = startswith s p.
Proof.
  revert s. induction p as [|c p IH]; intros s Hp.
  - apply like_any.
  - simpl in Hp. apply andb_true_iff in Hp as [Hc Hp].
    apply andb_true_iff in Hc as [H37 H95].
    apply negb_true_iff in H37, H95.
    destruct s as [|x s]; simpl; rewrite H37; [reflexivity|].
    rewrite H95, (N.eqb_sym c x), IH by assumption. reflexivity.
Qed.

Lemma like_contains (p s : str) :
  plain p = true -> like (37%N :: p ++ [37%N]) s = contains p s.
Proof.
  intros Hp. induction s as [|x s IH].
  - rewrite like_percent, like_prefix by assumption.
    simpl. now rewrite orb_false_r.
  - rewrite like_percent, like_prefix, IH by assumption. reflexivity.
Qed.

Lemma take_text_params_map (l : list str) (rest : list param) :
  take_text_params (List.length l) (map PStr l ++ rest) = Some (map Some l, rest).
Proof.
  induction l as [|x l IH]; simpl; [reflexivity|].
  now rewrite IH.
Qed.

Lemma sql_in_some (e : str) (l : list str) :
  tv_is_true (sql_in (Some e) (map Some l)) = str_in e l
  /\ sql_in (Some e) (map Some l) <> TUnknown.
Proof.
  induction l as [|x l [IH1 IH2]]; simpl; [split; [reflexivity|discriminate]|].
  unfold str_in in *. simpl.
  destruct (str_eqb e x); simpl.
  - split; [reflexivity|discriminate].
  - destruct (sql_in (Some e) (map Some l)); simpl in *;
      try (split; [assumption|discriminate]). contradiction.
Qed.

Lemma sql_in_null (l : list str) :
  tv_is_true (sql_in None (map Some l)) = false.
Proof.
  induction l as [|x l IH]; simpl; [reflexivity|].
  destruct (sql_in None (map Some l)); simpl in *; congruence.
Qed.

Lemma eval_action (a : option str) (ps : list param) (r : statistics_row) :
  exists t,
    eval_conj (action_atoms a) (action_params a ++ ps) r = Some (t, ps)
    /\ tv_is_true t = wanted_action a r.
Proof.
  unfold action_atoms, action_params, wanted_action, truthy.
  destruct a as [x|]; [destruct (nonempty x)|];
    try (exists TTrue; split; reflexivity).
  destruct r as [i a e f ip ua ai ts].
  eexists; split; [reflexivity|]. cbn.
  now destruct (str_eqb a x).
Qed.

Lemma eval_user (u : option str) (ps : list param) (r : statistics_row) :
  exists t,
    eval_conj (user_atoms (classify u)) (user_params (classify u) ++ ps) r
    = Some (t, ps)
    /\ tv_is_true t = wanted_user u r.
Proof.
  unfold classify, wanted_user.
  destruct u as [y|]; [destruct (nonempty y)|];
    try (exists TTrue; split; reflexivity).
  destruct (str_eqb y GUEST).
  { destruct r as [i a e f ip ua ai ts]; destruct e;
      eexists; split; reflexivity. }
  destruct (str_eqb y ACTIVE_USERS).
  { destruct r as [i a e f ip ua ai ts].
    destruct e as [e|]; [|eexists; split; reflexivity].
    unfold user_atoms, user_params, eval_conj, eval_atom, eval_expr.
    change (text_column c_user_email (StatRow i a (Some e) f ip ua ai ts))
      with (Some (Some e)).
    cbn [option_map app].
    change like_example with (37%N :: example_com ++ [37%N]).
    change like_admin with (37%N :: admin ++ [37%N]).
    rewrite !like_contains by reflexivity.
    unfold is_active_address. cbn [st_user_email].
    eexists; split; [reflexivity|].
    destruct (contains example_com e), (contains admin (lower e)); reflexivity. }
  destruct (startswith y CUSTOM_LIST).
  { destruct (custom_user_list y) as [|x l]; [exists TTrue; split; reflexivity|].
    destruct r as [i a e f ip ua ai ts].
    unfold user_atoms, user_params, eval_conj, eval_atom. cbn [eval_expr].
    change (text_column c_user_email (StatRow i a e f ip ua ai ts)) with (Some e).
    change (S (List.length l)) with (List.length (x :: l)).
    rewrite take_text_params_map.
    eexists; split; [reflexivity|]. cbn [st_user_email].
    destruct e as [e|].
    - destruct (sql_in_some e (x :: l)) as [H1 H2].
      destruct (sql_in (Some e) (map Some (x :: l))); simpl in *; congruence.
    - assert (H := sql_in_null (x :: l)).
      destruct (sql_in None (map Some (x :: l))); simpl in *; congruence. }
  destruct r as [i a e f ip ua ai ts]. cbn.
  eexists; split; [reflexivity|].
  destruct e as [e|]; [|reflexivity]. cbn. now destruct (str_eqb e y).
Qed.

Lemma tv_is_true_and (a b : tv) :
  tv_is_true (tv_and a b) = tv_is_true a && tv_is_true b.
Proof. destruct a, b; reflexivity. Qed.

Lemma eval_conj_app (l1 l2 : list atom) (ps ps1 ps2 : list param)
  (r : statistics_row) (t1 t2 : tv) :
  eval_conj l1 ps r = Some (t1, ps1) ->
  eval_conj l2 ps1 r = Some (t2, ps2) ->
  exists t, eval_conj (l1 ++ l2) ps r = Some (t, ps2)
            /\ tv_is_true t = tv_is_true t1 && tv_is_true t2.
Proof.
  revert ps t1. induction l1 as [|a l1 IH]; intros ps t1 H1 H2.
  - simpl in H1. injection H1 as <- <-. exists t2. split; [exact H2|reflexivity].
  - simpl in H1 |- *. destruct (eval_atom a ps r) as [[t ps']|]; [|discriminate].
    destruct (eval_conj l1 ps' r) as [[t' ps'']|] eqn:E; [|discriminate].
    injection H1 as <- <-.
    destruct (IH _ _ E H2) as [t0 [-> Ht0]].
    eexists; split; [reflexivity|].
    rewrite !tv_is_true_and, Ht0. apply andb_assoc.
Qed.

Lemma eval_filters (a u : option str) (ps : list param) (r : statistics_row) :
  exists t,
    eval_conj (action_atoms a ++ user_atoms (classify u))
              ((action_params a ++ user_params (classify u)) ++ ps) r
    = Some (t, ps)
    /\ tv_is_true t = wanted_action a r && wanted_user u r.
Proof.
  rewrite <- app_assoc.
  destruct (eval_action a (user_params (classify u) ++ ps) r) as [t1 [H1 E1]].
  destruct (eval_user u ps r) as [t2 [H2 E2]].
  destruct (@eval_conj_app _ _ _ _ _ _ _ _ H1 H2) as [t [H E]].
  exists t. split; [exact H|]. now rewrite E, E1, E2.
Qed.

Lemma params_after_filters (a u : option str) (ps : list param) :
  params_after (action_atoms a ++ user_atoms (classify u))
               ((action_params a ++ user_params (classify u)) ++ ps)
  = Some ps.
Proof.
  assert (Hu : params_after (user_atoms (classify u))
                            (user_params (classify u) ++ ps) = Some ps).
  { destruct (classify u) as [ | | | |x l|e]; try reflexivity.
    unfold user_atoms, user_params, params_after.
    change (S (List.length l)) with (List.length (x :: l)).
    now rewrite take_text_params_map. }
  rewrite <- app_assoc.
  unfold action_atoms, action_params, truthy.
  destruct a as [x|]; [destruct (nonempty x)|]; exact Hu.
Qed.

Lemma atoms_known (a u : option str) :
  forallb atom_known (action_atoms a ++ user_atoms (classify u)) = true.
Proof.
  unfold action_atoms.
  destruct (truthy a); destruct (classify u); reflexivity.
Qed.

Lemma keep_rows_filters (a u : option str) (ps : list param)
  (rows : list statistics_row) :
  keep_rows (action_atoms a ++ user_atoms (classify u))
            ((action_params a ++ user_params (classify u)) ++ ps) rows
  = Some (filter (fun r => wanted_action a r && wanted_user u r) rows).
Proof.
  induction rows as [|r rows IH]; [reflexivity|].
  cbn [keep_rows filter]. rewrite IH.
  destruct (eval_filters a u ps r) as [t [-> <-]]. reflexivity.
Qed.

Lemma list_head_is_not_count (X : str) :
  strip_prefix sql_statistics_list (sql_statistics_count ++ X) = None.
Proof. reflexivity. Qed.

(** ** The driver on the statements of the filters *)

Definition no_percent (a : str) : bool :=
  forallb (fun c => negb (c =? 37)%N) a.

Lemma take_values_plain (a b : str) (vs : list param) :
  no_percent a = true -> take_values (a ++ b) vs = take_values b vs.
Proof.
  induction a as [|c a IH]; [reflexivity|].
  intros H. cbn [no_percent forallb] in H.
  apply andb_true_iff in H as [Hc Ha]. apply negb_true_iff in Hc.
  cbn [app take_values]. rewrite Hc. now apply IH.
Qed.

Lemma take_values_hole (b : str) (v : param) (vs : list param) :
  take_values (placeholder ++ b) (v :: vs) = take_values b vs.
Proof. reflexivity. Qed.

Lemma conversions_plain (a b : str) :
  no_percent a = true -> conversions_known (a ++ b) = conversions_known b.
Proof.
  induction a as [|c a IH]; [reflexivity|].
  intros H. cbn [no_percent forallb] in H.
  apply andb_true_iff in H as [Hc Ha]. apply negb_true_iff in Hc.
  cbn [app conversions_known]. rewrite Hc. now apply IH.
Qed.

Lemma conversions_hole (b : str) :
  conversions_known (placeholder ++ b) = conversions_known b.
Proof. reflexivity. Qed.

Lemma join_placeholders (n : nat) :
  join comma (repeat placeholder (S (S n)))
  = placeholder ++ comma ++ join comma (repeat placeholder (S n)).
Proof. reflexivity. Qed.

Lemma take_values_join (l : list str) (x : str) (b : str) (vs : list param) :
  take_values (join comma (repeat placeholder (S (List.length l))) ++ b)
              (map PStr (x :: l) ++ vs)
  = take_values b vs.
Proof.
  revert x. induction l as [|y l IH]; intros x; [reflexivity|].
  cbn [List.length]. rewrite join_placeholders, <- !app_assoc.
  cbn [map app]. rewrite take_values_hole.
  rewrite take_values_plain by reflexivity. apply (IH y).
Qed.

Lemma conversions_join (n : nat) (b : str) :
  conversions_known (join comma (repeat placeholder (S n)) ++ b)
  = conversions_known b.
Proof.
  induction n as [|n IH]; [reflexivity|].
  rewrite join_placeholders, <- !app_assoc, conversions_hole.
  rewrite conversions_plain by reflexivity. exact IH.
Qed.

Lemma classify_active (u : option str) :
  classify u = Active -> u = Some ACTIVE_USERS.
Proof.
  unfold classify. destruct u as [y|]; [|discriminate].
  destruct (nonempty y); [|discriminate].
  destruct (str_eqb y GUEST); [discriminate|].
  destruct (str_eqb y ACTIVE_USERS) eqn:E.
  - intros _. apply str_eqb_eq in E. now subst.
  - destruct (startswith y CUSTOM_LIST); [|discriminate].
    destruct (custom_user_list y); discriminate.
Qed.

(** The WHERE clause of every filter but ['ACTIVE_USERS'] asks for as
    many values as the block puts in the list, each by [%s]. *)
Lemma where_values (a u : option str) (b : str) (vs : list param) :
  classify u <> Active ->
  take_values
    (add_where [] (action_conditions a ++ user_conditions (classify u)) ++ b)
    ((action_params a ++ user_params (classify u)) ++ vs)
  = take_values b vs
  /\ conversions_known
       (add_where [] (action_conditions a ++ user_conditions (classify u)) ++ b)
     = conversions_known b.
Proof.
  intros Hu. unfold action_conditions, action_params, truthy.
  destruct a as [x|]; [destruct (nonempty x)|];
    (destruct (classify u) as [ | | | |y l|e]; [| |congruence| | |];
     try (split; reflexivity));
    unfold user_conditions, user_params, cond_in, add_where;
    cbn [app join]; rewrite <- !app_assoc.
  - split.
    + cbn [app]. rewrite (@take_values_plain kw_where) by reflexivity.
      change cond_action_type
        with (firstn 14 cond_action_type ++ placeholder).
      rewrite <- !app_assoc.
      rewrite take_values_plain by reflexivity.
      rewrite take_values_hole.
      rewrite (@take_values_plain kw_and) by reflexivity.
      rewrite (@take_values_plain in_open) by reflexivity.
      rewrite take_values_join.
      now rewrite (@take_values_plain in_close) by reflexivity.
    + rewrite (@conversions_plain kw_where) by reflexivity.
      change cond_action_type
        with (firstn 14 cond_action_type ++ placeholder).
      rewrite <- !app_assoc.
      rewrite conversions_plain by reflexivity.
      rewrite conversions_hole.
      rewrite (@conversions_plain kw_and) by reflexivity.
      rewrite (@conversions_plain in_open) by reflexivity.
      rewrite conversions_join.
      now rewrite (@conversions_plain in_close) by reflexivity.
  - split.
    + cbn [app]. rewrite (@take_values_plain kw_where) by reflexivity.
      rewrite (@take_values_plain in_open) by reflexivity.
      rewrite take_values_join.
      now rewrite (@take_values_plain in_close) by reflexivity.
    + rewrite (@conversions_plain kw_where) by reflexivity.
      rewrite (@conversions_plain in_open) by reflexivity.
      rewrite conversions_join.
      now rewrite (@conversions_plain in_close) by reflexivity.
  - split.
    + cbn [app]. rewrite (@take_values_plain kw_where) by reflexivity.
      rewrite (@take_values_plain in_open) by reflexivity.
      rewrite take_values_join.
      now rewrite (@take_values_plain in_close) by reflexivity.
    + rewrite (@conversions_plain kw_where) by reflexivity.
      rewrite (@conversions_plain in_open) by reflexivity.
      rewrite conversions_join.
      now rewrite (@conversions_plain in_close) by reflexivity.
Qed.

Lemma bind_values_done (q : str) (vs : list param) :
  take_values q vs = Return [] -> conversions_known q = true ->
  bind_values (Statement q vs) = Return tt.
Proof.
  intros H1 H2. unfold bind_values. cbn [text params]. rewrite H1, H2.
  destruct vs; reflexivity.
Qed.

Lemma bind_values_list (a u : option str) (limit offset : Z) :
  classify u <> Active ->
  bind_values (get_statistics_with_filters_statement a u limit offset)
  = Return tt.
Proof.
  intros Hu. unfold get_statistics_with_filters_statement.
  rewrite filter_conditions_cases. rewrite add_where_app, <- app_assoc.
  destruct (@where_values a u sql_page_tail [PInt limit; PInt offset] Hu)
    as [H1 H2].
  apply bind_values_done.
  - rewrite (@take_values_plain sql_statistics_list) by reflexivity.
    rewrite H1. reflexivity.
  - rewrite (@conversions_plain sql_statistics_list) by reflexivity.
    rewrite H2. reflexivity.
Qed.

Lemma bind_values_count (a u : option str) :
  classify u <> Active ->
  bind_values (get_statistics_count_statement a u) = Return tt.
Proof.
  intros Hu. unfold get_statistics_count_statement.
  rewrite filter_conditions_cases. rewrite add_where_app.
  destruct (@where_values a u [] [] Hu) as [H1 H2].
  rewrite app_nil_r in H1, H2. rewrite app_nil_r in H1.
  apply bind_values_done.
  - rewrite (@take_values_plain sql_statistics_count) by reflexivity.
    rewrite H1. reflexivity.
  - rewrite (@conversions_plain sql_statistics_count) by reflexivity.
    rewrite H2. reflexivity.
Qed.

(** The literal [%] of the two LIKE patterns each ask for a value: the
    list never has enough. *)
Lemma bind_values_active_list (a u : option str) (limit offset : Z) :
  classify u = Active ->
  bind_values (get_statistics_with_filters_statement a u limit offset)
  = Raise IndexError.
Proof.
  intros Hu. unfold get_statistics_with_filters_statement.
  rewrite filter_conditions_cases, Hu.
  unfold action_conditions, action_params, truthy.
  destruct a as [x|]; [destruct (nonempty x)|]; reflexivity.
Qed.

Lemma bind_values_active_count (a u : option str) :
  classify u = Active ->
  bind_values (get_statistics_count_statement a u) = Raise IndexError.
Proof.
  intros Hu. unfold get_statistics_count_statement.
  rewrite filter_conditions_cases, Hu.
  unfold action_conditions, action_params, truthy.
  destruct a as [x|]; [destruct (nonempty x)|]; reflexivity.
Qed.

(** ** The rows behind the statements *)

Lemma matching_rows_list (a u : option str) (limit offset : Z)
  (rows : list statistics_row) :
  classify u <> Active ->
  matching_rows (get_statistics_with_filters_statement a u limit offset) rows
  = Some (filter (fun r => wanted_action a r && wanted_user u r) rows).
Proof.
  intros Hu. unfold matching_rows. rewrite (@bind_values_list a u limit offset Hu).
  unfold get_statistics_with_filters_statement.
  rewrite filter_conditions_cases. cbn [text params].
  unfold parse_statistics_select.
  rewrite add_where_app, <- app_assoc, strip_prefix_app.
  rewrite parse_where_conditions by (right; reflexivity).
  rewrite str_eqb_refl, atoms_known, params_after_filters.
  apply keep_rows_filters.
Qed.

Lemma matching_rows_count (a u : option str) (rows : list statistics_row) :
  classify u <> Active ->
  matching_rows (get_statistics_count_statement a u) rows
  = Some (filter (fun r => wanted_action a r && wanted_user u r) rows).
Proof.
  intros Hu. unfold matching_rows. rewrite (@bind_values_count a u Hu).
  unfold get_statistics_count_statement.
  rewrite filter_conditions_cases. cbn [text params].
  unfold parse_statistics_select.
  rewrite add_where_app, list_head_is_not_count, strip_prefix_app.
  rewrite <- (app_nil_r (add_where [] _)).
  rewrite parse_where_conditions by (left; reflexivity).
  rewrite atoms_known.
  rewrite <- (app_nil_r (action_params a ++ user_params (classify u))).
  rewrite params_after_filters.
  apply keep_rows_filters.
Qed.

(** ** Order *)

Lemma insert_desc_perm {A : Type} (leb : A -> A -> bool) (x : A) (l : list A) :
  Permutation (insert_desc leb x l) (x :: l).
Proof.
  induction l as [|y l IH]; simpl; [reflexivity|].
  destruct (leb x y); [|reflexivity].
  rewrite IH. apply perm_swap.
Qed.

Lemma sort_desc_perm {A : Type} (leb : A -> A -> bool) (l : list A) :
  Permutation (sort_desc leb l) l.
Proof.
  induction l as [|x l IH]; simpl; [reflexivity|].
  unfold sort_desc in *. simpl. rewrite insert_desc_perm. now constructor.
Qed.

Section Keys.

Variable A : Type.
Variable key : A -> Z.

(** The keys go strictly down the list. *)
Definition decreasing (l : list A) : Prop :=
  StronglySorted (fun a b => (key b < key a)%Z) l.

Lemma insert_desc_decreasing (x : A) (l : list A) :
  decreasing l -> ~ In (key x) (map key l) ->
  decreasing (insert_desc (fun a b => (key a <=? key b)%Z) x l).
Proof.
  unfold decreasing. induction l as [|y l IH]; intros Hl Hx.
  - simpl. constructor; constructor.
  - inversion Hl as [|? ? Hl' Hy]; subst. cbn [insert_desc].
    assert (Hxy : key x <> key y) by (intros E; apply Hx; left; auto).
    assert (Hxl : ~ In (key x) (map key l)) by (intros H; apply Hx; now right).
    destruct (key x <=? key y)%Z eqn:E.
    + apply Z.leb_le in E. constructor; [now apply IH|].
      apply Forall_forall. intros z Hz.
      apply (Permutation_in _ (insert_desc_perm _ x l)) in Hz.
      destruct Hz as [<-|Hz]; [lia|].
      rewrite Forall_forall in Hy. now apply Hy.
    + apply Z.leb_gt in E. constructor; [exact Hl|].
      constructor; [lia|].
      rewrite Forall_forall in Hy |- *. intros z Hz.
      specialize (Hy z Hz). lia.
Qed.

(** With keys all different the sorted list goes strictly down. *)
Lemma sort_desc_decreasing (l : list A) :
  NoDup (map key l) ->
  decreasing (sort_desc (fun a b => (key a <=? key b)%Z) l).
Proof.
  induction l as [|x l IH]; intros H.
  - constructor.
  - cbn [map] in H. inversion H as [|? ? Hx Hl]; subst.
    change (sort_desc (fun a b => (key a <=? key b)%Z) (x :: l))
      with (insert_desc (fun a b => (key a <=? key b)%Z) x
              (sort_desc (fun a b => (key a <=? key b)%Z) l)).
    apply insert_desc_decreasing; [now apply IH|].
    intros Hin. apply Hx. apply in_map_iff in Hin as [z [Ez Hz]].
    apply (Permutation_in _ (sort_desc_perm _ l)) in Hz.
    rewrite <- Ez. now apply in_map.
Qed.

(** Rows whose keys go strictly down can be listed in one order only:
    the answer to [ORDER BY key DESC] is then the same whenever the
    statement is run. *)
Lemma decreasing_unique (l1 l2 : list A) :
  Permutation l1 l2 -> decreasing l1 -> decreasing l2 -> l1 = l2.
Proof.
  unfold decreasing. revert l2. induction l1 as [|x l1 IH]; intros l2 P S1 S2.
  - apply Permutation_nil in P. now subst.
  - destruct l2 as [|y l2].
    { apply Permutation_sym, Permutation_nil in P. discriminate. }
    inversion S1 as [|? ? S1' F1]; subst.
    inversion S2 as [|? ? S2' F2]; subst.
    rewrite Forall_forall in F1, F2.
    assert (E : x = y).
    { assert (Hx : In x (y :: l2))
        by (apply (Permutation_in _ P); now left).
      assert (Hy : In y (x :: l1))
        by (apply (Permutation_in _ (Permutation_sym P)); now left).
      destruct Hx as [Hx|Hx]; [now symmetry|].
      destruct Hy as [Hy|Hy]; [exact Hy|].
      specialize (F1 y Hy). specialize (F2 x Hx). lia. }
    subst y. f_equal. apply IH; auto.
    now apply Permutation_cons_inv in P.
Qed.

End Keys.

(** ** What the two functions return *)

(** The records two filters select, newest first: what the pages of
    [get_statistics_with_filters] are cut from. *)
Definition selected (a u : option str) (s : store) : list statistics_row :=
  sort_desc (fun x y => (st_timestamp x <=? st_timestamp y)%Z)
            (filter (fun r => wanted_action a r && wanted_user u r)
                    (statistics_rows s)).

Lemma select_count_value (a u : option str) (s : store) (t : table) :
  classify u <> Active ->
  statistics_table s = Some t ->
  select_statistics (get_statistics_count_statement a u) s
  = Return (Count (Z.of_nat
                     (List.length
                        (filter (fun r => wanted_action a r && wanted_user u r)
                                (statistics_rows s))))).
Proof.
  intros Hu Ht. unfold select_statistics.
  rewrite (@bind_values_count a u Hu), Ht, matching_rows_count by exact Hu.
  unfold get_statistics_count_statement.
  rewrite filter_conditions_cases. cbn [text params].
  unfold parse_statistics_select.
  rewrite add_where_app, list_head_is_not_count, strip_prefix_app.
  rewrite <- (app_nil_r (add_where [] _)).
  rewrite parse_where_conditions by (left; reflexivity).
  rewrite <- (app_nil_r (action_params a ++ user_params (classify u))).
  rewrite params_after_filters. reflexivity.
Qed.

Lemma get_statistics_count_value (w : env) (a u : option str) (t : table) :
  classify u <> Active ->
  reachable w = true -> fault w = None -> statistics_table (db w) = Some t ->
  fst (get_statistics_count a u w)
  = Return (Z.of_nat
              (List.length
                 (filter (fun r => wanted_action a r && wanted_user u r)
                         (statistics_rows (db w))))).
Proof.
  intros Hu Hr Hf Ht. destruct w as [cfg r f clk s p l].
  cbn [reachable fault db] in *. subst r f.
  unfold get_statistics_count. run_monad.
  now rewrite (@select_count_value a u s t Hu Ht).
Qed.

Lemma select_list_value (a u : option str) (limit offset : Z) (s : store)
  (t : table) :
  classify u <> Active ->
  statistics_table s = Some t ->
  missing_column statistics_list_columns t = None ->
  select_statistics (get_statistics_with_filters_statement a u limit offset) s
  = match limit_offset limit offset (selected a u s) with
    | Return l => Return (Rows l)
    | Raise e => Raise e
    end.
Proof.
  intros Hu Ht Hm. unfold select_statistics.
  rewrite (@bind_values_list a u limit offset Hu), Ht, matching_rows_list
    by exact Hu.
  unfold get_statistics_with_filters_statement.
  rewrite filter_conditions_cases. cbn [text params].
  unfold parse_statistics_select.
  rewrite add_where_app, <- app_assoc, strip_prefix_app.
  rewrite parse_where_conditions by (right; reflexivity).
  rewrite str_eqb_refl, params_after_filters, Hm. reflexivity.
Qed.

Lemma get_statistics_slice (w : env) (a u : option str) (limit offset : Z)
  (t : table) :
  classify u <> Active ->
  reachable w = true -> fault w = None -> statistics_table (db w) = Some t ->
  missing_column statistics_list_columns t = None ->
  (0 <= limit)%Z -> (0 <= offset)%Z ->
  fst (get_statistics_with_filters a u limit offset w)
  = Return (firstn (Z.to_nat limit)
              (skipn (Z.to_nat offset) (selected a u (db w)))).
Proof.
  intros Hu Hr Hf Ht Hm Hl Ho. destruct w as [cfg r f clk s p l].
  cbn [reachable fault db] in *. subst r f.
  unfold get_statistics_with_filters. run_monad.
  rewrite (@select_list_value a u limit offset s t Hu Ht Hm).
  unfold limit_offset.
  assert (E1 : (limit <? 0)%Z = false) by (apply Z.ltb_ge; lia).
  assert (E2 : (offset <? 0)%Z = false) by (apply Z.ltb_ge; lia).
  rewrite E1, E2. reflexivity.
Qed.

Lemma get_statistics_page (w : env) (a u : option str) (page per_page : Z)
  (t : table) :
  classify u <> Active ->
  reachable w = true -> fault w = None -> statistics_table (db w) = Some t ->
  missing_column statistics_list_columns t = None ->
  (0 <= per_page)%Z -> (1 <= page)%Z ->
  fst (get_statistics_with_filters a u per_page ((page - 1) * per_page) w)
  = Return (firstn (Z.to_nat per_page)
              (skipn (Z.to_nat (page - 1) * Z.to_nat per_page)
                     (selected a u (db w)))).
Proof.
  intros Hu Hr Hf Ht Hm Hpp Hp.
  rewrite (@get_statistics_slice w a u per_page ((page - 1) * per_page) t);
    auto; [|nia].
  rewrite Z2Nat.inj_mul by lia. reflexivity.
Qed.

Lemma page_incl {A : Type} (n m : nat) (l : list A) (x : A) :
  In x (firstn n (skipn m l)) -> In x l.
Proof.
  intros H. rewrite <- (firstn_skipn m l). apply in_or_app. right.
  rewrite <- (firstn_skipn n (skipn m l)). apply in_or_app. now left.
Qed.

(** What a call of the list function returns is made of rows the
    filters select, and is all of them when the page is large enough. *)
Lemma get_statistics_with_filters_rows (w : env) (a u : option str)
  (limit offset : Z) (t : table) :
  classify u <> Active ->
  reachable w = true -> fault w = None -> statistics_table (db w) = Some t ->
  missing_column statistics_list_columns t = None ->
  (0 <= limit)%Z -> (0 <= offset)%Z ->
  exists page,
    fst (get_statistics_with_filters a u limit offset w) = Return page
    /\ (forall r, In r page ->
          In r (statistics_rows (db w))
          /\ wanted_action a r && wanted_user u r = true)
    /\ (offset = 0%Z ->
        (Z.of_nat (List.length
                     (filter (fun r => wanted_action a r && wanted_user u r)
                             (statistics_rows (db w)))) <= limit)%Z ->
        Permutation page
          (filter (fun r => wanted_action a r && wanted_user u r)
                  (statistics_rows (db w)))).
Proof.
  intros Hu Hr Hf Ht Hm Hl Ho. eexists. split.
  { apply get_statistics_slice with (t := t); auto. }
  split.
  - intros r Hin. apply page_incl in Hin.
    apply (Permutation_in _ (sort_desc_perm _ _)) in Hin.
    now apply filter_In in Hin.
  - intros -> Hn. cbn [Z.to_nat skipn].
    rewrite firstn_all2; [apply sort_desc_perm|].
    unfold selected. rewrite (Permutation_length (sort_desc_perm _ _)). lia.
Qed.

(** Under ['ACTIVE_USERS'] both calls end in the handler. *)
Lemma active_users_answers (a u : option str) (limit offset : Z) (w : env) :
  classify u = Active ->
  fst (get_statistics_count a u w) = Return 0%Z
  /\ fst (get_statistics_with_filters a u limit offset w) = Return []
  /\ db (snd (get_statistics_count a u w)) = db w
  /\ db (snd (get_statistics_with_filters a u limit offset w)) = db w.
Proof.
  intros Hu. destruct w as [cfg r f clk s p l].
  unfold get_statistics_count, get_statistics_with_filters. run_monad.
  unfold select_statistics.
  rewrite (@bind_values_active_count a u Hu),
          (@bind_values_active_list a u limit offset Hu).
  destruct r; run_monad; [|repeat split].
  destruct f; run_monad; repeat split.
Qed.

Definition sample_row : statistics_row :=
  Eval vm_compute in
  StatRow 1 (lit "upload") (Some (lit "a@x.com")) None None None None 0.

Definition guest_row : statistics_row :=
  Eval vm_compute in StatRow 2 (lit "view") None None None None None 5.

(** A store with a record of a user and a record of a guest. *)
Definition sample_world : env :=
  Env (Environ None None None None) true None 0
      (Db None [] None [] 0 (Some ddl_statistics) [sample_row; guest_row] 2)
      None [].

(** X27. The filter ['ACTIVE_USERS'] answers nothing. Its condition
    is written into the text with the [%] of its LIKE patterns single,
    and the text is executed with a list of values: the driver reads
    the first of them as a placeholder and finds no value for it, so
    that [execute] raises IndexError before anything is sent. For
    every action filter, every page and every store the handler then
    makes [get_statistics_count] return 0 and
    [get_statistics_with_filters] return the empty list, the store
    being left as it was; so it is on a store that holds a record of an
    address the condition describes. *)
Theorem active_users_filter_answers_nothing (a : option str)
  (limit offset : Z) (w : env) :
  bind_values (get_statistics_count_statement a (Some ACTIVE_USERS))
  = Raise IndexError
  /\ bind_values
       (get_statistics_with_filters_statement a (Some ACTIVE_USERS)
                                              limit offset)
     = Raise IndexError
  /\ fst (get_statistics_count a (Some ACTIVE_USERS) w) = Return 0%Z
  /\ fst (get_statistics_with_filters a (Some ACTIVE_USERS) limit offset w)
     = Return []
  /\ db (snd (get_statistics_count a (Some ACTIVE_USERS) w)) = db w
  /\ db (snd (get_statistics_with_filters a (Some ACTIVE_USERS)
                                          limit offset w)) = db w
  /\ In sample_row (statistics_rows (db sample_world))
  /\ wanted_user (Some ACTIVE_USERS) sample_row = true.
Proof.
  assert (Hu : classify (Some ACTIVE_USERS) = Active) by reflexivity.
  split; [exact (@bind_values_active_count a _ Hu)|].
  split; [exact (@bind_values_active_list a _ limit offset Hu)|].
  destruct (@active_users_answers a _ limit offset w Hu) as [A [B [C D]]].
  split; [exact A|]. split; [exact B|]. split; [exact C|]. split; [exact D|].
  split; [now left | reflexivity].
Qed.

(** C4, amended. For every filter but ['ACTIVE_USERS'] the WHERE clause
    that [get_statistics_with_filters] and [get_statistics_count]
    compose, formatted by the driver and read as SQL with its
    placeholders bound in order to the parameter list, keeps exactly the
    rows that satisfy the conjunction of the active filters: the action
    type by equality; the user filter ['Гость'] by a NULL [user_email],
    a filter that starts with ['CUSTOM_LIST:'] by membership of
    [user_email] in the entries left after stripping and dropping the
    empty ones when at least one entry is left and by no condition at
    all when none is, and any other filter by equality. With no filter
    the rows behind the list are the rows the count-all statement
    counts, namely all of them. With the store in reach
    [get_statistics_count] returns the number of those rows, and
    [get_statistics_with_filters] returns only rows among them, all of
    them when the page starts at the first and is long enough. *)
Theorem where_selects (a u : option str) (limit offset : Z)
  (rows : list statistics_row) :
  u <> Some ACTIVE_USERS ->
  let wanted := fun r => wanted_action a r && wanted_user u r in
  matching_rows (get_statistics_with_filters_statement a u limit offset) rows
  = Some (filter wanted rows)
  /\ matching_rows (get_statistics_count_statement a u) rows
     = Some (filter wanted rows)
  /\ matching_rows (get_statistics_with_filters_statement None None limit offset)
                   rows
     = matching_rows (get_statistics_count_statement None None) rows
  /\ matching_rows (get_statistics_count_statement None None) rows = Some rows
  /\ (forall w t,
        reachable w = true -> fault w = None ->
        statistics_table (db w) = Some t ->
        fst (get_statistics_count a u w)
        = Return (Z.of_nat (List.length (filter wanted (statistics_rows (db w))))))
  /\ (forall w t,
        reachable w = true -> fault w = None ->
        statistics_table (db w) = Some t ->
        missing_column statistics_list_columns t = None ->
        (0 <= limit)%Z -> (0 <= offset)%Z ->
        exists page,
          fst (get_statistics_with_filters a u limit offset w) = Return page
          /\ (forall r, In r page ->
                In r (statistics_rows (db w)) /\ wanted r = true)
          /\ (offset = 0%Z ->
              (Z.of_nat (List.length (filter wanted (statistics_rows (db w))))
               <= limit)%Z ->
              Permutation page (filter wanted (statistics_rows (db w))))).
Proof.
  intros Hne. cbv zeta.
  assert (Hu : classify u <> Active).
  { intros H. apply Hne. now apply classify_active. }
  assert (H0 : classify None <> Active) by discriminate.
  split; [now apply matching_rows_list|].
  split; [now apply matching_rows_count|].
  rewrite (@matching_rows_list None None limit offset rows H0),
          (@matching_rows_count None None rows H0).
  assert (H : filter (fun r => wanted_action None r && wanted_user None r) rows
              = rows).
  { induction rows as [|r rows IH]; simpl; [reflexivity|]. simpl in IH.
    now rewrite IH. }
  rewrite H. split; [reflexivity|]. split; [reflexivity|]. split.
  - intros w t Hr Hf Ht. now apply get_statistics_count_value with (t := t).
  - intros w t Hr Hf Ht Hm Hl Ho.
    now apply get_statistics_with_filters_rows with (t := t).
Qed.

Lemma where_selects_witness :
  fst (get_statistics_count None (Some GUEST) sample_world) = Return 1%Z
  /\ matching_rows (get_statistics_count_statement None (Some GUEST))
                   [sample_row; guest_row]
     = Some [guest_row].
Proof.
  assert (N : Some GUEST <> Some ACTIVE_USERS) by discriminate.
  destruct (@where_selects None (Some GUEST) 50 0 [sample_row; guest_row] N)
    as [_ [B [_ [_ [C _]]]]].
  split.
  - rewrite (C sample_world ddl_statistics) by reflexivity. reflexivity.
  - exact B.
Defined.

Definition blank_entries (payload : str) : bool :=
  forallb (fun e => negb (nonempty (strip e))) (split 44 payload).

Lemma blank_entries_list (payload : str) :
  blank_entries payload = true ->
  filter nonempty (map strip (split 44 payload)) = [].
Proof.
  unfold blank_entries. induction (split 44 payload) as [|e l IH]; simpl.
  - reflexivity.
  - intros H. apply andb_true_iff in H as [He Hl].
    apply negb_true_iff in He. rewrite He. auto.
Qed.

Lemma classify_blank (payload : str) :
  blank_entries payload = true ->
  classify (Some (CUSTOM_LIST ++ payload)) = CustomEmpty.
Proof.
  intros H. unfold classify.
  change (nonempty (CUSTOM_LIST ++ payload)) with true.
  change (str_eqb (CUSTOM_LIST ++ payload) GUEST) with false.
  change (str_eqb (CUSTOM_LIST ++ payload) ACTIVE_USERS) with false.
  cbv iota. rewrite startswith_app.
  unfold custom_user_list.
  change (slice_from 12 (CUSTOM_LIST ++ payload)) with payload.
  now rewrite blank_entries_list.
Qed.

Lemma filter_conditions_blank (a : option str) (payload : str) :
  blank_entries payload = true ->
  filter_conditions a (Some (CUSTOM_LIST ++ payload)) = filter_conditions a None.
Proof.
  intros H. rewrite !filter_conditions_cases, classify_blank by assumption.
  reflexivity.
Qed.

(** C10. When every entry of the list after ['CUSTOM_LIST:'] is empty
    or white space, [get_statistics_with_filters] and
    [get_statistics_count] add no condition on the user: they send the
    statement they send with no user filter and return what they return
    with no user filter. With the store in reach the count is the
    number of rows that pass the action-type filter, and the list is
    made of such rows, all of them when the page starts at the first
    and is long enough: not no row. *)
Theorem blank_custom_list_is_no_filter (a : option str) (payload : str)
  (limit offset : Z) (w : env) (t : table) :
  blank_entries payload = true ->
  let u := Some (CUSTOM_LIST ++ payload) in
  get_statistics_with_filters_statement a u limit offset
  = get_statistics_with_filters_statement a None limit offset
  /\ get_statistics_count_statement a u = get_statistics_count_statement a None
  /\ get_statistics_with_filters a u limit offset w
     = get_statistics_with_filters a None limit offset w
  /\ get_statistics_count a u w = get_statistics_count a None w
  /\ (reachable w = true -> fault w = None ->
      statistics_table (db w) = Some t ->
      fst (get_statistics_count a u w)
      = Return (Z.of_nat (List.length (filter (wanted_action a)
                                              (statistics_rows (db w))))))
  /\ (reachable w = true -> fault w = None ->
      statistics_table (db w) = Some t ->
      missing_column statistics_list_columns t = None ->
      (0 <= limit)%Z -> (0 <= offset)%Z ->
      exists page,
        fst (get_statistics_with_filters a u limit offset w) = Return page
        /\ (forall r, In r page ->
              In r (statistics_rows (db w)) /\ wanted_action a r = true)
        /\ (offset = 0%Z ->
            (Z.of_nat (List.length (filter (wanted_action a)
                                           (statistics_rows (db w))))
             <= limit)%Z ->
            Permutation page (filter (wanted_action a)
                                     (statistics_rows (db w))))).
Proof.
  intros H. cbv zeta.
  assert (Hl : get_statistics_with_filters_statement
                 a (Some (CUSTOM_LIST ++ payload)) limit offset
               = get_statistics_with_filters_statement a None limit offset).
  { unfold get_statistics_with_filters_statement.
    now rewrite filter_conditions_blank. }
  assert (Hc : get_statistics_count_statement a (Some (CUSTOM_LIST ++ payload))
               = get_statistics_count_statement a None).
  { unfold get_statistics_count_statement.
    now rewrite filter_conditions_blank. }
  assert (Hf : filter (fun r => wanted_action a r && wanted_user None r)
                      (statistics_rows (db w))
               = filter (wanted_action a) (statistics_rows (db w))).
  { apply filter_ext. intros r. simpl. apply andb_true_r. }
  assert (Hg : get_statistics_with_filters a (Some (CUSTOM_LIST ++ payload))
                 limit offset w
               = get_statistics_with_filters a None limit offset w).
  { unfold get_statistics_with_filters. now rewrite Hl. }
  assert (Hk : get_statistics_count a (Some (CUSTOM_LIST ++ payload)) w
               = get_statistics_count a None w).
  { unfold get_statistics_count. now rewrite Hc. }
  assert (H0 : classify None <> Active) by discriminate.
  split; [exact Hl|]. split; [exact Hc|]. split; [exact Hg|].
  split; [exact Hk|]. split.
  - intros Hr Hfa Ht. rewrite Hk, <- Hf.
    now apply get_statistics_count_value with (t := t).
  - intros Hr Hfa Ht Hm Hlim Hoff. rewrite Hg, <- Hf.
    destruct (@get_statistics_with_filters_rows w a None limit offset t
                H0 Hr Hfa Ht Hm Hlim Hoff) as [page [P1 [P2 P3]]].
    exists page. split; [exact P1|]. split; [|exact P3].
    intros r Hin. destruct (P2 r Hin) as [I W]. split; [exact I|].
    simpl in W. now rewrite andb_true_r in W.
Qed.

Lemma blank_custom_list_witness :
  blank_entries (lit " , ,") = true
  /\ fst (get_statistics_count None (Some (CUSTOM_LIST ++ lit " , ,"))
                               sample_world) = Return 2%Z
  /\ fst (get_statistics_count (Some (lit "view"))
                               (Some (CUSTOM_LIST ++ lit " , ,"))
                               sample_world) = Return 1%Z.
Proof.
  split; [reflexivity|]. split.
  - destruct (@blank_custom_list_is_no_filter None (lit " , ,") 50 0
                sample_world ddl_statistics eq_refl)
      as [_ [_ [_ [_ [C _]]]]].
    rewrite C by reflexivity. reflexivity.
  - destruct (@blank_custom_list_is_no_filter (Some (lit "view")) (lit " , ,")
                50 0 sample_world ddl_statistics eq_refl)
      as [_ [_ [_ [_ [C _]]]]].
    rewrite C by reflexivity. reflexivity.
Defined.

(** C4 as stated fails on an empty list: for the filter
    ['CUSTOM_LIST:'] the statement keeps, and the count counts, a row
    that is a member of no list. *)
Lemma claimed_selection_fails :
  matching_rows (get_statistics_count_statement None (Some CUSTOM_LIST))
                [sample_row] = Some [sample_row]
  /\ filter (fun r => wanted_action None r && claimed_user (Some CUSTOM_LIST) r)
            [sample_row] = []
  /\ fst (get_statistics_count None (Some CUSTOM_LIST) sample_world)
     = Return 2%Z
  /\ List.length
       (filter (fun r => wanted_action None r
                         && claimed_user (Some CUSTOM_LIST) r)
               (statistics_rows (db sample_world))) = 0%nat.
Proof. repeat split. Qed.

End Filters.

(* ================================================================== *)
(** * What the functions of the access layer return and send *)
(* ================================================================== *)

Module Access.
Import Py.
Import AdminDb.
Import Filters.

(** ** Worlds and stores used in the examples *)

Definition no_environ : environ := Environ None None None None.

(** A world with the store [s] in reach, at the clock [t]. *)
Definition world_at (t : Z) (s : store) : env :=
  Env no_environ true None t s None [].

Definition world (s : store) : env := world_at 0 s.

Definition owner_x : str := Eval vm_compute in lit "u@x.com".

Definition empty_store : store := Db None [] None [] 0 None [] 0.

(** The three relations as [db.py] creates them, without rows. *)
Definition target_store : store :=
  Db (Some ddl_users) [] (Some ddl_images) [] 0 (Some ddl_statistics) [] 0.

(** The same with one registered user. *)
Definition one_user : store :=
  Db (Some ddl_users) [UserRow owner_x (lit "hash") 0]
     (Some ddl_images) [] 0 (Some ddl_statistics) [] 0.

(** A store where [images] has not been created. *)
Definition no_images : store := Db (Some ddl_users) [] None [] 0 None [] 0.

(** 2025-01-01 00:00:00 and a quarter of a second later. *)
Definition t_upload : Z := 63871372800000000.
Definition t_call : Z := 63871372800250000.

Definition upload_world : env := world_at t_call one_user.

(** The world [w] with the store out of reach. *)
Definition offline (w : env) : env :=
  Env (getenv w) false (fault w) (clock w) (db w) (pending w) (sent w).

(** The world [w] with a store that fails every statement with [e]. *)
Definition failing (e : exn) (w : env) : env :=
  Env (getenv w) (reachable w) (Some e) (clock w) (db w) (pending w) (sent w).

(** The statements a call gives to [cursor.execute]. *)
Definition sent_by {A : Type} (c : M A) (w : env) : list statement :=
  skipn (List.length (sent w)) (sent (snd (c w))).

(** What is left of a user filter when its characters are forgotten. *)
Inductive user_kind : Type :=
| KNone | KGuest | KActive | KList (n : nat) | KExact.

Definition kind_of (c : user_case) : user_kind :=
  match c with
  | NoUser | CustomEmpty => KNone
  | Guest => KGuest
  | Active => KActive
  | Custom x l => KList (S (List.length l))
  | Exact _ => KExact
  end.

Definition kind_conditions (k : user_kind) : list str :=
  match k with
  | KNone => []
  | KGuest => [cond_guest]
  | KActive => [cond_active]
  | KList n => [cond_in n]
  | KExact => [cond_user_email]
  end.

(** The texts of the statistics statements: one for each choice of
    view, of action filter present or not, and of kind of user filter. *)
Definition statistics_template (paged has_action : bool) (k : user_kind) : str :=
  add_where (if paged then sql_statistics_list else sql_statistics_count)
            ((if has_action then [cond_action_type] else []) ++ kind_conditions k)
  ++ (if paged then sql_page_tail else []).

(** The relation [users] has the columns [register_user] writes and
    [email] as its key. *)
Definition users_ready (s : store) : bool :=
  match users_table s with
  | Some t =>
    has_column c_email t && has_column c_password_hash t &&
    opt_str_eqb (t_primary_key t) (Some c_email)
  | None => false
  end.

(** The number of rows of [users] with this address. *)
Definition rows_of (email : str) (s : store) : nat :=
  List.length (filter (fun u => str_eqb (u_email u) email) (users_rows s)).

Lemma skipn_sent (l x : list statement) : skipn (List.length l) (l ++ x) = x.
Proof. induction l; simpl; auto. Qed.

Lemma skipn_same (l : list statement) : skipn (List.length l) l = [].
Proof. induction l; simpl; auto. Qed.

Ltac split_match :=
  match goal with
  | |- context [match ?x with _ => _ end] =>
    lazymatch x with
    | context [match _ with _ => _ end] => fail
    | _ => destruct x eqn:?
    end
  end.

Ltac crush_sent :=
  unfold sent_by;
  match goal with w : env |- _ => destruct w as [? ? ? ? ? ? ?] end;
  run_monad; repeat (split_match; run_monad);
  rewrite <- ?app_assoc, ?skipn_sent, ?skipn_same; try reflexivity.

(** ** Failures *)

Lemma try_except_default {A : Type} (c : M A) (d : A) (w : env) :
  exists v w', try_except c (fun _ => ret d) w = (Return v, w').
Proof.
  unfold try_except. destruct (c w) as [[v|e] w']; do 2 eexists; reflexivity.
Qed.

Lemma try_except_raises {A : Type} (c : M A) (d : A) (w w' : env) (e : exn) :
  c w = (Raise e, w') -> fst (try_except c (fun _ => ret d) w) = Return d.
Proof. intros H. unfold try_except. now rewrite H. Qed.

(** C1, amended. With the store out of reach the read operations of
    [db.py] return their empty value ([[]], [0], [None]) and
    [save_image] and [delete_image] return [False], the world
    unchanged. [get_statistics_with_filters], [get_statistics_count]
    and [log_statistics] never raise: whatever the world they return a
    list, a count and a boolean, and these are [[]], [0] and [False]
    when the store is out of reach and when it fails the statement.
    (An error of the statement in the functions of [db.py] is not
    caught there: see [statement_errors_escape].) *)
Theorem failure_outcomes (w : env) (e : exn) (page per_page : Z) (sort_by : str)
  (image_id : Z) (email filename original_name file_type : str)
  (size upload_time storage_days : Z) (owner action_type_filter user_filter : option str)
  (limit offset : Z) (action_type : str) (file_id : option Z)
  (ip_address user_agent additional_info : option str) :
  get_images_list page per_page sort_by (offline w) = (Return [], offline w)
  /\ get_total_images (offline w) = (Return 0%Z, offline w)
  /\ get_image_by_id image_id (offline w) = (Return None, offline w)
  /\ get_user_images email page per_page (offline w) = (Return [], offline w)
  /\ get_expired_images (offline w) = (Return [], offline w)
  /\ save_image filename original_name size upload_time file_type owner
                storage_days (offline w) = (Return false, offline w)
  /\ delete_image image_id (offline w) = (Return false, offline w)
  /\ (exists rows, fst (get_statistics_with_filters action_type_filter
                          user_filter limit offset w) = Return rows)
  /\ fst (get_statistics_with_filters action_type_filter user_filter limit
            offset (offline w)) = Return []
  /\ fst (get_statistics_with_filters action_type_filter user_filter limit
            offset (failing e w)) = Return []
  /\ (exists n, fst (get_statistics_count action_type_filter user_filter w)
                = Return n)
  /\ fst (get_statistics_count action_type_filter user_filter (offline w))
     = Return 0%Z
  /\ fst (get_statistics_count action_type_filter user_filter (failing e w))
     = Return 0%Z
  /\ (exists b, fst (log_statistics action_type owner file_id ip_address
                       user_agent additional_info w) = Return b)
  /\ fst (log_statistics action_type owner file_id ip_address user_agent
            additional_info (offline w)) = Return false
  /\ fst (log_statistics action_type owner file_id ip_address user_agent
            additional_info (failing e w)) = Return false.
Proof.
  repeat match goal with |- _ /\ _ => split end; try reflexivity.
  - unfold get_statistics_with_filters.
    match goal with |- context [try_except ?c ?h w] =>
      destruct (try_except_default c [] w) as [v [w' H]] end.
    exists v. now rewrite H.
  - unfold get_statistics_with_filters, try_except, bind, connect_db, failing.
    cbn. destruct (reachable w); reflexivity.
  - unfold get_statistics_count.
    match goal with |- context [try_except ?c ?h w] =>
      destruct (try_except_default c 0%Z w) as [v [w' H]] end.
    exists v. now rewrite H.
  - unfold get_statistics_count, try_except, bind, connect_db, failing.
    cbn. destruct (reachable w); reflexivity.
  - unfold log_statistics.
    match goal with |- context [try_except ?c ?h w] =>
      destruct (try_except_default c false w) as [v [w' H]] end.
    exists v. now rewrite H.
  - unfold log_statistics, try_except, bind, connect_db, failing.
    cbn. destruct (reachable w); [|reflexivity].
    destruct owner as [u|]; [destruct (nonempty u)|]; reflexivity.
Qed.

(** C1 as stated fails: with the store in reach, an error of the
    statement leaves [get_images_list] (no relation [images]; a page
    number of zero) and [save_image] (an owner who is not a user) as an
    exception. *)
Lemma statement_errors_escape :
  fst (get_images_list 1 10 c_upload_time (world no_images))
  = Raise (UndefinedTable (relation_name Images))
  /\ fst (get_images_list 0 10 c_upload_time (world target_store))
     = Raise SyntaxOrDataError
  /\ fst (save_image (lit "f.png") (lit "f.png") 10 5 (lit "png")
                     (Some (lit "ghost@x.com")) 30 (world target_store))
     = Raise (ForeignKeyViolation (lit "images_user_email_fkey")).
Proof. repeat split; vm_compute; reflexivity. Qed.

(** ** Statements sent *)

Lemma user_conditions_kind (c : user_case) :
  user_conditions c = kind_conditions (kind_of c).
Proof. destruct c; reflexivity. Qed.

Lemma list_statement_template (a u : option str) (limit offset : Z) :
  get_statistics_with_filters_statement a u limit offset
  = Statement (statistics_template true (truthy a) (kind_of (classify u)))
              (action_params a ++ user_params (classify u)
               ++ [PInt limit; PInt offset]).
Proof.
  unfold get_statistics_with_filters_statement, statistics_template.
  rewrite filter_conditions_cases, user_conditions_kind, <- app_assoc.
  reflexivity.
Qed.

Lemma count_statement_template (a u : option str) :
  get_statistics_count_statement a u
  = Statement (statistics_template false (truthy a) (kind_of (classify u)))
              (action_params a ++ user_params (classify u)).
Proof.
  unfold get_statistics_count_statement, statistics_template.
  rewrite filter_conditions_cases, user_conditions_kind, app_nil_r.
  reflexivity.
Qed.

Lemma sent_get_user_images (email : str) (page per_page : Z) (w : env) :
  sent_by (get_user_images email page per_page) w
  = if reachable w
    then [Statement sql_user_images
                    [PStr email; PInt per_page;
                     PInt ((page - 1) * per_page)]]
    else [].
Proof. unfold get_user_images. crush_sent. Qed.

Lemma sent_get_image_by_id (image_id : Z) (w : env) :
  sent_by (get_image_by_id image_id) w
  = if reachable w then [Statement sql_image_by_id [PInt image_id]] else [].
Proof. unfold get_image_by_id. crush_sent. Qed.

Lemma sent_delete_image (image_id : Z) (w : env) :
  sent_by (delete_image image_id) w
  = if reachable w then [Statement sql_delete_image [PInt image_id]] else [].
Proof. unfold delete_image. crush_sent. Qed.

Lemma sent_get_total_images (w : env) :
  sent_by get_total_images w
  = if reachable w then [Statement sql_count_images []] else [].
Proof. unfold get_total_images. crush_sent. Qed.

Lemma sent_get_expired_images (w : env) :
  sent_by get_expired_images w
  = if reachable w then [Statement sql_expired_images [PTime (clock w)]] else [].
Proof. unfold get_expired_images. crush_sent. Qed.

Lemma sent_get_statistics_with_filters (a u : option str) (limit offset : Z)
  (w : env) :
  sent_by (get_statistics_with_filters a u limit offset) w
  = if reachable w
    then [Statement (statistics_template true (truthy a) (kind_of (classify u)))
                    (action_params a ++ user_params (classify u)
                     ++ [PInt limit; PInt offset])]
    else [].
Proof.
  unfold get_statistics_with_filters. rewrite list_statement_template.
  crush_sent.
Qed.

Lemma sent_get_statistics_count (a u : option str) (w : env) :
  sent_by (get_statistics_count a u) w
  = if reachable w
    then [Statement (statistics_template false (truthy a) (kind_of (classify u)))
                    (action_params a ++ user_params (classify u))]
    else [].
Proof.
  unfold get_statistics_count. rewrite count_statement_template.
  crush_sent.
Qed.

Lemma sent_save_image (filename original_name : str) (size upload_time : Z)
  (file_type : str) (user_email : option str) (storage_days : Z) (w : env) :
  Forall (fun st => text st = sql_save_image
                    /\ firstn 6 (params st)
                       = [PStr filename; PStr original_name; PInt size;
                          PTime upload_time; PStr file_type;
                          opt_param user_email])
         (sent_by (save_image filename original_name size upload_time file_type
                              user_email storage_days) w).
Proof.
  unfold save_image. crush_sent; repeat constructor.
Qed.

Lemma sent_log_statistics (action_type : str) (user_email : option str)
  (file_id : option Z) (ip_address user_agent additional_info : option str)
  (w : env) :
  Forall (fun st => In (text st) [sql_user_by_email; sql_log_statistics])
         (sent_by (log_statistics action_type user_email file_id ip_address
                                  user_agent additional_info) w).
Proof.
  unfold log_statistics. crush_sent;
    repeat first [apply Forall_nil | apply Forall_cons; [simpl; auto|]].
Qed.

Lemma sent_register_user (sha : str -> str) (email password : str) (w : env) :
  Forall (fun st => In (text st) [sql_user_by_email; sql_insert_user])
         (sent_by (register_user sha email password) w).
Proof.
  unfold register_user. crush_sent;
    repeat first [apply Forall_nil | apply Forall_cons; [simpl; auto|]].
Qed.

Lemma sort_column_allowed (page per_page : Z) (sort_by : str) :
  In (get_images_list_query page per_page sort_by)
     (map (get_images_list_query page per_page) allowed_columns).
Proof.
  assert (H : forall c, In c allowed_columns ->
                        str_in c allowed_columns = true).
  { intros c Hc. unfold str_in. apply existsb_exists. exists c.
    split; [exact Hc | apply str_eqb_refl]. }
  destruct (str_in sort_by allowed_columns) eqn:E.
  - unfold str_in in E. apply existsb_exists in E as [c [Hc Hs]].
    apply str_eqb_eq in Hs. subst c. now apply in_map.
  - replace (get_images_list_query page per_page sort_by)
      with (get_images_list_query page per_page c_upload_time).
    + apply in_map. simpl. auto.
    + unfold get_images_list_query. now rewrite E.
Qed.

(** C2, amended. Every value the caller supplies reaches the store
    through the list of bound parameters, and the text of the statement
    is fixed by the function, in [get_user_images], [get_image_by_id],
    [delete_image], [get_total_images], [get_expired_images],
    [save_image], [register_user] and [log_statistics]; in
    [get_statistics_with_filters] and [get_statistics_count] the text is
    fixed by the view, by whether an action filter is present and by the
    kind of the user filter (for a custom list: the number of entries
    kept, one placeholder for each, so the texts are not finitely many).
    In [get_images_list] the sort column is written into the text, and
    it is always one of the four allowed columns. *)
Theorem values_are_bound (sha : str -> str) (w : env) (email password : str)
  (page per_page image_id : Z) (sort_by filename original_name file_type : str)
  (size upload_time storage_days : Z)
  (owner action_type_filter user_filter : option str) (limit offset : Z)
  (action_type : str) (file_id : option Z)
  (ip_address user_agent additional_info : option str) :
  sent_by (get_user_images email page per_page) w
  = (if reachable w
     then [Statement sql_user_images
                     [PStr email; PInt per_page; PInt ((page - 1) * per_page)]]
     else [])
  /\ sent_by (get_image_by_id image_id) w
     = (if reachable w then [Statement sql_image_by_id [PInt image_id]] else [])
  /\ sent_by (delete_image image_id) w
     = (if reachable w then [Statement sql_delete_image [PInt image_id]] else [])
  /\ sent_by get_total_images w
     = (if reachable w then [Statement sql_count_images []] else [])
  /\ sent_by get_expired_images w
     = (if reachable w then [Statement sql_expired_images [PTime (clock w)]]
        else [])
  /\ sent_by (get_statistics_with_filters action_type_filter user_filter
                limit offset) w
     = (if reachable w
        then [Statement
                (statistics_template true (truthy action_type_filter)
                                     (kind_of (classify user_filter)))
                (action_params action_type_filter
                 ++ user_params (classify user_filter)
                 ++ [PInt limit; PInt offset])]
        else [])
  /\ sent_by (get_statistics_count action_type_filter user_filter) w
     = (if reachable w
        then [Statement
                (statistics_template false (truthy action_type_filter)
                                     (kind_of (classify user_filter)))
                (action_params action_type_filter
                 ++ user_params (classify user_filter))]
        else [])
  /\ Forall (fun st => text st = sql_save_image
                       /\ firstn 6 (params st)
                          = [PStr filename; PStr original_name; PInt size;
                             PTime upload_time; PStr file_type;
                             opt_param owner])
            (sent_by (save_image filename original_name size upload_time
                                 file_type owner storage_days) w)
  /\ Forall (fun st => In (text st) [sql_user_by_email; sql_insert_user])
            (sent_by (register_user sha email password) w)
  /\ Forall (fun st => In (text st) [sql_user_by_email; sql_log_statistics])
            (sent_by (log_statistics action_type owner file_id ip_address
                                     user_agent additional_info) w)
  /\ In (get_images_list_query page per_page sort_by)
        (map (get_images_list_query page per_page) allowed_columns).
Proof.
  split; [apply sent_get_user_images|].
  split; [apply sent_get_image_by_id|].
  split; [apply sent_delete_image|].
  split; [apply sent_get_total_images|].
  split; [apply sent_get_expired_images|].
  split; [apply sent_get_statistics_with_filters|].
  split; [apply sent_get_statistics_count|].
  split; [apply sent_save_image|].
  split; [apply sent_register_user|].
  split; [apply sent_log_statistics|].
  apply sort_column_allowed.
Qed.

(** C2 as stated fails: [get_images_list] writes the page size and the
    offset into the text and binds nothing, and the text of a custom
    list grows with the list. *)
Lemma values_in_the_text :
  sent_by (get_images_list 1 10 c_upload_time) (world empty_store)
  = [Statement (lit "SELECT * FROM images ORDER BY upload_time DESC LIMIT 10 OFFSET 0") []]
  /\ sent_by (get_images_list 3 20 c_upload_time) (world empty_store)
     = [Statement (lit "SELECT * FROM images ORDER BY upload_time DESC LIMIT 20 OFFSET 40") []]
  /\ text (get_statistics_count_statement None (Some (lit "CUSTOM_LIST:a")))
     = lit "SELECT COUNT(*) FROM statistics WHERE user_email IN (%s)"
  /\ text (get_statistics_count_statement None (Some (lit "CUSTOM_LIST:a,b")))
     = lit "SELECT COUNT(*) FROM statistics WHERE user_email IN (%s,%s)".
Proof. repeat split; vm_compute; reflexivity. Qed.

(** ** Expiry of an image *)

Lemma insert_image_rows (filename original_name : str) (size upload_time : Z)
  (file_type : str) (owner : option str) (expires : option Z) (s s' : store) :
  insert_image filename original_name size upload_time file_type owner expires s
  = Return s' ->
  images_rows s'
  = images_rows s ++
    [ImageRow (images_serial s + 1) filename original_name size upload_time
              file_type owner expires]
  /\ users_rows s' = users_rows s.
Proof.
  unfold insert_image.
  destruct (images_table s); [|discriminate].
  destruct (missing_column _ _); [discriminate|].
  destruct (negb (in_int4 size)); [discriminate|].
  destruct (broken_fk _ _ _); [discriminate|].
  intros H. injection H as <-. split; reflexivity.
Qed.

(** C7, amended. When [save_image] stores a row, the row has the
    arguments of the call as its columns, and its [expiration_date] is,
    for a non-empty owner, the clock read inside the call
    ([datetime.now()]) plus [storage_days] days exactly, whatever the
    [upload_time] argument; for an absent (or empty) owner it is NULL. *)
Theorem save_image_expiration (w w' : env) (filename original_name : str)
  (size upload_time : Z) (file_type : str) (owner : option str)
  (storage_days : Z) :
  save_image filename original_name size upload_time file_type owner
             storage_days w = (Return true, w') ->
  images_rows (db w')
  = images_rows (db w) ++
    [ImageRow (images_serial (db w) + 1) filename original_name size
              upload_time file_type owner
              (if truthy owner
               then Some (clock w + storage_days * microseconds_per_day)%Z
               else None)].
Proof.
  unfold save_image. destruct w as [cfg r f clk s p l]. run_monad.
  destruct r; [|discriminate].
  destruct (truthy owner); run_monad.
  - unfold timedelta_days.
    destruct (Z.abs storage_days <=? 999999999)%Z; [|discriminate].
    unfold datetime_add. run_monad.
    destruct ((0 <=? _) && _)%Z; [|discriminate]. run_monad.
    destruct f; [discriminate|].
    destruct (insert_image _ _ _ _ _ _ _ _) eqn:E; [|discriminate].
    intros H. injection H as <-. cbn [db]. now apply insert_image_rows in E.
  - destruct f; [discriminate|].
    destruct (insert_image _ _ _ _ _ _ _ _) eqn:E; [|discriminate].
    intros H. injection H as <-. cbn [db]. now apply insert_image_rows in E.
Qed.

Lemma save_image_expiration_witness :
  fst (save_image (lit "a.png") (lit "a.png") 10 t_upload (lit "png")
                  (Some owner_x) 30 upload_world) = Return true
  /\ images_rows (db (snd (save_image (lit "a.png") (lit "a.png") 10 t_upload
                                      (lit "png") (Some owner_x) 30
                                      upload_world)))
     = images_rows (db upload_world) ++
       [ImageRow (images_serial (db upload_world) + 1) (lit "a.png")
                 (lit "a.png") 10 t_upload (lit "png") (Some owner_x)
                 (if truthy (Some owner_x)
                  then Some (clock upload_world + 30 * microseconds_per_day)%Z
                  else None)].
Proof.
  split; [vm_compute; reflexivity|].
  apply (@save_image_expiration upload_world _ (lit "a.png") (lit "a.png") 10
           t_upload (lit "png") (Some owner_x) 30).
  vm_compute; reflexivity.
Defined.

(** C7 as stated fails: the row stored by a call made a quarter of a
    second after the upload time it is given expires thirty days after
    the call, not thirty days after its [upload_time]. *)
Lemma expiration_is_not_from_upload_time :
  map (fun i => (i_upload_time i, i_expiration_date i))
      (images_rows (db (snd (save_image (lit "a.png") (lit "a.png") 10 t_upload
                                        (lit "png") (Some owner_x) 30
                                        upload_world))))
  = [(t_upload, Some (t_call + 30 * microseconds_per_day)%Z)]
  /\ (t_upload + 30 * microseconds_per_day
      =? t_call + 30 * microseconds_per_day)%Z = false.
Proof. split; vm_compute; reflexivity. Qed.

(** ** Registration *)

Lemma find_user_known (email : str) (l : list users_row) :
  existsb (fun u => str_eqb (u_email u) email) l = false ->
  find (fun u => str_eqb (u_email u) email) l = None.
Proof.
  induction l as [|u l IH]; simpl; [reflexivity|].
  destruct (str_eqb (u_email u) email); [discriminate|]. exact IH.
Qed.

Lemma filter_unknown (email : str) (l : list users_row) :
  existsb (fun u => str_eqb (u_email u) email) l = false ->
  filter (fun u => str_eqb (u_email u) email) l = [].
Proof.
  induction l as [|u l IH]; simpl; [reflexivity|].
  destruct (str_eqb (u_email u) email); [discriminate|]. exact IH.
Qed.

Lemma find_app_new (email h : str) (t : Z) (l : list users_row) :
  exists r, find (fun x => str_eqb (u_email x) email)
                 (l ++ [UserRow email h t]) = Some r.
Proof.
  induction l as [|x l IH]; simpl.
  - rewrite str_eqb_refl. eauto.
  - destruct (str_eqb (u_email x) email); eauto.
Qed.

Lemma not_known_not_in (email : str) (l : list users_row) :
  existsb (fun u => str_eqb (u_email u) email) l = false ->
  ~ In email (map u_email l).
Proof.
  induction l as [|u l IH]; simpl; [tauto|].
  intros H. apply orb_false_iff in H as [Hu Hl].
  intros [E|E]; [|now apply IH].
  rewrite E, str_eqb_refl in Hu. discriminate.
Qed.

Lemma NoDup_snoc (x : str) (l : list str) :
  NoDup l -> ~ In x l -> NoDup (l ++ [x]).
Proof.
  induction l as [|y l IH]; simpl; intros Hl Hx.
  - constructor; [tauto | constructor].
  - inversion Hl as [|? ? Hy Hl']; subst. constructor.
    + rewrite in_app_iff. simpl. intros [H|[H|[]]]; [tauto|].
      apply Hx. now left.
    + apply IH; [assumption | tauto].
Qed.

Section Registration.

Variable sha256_hexdigest : str -> str.

Lemma register_user_new (w : env) (email password : str) :
  reachable w = true -> fault w = None ->
  str_in email (admin_emails_of (getenv w)) = false ->
  users_ready (db w) = true ->
  user_known email (db w) = false ->
  register_user sha256_hexdigest email password w
  = (Return (true, msg_registered),
     Env (getenv w) true None (clock w)
         (set_users_rows
            (users_rows (db w) ++
             [UserRow email (sha256_hexdigest password) (clock w)]) (db w))
         None
         ((sent w ++ [Statement sql_user_by_email [PStr email]]) ++
          [Statement sql_insert_user
                     [PStr email; PStr (sha256_hexdigest password)]])).
Proof.
  intros Hr Hf Ha Hu Hk.
  destruct w as [cfg r f clk s p l]. cbn in Hr, Hf, Ha, Hu, Hk. subst r f.
  unfold users_ready in Hu. destruct (users_table s) as [t|] eqn:Ht;
    [|discriminate].
  apply andb_true_iff in Hu as [Hu Hpk]. apply andb_true_iff in Hu as [Hc1 Hc2].
  unfold register_user. cbn [getenv]. rewrite Ha. run_monad.
  unfold select_user. rewrite Ht.
  unfold user_known in Hk. rewrite (find_user_known _ _ Hk).
  unfold insert_user. rewrite Ht. cbn [missing_column]. rewrite Hc1, Hc2.
  unfold user_known. cbn [u_email]. rewrite Hk, andb_false_r.
  reflexivity.
Qed.

(** ** Calls that run at the same time *)

(** [register_user] up to and with its SELECT: the outcome when the
    call ends there, [None] when the INSERT is next. *)
Definition register_lookup (email password : str) : M (option (bool * str)) :=
  fun w =>
  let admin_emails := admin_emails_of (getenv w) in
  let refused :=
    if str_in email admin_emails then
      let admin_password := ADMIN_PASSWORD (getenv w) in
      if negb (truthy admin_password) then Some msg_admin_password_unset
      else if negb (opt_str_eqb (Some password) admin_password)
      then Some msg_admin_mismatch
      else None
    else None in
  match refused with
  | Some msg => (Return (Some (false, msg)), w)
  | None =>
    (conn <- connect_db ;;
     match conn with
     | None => ret (Some (false, msg_no_connection))
     | Some _ =>
       cursor conn ;;;
       found <- fetch (Statement sql_user_by_email [PStr email])
                      (select_user email) ;;
       match found with
       | Some _ => ret (Some (false, msg_already_exists))
       | None => ret None
       end
     end) w
  end.

(** The rest of [register_user]: the INSERT, with its commit or its
    rollback. Where another call has inserted the same address and not
    yet committed, the store makes the INSERT wait for that commit, so
    that no step of another call comes between the INSERT and the
    commit before it. *)
Definition register_insert (email password : str) : M (bool * str) :=
  let password_hash := sha256_hexdigest password in
  try_except
    (t <- now ;;
     execute (Statement sql_insert_user [PStr email; PStr password_hash])
             (insert_user [c_email; c_password_hash]
                          (UserRow email password_hash t)) ;;;
     commit ;;;
     ret (true, msg_registered))
    (fun e =>
       rollback ;;;
       ret (false, msg_registration_error ++ str_of_exn e)).

(** The two steps one after the other are the function. *)
Lemma register_user_steps (email password : str) (w : env) :
  register_user sha256_hexdigest email password w
  = (found <- register_lookup email password ;;
     match found with
     | Some outcome => ret outcome
     | None => register_insert email password
     end) w.
Proof.
  unfold register_user, register_lookup, register_insert, bind.
  destruct (if str_in email (admin_emails_of (getenv w)) then _ else _);
    [reflexivity|].
  unfold connect_db. destruct (reachable w); [|reflexivity].
  unfold cursor, ret, fetch.
  destruct (fault w); [reflexivity|].
  destruct (select_user email (db w)) as [[u|]|e]; reflexivity.
Qed.

(** Two calls for one address whose SELECTs both come before the
    first INSERT. *)
Definition race (email password1 password2 : str)
  : M ((bool * str) * (bool * str)) :=
  found1 <- register_lookup email password1 ;;
  found2 <- register_lookup email password2 ;;
  outcome1 <- match found1 with
              | Some outcome => ret outcome
              | None => register_insert email password1
              end ;;
  outcome2 <- match found2 with
              | Some outcome => ret outcome
              | None => register_insert email password2
              end ;;
  ret (outcome1, outcome2).

(** A step of some call of [register_user]. *)
Inductive action : Type :=
| Lookup (email password : str)
| Insert (email password : str).

Definition act (a : action) (w : env) : env :=
  match a with
  | Lookup email password => snd (register_lookup email password w)
  | Insert email password => snd (register_insert email password w)
  end.

(** Steps of any calls in any order. The calls of [register_user] that
    run at the same time give such a list, each call its [Lookup] and,
    when that found nothing, later its [Insert]. *)
Definition interleaved (l : list action) (w : env) : env :=
  fold_left (fun w a => act a w) l w.

(** What every step keeps: the key of [users], no statement left
    uncommitted and no address twice. *)
Definition unique_users (w : env) : Prop :=
  users_ready (db w) = true /\ pending w = None
  /\ NoDup (map u_email (users_rows (db w))).

Lemma register_lookup_db (email password : str) (w : env) :
  db (snd (register_lookup email password w)) = db w
  /\ pending (snd (register_lookup email password w)) = pending w.
Proof.
  destruct w as [cfg r f clk s p l]. unfold register_lookup. cbn [getenv].
  destruct (if str_in email (admin_emails_of cfg) then _ else _);
    [split; reflexivity|].
  run_monad. destruct r; run_monad; [|split; reflexivity].
  destruct f; run_monad; [split; reflexivity|].
  destruct (select_user email s) as [[u|]|e]; split; reflexivity.
Qed.

Lemma register_insert_unique (email password : str) (w : env) :
  unique_users w -> unique_users (snd (register_insert email password w)).
Proof.
  intros [Hu [Hp Hn]]. destruct w as [cfg r f clk s p l].
  cbn [db pending] in *. subst p.
  unfold register_insert. run_monad.
  destruct f; run_monad; [repeat split; assumption|].
  unfold insert_user.
  pose proof Hu as Hu'. unfold users_ready in Hu'.
  destruct (users_table s) as [t|] eqn:Ht; [|discriminate].
  apply andb_true_iff in Hu' as [Hc Hpk].
  destruct (missing_column _ t); run_monad; [repeat split; assumption|].
  rewrite Hpk. cbn [andb u_email].
  destruct (user_known email s) eqn:Hk; run_monad;
    [repeat split; assumption|].
  unfold unique_users, users_ready, set_users_rows.
  cbn [db pending users_table users_rows]. rewrite Ht.
  split; [now apply andb_true_iff|]. split; [reflexivity|].
  rewrite map_app. cbn [map u_email].
  apply NoDup_snoc; [exact Hn | now apply not_known_not_in].
Qed.

Lemma act_unique (a : action) (w : env) :
  unique_users w -> unique_users (act a w).
Proof.
  destruct a as [email password|email password]; cbn [act].
  - intros [Hu [Hp Hn]]. unfold unique_users.
    destruct (register_lookup_db email password w) as [-> ->]. auto.
  - apply register_insert_unique.
Qed.

Lemma interleaved_unique (l : list action) (w : env) :
  unique_users w -> unique_users (interleaved l w).
Proof.
  revert w. induction l as [|a l IH]; intros w H; [exact H|].
  cbn [interleaved fold_left]. apply IH. now apply act_unique.
Qed.

(** C9. Registering the same address twice, the address being neither
    an administrator address nor registered yet and the store being in
    reach and sound: the first call returns [(True, ...)] and its row
    is committed, the second returns
    [(False, 'Пользователь с таким email уже существует')], and exactly
    one row of [users] has the address afterwards. When the two calls
    run at the same time and both look the address up before either
    inserts it, the key of [users] refuses the second INSERT: that call
    returns [(False, 'Ошибка при регистрации: ...')] and again one row
    has the address. And whatever calls run, their steps in whatever
    order: no address has two rows at any time. *)
Theorem register_twice (w : env) (email password1 password2 : str) :
  reachable w = true -> fault w = None ->
  str_in email (admin_emails_of (getenv w)) = false ->
  users_ready (db w) = true ->
  user_known email (db w) = false ->
  pending w = None ->
  NoDup (map u_email (users_rows (db w))) ->
  let w1 := snd (register_user sha256_hexdigest email password1 w) in
  let w2 := snd (register_user sha256_hexdigest email password2 w1) in
  fst (register_user sha256_hexdigest email password1 w)
  = Return (true, msg_registered)
  /\ rows_of email (db w1) = 1%nat
  /\ db (snd (rollback w1)) = db w1
  /\ fst (register_user sha256_hexdigest email password2 w1)
     = Return (false, msg_already_exists)
  /\ rows_of email (db w2) = 1%nat
  /\ NoDup (map u_email (users_rows (db w2)))
  /\ fst (race email password1 password2 w)
     = Return ((true, msg_registered),
               (false, msg_registration_error
                       ++ str_of_exn (UniqueViolation k_users_pkey)))
  /\ rows_of email (db (snd (race email password1 password2 w))) = 1%nat
  /\ (forall l, NoDup (map u_email (users_rows (db (interleaved l w))))).
Proof.
  intros Hr Hf Ha Hu Hk Hp Hnd. cbv zeta.
  rewrite (register_user_new w email password1 Hr Hf Ha Hu Hk).
  cbn [fst snd]. split; [reflexivity|].
  assert (R1 : rows_of email
                 (set_users_rows
                    (users_rows (db w) ++
                     [UserRow email (sha256_hexdigest password1) (clock w)])
                    (db w)) = 1%nat).
  { unfold rows_of, set_users_rows. cbn [users_rows].
    rewrite filter_app. unfold user_known in Hk. rewrite (filter_unknown _ _ Hk).
    cbn. now rewrite str_eqb_refl. }
  split; [exact R1|]. split; [reflexivity|].
  assert (I : forall l, unique_users (interleaved l w))
    by (intros l; apply interleaved_unique; repeat split; assumption).
  destruct w as [cfg r f clk s p l].
  cbn [getenv reachable fault db clock sent pending] in *.
  subst r f p.
  pose proof Hu as Hu'. unfold users_ready in Hu'.
  destruct (users_table s) as [t|] eqn:Ht; [|discriminate].
  apply andb_true_iff in Hu' as [Hc Hpk]. apply andb_true_iff in Hc as [Hc1 Hc2].
  assert (F0 : find (fun u => str_eqb (u_email u) email) (users_rows s) = None)
    by (apply find_user_known; exact Hk).
  assert (K1 : existsb (fun u => str_eqb (u_email u) email)
                 (users_rows s ++
                  [UserRow email (sha256_hexdigest password1) clk]) = true).
  { rewrite existsb_app. cbn. rewrite str_eqb_refl. apply orb_true_r. }
  split.
  { unfold register_user. cbn [getenv]. rewrite Ha. run_monad.
    unfold select_user. cbn [users_table set_users_rows users_rows]. rewrite Ht.
    destruct (find_app_new email (sha256_hexdigest password1) clk
                           (users_rows s)) as [r0 ->].
    reflexivity. }
  split.
  { unfold register_user. cbn [getenv]. rewrite Ha. run_monad.
    unfold select_user. cbn [users_table set_users_rows users_rows]. rewrite Ht.
    destruct (find_app_new email (sha256_hexdigest password1) clk
                           (users_rows s)) as [r0 ->].
    cbn [snd db]. exact R1. }
  split.
  { unfold register_user. cbn [getenv]. rewrite Ha. run_monad.
    unfold select_user. cbn [users_table set_users_rows users_rows]. rewrite Ht.
    destruct (find_app_new email (sha256_hexdigest password1) clk
                           (users_rows s)) as [r0 ->].
    cbn [snd db]. unfold set_users_rows. cbn [users_rows].
    rewrite map_app. cbn [map u_email].
    apply NoDup_snoc; [exact Hnd | now apply not_known_not_in]. }
  assert (Race : race email password1 password2
                      (Env cfg true None clk s None l)
                 = (Return ((true, msg_registered),
                            (false, msg_registration_error
                                    ++ str_of_exn (UniqueViolation k_users_pkey))),
                    Env cfg true None clk
                        (set_users_rows
                           (users_rows s ++
                            [UserRow email (sha256_hexdigest password1) clk]) s)
                        None
                        ((((l ++ [Statement sql_user_by_email [PStr email]])
                           ++ [Statement sql_user_by_email [PStr email]])
                          ++ [Statement sql_insert_user
                                [PStr email; PStr (sha256_hexdigest password1)]])
                         ++ [Statement sql_insert_user
                               [PStr email;
                                PStr (sha256_hexdigest password2)]]))).
  { unfold race, register_lookup, register_insert.
    run_monad. rewrite Ha. run_monad. unfold select_user. rewrite Ht, F0.
    run_monad. rewrite ?Ha. run_monad. rewrite ?Ht, ?F0. run_monad.
    unfold insert_user. cbn [users_table set_users_rows users_rows].
    rewrite ?Ht. cbn [missing_column]. rewrite ?Hc1, ?Hc2, ?Hpk.
    unfold user_known. cbn [u_email users_rows].
    unfold user_known in Hk. rewrite Hk. cbn [andb].
    run_monad. cbn [users_table set_users_rows users_rows]. rewrite ?Ht.
    cbn [missing_column]. rewrite ?Hc1, ?Hc2, ?Hpk, ?K1.
    reflexivity. }
  rewrite Race. cbn [fst snd db]. split; [reflexivity|].
  split; [exact R1|].
  intros acts. apply (I acts).
Qed.

End Registration.

Lemma register_twice_witness :
  fst (register_user (fun p => p) (lit "a@x.com") (lit "pw1")
                     (world target_store))
  = Return (true, msg_registered)
  /\ rows_of (lit "a@x.com")
       (db (snd (register_user (fun p => p) (lit "a@x.com") (lit "pw2")
                   (snd (register_user (fun p => p) (lit "a@x.com") (lit "pw1")
                           (world target_store))))))
     = 1%nat
  /\ rows_of (lit "a@x.com")
       (db (snd (race (fun p => p) (lit "a@x.com") (lit "pw1") (lit "pw2")
                      (world target_store))))
     = 1%nat.
Proof.
  assert (H := @register_twice (fun p => p) (world target_store)
                 (lit "a@x.com") (lit "pw1") (lit "pw2")
                 eq_refl eq_refl eq_refl eq_refl eq_refl eq_refl
                 (NoDup_nil _)).
  cbv zeta in H.
  destruct H as [A [_ [_ [_ [B [_ [_ [C _]]]]]]]].
  split; [exact A|]. split; [exact B | exact C].
Defined.

End Access.

(* ================================================================== *)
(** * The schema reconciler *)
(* ================================================================== *)

Module Reconciler.
Import Py.
Import AdminDb.
Import Access.

(** [images] as an earlier version declared it: no owner, no expiry. *)
Definition ddl_legacy_images : table :=
  Eval vm_compute in
  Table [Column (lit "id") ty_serial true None;
         Column (lit "filename") ty_text true None;
         Column (lit "original_name") ty_text true None;
         Column (lit "size") ty_integer true None;
         Column (lit "upload_time") ty_timestamp false (Some current_timestamp);
         Column (lit "file_type") ty_text true None]
        (Some (lit "id")) [].

(** A store of an earlier version: one user, [images] without owners. *)
Definition legacy_store : store :=
  Db (Some ddl_users) [UserRow owner_x (lit "hash") 0]
     (Some ddl_legacy_images) [] 0 None [] 0.

(** A store with [users] and one user only. *)
Definition users_only : store :=
  Db (Some ddl_users) [UserRow owner_x (lit "hash") 0] None [] 0 None [] 0.

(** A stand-in for the digest in the examples. *)
Definition sha : str -> str := fun p => p.

Definition kw_create : str := Eval vm_compute in lit "CREATE".
Definition kw_alter : str := Eval vm_compute in lit "ALTER".
Definition kw_insert : str := Eval vm_compute in lit "INSERT".
Definition kw_delete : str := Eval vm_compute in lit "DELETE".
Definition kw_update : str := Eval vm_compute in lit "UPDATE".
Definition kw_drop : str := Eval vm_compute in lit "DROP".

(** A statement that changes the catalogue or the rows. *)
Definition is_mutating (st : statement) : bool :=
  let t := lstrip (text st) in
  startswith t kw_create || startswith t kw_alter || startswith t kw_insert ||
  startswith t kw_delete || startswith t kw_update || startswith t kw_drop.

(** CREATE_ADMIN_USER asks for the administrator account. *)
Definition admin_requested (cfg : environ) : bool :=
  str_eqb (lower (getenv_default (CREATE_ADMIN_USER cfg) kw_false)) kw_true.

(** What the reconciler checks: the three relations, and the two
    columns of [images] that later versions added. *)
Definition reconciled (s : store) : bool :=
  table_exists Users s && table_exists Images s &&
  column_exists Images c_user_email s &&
  column_exists Images c_expiration_date s &&
  table_exists Statistics s.

(** A prior state the reconciler can start from: if [users] exists its
    key is [email], and an [images] that lacks [user_email] has no
    constraint of the name the reconciler gives to its foreign key. *)
Definition compatible (s : store) : bool :=
  match users_table s with
  | Some t => opt_str_eqb (t_primary_key t) (Some c_email)
  | None => true
  end &&
  match images_table s with
  | Some t => has_column c_user_email t ||
              negb (has_constraint (fk_name fk_images_user_email) t)
  | None => true
  end.

Definition exists_statements : list statement :=
  [Statement sql_users_exists []; Statement sql_images_exists [];
   Statement sql_user_email_exists []; Statement sql_expiration_date_exists [];
   Statement sql_statistics_exists []].

(** The rows of [images] after the user is deleted. *)
Definition images_after_delete (email : str) (w : env)
  : result exn (list images_row) :=
  match delete_user email (db w) with
  | Return s => Return (images_rows s)
  | Raise e => Raise e
  end.

Definition owned_upload (w : env) : env :=
  snd (save_image (lit "a.png") (lit "a.png") 10 0 (lit "png") (Some owner_x)
                  30 w).

Lemma ensure_schema_settled (sha : str -> str) (w : env) :
  reachable w = true -> fault w = None -> admin_requested (getenv w) = false ->
  reconciled (db w) = true ->
  ensure_schema sha w
  = (Return true,
     Env (getenv w) true None (clock w) (db w) (pending w)
         (sent w ++ exists_statements)).
Proof.
  destruct w as [cfg r f clk s p l]. cbn [reachable fault getenv db].
  intros -> -> Ha Hs. unfold reconciled in Hs.
  repeat (apply andb_true_iff in Hs; destruct Hs as [Hs ?]).
  unfold ensure_schema, ensure_admin_user. unfold admin_requested in Ha.
  run_monad.
  repeat (match goal with H : _ = _ |- _ => rewrite H end;
          cbn [negb]; run_monad).
  rewrite <- !app_assoc. reflexivity.
Qed.


(** ** Store-level facts about the statements of the reconciler *)

Lemma create_users_fresh (s : store) :
  users_table s = None ->
  create_table_if_not_exists Users ddl_users s
  = Return (set_table Users (Some ddl_users) s).
Proof. intros H. unfold create_table_if_not_exists. cbn [lookup_table]. now rewrite H. Qed.

Lemma create_images_fresh (s : store) (tu : table) :
  images_table s = None -> users_table s = Some tu ->
  opt_str_eqb (t_primary_key tu) (Some c_email) = true ->
  create_table_if_not_exists Images ddl_images s
  = Return (set_table Images (Some ddl_images) s).
Proof.
  intros Hi Hu Hk. unfold create_table_if_not_exists. cbn [lookup_table].
  rewrite Hi.
  set (k := t_foreign_keys ddl_images). cbv in k. subst k.
  unfold fk_targets_ok, fk_target_ok.
  cbn [fk_ref_table fk_ref_column lookup_table].
  rewrite Hu. unfold c_email in Hk. rewrite Hk. reflexivity.
Qed.

Lemma add_user_email_ok (s : store) (t tu : table) :
  images_table s = Some t -> has_column c_user_email t = false ->
  alter_add_column Images col_user_email s
  = Return (null_column Images c_user_email
              (set_table Images
                 (Some (Table (t_columns t ++ [col_user_email])
                              (t_primary_key t) (t_foreign_keys t))) s)).
Proof.
  intros Hi Hc. unfold alter_add_column. cbn [lookup_table]. rewrite Hi.
  change (col_name col_user_email) with c_user_email. now rewrite Hc.
Qed.

Lemma add_expiration_date_ok (s : store) (t : table) :
  images_table s = Some t -> has_column c_expiration_date t = false ->
  alter_add_column Images col_expiration_date s
  = Return (null_column Images c_expiration_date
              (set_table Images
                 (Some (Table (t_columns t ++ [col_expiration_date])
                              (t_primary_key t) (t_foreign_keys t))) s)).
Proof.
  intros Hi Hc. unfold alter_add_column. cbn [lookup_table]. rewrite Hi.
  change (col_name col_expiration_date) with c_expiration_date. now rewrite Hc.
Qed.

Lemma has_column_added (c : str) (t : table) (x : column)
  (pk : option str) (fks : list foreign_key) :
  has_column c (Table (t_columns t ++ [x]) pk fks)
  = has_column c t || str_eqb (col_name x) c.
Proof.
  unfold has_column. cbn [t_columns]. rewrite existsb_app. simpl.
  now rewrite orb_false_r.
Qed.

Lemma images_rows_respect_after_null (s : store) :
  rows_respect Images fk_images_user_email (null_column Images c_user_email s)
  = true.
Proof.
  unfold rows_respect, null_column.
  change (fk_ref_table fk_images_user_email) with Users.
  change (str_eqb (fk_column fk_images_user_email) c_user_email) with true.
  change (str_eqb c_user_email c_user_email) with true. cbv iota.
  cbn [images_rows set_images_rows].
  induction (images_rows s) as [|i l IH]; simpl; auto.
Qed.

Lemma add_fk_ok (s : store) (t tu : table) :
  images_table s = Some t -> users_table s = Some tu ->
  opt_str_eqb (t_primary_key tu) (Some c_email) = true ->
  has_constraint (fk_name fk_images_user_email) t = false ->
  has_column c_user_email t = true ->
  rows_respect Images fk_images_user_email s = true ->
  alter_add_constraint Images fk_images_user_email s
  = Return (set_table Images
              (Some (Table (t_columns t) (t_primary_key t)
                           (t_foreign_keys t ++ [fk_images_user_email]))) s).
Proof.
  intros Hi Hu Hk Hc Hcol Hr. unfold alter_add_constraint, fk_target_ok.
  cbn [lookup_table]. rewrite Hi, Hc.
  change (fk_column fk_images_user_email) with c_user_email. rewrite Hcol.
  change (fk_ref_table fk_images_user_email) with Users.
  change (fk_ref_column fk_images_user_email) with c_email.
  cbn [negb lookup_table]. rewrite Hu, Hk, Hr. reflexivity.
Qed.

(** ** Runs that return *)

(** [c] run in [w] returns a value and a world that satisfy [Q]. *)
Definition returns {A : Type} (c : M A) (w : env) (Q : A -> env -> Prop) : Prop :=
  exists v w', c w = (Return v, w') /\ Q v w'.

Lemma returns_ret {A : Type} (v : A) (w : env) (Q : A -> env -> Prop) :
  Q v w -> returns (ret v) w Q.
Proof. intros H. exists v, w. split; [reflexivity | exact H]. Qed.

Lemma returns_bind {A B : Type} (c : M A) (k : A -> M B) (w : env)
  (Q : B -> env -> Prop) :
  returns c w (fun v w' => returns (k v) w' Q) -> returns (bind c k) w Q.
Proof.
  intros [v [w' [H [u [w'' [Hk HQ]]]]]]. exists u, w''. split; [|exact HQ].
  unfold bind. now rewrite H.
Qed.

Lemma returns_try {A : Type} (c : M A) (h : exn -> M A) (w : env)
  (Q : A -> env -> Prop) :
  returns c w Q -> returns (try_except c h) w Q.
Proof.
  intros [v [w' [H HQ]]]. exists v, w'. split; [|exact HQ].
  unfold try_except. now rewrite H.
Qed.

Lemma returns_connect (w : env) (Q : option connection -> env -> Prop) :
  reachable w = true -> Q (Some Connection) w -> returns connect_db w Q.
Proof.
  intros Hr HQ. exists (Some Connection), w. split; [|exact HQ].
  unfold connect_db. now rewrite Hr.
Qed.

Lemma returns_exists_query (text : str) (f : store -> bool) (w : env)
  (Q : bool -> env -> Prop) :
  fault w = None ->
  Q (f (db w)) (with_sent (Statement text []) w) ->
  returns (exists_query text f) w Q.
Proof.
  intros Hf HQ. exists (f (db w)), (with_sent (Statement text []) w).
  split; [|exact HQ]. unfold exists_query, fetch. now rewrite Hf.
Qed.

Lemma returns_execute (st : statement) (sem : store -> result exn store)
  (w : env) (s' : store) (Q : unit -> env -> Prop) :
  fault w = None -> sem (db w) = Return s' ->
  Q tt (Env (getenv w) (reachable w) (fault w) (clock w) s'
            (match pending w with Some p => Some p | None => Some (db w) end)
            (sent w ++ [st])) ->
  returns (execute st sem) w Q.
Proof.
  intros Hf Hs HQ. eexists tt, _. split; [|exact HQ].
  unfold execute. rewrite Hf, Hs. reflexivity.
Qed.

Lemma returns_commit (w : env) (Q : unit -> env -> Prop) :
  Q tt (Env (getenv w) (reachable w) (fault w) (clock w) (db w) None (sent w)) ->
  returns commit w Q.
Proof. intros HQ. eexists tt, _. split; [reflexivity | exact HQ]. Qed.

(** The invariant of a run of the reconciler: the store stays in reach
    and sound, under the same environment. *)
Definition steady (cfg : environ) (w : env) : Prop :=
  reachable w = true /\ fault w = None /\ getenv w = cfg.

Lemma steady_sent (cfg : environ) (st : statement) (w : env) :
  steady cfg w -> steady cfg (with_sent st w).
Proof. intros [? [? ?]]. repeat split; assumption. Qed.

Lemma returns_create_users (cfg : environ) (w : env)
  (Q : bool -> env -> Prop) :
  steady cfg w -> users_table (db w) = None ->
  (forall w', steady cfg w' ->
              db w' = set_table Users (Some ddl_users) (db w) ->
              sent w' = sent w ++ [Statement sql_create_table_users []] ->
              Q true w') ->
  returns create_table_users w Q.
Proof.
  intros [Hr [Hf Hg]] Hu HQ. unfold create_table_users.
  apply returns_bind, returns_connect; [exact Hr|].
  apply returns_bind, returns_ret.
  apply returns_bind.
  eapply returns_execute; [exact Hf | now apply create_users_fresh |].
  apply returns_bind, returns_commit, returns_ret.
  apply HQ; [repeat split; assumption | reflexivity | reflexivity].
Qed.

Lemma returns_create_images (cfg : environ) (w : env) (tu : table)
  (Q : bool -> env -> Prop) :
  steady cfg w -> images_table (db w) = None ->
  users_table (db w) = Some tu ->
  opt_str_eqb (t_primary_key tu) (Some c_email) = true ->
  (forall w', steady cfg w' ->
              db w' = set_table Images (Some ddl_images) (db w) ->
              sent w' = sent w ++ [Statement sql_create_table_images []] ->
              Q true w') ->
  returns create_table_images w Q.
Proof.
  intros [Hr [Hf Hg]] Hi Hu Hk HQ. unfold create_table_images.
  apply returns_bind, returns_connect; [exact Hr|].
  apply returns_bind, returns_ret.
  apply returns_bind.
  eapply returns_execute; [exact Hf | now apply (create_images_fresh _ Hi Hu) |].
  apply returns_bind, returns_commit, returns_ret.
  apply HQ; [repeat split; assumption | reflexivity | reflexivity].
Qed.

Lemma returns_create_statistics (cfg : environ) (w : env)
  (Q : bool -> env -> Prop) :
  steady cfg w -> statistics_table (db w) = None ->
  (forall w', steady cfg w' ->
              db w' = set_table Statistics (Some ddl_statistics) (db w) ->
              sent w' = sent w ++ [Statement sql_create_table_statistics []] ->
              Q true w') ->
  returns create_table_statistics w Q.
Proof.
  intros [Hr [Hf Hg]] Hs HQ. unfold create_table_statistics.
  apply returns_try.
  apply returns_bind, returns_connect; [exact Hr|].
  apply returns_bind, returns_ret.
  apply returns_bind.
  eapply returns_execute; [exact Hf | |].
  { unfold create_table_if_not_exists. cbn [lookup_table]. rewrite Hs.
    reflexivity. }
  apply returns_bind, returns_commit, returns_ret.
  apply HQ; [repeat split; assumption | reflexivity | reflexivity].
Qed.

Definition users_keyed (s : store) : Prop :=
  exists tu, users_table s = Some tu
             /\ opt_str_eqb (t_primary_key tu) (Some c_email) = true.

Lemma phase_users (cfg : environ) (w : env) (k : M bool)
  (Q : bool -> env -> Prop) :
  steady cfg w ->
  match users_table (db w) with
  | Some t => opt_str_eqb (t_primary_key t) (Some c_email) = true
  | None => True
  end ->
  (forall w1, steady cfg w1 -> users_keyed (db w1) ->
              images_table (db w1) = images_table (db w) ->
              images_rows (db w1) = images_rows (db w) ->
              statistics_table (db w1) = statistics_table (db w) ->
              returns k w1 Q) ->
  returns (users <- exists_query sql_users_exists (table_exists Users) ;;
           (if negb users then create_table_users ;;; ret tt else ret tt) ;;;
           k) w Q.
Proof.
  intros Hst Hu Hk.
  apply returns_bind, returns_exists_query; [apply Hst|].
  unfold table_exists. cbn [lookup_table]. cbn [db with_sent].
  destruct (users_table (db w)) as [tu|] eqn:Eu; cbn [negb].
  - apply returns_bind, returns_ret.
    apply Hk; try reflexivity.
    + now apply steady_sent.
    + exists tu. cbn [db with_sent]. auto.
  - apply returns_bind, returns_bind.
    eapply returns_create_users.
    + apply steady_sent, Hst.
    + exact Eu.
    + intros w1 Hst1 Hdb _. apply returns_ret.
      apply Hk; try exact Hst1; rewrite Hdb; cbn [db with_sent]; try reflexivity.
      exists ddl_users. split; reflexivity.
Qed.

Lemma null_column_tables (r : relation) (c : str) (s : store) :
  users_table (null_column r c s) = users_table s
  /\ images_table (null_column r c s) = images_table s
  /\ statistics_table (null_column r c s) = statistics_table s.
Proof.
  unfold null_column. destruct r; try (repeat split; reflexivity).
  destruct (str_eqb c c_user_email); [repeat split; reflexivity|].
  destruct (str_eqb c c_expiration_date); repeat split; reflexivity.
Qed.

Lemma null_set_tables (c : str) (t1 : table) (s : store) :
  users_table (null_column Images c (set_table Images (Some t1) s))
  = users_table s
  /\ images_table (null_column Images c (set_table Images (Some t1) s))
     = Some t1
  /\ statistics_table (null_column Images c (set_table Images (Some t1) s))
     = statistics_table s.
Proof.
  destruct (null_column_tables Images c (set_table Images (Some t1) s))
    as [E1 [E2 E3]].
  rewrite E1, E2, E3. repeat split; reflexivity.
Qed.

Definition images_compatible (t : table) : Prop :=
  has_column c_user_email t = true
  \/ has_constraint (fk_name fk_images_user_email) t = false.

Lemma phase_user_email {B : Type} (cfg : environ) (w : env) (t : table)
  (k : M B) (Q : B -> env -> Prop) :
  steady cfg w -> users_keyed (db w) -> images_table (db w) = Some t ->
  images_compatible t ->
  (forall w1 t1, steady cfg w1 -> users_keyed (db w1) ->
                 images_table (db w1) = Some t1 ->
                 has_column c_user_email t1 = true ->
                 statistics_table (db w1) = statistics_table (db w) ->
                 returns k w1 Q) ->
  returns (user_email <- exists_query sql_user_email_exists
                                      (column_exists Images c_user_email) ;;
           (if negb user_email then
              execute (Statement sql_add_user_email [])
                      (alter_add_column Images col_user_email) ;;;
              execute (Statement sql_add_fk_user_email [])
                      (alter_add_constraint Images fk_images_user_email) ;;;
              commit
            else ret tt) ;;;
           k) w Q.
Proof.
  intros Hst [tu [Hu Hkey]] Hi Hc Hk.
  apply returns_bind, returns_exists_query; [apply Hst|].
  unfold column_exists. cbn [lookup_table db with_sent]. rewrite Hi.
  destruct (has_column c_user_email t) eqn:Hcol; cbn [negb].
  - apply returns_bind, returns_ret.
    apply (Hk _ t); auto using steady_sent.
    exists tu. auto.
  - destruct Hc as [Hc|Hc]; [congruence|].
    destruct Hst as [Hr [Hf Hg]].
    apply returns_bind, returns_bind.
    eapply returns_execute;
      [exact Hf | cbn [db with_sent]; now apply (add_user_email_ok _ tu Hi) |].
    apply returns_bind.
    set (t1 := Table (t_columns t ++ [col_user_email]) (t_primary_key t)
                     (t_foreign_keys t)).
    set (s1 := null_column Images c_user_email
                 (set_table Images (Some t1) (db w))).
    destruct (null_set_tables c_user_email t1 (db w)) as [E1 [E2 E3]].
    fold s1 in E1, E2, E3.
    eapply returns_execute; [exact Hf | cbn [db] | ].
    { apply (@add_fk_ok s1 t1 tu).
      - exact E2.
      - now rewrite E1.
      - exact Hkey.
      - exact Hc.
      - unfold t1. rewrite has_column_added.
        change (str_eqb (col_name col_user_email) c_user_email) with true.
        apply orb_true_r.
      - apply images_rows_respect_after_null. }
    apply returns_commit. cbv beta.
    cbn [getenv reachable fault clock db sent with_sent].
    eapply Hk.
    + repeat split; assumption.
    + exists tu. cbn [db set_table users_table]. rewrite E1. auto.
    + cbn [db set_table images_table]. reflexivity.
    + cbn [t_columns]. unfold t1. unfold has_column. cbn [t_columns].
      rewrite existsb_app. cbn. apply orb_true_r.
    + cbn [db set_table statistics_table]. exact E3.
Qed.

Lemma phase_expiration_date (cfg : environ) (w : env) (t : table)
  (Q : unit -> env -> Prop) :
  steady cfg w -> users_keyed (db w) -> images_table (db w) = Some t ->
  has_column c_user_email t = true ->
  (forall w1 t1, steady cfg w1 -> users_keyed (db w1) ->
                 images_table (db w1) = Some t1 ->
                 has_column c_user_email t1 = true ->
                 has_column c_expiration_date t1 = true ->
                 statistics_table (db w1) = statistics_table (db w) ->
                 Q tt w1) ->
  returns (expiration_date <- exists_query sql_expiration_date_exists
                                (column_exists Images c_expiration_date) ;;
           (if negb expiration_date then
              execute (Statement sql_add_expiration_date [])
                      (alter_add_column Images col_expiration_date) ;;;
              commit
            else ret tt)) w Q.
Proof.
  intros Hst [tu [Hu Hkey]] Hi Hue Hk.
  apply returns_bind, returns_exists_query; [apply Hst|].
  unfold column_exists. cbn [lookup_table db with_sent]. rewrite Hi.
  destruct (has_column c_expiration_date t) eqn:Hcol; cbn [negb].
  - apply returns_ret.
    apply (Hk _ t); auto using steady_sent.
    exists tu. auto.
  - destruct Hst as [Hr [Hf Hg]].
    apply returns_bind.
    eapply returns_execute;
      [exact Hf | cbn [db with_sent]; now apply (add_expiration_date_ok _ Hi) |].
    set (t1 := Table (t_columns t ++ [col_expiration_date]) (t_primary_key t)
                     (t_foreign_keys t)).
    destruct (null_set_tables c_expiration_date t1 (db w)) as [E1 [E2 E3]].
    apply returns_commit.
    cbn [getenv reachable fault clock db sent with_sent].
    eapply Hk.
    + repeat split; assumption.
    + exists tu. cbn [db]. rewrite E1. auto.
    + cbn [db]. exact E2.
    + unfold t1. rewrite has_column_added, Hue. reflexivity.
    + unfold t1. rewrite has_column_added.
      change (str_eqb (col_name col_expiration_date) c_expiration_date)
        with true.
      apply orb_true_r.
    + cbn [db]. exact E3.
Qed.

Lemma phase_images {B : Type} (cfg : environ) (w : env) (k : M B)
  (Q : B -> env -> Prop) :
  steady cfg w -> users_keyed (db w) ->
  match images_table (db w) with
  | Some t => images_compatible t
  | None => True
  end ->
  (forall w1 t1, steady cfg w1 ->
                 images_table (db w1) = Some t1 ->
                 has_column c_user_email t1 = true ->
                 has_column c_expiration_date t1 = true ->
                 users_table (db w1) <> None ->
                 statistics_table (db w1) = statistics_table (db w) ->
                 returns k w1 Q) ->
  returns (images <- exists_query sql_images_exists (table_exists Images) ;;
           (if negb images then create_table_images ;;; ret tt
            else
              user_email <- exists_query sql_user_email_exists
                                         (column_exists Images c_user_email) ;;
              (if negb user_email then
                 execute (Statement sql_add_user_email [])
                         (alter_add_column Images col_user_email) ;;;
                 execute (Statement sql_add_fk_user_email [])
                         (alter_add_constraint Images fk_images_user_email) ;;;
                 commit
               else ret tt) ;;;
              expiration_date <- exists_query sql_expiration_date_exists
                                   (column_exists Images c_expiration_date) ;;
              (if negb expiration_date then
                 execute (Statement sql_add_expiration_date [])
                         (alter_add_column Images col_expiration_date) ;;;
                 commit
               else ret tt)) ;;;
           k) w Q.
Proof.
  intros Hst Hu Hc Hk.
  apply returns_bind, returns_exists_query; [apply Hst|].
  unfold table_exists. cbn [lookup_table db with_sent].
  destruct (images_table (db w)) as [t|] eqn:Ei; cbn [negb].
  - apply returns_bind.
    eapply phase_user_email with (t := t);
      [apply steady_sent, Hst | exact Hu | exact Ei | exact Hc |].
    intros w1 t1 Hst1 Hu1 Hi1 Hue1 Hs1.
    eapply phase_expiration_date with (t := t1); try eassumption.
    intros w2 t2 Hst2 [tu [Hu2 _]] Hi2 Hue2 Hed2 Hs2.
    cbn [db with_sent] in Hs1.
    apply (Hk w2 t2); auto; try congruence.
  - destruct Hu as [tu [Hu Hkey]].
    apply returns_bind, returns_bind.
    eapply returns_create_images with (tu := tu);
      [apply steady_sent, Hst | exact Ei | exact Hu | exact Hkey |].
    intros w1 Hst1 Hdb _. apply returns_ret.
    apply (Hk w1 ddl_images); auto; rewrite Hdb; cbn [db with_sent set_table
      users_table images_table statistics_table]; try reflexivity.
    congruence.
Qed.

Lemma phase_statistics {B : Type} (cfg : environ) (w : env) (k : M B)
  (Q : B -> env -> Prop) :
  steady cfg w ->
  (forall w1, steady cfg w1 ->
              users_table (db w1) = users_table (db w) ->
              images_table (db w1) = images_table (db w) ->
              statistics_table (db w1) <> None ->
              returns k w1 Q) ->
  returns (statistics <- exists_query sql_statistics_exists
                                      (table_exists Statistics) ;;
           (if negb statistics then create_table_statistics ;;; ret tt
            else ret tt) ;;;
           k) w Q.
Proof.
  intros Hst Hk.
  apply returns_bind, returns_exists_query; [apply Hst|].
  unfold table_exists. cbn [lookup_table db with_sent].
  destruct (statistics_table (db w)) as [t|] eqn:Es; cbn [negb].
  - apply returns_bind, returns_ret.
    apply Hk; auto using steady_sent. cbn [db with_sent]. congruence.
  - apply returns_bind, returns_bind.
    eapply returns_create_statistics;
      [apply steady_sent, Hst | exact Es |].
    intros w1 Hst1 Hdb _. apply returns_ret.
    apply Hk; auto; rewrite Hdb; cbn [db with_sent set_table users_table
      images_table statistics_table]; try reflexivity.
    discriminate.
Qed.

Lemma ensure_admin_user_off (sha : str -> str) (w : env) :
  admin_requested (getenv w) = false ->
  ensure_admin_user sha w = (Return true, w).
Proof.
  intros H. unfold ensure_admin_user. unfold admin_requested in H.
  now rewrite H.
Qed.

Lemma ensure_schema_reconciles (sha : str -> str) (w : env) :
  reachable w = true -> fault w = None -> admin_requested (getenv w) = false ->
  compatible (db w) = true ->
  returns (ensure_schema sha) w
          (fun b w' => b = true /\ steady (getenv w) w'
                       /\ reconciled (db w') = true).
Proof.
  intros Hr Hf Ha Hc. unfold compatible in Hc.
  apply andb_true_iff in Hc as [Hcu Hci].
  assert (Hst : steady (getenv w) w) by (repeat split; assumption).
  unfold ensure_schema.
  apply returns_bind, returns_connect; [exact Hr|].
  apply returns_bind, returns_ret. apply returns_try.
  apply (@phase_users (getenv w)); [exact Hst | destruct (users_table (db w)); auto |].
  intros w1 Hst1 Hu1 Hi1 _ Hs1.
  apply (@phase_images _ (getenv w)); [exact Hst1 | exact Hu1 | |].
  { rewrite Hi1. destruct (images_table (db w)) as [t|]; [|exact I].
    unfold images_compatible. apply orb_true_iff in Hci as [H|H]; auto.
    right. now apply negb_true_iff in H. }
  intros w2 t2 Hst2 Hi2 Hue2 Hed2 Hu2 _.
  apply (@phase_statistics _ (getenv w)); [exact Hst2|].
  intros w3 Hst3 Hu3 Hi3 Hs3.
  apply returns_bind.
  exists true, w3. split.
  { apply ensure_admin_user_off. destruct Hst3 as [_ [_ ->]]. exact Ha. }
  apply returns_ret. split; [reflexivity|]. split; [exact Hst3|].
  unfold reconciled, table_exists, column_exists. cbn [lookup_table].
  rewrite Hi3, Hi2, Hue2, Hed2, Hu3.
  destruct (users_table (db w2)); [|contradiction].
  destruct (statistics_table (db w3)); [reflexivity|contradiction].
Qed.

Lemma ensure_schema_from_empty (sha : str -> str) (w : env) :
  reachable w = true -> fault w = None -> admin_requested (getenv w) = false ->
  db w = empty_store ->
  db (snd (ensure_schema sha w)) = target_store.
Proof.
  destruct w as [cfg r f clk s p l]. cbn [reachable fault getenv db].
  intros -> -> Ha ->. unfold admin_requested in Ha.
  unfold ensure_schema, ensure_admin_user, create_table_users,
    create_table_images, create_table_statistics.
  run_monad. cbv in Ha |- *. rewrite Ha. reflexivity.
Qed.

(** C3, amended. From every prior state the reconciler can start from
    (the store in reach and sound, the administrator flag unset, [users]
    keyed by [email] if it exists, no constraint in the way of the one
    the reconciler adds), [ensure_schema] returns [True] and leaves the
    three relations in place, [images] with its columns [user_email] and
    [expiration_date]. Run again it returns [True], changes nothing and
    sends no CREATE, ALTER, INSERT or DELETE; so does a run against any
    store that already has these relations and columns. From the empty
    store it creates the three relations as [db.py] declares them. The
    constraints of relations that already exist are not brought to
    those of a fresh store. *)
Theorem reconciler_idempotent (sha : str -> str) (w : env) :
  reachable w = true -> fault w = None -> admin_requested (getenv w) = false ->
  compatible (db w) = true ->
  fst (ensure_schema sha w) = Return true
  /\ reconciled (db (snd (ensure_schema sha w))) = true
  /\ fst (ensure_schema sha (snd (ensure_schema sha w))) = Return true
  /\ db (snd (ensure_schema sha (snd (ensure_schema sha w))))
     = db (snd (ensure_schema sha w))
  /\ existsb is_mutating
       (sent_by (ensure_schema sha) (snd (ensure_schema sha w))) = false
  /\ (reconciled (db w) = true ->
      db (snd (ensure_schema sha w)) = db w
      /\ existsb is_mutating (sent_by (ensure_schema sha) w) = false)
  /\ (db w = empty_store -> db (snd (ensure_schema sha w)) = target_store).
Proof.
  intros Hr Hf Ha Hc.
  destruct (ensure_schema_reconciles sha w Hr Hf Ha Hc)
    as [b [w1 [H1 [-> [[Hr1 [Hf1 Hg1]] Hrec]]]]].
  rewrite H1. cbn [fst snd].
  assert (Ha1 : admin_requested (getenv w1) = false) by now rewrite Hg1.
  assert (H2 := ensure_schema_settled sha w1 Hr1 Hf1 Ha1 Hrec).
  split; [reflexivity|]. split; [exact Hrec|].
  rewrite H2. cbn [fst snd db].
  split; [reflexivity|]. split; [reflexivity|].
  split.
  { unfold sent_by. rewrite H2. cbn [snd sent]. now rewrite skipn_sent. }
  split.
  - intros Hw. assert (H0 := ensure_schema_settled sha w Hr Hf Ha Hw).
    rewrite H0 in H1. injection H1 as <-. cbn [db]. split; [reflexivity|].
    unfold sent_by. rewrite H0. cbn [snd sent]. now rewrite skipn_sent.
  - intros He. rewrite <- (ensure_schema_from_empty sha w Hr Hf Ha He).
    now rewrite H1.
Qed.

Lemma reconciler_idempotent_witness :
  fst (ensure_schema sha (world legacy_store)) = Return true
  /\ existsb is_mutating
       (sent_by (ensure_schema sha)
                (snd (ensure_schema sha (world legacy_store)))) = false.
Proof.
  assert (H := @reconciler_idempotent sha (world legacy_store)
                 eq_refl eq_refl eq_refl eq_refl).
  split; [apply H | apply H].
Defined.

(** C3 as stated fails: the states reached from a store of an earlier
    version and from the empty store differ in the foreign key of
    [images], and the states reached from a store set up by
    [init_db.py] and from the empty store differ in [statistics]. *)
Lemma schemas_diverge :
  fst (ensure_schema sha (world legacy_store)) = Return true
  /\ fst (ensure_schema sha (world empty_store)) = Return true
  /\ option_map t_foreign_keys
       (images_table (db (snd (ensure_schema sha (world legacy_store)))))
     = Some [fk_images_user_email]
  /\ option_map t_foreign_keys
       (images_table (db (snd (ensure_schema sha (world empty_store)))))
     = Some (t_foreign_keys ddl_images)
  /\ list_eqb foreign_key_eqb [fk_images_user_email] (t_foreign_keys ddl_images)
     = false
  /\ statistics_table
       (db (snd (ensure_schema sha (snd (init_db_main (world empty_store))))))
     = Some ddl_init_statistics
  /\ statistics_table (db (snd (ensure_schema sha (world empty_store))))
     = Some ddl_statistics
  /\ table_eqb ddl_init_statistics ddl_statistics = false.
Proof. repeat split; vm_compute; reflexivity. Qed.

(** C6 fails on the code. After [ensure_schema] has created [images],
    deleting a user deletes the rows of [images] that user owns; after
    it has added [user_email] to an [images] of an earlier version, the
    row stays, with its owner set to NULL. *)
Theorem set_null_on_the_alter_path :
  images_after_delete owner_x
    (owned_upload (snd (ensure_schema sha (world users_only))))
  = Return []
  /\ images_after_delete owner_x
       (owned_upload (snd (ensure_schema sha (world legacy_store))))
     = Return [ImageRow 1 (lit "a.png") (lit "a.png") 10 0 (lit "png") None
                        (Some (30 * microseconds_per_day)%Z)].
Proof. split; vm_compute; reflexivity. Qed.

End Reconciler.

(* ================================================================== *)
(** * db_pool.py *)
(* ================================================================== *)

Module Pool.

(** Exceptions seen by [get_connection]. [Interrupt] stands for an
    exception that is not an [Exception] (KeyboardInterrupt,
    GeneratorExit); the others are. *)
Inductive pool_error : Type :=
| Exhausted        (* connection pool exhausted *)
| Unkeyed.         (* trying to put unkeyed connection *)

Inductive pexn : Type :=
| PoolError (why : pool_error)
| OperationalError           (* the server refuses the connection *)
| PoolExhaustedException     (* Exception("Pool exhausted: no available connections") *)
| AttributeError             (* a method called on None *)
| BlockError (tag : nat)     (* an exception raised by the caller's block *)
| Interrupt.

Definition is_exception (e : pexn) : bool :=
  match e with Interrupt => false | _ => true end.

(** ** The pool of the driver *)

(** State of a connection object: what [conn.closed] and
    [conn.info.transaction_status] show, and whether the session on the
    server is still there. While the session is gone and nothing has
    been sent since, the object shows what it showed before. *)
Inductive conn_state : Type :=
| Ready               (* session there, no transaction open *)
| InTransaction       (* session there, a transaction open or failed *)
| Lost                (* session gone unnoticed, no transaction was open *)
| LostInTransaction   (* session gone unnoticed, a transaction was open *)
| Broken              (* the loss noticed: the status reads unknown *)
| Closed.             (* conn.closed is set *)

Inductive event : Type :=
| Got (c : nat)      (* getconn handed out c *)
| Put (c : nat).     (* putconn took c back *)

(** [psycopg2.pool.ThreadedConnectionPool], as far as [get_connection]
    uses it. [idle] is [_pool], the connection handed out next first;
    [used] is [_used]; [events] records the calls that succeeded. *)
Record pgpool : Type := PgPool {
  minconn : nat;
  maxconn : nat;
  idle : list nat;
  used : list nat;
  state_of : nat -> conn_state;
  next_conn : nat;
  server_up : bool;
  events : list event
}.

Definition set_state (c : nat) (st : conn_state) (f : nat -> conn_state)
  : nat -> conn_state :=
  fun x => if Nat.eqb x c then st else f x.

Fixpoint remove_conn (c : nat) (l : list nat) : list nat :=
  match l with
  | [] => []
  | x :: l' => if Nat.eqb x c then l' else x :: remove_conn c l'
  end.

Definition mem (c : nat) (l : list nat) : bool := existsb (Nat.eqb c) l.

(** [getconn()]: an idle connection if there is one; otherwise a new one
    unless [maxconn] are out, in which case [PoolError] is raised. It
    never returns [None]. *)
Definition pg_getconn (p : pgpool) : Py.result pexn (option nat) * pgpool :=
  match idle p with
  | c :: rest =>
    (Py.Return (Some c),
     PgPool (minconn p) (maxconn p) rest (used p ++ [c]) (state_of p)
            (next_conn p) (server_up p) (events p ++ [Got c]))
  | [] =>
    if Nat.eqb (List.length (used p)) (maxconn p)
    then (Py.Raise (PoolError Exhausted), p)
    else if server_up p then
      let c := next_conn p in
      (Py.Return (Some c),
       PgPool (minconn p) (maxconn p) [] (used p ++ [c])
              (set_state c Ready (state_of p)) (S c) (server_up p)
              (events p ++ [Got c]))
    else (Py.Raise OperationalError, p)
  end.

(** The end of [_putconn]: [c] leaves the connections that are out, in
    state [st], and joins the idle ones when [kept]. *)
Definition put_away (c : nat) (st : conn_state) (kept : bool) (p : pgpool)
  : pgpool :=
  PgPool (minconn p) (maxconn p)
         (if kept then c :: idle p else idle p)
         (remove_conn c (used p))
         (set_state c st (state_of p))
         (next_conn p) (server_up p) (events p ++ [Put c]).

(** [conn.rollback()] on a connection whose session is gone: it raises
    and the connection is marked closed; the pool is otherwise as it
    was. *)
Definition rollback_fails (c : nat) (p : pgpool) : pgpool :=
  PgPool (minconn p) (maxconn p) (idle p) (used p)
         (set_state c Closed (state_of p))
         (next_conn p) (server_up p) (events p).

(** [putconn(conn, close)]. A connection that is not out is refused.
    While fewer than [minconn] are idle and [close] is not asked for:
    a closed connection is dropped, one whose status reads unknown is
    closed, one inside a transaction is rolled back and kept, an idle
    one is kept as it is, its session there or not. Otherwise the
    connection is closed. The rollback comes before the connection is
    taken from those that are out: when it raises, the connection stays
    out. *)
Definition pg_putconn (c : nat) (close : bool) (p : pgpool)
  : Py.result pexn unit * pgpool :=
  if negb (mem c (used p)) then (Py.Raise (PoolError Unkeyed), p)
  else if Nat.ltb (List.length (idle p)) (minconn p) && negb close then
    match state_of p c with
    | Closed => (Py.Return tt, put_away c Closed false p)
    | Broken => (Py.Return tt, put_away c Closed false p)
    | LostInTransaction => (Py.Raise OperationalError, rollback_fails c p)
    | InTransaction => (Py.Return tt, put_away c Ready true p)
    | Ready => (Py.Return tt, put_away c Ready true p)
    | Lost => (Py.Return tt, put_away c Lost true p)
    end
  else (Py.Return tt, put_away c Closed false p).

(** [conn.closed]. *)
Definition pg_closed (c : nat) (p : pgpool) : bool :=
  match state_of p c with Closed => true | _ => false end.

(** ** DatabasePool *)

(** [self._stats]. *)
Record stats : Type := Stats {
  total_connections : Z;
  active_connections : Z;
  failed_connections : Z;
  pool_exhausted : Z
}.

Record DatabasePool : Type := DbPool {
  _pool : pgpool;
  _stats : stats
}.

Inductive outcome : Type :=
| Normal                 (* the block ended *)
| Raised (e : pexn).     (* an exception leaves the with statement *)

Definition with_pool (p : pgpool) (d : DatabasePool) : DatabasePool :=
  DbPool p (_stats d).

Definition add_active (k : Z) (d : DatabasePool) : DatabasePool :=
  DbPool (_pool d)
         (Stats (total_connections (_stats d))
                (active_connections (_stats d) + k)
                (failed_connections (_stats d))
                (pool_exhausted (_stats d))).

Definition add_failed (d : DatabasePool) : DatabasePool :=
  DbPool (_pool d)
         (Stats (total_connections (_stats d))
                (active_connections (_stats d))
                (failed_connections (_stats d) + 1)
                (pool_exhausted (_stats d))).

Definition add_exhausted (d : DatabasePool) : DatabasePool :=
  DbPool (_pool d)
         (Stats (total_connections (_stats d))
                (active_connections (_stats d))
                (failed_connections (_stats d))
                (pool_exhausted (_stats d) + 1)).

(** The two [except] clauses: both count a failure and raise again; an
    exception that is not an [Exception] passes through. *)
Definition on_exception (e : pexn) (d : DatabasePool) : DatabasePool :=
  if is_exception e then add_failed d else d.

(** The [finally] clause: the connection held in [conn] is put back and
    the active count decremented; when [putconn] raises, the error is
    logged and the count stays. *)
Definition finally_release (conn : option nat) (d : DatabasePool)
  : DatabasePool :=
  match conn with
  | None => d
  | Some c =>
    match pg_putconn c false (_pool d) with
    | (Py.Return _, p') => add_active (-1) (with_pool p' d)
    | (Py.Raise _, p') => with_pool p' d
    end
  end.

(** What the first part of the [try] arrives at. *)
Inductive acquired : Type :=
| Failed (e : pexn) (conn : option nat) (p : pgpool)
| Holding (conn : option nat) (p : pgpool).

(** [with self.get_connection() as conn: block]. The block receives the
    connection and the pool, and ends or raises. *)
Definition get_connection
  (block : option nat -> DatabasePool -> outcome * DatabasePool)
  (d : DatabasePool) : outcome * DatabasePool :=
  match pg_getconn (_pool d) with
  | (Py.Raise e, p1) => (Raised e, on_exception e (with_pool p1 d))
  | (Py.Return None, p1) =>
    (Raised PoolExhaustedException,
     add_failed (add_exhausted (with_pool p1 d)))
  | (Py.Return (Some c), p1) =>
    let a :=
      if pg_closed c p1 then
        match pg_putconn c true p1 with
        | (Py.Raise e, p2) => Failed e (Some c) p2
        | (Py.Return _, p2) =>
          match pg_getconn p2 with
          | (Py.Raise e, p3) => Failed e (Some c) p3
          | (Py.Return conn, p3) => Holding conn p3
          end
        end
      else Holding (Some c) p1 in
    match a with
    | Failed e conn p' =>
      (Raised e, finally_release conn (on_exception e (with_pool p' d)))
    | Holding conn p' =>
      match block conn (add_active 1 (with_pool p' d)) with
      | (Normal, d2) => (Normal, finally_release conn d2)
      | (Raised e, d2) => (Raised e, finally_release conn (on_exception e d2))
      end
    end
  end.

(** ** Blocks *)

(** What a caller does inside the [with] statement. *)
Inductive script : Type :=
| Finish                                    (* the block ends *)
| Throw (e : pexn)                          (* the block raises *)
| Use (st : conn_state) (k : script)        (* the connection is used and left in state st *)
| GiveBack (k : script)                     (* the block puts its connection back itself *)
| Server (up : bool) (k : script)           (* the server stops or resumes accepting connections *)
| Nested (inner : script) (k : script).     (* a with statement inside the block *)

Definition set_conn_state (c : nat) (st : conn_state) (d : DatabasePool)
  : DatabasePool :=
  let p := _pool d in
  with_pool (PgPool (minconn p) (maxconn p) (idle p) (used p)
                    (set_state c st (state_of p)) (next_conn p) (server_up p)
                    (events p)) d.

Definition set_server (up : bool) (d : DatabasePool) : DatabasePool :=
  let p := _pool d in
  with_pool (PgPool (minconn p) (maxconn p) (idle p) (used p) (state_of p)
                    (next_conn p) up (events p)) d.

Fixpoint run (s : script) (conn : option nat) (d : DatabasePool)
  : outcome * DatabasePool :=
  match s with
  | Finish => (Normal, d)
  | Throw e => (Raised e, d)
  | Use st k =>
    match conn with
    | Some c => run k conn (set_conn_state c st d)
    | None => (Raised AttributeError, d)
    end
  | GiveBack k =>
    match conn with
    | Some c =>
      match pg_putconn c false (_pool d) with
      | (Py.Return _, p') => run k conn (with_pool p' d)
      | (Py.Raise e, p') => (Raised e, with_pool p' d)
      end
    | None => run k conn d
    end
  | Server up k => run k conn (set_server up d)
  | Nested inner k =>
    match get_connection (run inner) d with
    | (Normal, d') => run k conn d'
    | (Raised e, d') => (Raised e, d')
    end
  end.

(** With statements one after the other, the caller catching whatever
    one of them raises. *)
Fixpoint cycles (l : list script) (d : DatabasePool) : DatabasePool :=
  match l with
  | [] => d
  | s :: l' => cycles l' (snd (get_connection (run s) d))
  end.

(** A connection whose session is there. *)
Definition alive (st : conn_state) : bool :=
  match st with
  | Ready | InTransaction => true
  | Lost | LostInTransaction | Broken | Closed => false
  end.

(** A block that only uses its connection, leaves it alive, and ends
    or raises. *)
Fixpoint simple (s : script) : bool :=
  match s with
  | Finish | Throw _ => true
  | Use st k => alive st && simple k
  | GiveBack _ | Server _ _ | Nested _ _ => false
  end.

Definition lost_in_transaction (st : conn_state) : bool :=
  match st with LostInTransaction => true | _ => false end.

(** A block that does not put its connection back itself and does not
    leave it with its session lost inside a transaction, and whose
    nested with statements are of the same kind. *)
Fixpoint tidy (s : script) : bool :=
  match s with
  | Finish | Throw _ => true
  | Use st k => negb (lost_in_transaction st) && tidy k
  | GiveBack _ => false
  | Server _ k => tidy k
  | Nested inner k => tidy inner && tidy k
  end.

(** No connection has lost its session inside a transaction. *)
Definition calm (f : nat -> conn_state) : Prop :=
  forall c, f c <> LostInTransaction.

(** Three idle connections of five allowed, none out. *)
Definition fresh_pool : DatabasePool :=
  DbPool (PgPool 3 5 [0; 1; 2]%nat [] (fun _ => Ready) 3 true [])
         (Stats 0 0 0 0).

(** Both allowed connections are out and none is idle. *)
Definition exhausted_pool : DatabasePool :=
  DbPool (PgPool 1 2 [] [0; 1]%nat (fun _ => Ready) 2 true [])
         (Stats 0 2 0 0).

End Pool.

(* ================================================================== *)
(** * Scoped acquisition *)
(* ================================================================== *)

Module Scoped.
Import Pool.

Definition count_got (c : nat) (l : list event) : nat :=
  List.length (filter (fun e => match e with Got x => Nat.eqb x c | Put _ => false end) l).

Definition count_put (c : nat) (l : list event) : nat :=
  List.length (filter (fun e => match e with Put x => Nat.eqb x c | Got _ => false end) l).

(** Every connection is put back as often as it is handed out. *)
Definition balanced (l : list event) : Prop :=
  forall c, count_put c l = count_got c l.

(** The pool of the driver is sound: no connection is idle twice, out
    twice, or both idle and out, and the identifiers in use are below
    the next one. *)
Definition wfp (p : pgpool) : Prop :=
  NoDup (idle p) /\ NoDup (used p)
  /\ (forall c, In c (idle p) -> ~ In c (used p))
  /\ (forall c, In c (idle p) \/ In c (used p) -> (c < next_conn p)%nat).

(** The pool is sound and its active count is the number of
    connections that are out. *)
Definition wf (d : DatabasePool) : Prop :=
  wfp (_pool d)
  /\ active_connections (_stats d) = Z.of_nat (List.length (used (_pool d))).

(** What a block, or a whole with statement, leaves behind: a sound
    pool with the same connections out, the same sizes and counters of
    exhaustion, and a balanced run of events added. *)
Definition restores (d d' : DatabasePool) : Prop :=
  wf d'
  /\ used (_pool d') = used (_pool d)
  /\ minconn (_pool d') = minconn (_pool d)
  /\ maxconn (_pool d') = maxconn (_pool d)
  /\ pool_exhausted (_stats d') = pool_exhausted (_stats d)
  /\ (List.length (idle (_pool d'))
      <= Nat.max (List.length (idle (_pool d))) (minconn (_pool d)))%nat
  /\ exists evs, events (_pool d') = events (_pool d) ++ evs /\ balanced evs.

(** A block that restores the pool and does not leave its connection
    with its session lost inside a transaction, on pools whose
    connections are as [Inv] says, which it keeps. *)
Definition restoring (Inv : (nat -> conn_state) -> Prop)
  (block : option nat -> DatabasePool -> outcome * DatabasePool) : Prop :=
  forall conn d, wf d -> Inv (state_of (_pool d)) ->
    restores d (snd (block conn d))
    /\ Inv (state_of (_pool (snd (block conn d))))
    /\ (forall c, conn = Some c ->
          state_of (_pool (snd (block conn d))) c <> LostInTransaction).

(** A property of the connections that holds on as long as none of
    them loses its session inside a transaction. *)
Definition lasting (Inv : (nat -> conn_state) -> Prop) : Prop :=
  forall f c st, Inv f -> st <> LostInTransaction -> Inv (set_state c st f).

Lemma lasting_calm : lasting calm.
Proof.
  intros f c st H Hst x. unfold set_state.
  destruct (Nat.eqb x c); [exact Hst | apply H].
Qed.

Lemma lasting_any : lasting (fun _ => True).
Proof. intros f c st _ _. exact I. Qed.

Lemma mem_In (c : nat) (l : list nat) : mem c l = true <-> In c l.
Proof.
  unfold mem. rewrite existsb_exists. split.
  - intros [x [Hx E]]. apply Nat.eqb_eq in E. now subst.
  - intros H. exists c. split; [exact H | apply Nat.eqb_refl].
Qed.

Lemma remove_conn_In (c x : nat) (l : list nat) :
  In x (remove_conn c l) -> In x l.
Proof.
  induction l as [|y l IH]; simpl; [tauto|].
  destruct (Nat.eqb y c); simpl; tauto.
Qed.

Lemma remove_conn_NoDup (c : nat) (l : list nat) :
  NoDup l -> NoDup (remove_conn c l).
Proof.
  induction l as [|y l IH]; simpl; intros H; [constructor|].
  inversion H as [|? ? Hy Hl]; subst.
  destruct (Nat.eqb y c); [assumption|].
  constructor; [|auto]. intros Hin. apply Hy. eapply remove_conn_In, Hin.
Qed.

Lemma remove_conn_last (c : nat) (l : list nat) :
  ~ In c l -> remove_conn c (l ++ [c]) = l.
Proof.
  induction l as [|y l IH]; simpl; intros H.
  - now rewrite Nat.eqb_refl.
  - destruct (Nat.eqb y c) eqn:E.
    + apply Nat.eqb_eq in E. tauto.
    + f_equal. apply IH. tauto.
Qed.

Lemma remove_conn_length (c : nat) (l : list nat) :
  In c l -> S (List.length (remove_conn c l)) = List.length l.
Proof.
  induction l as [|y l IH]; simpl; [tauto|].
  destruct (Nat.eqb y c) eqn:E; [reflexivity|].
  intros [H|H]; [apply Nat.eqb_neq in E; congruence|].
  simpl. now rewrite IH.
Qed.

Lemma NoDup_app_one (x : nat) (l : list nat) :
  NoDup l -> ~ In x l -> NoDup (l ++ [x]).
Proof.
  induction l as [|y l IH]; simpl; intros Hl Hx.
  - constructor; [tauto | constructor].
  - inversion Hl as [|? ? Hy Hl']; subst. constructor.
    + rewrite in_app_iff. simpl. intros [H|[H|[]]]; [tauto|].
      apply Hx. now left.
    + apply IH; [assumption | tauto].
Qed.

Lemma count_got_app (c : nat) (l1 l2 : list event) :
  count_got c (l1 ++ l2) = (count_got c l1 + count_got c l2)%nat.
Proof. unfold count_got. now rewrite filter_app, length_app. Qed.

Lemma count_put_app (c : nat) (l1 l2 : list event) :
  count_put c (l1 ++ l2) = (count_put c l1 + count_put c l2)%nat.
Proof. unfold count_put. now rewrite filter_app, length_app. Qed.

Lemma balanced_nil : balanced [].
Proof. intros c. reflexivity. Qed.

Lemma balanced_app (l1 l2 : list event) :
  balanced l1 -> balanced l2 -> balanced (l1 ++ l2).
Proof.
  intros H1 H2 c. now rewrite count_got_app, count_put_app, H1, H2.
Qed.

Lemma balanced_wrap (c : nat) (l : list event) :
  balanced l -> balanced ([Got c] ++ l ++ [Put c]).
Proof.
  intros H x. rewrite !count_got_app, !count_put_app, H.
  unfold count_got, count_put. simpl. destruct (Nat.eqb c x); simpl; lia.
Qed.

Lemma balanced_pair (c : nat) : balanced [Got c; Put c].
Proof. apply (balanced_wrap c balanced_nil). Qed.

Lemma pg_getconn_cases (p : pgpool) :
  wfp p ->
  (exists e, pg_getconn p = (Py.Raise e, p)
             /\ (e = PoolError Exhausted \/ e = OperationalError))
  \/ (exists c p',
         pg_getconn p = (Py.Return (Some c), p')
         /\ wfp p' /\ used p' = used p ++ [c] /\ ~ In c (used p)
         /\ (List.length (idle p') <= List.length (idle p))%nat
         /\ minconn p' = minconn p /\ maxconn p' = maxconn p
         /\ events p' = events p ++ [Got c]
         /\ (state_of p' = state_of p
             \/ state_of p' = set_state c Ready (state_of p))).
Proof.
  intros [Hi [Hu [Hd Hb]]]. unfold pg_getconn.
  destruct (idle p) as [|c rest] eqn:Ei.
  - destruct (Nat.eqb (List.length (used p)) (maxconn p)).
    { left. eexists. split; [reflexivity | now left]. }
    destruct (server_up p).
    2:{ left. eexists. split; [reflexivity | now right]. }
    right. exists (next_conn p). eexists. split; [reflexivity|].
    assert (Hn : ~ In (next_conn p) (used p)).
    { intros H. specialize (Hb _ (or_intror H)). lia. }
    unfold wfp. cbn [idle used minconn maxconn events next_conn state_of].
    split; [|split; [reflexivity|split; [exact Hn|split; [simpl; lia|auto 6]]]].
    split; [constructor|]. split; [now apply NoDup_app_one|].
    split; [intros c []|].
    intros c [[]|H]. apply in_app_iff in H as [H|[H|[]]].
    + specialize (Hb _ (or_intror H)). lia.
    + subst. lia.
  - right. exists c. eexists. split; [reflexivity|].
    inversion Hi as [|? ? Hc Hrest]; subst.
    assert (Hn : ~ In c (used p)) by (apply Hd; now left).
    unfold wfp. cbn [idle used minconn maxconn events next_conn state_of].
    split; [|split; [reflexivity|split; [exact Hn|split; [simpl; lia|auto 6]]]].
    split; [exact Hrest|]. split; [now apply NoDup_app_one|]. split.
    + intros x Hx Hin. apply in_app_iff in Hin as [Hin|[Hin|[]]].
      * apply (Hd x); [now right | exact Hin].
      * subst. contradiction.
    + intros x [Hx|Hx].
      * apply Hb. left. now right.
      * apply in_app_iff in Hx as [Hx|[Hx|[]]].
        -- apply Hb. now right.
        -- subst. apply Hb. left. now left.
Qed.

Lemma pg_getconn_lasting (Inv : (nat -> conn_state) -> Prop) (p p' : pgpool)
  (c : nat) :
  lasting Inv -> Inv (state_of p) ->
  state_of p' = state_of p \/ state_of p' = set_state c Ready (state_of p) ->
  Inv (state_of p').
Proof.
  intros HI H [->| ->]; [exact H|]. apply HI; [exact H | discriminate].
Qed.

Lemma pg_putconn_not_out (c : nat) (close : bool) (p : pgpool) :
  ~ In c (used p) -> pg_putconn c close p = (Py.Raise (PoolError Unkeyed), p).
Proof.
  intros H. unfold pg_putconn.
  destruct (mem c (used p)) eqn:E; [|reflexivity].
  apply mem_In in E. contradiction.
Qed.

(** What [put_away] leaves of a sound pool. *)
Lemma put_away_sound (c : nat) (st : conn_state) (kept : bool) (p : pgpool) :
  wfp p -> In c (used p) ->
  (kept = true -> (List.length (idle p) < minconn p)%nat) ->
  wfp (put_away c st kept p)
  /\ (List.length (idle (put_away c st kept p))
      <= Nat.max (List.length (idle p)) (minconn p))%nat.
Proof.
  intros [Hi [Hu [Hd Hb]]] Hc Hk.
  unfold wfp, put_away. cbn [idle used minconn maxconn events next_conn].
  assert (Hci : ~ In c (idle p)).
  { intros H. exact (Hd c H Hc). }
  assert (Hrc : ~ In c (remove_conn c (used p))).
  { clear - Hu. induction (used p) as [|y l IH]; simpl; [tauto|].
    inversion Hu as [|? ? Hy Hl]; subst.
    destruct (Nat.eqb y c) eqn:E.
    - apply Nat.eqb_eq in E. now subst.
    - simpl. apply Nat.eqb_neq in E. intuition. }
  split.
  - split; [destruct kept; [constructor; assumption | assumption]|].
    split; [now apply remove_conn_NoDup|]. split.
    + intros x Hx Hin.
      destruct kept; [destruct Hx as [<-|Hx]|]; try contradiction;
        apply remove_conn_In in Hin; exact (Hd x Hx Hin).
    + intros x [Hx|Hx].
      * destruct kept; [destruct Hx as [<-|Hx]|]; apply Hb; auto.
      * apply Hb. right. eapply remove_conn_In, Hx.
  - destruct kept; [|lia]. specialize (Hk eq_refl). simpl. lia.
Qed.

(** [putconn] of a connection that is out and has not lost its session
    inside a transaction, or is to be closed. *)
Lemma pg_putconn_out (c : nat) (close : bool) (p : pgpool) :
  wfp p -> In c (used p) ->
  close = true \/ state_of p c <> LostInTransaction ->
  exists p',
    pg_putconn c close p = (Py.Return tt, p')
    /\ wfp p' /\ used p' = remove_conn c (used p)
    /\ (List.length (idle p')
        <= Nat.max (List.length (idle p)) (minconn p))%nat
    /\ (close = true -> idle p' = idle p)
    /\ minconn p' = minconn p /\ maxconn p' = maxconn p
    /\ events p' = events p ++ [Put c]
    /\ (exists st, st <> LostInTransaction
                   /\ state_of p' = set_state c st (state_of p)).
Proof.
  intros Hp Hc Hst. unfold pg_putconn.
  destruct (mem c (used p)) eqn:E.
  2:{ apply mem_In in Hc. congruence. }
  cbn [negb].
  assert (G : forall st kept,
             st <> LostInTransaction ->
             (kept = true ->
              (Nat.ltb (List.length (idle p)) (minconn p) && negb close)%bool
              = true) ->
             exists p',
               (Py.Return tt, put_away c st kept p)
               = (Py.Return (E:=pexn) tt, p')
               /\ wfp p' /\ used p' = remove_conn c (used p)
               /\ (List.length (idle p')
                   <= Nat.max (List.length (idle p)) (minconn p))%nat
               /\ (close = true -> idle p' = idle p)
               /\ minconn p' = minconn p /\ maxconn p' = maxconn p
               /\ events p' = events p ++ [Put c]
               /\ (exists st', st' <> LostInTransaction
                     /\ state_of p' = set_state c st' (state_of p))).
  { intros st kept Hne Hk. eexists. split; [reflexivity|].
    assert (Hk' : kept = true -> (List.length (idle p) < minconn p)%nat).
    { intros K. specialize (Hk K). apply andb_true_iff in Hk as [Hk _].
      now apply Nat.ltb_lt in Hk. }
    destruct (@put_away_sound c st kept p Hp Hc Hk') as [W L].
    split; [exact W|]. split; [reflexivity|]. split; [exact L|].
    split.
    { intros ->. destruct kept; [|reflexivity].
      specialize (Hk eq_refl). rewrite andb_false_r in Hk. discriminate. }
    split; [reflexivity|]. split; [reflexivity|]. split; [reflexivity|].
    exists st. split; [exact Hne | reflexivity]. }
  destruct (Nat.ltb (List.length (idle p)) (minconn p) && negb close)%bool
    eqn:K.
  - destruct (state_of p c) eqn:S; try (apply G; [discriminate | auto]).
    destruct Hst as [->|Hst]; [|congruence].
    rewrite andb_false_r in K. discriminate.
  - apply G; [discriminate | discriminate].
Qed.

Lemma restores_refl (d : DatabasePool) : wf d -> restores d d.
Proof.
  intros H. unfold restores. repeat split; auto; try apply H.
  - lia.
  - exists []. split; [now rewrite app_nil_r | apply balanced_nil].
Qed.

Lemma restores_trans (d1 d2 d3 : DatabasePool) :
  restores d1 d2 -> restores d2 d3 -> restores d1 d3.
Proof.
  intros [_ [U1 [M1 [X1 [E1 [L1 [ev1 [V1 B1]]]]]]]]
         [W2 [U2 [M2 [X2 [E2 [L2 [ev2 [V2 B2]]]]]]]].
  unfold restores. split; [exact W2|].
  split; [congruence|]. split; [congruence|]. split; [congruence|].
  split; [congruence|]. split; [rewrite M1 in L2; lia|].
  exists (ev1 ++ ev2). split; [|now apply balanced_app].
  rewrite V2, V1. now rewrite app_assoc.
Qed.

(** Counting a failure changes neither the pool nor the active count. *)
Lemma restores_on_exception (e : pexn) (d : DatabasePool) :
  wf d -> restores d (on_exception e d).
Proof.
  intros H. unfold on_exception.
  destruct (is_exception e); [|now apply restores_refl].
  unfold restores, add_failed, wf. cbn [_pool _stats active_connections
                                         pool_exhausted].
  repeat split; auto; try apply H.
  - lia.
  - exists []. split; [now rewrite app_nil_r | apply balanced_nil].
Qed.

Lemma on_exception_pool (e : pexn) (d : DatabasePool) :
  _pool (on_exception e d) = _pool d.
Proof. unfold on_exception. now destruct (is_exception e). Qed.

Lemma restores_set_conn_state (c : nat) (st : conn_state) (d : DatabasePool) :
  wf d -> restores d (set_conn_state c st d).
Proof.
  intros [[H1 [H2 [H3 H4]]] H5].
  unfold restores, set_conn_state, with_pool, wf, wfp.
  cbn [_pool _stats idle used minconn maxconn events next_conn].
  repeat split; auto.
  - lia.
  - exists []. split; [now rewrite app_nil_r | apply balanced_nil].
Qed.

Lemma restores_set_server (up : bool) (d : DatabasePool) :
  wf d -> restores d (set_server up d).
Proof.
  intros [[H1 [H2 [H3 H4]]] H5].
  unfold restores, set_server, with_pool, wf, wfp.
  cbn [_pool _stats idle used minconn maxconn events next_conn].
  repeat split; auto.
  - lia.
  - exists []. split; [now rewrite app_nil_r | apply balanced_nil].
Qed.

Section Invariant.

Variable Inv : (nat -> conn_state) -> Prop.
Hypothesis Inv_lasting : lasting Inv.

(** The [finally] clause after a block that held [c] and has not left
    it with its session lost inside a transaction. *)
Lemma release_after_block (c : nat) (p0 : pgpool) (st0 : stats)
  (d2 : DatabasePool) (pre : list event) :
  wfp p0 -> ~ In c (used p0) ->
  wf d2 -> used (_pool d2) = used p0 ++ [c] ->
  state_of (_pool d2) c <> LostInTransaction ->
  Inv (state_of (_pool d2)) ->
  minconn (_pool d2) = minconn p0 -> maxconn (_pool d2) = maxconn p0 ->
  pool_exhausted (_stats d2) = pool_exhausted st0 ->
  active_connections st0 = Z.of_nat (List.length (used p0)) ->
  (List.length (idle (_pool d2))
   <= Nat.max (List.length (idle p0)) (minconn p0))%nat ->
  (exists evs, events (_pool d2) = events p0 ++ pre ++ [Got c] ++ evs
               /\ balanced evs) ->
  balanced pre ->
  restores (DbPool p0 st0) (finally_release (Some c) d2)
  /\ Inv (state_of (_pool (finally_release (Some c) d2))).
Proof.
  intros Hp0 Hc [Hp2 Ha2] Hu Hst HI Hm Hx He Ha0 Hl [evs [Hev Hb]] Hpre.
  unfold finally_release.
  assert (Hin : In c (used (_pool d2))).
  { rewrite Hu. apply in_app_iff. right. now left. }
  destruct (@pg_putconn_out c false _ Hp2 Hin (or_intror Hst))
    as [p' [-> [Hp' [Hu' [Hl' [_ [Hm' [Hx' [Hev' [st [Hne Hs']]]]]]]]]]].
  unfold restores, wf, add_active, with_pool.
  cbn [_pool _stats active_connections pool_exhausted].
  assert (Hup : used p' = used p0).
  { rewrite Hu', Hu. now apply remove_conn_last. }
  split; [|rewrite Hs'; now apply Inv_lasting].
  split.
  { split; [exact Hp'|]. rewrite Ha2, Hu, Hup, length_app. simpl. lia. }
  split; [exact Hup|]. split; [congruence|]. split; [congruence|].
  split; [exact He|]. split; [rewrite Hm in Hl'; lia|].
  exists (pre ++ ([Got c] ++ evs ++ [Put c])). split.
  - rewrite Hev', Hev. now rewrite <- !app_assoc.
  - apply balanced_app; [exact Hpre | now apply balanced_wrap].
Qed.

(** The block and the [finally] clause, with [c] held. *)
Lemma holding_restores
  (block : option nat -> DatabasePool -> outcome * DatabasePool)
  (c : nat) (p0 : pgpool) (st0 : stats) (p' : pgpool) (pre : list event) :
  wfp p0 -> active_connections st0 = Z.of_nat (List.length (used p0)) ->
  restoring Inv block ->
  wfp p' -> Inv (state_of p') ->
  used p' = used p0 ++ [c] -> ~ In c (used p0) ->
  (List.length (idle p') <= List.length (idle p0))%nat ->
  minconn p' = minconn p0 -> maxconn p' = maxconn p0 ->
  events p' = events p0 ++ pre ++ [Got c] -> balanced pre ->
  let d' :=
    snd (match block (Some c) (add_active 1 (with_pool p' (DbPool p0 st0))) with
         | (Normal, d2) => (Normal, finally_release (Some c) d2)
         | (Raised e, d2) =>
           (Raised e, finally_release (Some c) (on_exception e d2))
         end) in
  restores (DbPool p0 st0) d' /\ Inv (state_of (_pool d')).
Proof.
  intros Hp0 Ha0 Hblock Hp' HI Hu Hc Hl Hm Hx Hev Hpre.
  set (d1 := add_active 1 (with_pool p' (DbPool p0 st0))).
  assert (W1 : wf d1).
  { split; [exact Hp'|]. unfold d1, add_active, with_pool.
    cbn [_pool _stats active_connections]. rewrite Hu, length_app, Ha0.
    simpl. lia. }
  assert (I1 : Inv (state_of (_pool d1))) by exact HI.
  destruct (Hblock (Some c) d1 W1 I1) as [R [I2 S2]].
  specialize (S2 c eq_refl).
  destruct (block (Some c) d1) as [o d2]. cbn [snd] in R, I2, S2.
  assert (G : forall d3, restores d1 d3 ->
                         state_of (_pool d3) c <> LostInTransaction ->
                         Inv (state_of (_pool d3)) ->
                         restores (DbPool p0 st0) (finally_release (Some c) d3)
                         /\ Inv (state_of (_pool (finally_release (Some c) d3)))).
  { intros d3 [W3 [U3 [M3 [X3 [E3 [L3 [evs [V3 B3]]]]]]]] S3 I3.
    unfold d1, add_active, with_pool in U3, M3, X3, E3, L3, V3.
    cbn [_pool _stats pool_exhausted] in U3, M3, X3, E3, L3, V3.
    apply release_after_block with (pre := pre); auto; try congruence.
    - rewrite Hm in L3. lia.
    - exists evs. split; [|exact B3]. rewrite V3, Hev.
      now rewrite <- !app_assoc. }
  destruct o as [|e]; cbv zeta; cbn [snd].
  - now apply G.
  - apply G; try (rewrite on_exception_pool; assumption).
    eapply restores_trans; [exact R|].
    apply restores_on_exception. apply R.
Qed.

(** A with statement restores the pool when its block does. *)
Lemma get_connection_restores
  (block : option nat -> DatabasePool -> outcome * DatabasePool)
  (d : DatabasePool) :
  wf d -> Inv (state_of (_pool d)) -> restoring Inv block ->
  restores d (snd (get_connection block d))
  /\ Inv (state_of (_pool (snd (get_connection block d)))).
Proof.
  intros W HI Hblock. destruct d as [p0 st0]. destruct W as [Hp0 Ha0].
  cbn [_pool _stats] in Hp0, Ha0, HI.
  unfold get_connection. cbn [_pool].
  destruct (pg_getconn_cases Hp0)
    as [[e [-> _]]
       | [c [p1 [-> [Hp1 [Hu1 [Hc1 [Hl1 [Hm1 [Hx1 [Hev1 Hs1]]]]]]]]]]].
  { cbn [snd]. rewrite on_exception_pool. split; [|exact HI].
    apply restores_on_exception. now split. }
  assert (I1 : Inv (state_of p1))
    by (eapply pg_getconn_lasting; eauto).
  destruct (pg_closed c p1).
  2:{ cbv zeta. cbv iota.
      apply holding_restores with (pre := []); auto. apply balanced_nil. }
  assert (Hin : In c (used p1)).
  { rewrite Hu1. apply in_app_iff. right. now left. }
  destruct (@pg_putconn_out c true _ Hp1 Hin (or_introl eq_refl))
    as [p2 [-> [Hp2 [Hu2 [_ [Hi2 [Hm2 [Hx2 [Hev2 [st2 [Hne2 Hs2]]]]]]]]]]].
  specialize (Hi2 eq_refl).
  assert (I2 : Inv (state_of p2)) by (rewrite Hs2; now apply Inv_lasting).
  assert (Hu2' : used p2 = used p0).
  { rewrite Hu2, Hu1. now apply remove_conn_last. }
  destruct (pg_getconn_cases Hp2)
    as [[e [-> _]]
       | [c' [p3 [-> [Hp3 [Hu3 [Hc3 [Hl3 [Hm3 [Hx3 [Hev3 Hs3]]]]]]]]]]].
  - cbv zeta. cbv iota. cbn [snd]. unfold finally_release.
    assert (Hout : ~ In c (used (_pool (on_exception e (with_pool p2 (DbPool p0 st0)))))).
    { rewrite on_exception_pool. cbn [_pool with_pool]. rewrite Hu2'.
      exact Hc1. }
    rewrite (@pg_putconn_not_out c false _ Hout).
    unfold with_pool at 1. cbn [_pool _stats]. rewrite on_exception_pool.
    cbn [with_pool _pool]. split; [|exact I2].
    unfold restores, wf, on_exception, add_failed, with_pool.
    destruct (is_exception e);
      cbn [_pool _stats active_connections pool_exhausted];
      (split; [split; [exact Hp2 | now rewrite Hu2']|]);
      (split; [exact Hu2'|]); (split; [congruence|]); (split; [congruence|]);
      (split; [reflexivity|]); (split; [rewrite Hi2; lia|]);
      exists [Got c; Put c]; (split; [|apply balanced_pair]);
      rewrite Hev2, Hev1; now rewrite <- app_assoc.
  - cbv zeta. cbv iota.
    assert (I3 : Inv (state_of p3))
      by (eapply pg_getconn_lasting; eauto).
    apply holding_restores with (pre := [Got c; Put c]); auto;
      try congruence.
    + rewrite Hi2 in Hl3. lia.
    + rewrite Hev3, Hev2, Hev1. now rewrite <- !app_assoc.
    + apply balanced_pair.
Qed.

End Invariant.

Lemma calm_set_conn_state (c : nat) (st : conn_state) (d : DatabasePool) :
  calm (state_of (_pool d)) -> lost_in_transaction st = false ->
  calm (state_of (_pool (set_conn_state c st d))).
Proof.
  intros H Hst. unfold set_conn_state, with_pool. cbn [_pool state_of].
  apply lasting_calm; [exact H|]. intros ->. discriminate.
Qed.

(** Every tidy block restores a calm pool and leaves it calm. *)
Lemma run_restores (s : script) : tidy s = true -> restoring calm (run s).
Proof.
  assert (G : forall s, tidy s = true ->
                forall conn d, wf d -> calm (state_of (_pool d)) ->
                  restores d (snd (run s conn d))
                  /\ calm (state_of (_pool (snd (run s conn d))))).
  { clear s. induction s as [|e|st k IH|k IH|up k IH|inner IHi k IHk];
      intros Ht conn d W C; cbn [run tidy] in *; try discriminate.
    - split; [now apply restores_refl | exact C].
    - split; [now apply restores_refl | exact C].
    - apply andb_true_iff in Ht as [Hst Hk]. apply negb_true_iff in Hst.
      destruct conn as [c|]; [|split; [now apply restores_refl | exact C]].
      destruct (IH Hk (Some c) (set_conn_state c st d)
                   (proj1 (restores_set_conn_state c st W))
                   (@calm_set_conn_state c st d C Hst)) as [R C'].
      split; [|exact C'].
      eapply restores_trans; [apply (restores_set_conn_state c st W)|exact R].
    - destruct (IH Ht conn (set_server up d)
                   (proj1 (restores_set_server up W)) C) as [R C'].
      split; [|exact C'].
      eapply restores_trans; [apply (restores_set_server up W)|exact R].
    - apply andb_true_iff in Ht as [Hi Hk].
      assert (B : restoring calm (run inner)).
      { intros conn' d' W' C'. destruct (IHi Hi conn' d' W' C') as [R' C''].
        split; [exact R'|]. split; [exact C''|]. intros c _. apply C''. }
      destruct (@get_connection_restores calm lasting_calm (run inner) d W C B)
        as [R C'].
      destruct (get_connection (run inner) d) as [o d']. cbn [snd] in R, C'.
      destruct o as [|e]; [|split; assumption].
      destruct (IHk Hk conn d' (proj1 R) C') as [R2 C2].
      split; [|exact C2]. eapply restores_trans; [exact R|exact R2]. }
  intros Ht conn d W C. destruct (G s Ht conn d W C) as [R C'].
  split; [exact R|]. split; [exact C'|]. intros c _. apply C'.
Qed.

Lemma cycles_restores (l : list script) (d : DatabasePool) :
  forallb tidy l = true -> wf d -> calm (state_of (_pool d)) ->
  restores d (cycles l d) /\ calm (state_of (_pool (cycles l d))).
Proof.
  revert d. induction l as [|s l IH]; intros d Ht W C; cbn [cycles].
  - split; [now apply restores_refl | exact C].
  - cbn [forallb] in Ht. apply andb_true_iff in Ht as [Hs Hl].
    destruct (@get_connection_restores calm lasting_calm (run s) d W C
                (@run_restores s Hs)) as [R C'].
    destruct (IH _ Hl (proj1 R) C') as [R2 C2].
    split; [|exact C2]. eapply restores_trans; [exact R|exact R2].
Qed.

(** What a simple block leaves of the pool it was given. *)
Lemma run_simple (s : script) (c : nat) (d : DatabasePool) :
  simple s = true -> alive (state_of (_pool d) c) = true ->
  let d' := snd (run s (Some c) d) in
  idle (_pool d') = idle (_pool d) /\ used (_pool d') = used (_pool d)
  /\ minconn (_pool d') = minconn (_pool d)
  /\ alive (state_of (_pool d') c) = true.
Proof.
  revert d. induction s as [|e|st k IH|k IH|up k IH|inner IHi k IHk];
    intros d Hs Ha; cbn [run simple] in *; try discriminate.
  - cbn [snd]. auto.
  - cbn [snd]. auto.
  - apply andb_true_iff in Hs as [Hst Hk].
    assert (Hd : alive (state_of (_pool (set_conn_state c st d)) c) = true).
    { unfold set_conn_state, with_pool, set_state. cbn [_pool state_of].
      now rewrite Nat.eqb_refl. }
    destruct (IH (set_conn_state c st d) Hk Hd) as [I1 [I2 [I3 I4]]].
    cbv zeta. rewrite I1, I2, I3. auto.
Qed.

(** [putconn] of a connection that is out and alive, fewer than
    [minconn] being idle: it is kept, ready. *)
Lemma pg_putconn_alive (c : nat) (p : pgpool) :
  In c (used p) -> alive (state_of p c) = true ->
  (List.length (idle p) < minconn p)%nat ->
  pg_putconn c false p = (Py.Return tt, put_away c Ready true p).
Proof.
  intros Hc Ha Hl. unfold pg_putconn.
  apply mem_In in Hc. rewrite Hc. cbn [negb].
  apply Nat.ltb_lt in Hl. rewrite Hl. cbn [andb negb].
  destruct (state_of p c); simpl in Ha; try discriminate; reflexivity.
Qed.

(** [putconn] of a connection that is out and has not lost its session
    inside a transaction puts it away. *)
Lemma pg_putconn_put_away (c : nat) (close : bool) (p : pgpool) :
  In c (used p) -> state_of p c <> LostInTransaction ->
  exists st kept, pg_putconn c close p = (Py.Return tt, put_away c st kept p).
Proof.
  intros Hc Hst. unfold pg_putconn.
  apply mem_In in Hc. rewrite Hc. cbn [negb].
  destruct (Nat.ltb (List.length (idle p)) (minconn p) && negb close)%bool;
    [|eauto].
  destruct (state_of p c); eauto. congruence.
Qed.

(** One with statement around a simple block, on a pool whose next
    idle connection is alive and which holds no more than [minconn]
    idle ones: the idle connections are as before. *)
Lemma simple_cycle (s : script) (d : DatabasePool) (c : nat) (rest : list nat) :
  simple s = true -> idle (_pool d) = c :: rest ->
  (List.length (idle (_pool d)) <= minconn (_pool d))%nat ->
  alive (state_of (_pool d) c) = true ->
  let d' := snd (get_connection (run s) d) in
  idle (_pool d') = idle (_pool d)
  /\ minconn (_pool d') = minconn (_pool d)
  /\ alive (state_of (_pool d') c) = true.
Proof.
  intros Hs Hi Hl Ha. destruct d as [p st]. cbn [_pool] in *.
  unfold get_connection, pg_getconn. cbn [_pool]. rewrite Hi.
  unfold pg_closed. cbn [state_of].
  assert (Hnc : match state_of p c with Closed => true | _ => false end = false).
  { destruct (state_of p c); simpl in Ha; congruence. }
  rewrite Hnc.
  set (d1 := add_active 1 _).
  assert (Ha1 : alive (state_of (_pool d1) c) = true) by exact Ha.
  destruct (run_simple s c d1 Hs Ha1) as [I1 [I2 [I3 I4]]].
  destruct (run s (Some c) d1) as [o d2]. cbn [snd] in I1, I2, I3, I4.
  unfold d1, add_active, with_pool in I1, I2, I3.
  cbn [_pool idle used minconn] in I1, I2, I3.
  assert (G : forall d3, idle (_pool d3) = rest ->
                         used (_pool d3) = used p ++ [c] ->
                         minconn (_pool d3) = minconn p ->
                         alive (state_of (_pool d3) c) = true ->
            let d' := finally_release (Some c) d3 in
            idle (_pool d') = c :: rest /\ minconn (_pool d') = minconn p
            /\ alive (state_of (_pool d') c) = true).
  { intros d3 J1 J2 J3 J4. unfold finally_release.
    rewrite pg_putconn_alive; auto.
    - unfold add_active, with_pool, put_away.
      cbn [_pool idle minconn state_of]. unfold set_state.
      rewrite Nat.eqb_refl, J1, J3. auto.
    - rewrite J2. apply in_app_iff. right. now left.
    - rewrite J1, J3. rewrite Hi in Hl. simpl in Hl. lia. }
  destruct o as [|e]; cbn [snd].
  - apply G; auto.
  - apply G; unfold on_exception, add_failed;
      destruct (is_exception e); cbn [_pool]; auto.
Qed.

Lemma simple_cycles (l : list script) (d : DatabasePool) (c : nat)
  (rest : list nat) :
  forallb simple l = true -> idle (_pool d) = c :: rest ->
  (List.length (idle (_pool d)) <= minconn (_pool d))%nat ->
  alive (state_of (_pool d) c) = true ->
  idle (_pool (cycles l d)) = idle (_pool d).
Proof.
  revert d. induction l as [|s l IH]; intros d Hs Hi Hl Ha; cbn [cycles].
  - reflexivity.
  - cbn [forallb] in Hs. apply andb_true_iff in Hs as [Hs1 Hs2].
    destruct (simple_cycle s d Hs1 Hi Hl Ha) as [I1 [I2 I3]].
    rewrite IH; auto.
    + now rewrite I1.
    + now rewrite I1, I2.
Qed.

Lemma wf_fresh_pool : wf fresh_pool.
Proof.
  unfold wf, wfp, fresh_pool. cbn.
  split; [|reflexivity].
  split; [repeat constructor; simpl; lia|].
  split; [constructor|]. split; [tauto | lia].
Qed.

Lemma calm_fresh_pool : calm (state_of (_pool fresh_pool)).
Proof. intros c. discriminate. Qed.

(** [putconn] of a connection that is out and has lost its session
    inside a transaction, fewer than [minconn] being idle: the rollback
    raises and the connection stays out. *)
Lemma pg_putconn_lost (c : nat) (p : pgpool) :
  In c (used p) -> state_of p c = LostInTransaction ->
  (List.length (idle p) < minconn p)%nat ->
  pg_putconn c false p = (Py.Raise OperationalError, rollback_fails c p).
Proof.
  intros Hc Hs Hl. unfold pg_putconn.
  apply mem_In in Hc. rewrite Hc. cbn [negb].
  apply Nat.ltb_lt in Hl. rewrite Hl. cbn [andb negb]. now rewrite Hs.
Qed.

(** The pool after [getconn] has handed out the idle connection [c]. *)
Definition handed_out (c : nat) (rest : list nat) (p : pgpool) : pgpool :=
  PgPool (minconn p) (maxconn p) rest (used p ++ [c]) (state_of p)
         (next_conn p) (server_up p) (events p ++ [Got c]).

(** The with statement on a pool whose next idle connection is not
    closed. *)
Lemma get_connection_idle
  (block : option nat -> DatabasePool -> outcome * DatabasePool)
  (d : DatabasePool) (c : nat) (rest : list nat) :
  idle (_pool d) = c :: rest -> pg_closed c (_pool d) = false ->
  get_connection block d
  = match block (Some c)
                (add_active 1 (with_pool (handed_out c rest (_pool d)) d)) with
    | (Normal, d2) => (Normal, finally_release (Some c) d2)
    | (Raised e, d2) => (Raised e, finally_release (Some c) (on_exception e d2))
    end.
Proof.
  intros Hi Hc. unfold get_connection, pg_getconn. rewrite Hi.
  unfold pg_closed in Hc |- *. cbn [state_of]. rewrite Hc. reflexivity.
Qed.

(** C5. Scoped acquisition does not give back what it takes on every
    way out of the block. On a sound pool whose next idle connection
    [c] is alive, no more than [minconn] connections being idle:
    when the session of [c] is lost inside the transaction the block
    has opened, the release at the end of the with statement fails at
    its rollback, whether the block ends or raises [e]; [c] is handed
    out and never put back, it stays among the connections that are
    out, now closed, and the active count stays one higher than
    before. And when the block puts [c] back itself, the release at
    the end fails too and the active count is left one more than the
    number of connections out. *)
Theorem failed_release_leaks (d : DatabasePool) (c : nat) (rest : list nat)
  (e : pexn) :
  wf d -> idle (_pool d) = c :: rest ->
  (List.length (idle (_pool d)) <= minconn (_pool d))%nat ->
  alive (state_of (_pool d) c) = true ->
  let lost := get_connection (run (Use LostInTransaction Finish)) d in
  let raised := get_connection (run (Use LostInTransaction (Throw e))) d in
  let given := get_connection (run (GiveBack Finish)) d in
  fst lost = Normal
  /\ used (_pool (snd lost)) = used (_pool d) ++ [c]
  /\ idle (_pool (snd lost)) = rest
  /\ events (_pool (snd lost)) = events (_pool d) ++ [Got c]
  /\ active_connections (_stats (snd lost))
     = (active_connections (_stats d) + 1)%Z
  /\ pg_closed c (_pool (snd lost)) = true
  /\ fst raised = Raised e
  /\ used (_pool (snd raised)) = used (_pool d) ++ [c]
  /\ events (_pool (snd raised)) = events (_pool d) ++ [Got c]
  /\ active_connections (_stats (snd raised))
     = (active_connections (_stats d) + 1)%Z
  /\ fst given = Normal
  /\ used (_pool (snd given)) = used (_pool d)
  /\ events (_pool (snd given)) = events (_pool d) ++ [Got c; Put c]
  /\ active_connections (_stats (snd given))
     = (Z.of_nat (List.length (used (_pool (snd given)))) + 1)%Z.
Proof.
  intros [Hp Ha] Hi Hl Hal. cbv zeta.
  assert (Hc : ~ In c (used (_pool d))).
  { destruct Hp as [_ [_ [Hd _]]]. apply Hd. rewrite Hi. now left. }
  assert (Hnc : pg_closed c (_pool d) = false).
  { unfold pg_closed. destruct (state_of (_pool d) c); simpl in Hal;
      congruence. }
  rewrite !(@get_connection_idle _ d c rest Hi Hnc). cbn [run].
  set (p1 := handed_out c rest (_pool d)).
  assert (Hin : In c (used p1)).
  { unfold p1, handed_out. cbn [used]. apply in_app_iff. right. now left. }
  assert (Hlt : (List.length (idle p1) < minconn p1)%nat).
  { unfold p1, handed_out. cbn [idle minconn]. rewrite Hi in Hl.
    simpl in Hl. lia. }
  (* the release after the session was lost *)
  assert (L : forall d1, _pool d1 = p1 ->
                let d2 := finally_release (Some c)
                            (set_conn_state c LostInTransaction d1) in
                used (_pool d2) = used (_pool d) ++ [c]
                /\ idle (_pool d2) = rest
                /\ events (_pool d2) = events (_pool d) ++ [Got c]
                /\ active_connections (_stats d2)
                   = active_connections (_stats d1)
                /\ pg_closed c (_pool d2) = true).
  { intros d1 E. cbv zeta. unfold finally_release.
    rewrite pg_putconn_lost.
    - unfold set_conn_state, with_pool, rollback_fails, pg_closed, set_state.
      cbn [_pool _stats used idle events state_of]. rewrite E.
      rewrite Nat.eqb_refl. repeat split.
    - unfold set_conn_state, with_pool. cbn [_pool used]. now rewrite E.
    - unfold set_conn_state, with_pool, set_state. cbn [_pool state_of].
      now rewrite Nat.eqb_refl.
    - unfold set_conn_state, with_pool. cbn [_pool idle minconn].
      now rewrite E. }
  destruct (L (add_active 1 (with_pool p1 d)) eq_refl)
    as [L1 [L2 [L3 [L4 L5]]]].
  cbn [fst snd].
  split; [reflexivity|]. split; [exact L1|]. split; [exact L2|].
  split; [exact L3|]. split; [exact L4|]. split; [exact L5|].
  split; [reflexivity|].
  assert (X : on_exception e
                (set_conn_state c LostInTransaction
                   (add_active 1 (with_pool p1 d)))
              = set_conn_state c LostInTransaction
                  (on_exception e (add_active 1 (with_pool p1 d)))).
  { unfold on_exception. now destruct (is_exception e). }
  rewrite X.
  destruct (L (on_exception e (add_active 1 (with_pool p1 d)))
              (@on_exception_pool e _)) as [R1 [_ [R3 [R4 _]]]].
  split; [exact R1|]. split; [exact R3|].
  split.
  { rewrite R4. unfold on_exception, add_failed, add_active, with_pool.
    now destruct (is_exception e). }
  (* the block that puts its connection back *)
  assert (Hal1 : alive (state_of p1 c) = true) by exact Hal.
  cbn [_pool add_active with_pool].
  rewrite (@pg_putconn_alive c p1 Hin Hal1 Hlt). cbn [run fst snd].
  unfold finally_release, with_pool. cbn [_pool _stats].
  assert (Hu : used (put_away c Ready true p1) = used (_pool d)).
  { unfold put_away, p1, handed_out. cbn [used].
    now apply remove_conn_last. }
  rewrite pg_putconn_not_out by (rewrite Hu; exact Hc).
  cbn [_pool _stats active_connections]. rewrite Hu.
  split; [reflexivity|]. split; [reflexivity|]. split.
  - unfold put_away, p1, handed_out. cbn [events].
    now rewrite <- app_assoc.
  - unfold add_active. cbn [_stats active_connections]. rewrite Ha.
    reflexivity.
Qed.

Lemma failed_release_leaks_witness :
  used (_pool (snd (get_connection (run (Use LostInTransaction Finish))
                                   fresh_pool))) = [0%nat]
  /\ events (_pool (snd (get_connection (run (Use LostInTransaction Finish))
                                        fresh_pool))) = [Got 0]
  /\ active_connections
       (_stats (snd (get_connection (run (GiveBack Finish)) fresh_pool)))
     = 1%Z
  /\ used (_pool (snd (get_connection (run (GiveBack Finish)) fresh_pool)))
     = [].
Proof.
  destruct (@failed_release_leaks fresh_pool 0%nat [1; 2]%nat Interrupt
              wf_fresh_pool eq_refl (Nat.le_refl 3) eq_refl)
    as [_ [A [_ [B [_ [_ [_ [_ [_ [_ [_ [C [_ D]]]]]]]]]]]]].
  split; [exact A|]. split; [exact B|]. split; [exact D | exact C].
Defined.



(** The ways out of one with statement on [fresh_pool] that put
    connection 0 back: it is handed out once and taken back once. A
    connection whose session is lost with no transaction open goes back
    to the idle ones as it is; a closed one is dropped. *)
Example exit_paths :
  events (_pool (snd (get_connection (run Finish) fresh_pool)))
    = [Got 0; Put 0]%nat
  /\ events (_pool (snd (get_connection (run (Throw (BlockError 1))) fresh_pool)))
    = [Got 0; Put 0]%nat
  /\ events (_pool (snd (get_connection (run (Use Lost Finish)) fresh_pool)))
    = [Got 0; Put 0]%nat
  /\ idle (_pool (snd (get_connection (run (Use Lost Finish)) fresh_pool)))
    = [0; 1; 2]%nat
  /\ state_of (_pool (snd (get_connection (run (Use Lost Finish)) fresh_pool)))
              0%nat
    = Lost
  /\ idle (_pool (snd (get_connection (run (Use Closed Finish)) fresh_pool)))
    = [1; 2]%nat
  /\ idle (_pool (snd (get_connection (run (Use Broken Finish)) fresh_pool)))
    = [1; 2]%nat
  /\ idle (_pool (snd (get_connection (run (Use Ready Finish)) fresh_pool)))
    = [0; 1; 2]%nat
  /\ fst (get_connection (run (Throw (BlockError 1))) fresh_pool)
    = Raised (BlockError 1).
Proof. repeat split. Qed.

(** A connection found closed is put back for closing and another one
    is handed out and put back in its turn. *)
Example closed_connection_replaced :
  let d := set_conn_state 0 Closed fresh_pool in
  events (_pool (snd (get_connection (run Finish) d)))
    = [Got 0; Put 0; Got 1; Put 1]%nat
  /\ idle (_pool (snd (get_connection (run Finish) d))) = [1; 2]%nat
  /\ active_connections (_stats (snd (get_connection (run Finish) d))) = 0%Z.
Proof. repeat split. Qed.

(** X29. Sessions lost inside a transaction use the pool up. On
    [fresh_pool], three connections idle and five allowed, five with
    statements whose blocks end with the session lost inside a
    transaction leave five connections out, none idle and the active
    count at five, with nothing put back; the sixth with statement,
    whatever its block, fails with the PoolError of an exhausted
    pool. *)
Theorem lost_sessions_exhaust_the_pool
  (block : option nat -> DatabasePool -> outcome * DatabasePool) :
  let d := cycles (repeat (Use LostInTransaction Finish) 5) fresh_pool in
  used (_pool d) = [0; 1; 2; 3; 4]%nat
  /\ idle (_pool d) = []
  /\ active_connections (_stats d) = 5%Z
  /\ events (_pool d) = [Got 0; Got 1; Got 2; Got 3; Got 4]%nat
  /\ fst (get_connection block d) = Raised (PoolError Exhausted).
Proof.
  cbv zeta.
  assert (E : cycles (repeat (Use LostInTransaction Finish) 5) fresh_pool
              = DbPool (PgPool 3 5 [] [0; 1; 2; 3; 4]%nat
                          (state_of (_pool (cycles (repeat (Use LostInTransaction Finish) 5) fresh_pool)))
                          5 true [Got 0; Got 1; Got 2; Got 3; Got 4]%nat)
                       (Stats 0 5 0 0)) by reflexivity.
  rewrite E. cbn [_pool _stats used idle active_connections events].
  repeat split.
Qed.

(** The call on a pool with nothing idle and [maxconn] connections out:
    [getconn] raises, the [except pool.PoolError] clause counts a
    failure and raises again, and the block is not run. *)
Lemma get_connection_exhausted
  (block : option nat -> DatabasePool -> outcome * DatabasePool)
  (d : DatabasePool) :
  idle (_pool d) = [] ->
  List.length (used (_pool d)) = maxconn (_pool d) ->
  get_connection block d = (Raised (PoolError Exhausted), add_failed d).
Proof.
  intros Hi Hu. destruct d as [p st]. cbn [_pool] in *.
  unfold get_connection, pg_getconn. cbn [_pool]. rewrite Hi, Hu.
  rewrite Nat.eqb_refl. reflexivity.
Qed.

(** C8. With no idle connection and [maxconn] connections out the call
    fails at once, before the block, with the driver's PoolError, which
    is not the error of a refused connection; the failure is counted in
    [failed_connections] and [pool_exhausted] stays as it was: the
    branch that counts it is taken only when [getconn] returns nothing,
    which it never does. *)
Theorem exhaustion_is_not_counted
  (block : option nat -> DatabasePool -> outcome * DatabasePool)
  (d : DatabasePool) :
  idle (_pool d) = [] ->
  List.length (used (_pool d)) = maxconn (_pool d) ->
  let r := get_connection block d in
  fst r = Raised (PoolError Exhausted)
  /\ pool_exhausted (_stats (snd r)) = pool_exhausted (_stats d)
  /\ failed_connections (_stats (snd r)) = (failed_connections (_stats d) + 1)%Z
  /\ _pool (snd r) = _pool d.
Proof.
  intros Hi Hu. cbv zeta. rewrite (get_connection_exhausted block d Hi Hu).
  repeat split.
Qed.

Lemma exhaustion_is_not_counted_witness :
  fst (get_connection (run Finish) exhausted_pool) = Raised (PoolError Exhausted)
  /\ pool_exhausted (_stats (snd (get_connection (run Finish) exhausted_pool))) = 0%Z.
Proof.
  destruct (@exhaustion_is_not_counted (run Finish) exhausted_pool
              eq_refl eq_refl) as [A [B _]].
  split; [exact A | exact B].
Defined.

(** [pool_exhausted] is never incremented: the pool of the driver
    returns a connection or raises. *)
Lemma getconn_never_none (p : pgpool) (p' : pgpool) :
  pg_getconn p <> (Py.Return None, p').
Proof.
  unfold pg_getconn. destruct (idle p); [|discriminate].
  destruct (Nat.eqb _ _); [discriminate|].
  destruct (server_up p); discriminate.
Qed.

End Scoped.

(* ================================================================== *)
(** * Accounts: authentication and the administrator *)
(* ================================================================== *)

Module Accounts.
Import Py.
Import AdminDb.
Import Access.
Import Reconciler.

Definition msg_not_registered : str :=
  Eval vm_compute in
  lit "Пользователь с таким email не зарегистрирован. Пожалуйста, зарегистрируйтесь.".
Definition msg_authenticated : str :=
  Eval vm_compute in lit "Аутентификация прошла успешно".
Definition msg_wrong_password : str :=
  Eval vm_compute in lit "Неверный пароль. Проверьте правильность ввода.".

(** [SELECT email, password_hash FROM users WHERE email = %s], then
    [fetchone()]. *)
Definition select_credentials (email : str) (s : store)
  : result exn (option users_row) :=
  match users_table s with
  | None => Raise (UndefinedTable (relation_name Users))
  | Some t =>
    match missing_column [c_email; c_password_hash] t with
    | Some c => Raise (UndefinedColumn c)
    | None => Return (find (fun u => str_eqb (u_email u) email) (users_rows s))
    end
  end.

(** The relation [users] has the three columns [ensure_admin_user]
    writes and [email] as its key. *)
Definition admin_ready (s : store) : bool :=
  users_ready s &&
  match users_table s with
  | Some t => has_column c_created_at t
  | None => false
  end.

(** The store of [target_store] with the administrator registered. *)
Definition admin_environ : environ :=
  Environ (Some (lit "True")) (Some (lit "root@x.com")) (Some (lit "s3cret"))
          None.

Definition admin_world : env :=
  Env admin_environ true None 0 target_store None [].

Section Hashing.

(** [hashlib.sha256(p.encode()).hexdigest()]. *)
Variable sha256_hexdigest : str -> str.

(** db.py, [authenticate_user]. *)
Definition authenticate_user (email password : str) : M (bool * str) :=
  conn <- connect_db ;;
  match conn with
  | None => ret (false, msg_no_connection)
  | Some _ =>
    cursor conn ;;;
    user <- fetch (Statement sql_user_credentials [PStr email])
                  (select_credentials email) ;;
    match user with
    | None => ret (false, msg_not_registered)
    | Some u =>
      let password_hash := sha256_hexdigest password in
      let stored_password_hash := u_password_hash u in
      if str_eqb password_hash stored_password_hash
      then ret (true, msg_authenticated)
      else ret (false, msg_wrong_password)
    end
  end.

End Hashing.

Section Theory.

Variable sha256_hexdigest : str -> str.

Lemma find_some_row (email : str) (l : list users_row) (u : users_row) :
  find (fun u => str_eqb (u_email u) email) l = Some u ->
  In u l /\ u_email u = email.
Proof.
  intros H. apply find_some in H as [Hin He]. split; [exact Hin|].
  now apply str_eqb_eq.
Qed.

(** X1. A successful authentication means that [users] holds a row
    with this address whose stored hash is the digest of the password
    given; the call leaves the store as it was. *)
Theorem authentication_is_sound (w w' : env) (email password m : str) :
  authenticate_user sha256_hexdigest email password w = (Return (true, m), w') ->
  (exists u, In u (users_rows (db w)) /\ u_email u = email
             /\ u_password_hash u = sha256_hexdigest password)
  /\ db w' = db w /\ m = msg_authenticated.
Proof.
  unfold authenticate_user. destruct w as [cfg r f clk s p l]. run_monad.
  destruct r; [|discriminate]. run_monad.
  destruct f; [discriminate|].
  unfold select_credentials.
  destruct (users_table s); [|discriminate].
  destruct (missing_column _ _); [discriminate|].
  destruct (find _ _) as [u|] eqn:Hf; [|discriminate].
  destruct (str_eqb _ _) eqn:Hh; [|discriminate].
  intros H. injection H as <- <-. cbn [db].
  apply find_some_row in Hf as [Hin He]. apply str_eqb_eq in Hh.
  split; [|split; reflexivity]. exists u. auto.
Qed.

Lemma str_in_last (x : str) (l : list str) : str_in x (l ++ [x]) = true.
Proof.
  unfold str_in. rewrite existsb_app. simpl.
  now rewrite str_eqb_refl, orb_true_r.
Qed.

(** ADMIN_EMAIL, or its default, is always an administrator address. *)
Lemma admin_email_listed (cfg : environ) :
  str_in (getenv_default (ADMIN_EMAIL cfg) admin_example) (admin_emails_of cfg)
  = true.
Proof.
  unfold admin_emails_of.
  destruct (str_in (getenv_default (ADMIN_EMAIL cfg) admin_example)
                   (filter nonempty
                      (map strip
                         (split 44 (getenv_default (ADMIN_EMAILS cfg)
                                                   admin_example))))) eqn:E;
    cbn [negb].
  - exact E.
  - apply str_in_last.
Qed.

Lemma find_new_row (email : str) (l : list users_row) (u : users_row) :
  existsb (fun x => str_eqb (u_email x) email) l = false ->
  u_email u = email ->
  find (fun x => str_eqb (u_email x) email) (l ++ [u]) = Some u.
Proof.
  intros Hk He. induction l as [|x l IH]; simpl in *.
  - now rewrite He, str_eqb_refl.
  - apply orb_false_iff in Hk as [Hx Hl]. rewrite Hx. auto.
Qed.

Lemma users_ready_columns (s : store) :
  users_ready s = true ->
  exists t, users_table s = Some t
            /\ missing_column [c_email; c_password_hash] t = None
            /\ opt_str_eqb (t_primary_key t) (Some c_email) = true.
Proof.
  unfold users_ready. destruct (users_table s) as [t|]; [|discriminate].
  intros H. apply andb_true_iff in H as [H Hpk].
  apply andb_true_iff in H as [H1 H2]. exists t.
  split; [reflexivity|]. split; [|exact Hpk].
  cbn [missing_column]. now rewrite H1, H2.
Qed.

(** What [authenticate_user] answers when the store holds a row for
    the address. *)
Lemma authenticate_user_found (w : env) (email password : str) (u : users_row) :
  reachable w = true -> fault w = None -> users_ready (db w) = true ->
  find (fun x => str_eqb (u_email x) email) (users_rows (db w)) = Some u ->
  fst (authenticate_user sha256_hexdigest email password w)
  = Return (if str_eqb (sha256_hexdigest password) (u_password_hash u)
            then (true, msg_authenticated) else (false, msg_wrong_password)).
Proof.
  intros Hr Hf Hu Hfind. destruct w as [cfg r f clk s p l].
  cbn [reachable fault db] in *. subst r f.
  destruct (users_ready_columns s Hu) as [t [Ht [Hm _]]].
  unfold authenticate_user. run_monad. unfold select_credentials.
  rewrite Ht, Hm, Hfind.
  destruct (str_eqb _ _); reflexivity.
Qed.

(** X2. A registration that succeeds can be used at once: the address
    authenticates with the password it was registered with, and with no
    password whose digest differs. *)
Theorem register_then_authenticate (w : env) (email password other : str) :
  reachable w = true -> fault w = None ->
  str_in email (admin_emails_of (getenv w)) = false ->
  users_ready (db w) = true ->
  user_known email (db w) = false ->
  let w1 := snd (register_user sha256_hexdigest email password w) in
  fst (register_user sha256_hexdigest email password w)
  = Return (true, msg_registered)
  /\ fst (authenticate_user sha256_hexdigest email password w1)
     = Return (true, msg_authenticated)
  /\ fst (authenticate_user sha256_hexdigest email other w1)
     = Return (if str_eqb (sha256_hexdigest other) (sha256_hexdigest password)
               then (true, msg_authenticated) else (false, msg_wrong_password)).
Proof.
  intros Hr Hf Ha Hu Hk. cbv zeta.
  rewrite (@register_user_new sha256_hexdigest w email password Hr Hf Ha Hu Hk).
  cbn [fst snd].
  set (row := UserRow email (sha256_hexdigest password) (clock w)).
  assert (Hfind : find (fun x => str_eqb (u_email x) email)
                       (users_rows (db w) ++ [row]) = Some row).
  { apply find_new_row; [exact Hk | reflexivity]. }
  split; [reflexivity|].
  assert (Hu' : users_ready (set_users_rows (users_rows (db w) ++ [row]) (db w))
                = true) by exact Hu.
  split.
  - rewrite (@authenticate_user_found _ email password row); auto.
    cbn [u_password_hash row]. now rewrite str_eqb_refl.
  - rewrite (@authenticate_user_found _ email other row); auto.
Qed.

(** X3. An administrator address cannot be registered without the
    administrator password: when ADMIN_PASSWORD is unset or empty, or
    differs from the password given, [register_user] refuses and asks
    the store nothing. ADMIN_EMAIL (by default admin@example.com) is
    such an address whatever ADMIN_EMAILS lists. *)
Theorem admin_address_is_guarded (w : env) (email password : str) :
  str_in email (admin_emails_of (getenv w)) = true ->
  negb (truthy (ADMIN_PASSWORD (getenv w)))
  || negb (opt_str_eqb (Some password) (ADMIN_PASSWORD (getenv w))) = true ->
  register_user sha256_hexdigest email password w
  = (Return (false, if truthy (ADMIN_PASSWORD (getenv w))
                    then msg_admin_mismatch else msg_admin_password_unset), w)
  /\ str_in (getenv_default (ADMIN_EMAIL (getenv w)) admin_example)
            (admin_emails_of (getenv w)) = true.
Proof.
  intros Hin Hpw. split; [|apply admin_email_listed].
  unfold register_user. rewrite Hin.
  destruct (truthy (ADMIN_PASSWORD (getenv w))); cbn [negb orb] in *.
  - now rewrite Hpw.
  - reflexivity.
Qed.

Lemma admin_ready_users_ready (s : store) :
  admin_ready s = true -> users_ready s = true.
Proof. unfold admin_ready. intros H. now apply andb_true_iff in H. Qed.

(** The first run of [ensure_admin_user] when the administrator is
    asked for and has no row yet. *)
Lemma ensure_admin_user_new (w : env) (a p : str) :
  admin_requested (getenv w) = true ->
  ADMIN_EMAIL (getenv w) = Some a -> ADMIN_PASSWORD (getenv w) = Some p ->
  nonempty a = true -> nonempty p = true ->
  reachable w = true -> fault w = None ->
  admin_ready (db w) = true -> user_known a (db w) = false ->
  ensure_admin_user sha256_hexdigest w
  = (Return true,
     Env (getenv w) true None (clock w)
         (set_users_rows
            (users_rows (db w) ++ [UserRow a (sha256_hexdigest p) (clock w)])
            (db w))
         None
         ((sent w ++ [Statement sql_user_by_email [PStr a]]) ++
          [Statement sql_insert_admin [PStr a; PStr (sha256_hexdigest p)]])).
Proof.
  intros Hflag Ha Hp Hna Hnp Hr Hf Hready Hk.
  destruct w as [cfg r f clk s pend l]. cbn [getenv reachable fault db] in *.
  subst r f. unfold admin_ready in Hready.
  apply andb_true_iff in Hready as [Hu Hc].
  unfold users_ready in Hu. destruct (users_table s) as [t|] eqn:Ht;
    [|discriminate].
  apply andb_true_iff in Hu as [Hu Hpk]. apply andb_true_iff in Hu as [Hc1 Hc2].
  unfold ensure_admin_user. unfold admin_requested in Hflag. cbn [getenv].
  rewrite Hflag, Ha, Hp, Hna, Hnp. cbn [negb orb]. run_monad.
  unfold select_user. rewrite Ht.
  unfold user_known in Hk. rewrite (find_user_known _ _ Hk).
  unfold insert_user. rewrite Ht. cbn [missing_column]. rewrite Hc1, Hc2, Hc.
  unfold user_known. cbn [u_email]. rewrite Hk, andb_false_r.
  reflexivity.
Qed.

(** A run of [ensure_admin_user] when the administrator has a row. *)
Lemma ensure_admin_user_known (w : env) (a p : str) (u : users_row) :
  admin_requested (getenv w) = true ->
  ADMIN_EMAIL (getenv w) = Some a -> ADMIN_PASSWORD (getenv w) = Some p ->
  nonempty a = true -> nonempty p = true ->
  reachable w = true -> fault w = None ->
  users_ready (db w) = true ->
  find (fun x => str_eqb (u_email x) a) (users_rows (db w)) = Some u ->
  fst (ensure_admin_user sha256_hexdigest w) = Return true
  /\ db (snd (ensure_admin_user sha256_hexdigest w)) = db w
  /\ sent_by (ensure_admin_user sha256_hexdigest) w
     = [Statement sql_user_by_email [PStr a]].
Proof.
  intros Hflag Ha Hp Hna Hnp Hr Hf Hu Hfind.
  destruct w as [cfg r f clk s pend l]. cbn [getenv reachable fault db] in *.
  subst r f. destruct (users_ready_columns s Hu) as [t [Ht _]].
  unfold sent_by, ensure_admin_user. unfold admin_requested in Hflag.
  cbn [getenv].
  rewrite Hflag, Ha, Hp, Hna, Hnp. cbn [negb orb]. run_monad.
  unfold select_user. rewrite Ht, Hfind. cbn [fst snd db sent].
  rewrite skipn_sent. auto.
Qed.

(** What [register_user] answers when the address has a row and the
    guard of the administrator addresses lets the call through. *)
Lemma register_user_taken (w : env) (email password : str) (u : users_row) :
  reachable w = true -> fault w = None -> users_ready (db w) = true ->
  find (fun x => str_eqb (u_email x) email) (users_rows (db w)) = Some u ->
  str_in email (admin_emails_of (getenv w)) = false
  \/ (str_in email (admin_emails_of (getenv w)) = true
      /\ truthy (ADMIN_PASSWORD (getenv w))
         && opt_str_eqb (Some password) (ADMIN_PASSWORD (getenv w)) = true) ->
  fst (register_user sha256_hexdigest email password w)
  = Return (false, msg_already_exists).
Proof.
  intros Hr Hf Hu Hfind Hguard.
  destruct w as [cfg r f clk s pend l]. cbn [getenv reachable fault db] in *.
  subst r f. destruct (users_ready_columns s Hu) as [t [Ht _]].
  unfold register_user. cbn [getenv].
  destruct Hguard as [-> | [-> Hpw]].
  - run_monad. unfold select_user. now rewrite Ht, Hfind.
  - apply andb_true_iff in Hpw as [-> ->]. cbn [negb]. run_monad.
    unfold select_user. now rewrite Ht, Hfind.
Qed.

(** X4. With CREATE_ADMIN_USER set to true (in any letter case) and
    both ADMIN_EMAIL and ADMIN_PASSWORD set, [ensure_admin_user] creates
    the administrator once: the first run adds the row with the digest
    of ADMIN_PASSWORD, after which the administrator authenticates with
    that password; a second run changes nothing and only looks the row
    up; and [register_user] refuses the address as already taken. *)
Theorem ensure_admin_user_once (w : env) (a p : str) :
  admin_requested (getenv w) = true ->
  ADMIN_EMAIL (getenv w) = Some a -> ADMIN_PASSWORD (getenv w) = Some p ->
  nonempty a = true -> nonempty p = true ->
  reachable w = true -> fault w = None ->
  admin_ready (db w) = true -> user_known a (db w) = false ->
  let w1 := snd (ensure_admin_user sha256_hexdigest w) in
  fst (ensure_admin_user sha256_hexdigest w) = Return true
  /\ users_rows (db w1)
     = users_rows (db w) ++ [UserRow a (sha256_hexdigest p) (clock w)]
  /\ fst (authenticate_user sha256_hexdigest a p w1)
     = Return (true, msg_authenticated)
  /\ fst (ensure_admin_user sha256_hexdigest w1) = Return true
  /\ db (snd (ensure_admin_user sha256_hexdigest w1)) = db w1
  /\ sent_by (ensure_admin_user sha256_hexdigest) w1
     = [Statement sql_user_by_email [PStr a]]
  /\ fst (register_user sha256_hexdigest a p w1)
     = Return (false, msg_already_exists).
Proof.
  intros Hflag Ha Hp Hna Hnp Hr Hf Hready Hk. cbv zeta.
  rewrite (@ensure_admin_user_new w a p Hflag Ha Hp Hna Hnp Hr Hf Hready Hk).
  cbn [fst snd].
  set (row := UserRow a (sha256_hexdigest p) (clock w)).
  set (w1 := Env _ _ _ _ _ _ _).
  assert (Hu : users_ready (db w) = true) by now apply admin_ready_users_ready.
  assert (Hu1 : users_ready (db w1) = true) by exact Hu.
  assert (Hfind : find (fun x => str_eqb (u_email x) a) (users_rows (db w1))
                  = Some row).
  { apply find_new_row; [exact Hk | reflexivity]. }
  split; [reflexivity|]. split; [reflexivity|].
  split.
  { rewrite (@authenticate_user_found w1 a p row); auto.
    cbn [u_password_hash row]. now rewrite str_eqb_refl. }
  destruct (@ensure_admin_user_known w1 a p row) as [K1 [K2 K3]]; auto.
  split; [exact K1|]. split; [exact K2|]. split; [exact K3|].
  apply (@register_user_taken w1 a p row); auto.
  right. split.
  - pose proof (admin_email_listed (getenv w)) as L. rewrite Ha in L. exact L.
  - change (ADMIN_PASSWORD (getenv w1)) with (ADMIN_PASSWORD (getenv w)).
    rewrite Hp. cbn [truthy opt_str_eqb]. now rewrite Hnp, str_eqb_refl.
Qed.

End Theory.

Lemma authentication_is_sound_witness :
  fst (authenticate_user (fun p => p) owner_x (lit "hash") (world one_user))
  = Return (true, msg_authenticated)
  /\ db (snd (authenticate_user (fun p => p) owner_x (lit "hash")
                (world one_user))) = one_user.
Proof.
  split; [vm_compute; reflexivity|].
  apply (@authentication_is_sound (fun p => p) (world one_user)
           (snd (authenticate_user (fun p => p) owner_x (lit "hash")
                   (world one_user)))
           owner_x (lit "hash") msg_authenticated).
  vm_compute; reflexivity.
Defined.

Lemma register_then_authenticate_witness :
  fst (authenticate_user (fun p => p) (lit "a@x.com") (lit "pw1")
         (snd (register_user (fun p => p) (lit "a@x.com") (lit "pw1")
                 (world target_store))))
  = Return (true, msg_authenticated)
  /\ fst (authenticate_user (fun p => p) (lit "a@x.com") (lit "pw2")
            (snd (register_user (fun p => p) (lit "a@x.com") (lit "pw1")
                    (world target_store))))
     = Return (false, msg_wrong_password).
Proof.
  assert (H := @register_then_authenticate (fun p => p) (world target_store)
                 (lit "a@x.com") (lit "pw1") (lit "pw2")
                 eq_refl eq_refl eq_refl eq_refl eq_refl).
  split; apply H.
Defined.

Lemma admin_address_is_guarded_witness :
  register_user (fun p => p) admin_example (lit "guess") (world target_store)
  = (Return (false, msg_admin_password_unset), world target_store)
  /\ register_user (fun p => p) (lit "root@x.com") (lit "guess") admin_world
     = (Return (false, msg_admin_mismatch), admin_world).
Proof.
  split.
  - apply (@admin_address_is_guarded (fun p => p) (world target_store)
             admin_example (lit "guess") eq_refl eq_refl).
  - apply (@admin_address_is_guarded (fun p => p) admin_world
             (lit "root@x.com") (lit "guess") eq_refl eq_refl).
Defined.

Lemma ensure_admin_user_once_witness :
  fst (ensure_admin_user (fun p => p) admin_world) = Return true
  /\ users_rows (db (snd (ensure_admin_user (fun p => p) admin_world)))
     = [UserRow (lit "root@x.com") (lit "s3cret") 0]
  /\ fst (register_user (fun p => p) (lit "root@x.com") (lit "s3cret")
            (snd (ensure_admin_user (fun p => p) admin_world)))
     = Return (false, msg_already_exists).
Proof.
  assert (H := @ensure_admin_user_once (fun p => p) admin_world
                 (lit "root@x.com") (lit "s3cret")
                 eq_refl eq_refl eq_refl eq_refl eq_refl eq_refl eq_refl
                 eq_refl eq_refl).
  split; [apply H|]. split; apply H.
Defined.

End Accounts.

(* ================================================================== *)
(** * Gallery: pages, look-ups, deletion and expiry of images *)
(* ================================================================== *)

Module Gallery.
Import Py.
Import AdminDb.
Import Filters.
Import Access.

(** The count of the rows of [images] that a user owns, as the store
    answers [sql_count_user_images]. *)
Definition select_count_user_images (email : str) (s : store) : result exn Z :=
  match images_table s with
  | None => Raise (UndefinedTable (relation_name Images))
  | Some t =>
    if negb (has_column c_user_email t) then Raise (UndefinedColumn c_user_email)
    else
      Return (Z.of_nat (List.length
                          (filter (fun i => opt_str_eqb (i_user_email i)
                                                        (Some email))
                                  (images_rows s))))
  end.

(** db.py, [get_total_user_images]. *)
Definition get_total_user_images (email : str) : M Z :=
  conn <- connect_db ;;
  match conn with
  | None => ret 0%Z
  | Some _ =>
    cursor conn ;;;
    result <- fetch (Statement sql_count_user_images [PStr email])
                    (select_count_user_images email) ;;
    ret result
  end.

(** app.py, [images_list]:
    [(total_images + per_page - 1) // per_page if total_images > 0 else 1]. *)
Definition total_pages (total_images per_page : Z) : Z :=
  if (total_images >? 0)%Z then ((total_images + per_page - 1) / per_page)%Z
  else 1%Z.

(** The rows a call returned, none if it raised. *)
Definition fetched {A : Type} (r : result exn (list A)) : list A :=
  match r with Return l => l | Raise _ => [] end.

(** The images of a user, newest first: what the pages of
    [get_user_images] are cut from. *)
Definition user_gallery (email : str) (s : store) : list images_row :=
  sort_desc (fun a b => (i_upload_time a <=? i_upload_time b)%Z)
            (filter (fun i => opt_str_eqb (i_user_email i) (Some email))
                    (images_rows s)).

(** The world [w] when the clock shows [t]. *)
Definition at_clock (t : Z) (w : env) : env :=
  Env (getenv w) (reachable w) (fault w) t (db w) (pending w) (sent w).

(** No row of [images] has an identifier the sequence has yet to give. *)
Definition serial_bounds (s : store) : bool :=
  forallb (fun i => (i_id i <=? images_serial s)%Z) (images_rows s).

(** Three images of one user and one of nobody. *)
Definition gallery_store : store :=
  Db (Some ddl_users) [UserRow owner_x (lit "hash") 0]
     (Some ddl_images)
     [ImageRow 1 (lit "a.png") (lit "a.png") 10 100 (lit "png") (Some owner_x)
               (Some 500%Z);
      ImageRow 2 (lit "b.png") (lit "b.png") 20 300 (lit "png") (Some owner_x)
               (Some 900%Z);
      ImageRow 3 (lit "c.png") (lit "c.png") 30 200 (lit "png") None None;
      ImageRow 4 (lit "d.png") (lit "d.png") 40 400 (lit "png") (Some owner_x)
               (Some 700%Z)]
     4 (Some ddl_statistics) [] 0.

(** The row is past its expiry at [t0]; a row without expiry never is. *)
Definition expired (t0 : Z) (i : images_row) : bool :=
  match i_expiration_date i with
  | Some x => (x <? t0)%Z
  | None => false
  end.

(** ** Lists *)

Lemma firstn_plus {A : Type} (a b : nat) (l : list A) :
  firstn (a + b) l = firstn a l ++ firstn b (skipn a l).
Proof.
  revert l. induction a as [|a IH]; intros l; [reflexivity|].
  destruct l as [|x l]; simpl.
  - now rewrite firstn_nil.
  - now rewrite IH.
Qed.

Lemma chunks_cover {A : Type} (n m : nat) (l : list A) :
  flat_map (fun k => firstn n (skipn ((k - 1) * n) l)) (seq 1 m)
  = firstn (m * n) l.
Proof.
  induction m as [|m IH]; [reflexivity|].
  rewrite seq_S, flat_map_app, IH. cbn [flat_map]. rewrite app_nil_r.
  replace (1 + m - 1)%nat with m by lia.
  replace (S m * n)%nat with (m * n + n)%nat by lia.
  now rewrite firstn_plus.
Qed.

(** ** Pages *)

Lemma get_user_images_page (w : env) (email : str) (page per_page : Z)
  (t : table) :
  reachable w = true -> fault w = None ->
  images_table (db w) = Some t -> has_column c_user_email t = true ->
  (0 <= per_page)%Z -> (1 <= page)%Z ->
  fst (get_user_images email page per_page w)
  = Return (firstn (Z.to_nat per_page)
              (skipn (Z.to_nat (page - 1) * Z.to_nat per_page)
                     (user_gallery email (db w)))).
Proof.
  intros Hr Hf Ht Hc Hpp Hp. destruct w as [cfg r f clk s p l].
  cbn [reachable fault db] in *. subst r f.
  unfold get_user_images. run_monad. unfold select_user_images.
  rewrite Ht, Hc. cbn [negb]. unfold limit_offset.
  assert (E1 : (per_page <? 0)%Z = false) by (apply Z.ltb_ge; lia).
  assert (E2 : ((page - 1) * per_page <? 0)%Z = false)
    by (apply Z.ltb_ge; nia).
  rewrite E1, E2. cbn [orb fst].
  rewrite Z2Nat.inj_mul by lia. reflexivity.
Qed.

Lemma get_total_user_images_count (w : env) (email : str) (t : table) :
  reachable w = true -> fault w = None ->
  images_table (db w) = Some t -> has_column c_user_email t = true ->
  fst (get_total_user_images email w)
  = Return (Z.of_nat (List.length (user_gallery email (db w)))).
Proof.
  intros Hr Hf Ht Hc. destruct w as [cfg r f clk s p l].
  cbn [reachable fault db] in *. subst r f.
  unfold get_total_user_images. run_monad. unfold select_count_user_images.
  rewrite Ht, Hc. cbn [negb fst]. unfold user_gallery.
  now rewrite (Permutation_length (sort_desc_perm _ _)).
Qed.

Lemma total_pages_enough (total per_page : Z) :
  (0 <= total)%Z -> (0 < per_page)%Z ->
  (1 <= total_pages total per_page)%Z
  /\ (total <= total_pages total per_page * per_page)%Z.
Proof.
  intros Ht Hp. unfold total_pages.
  destruct (total >? 0)%Z eqn:E.
  - apply Z.gtb_lt in E.
    pose proof (Z.div_mod (total + per_page - 1) per_page ltac:(lia)) as D.
    pose proof (Z.mod_pos_bound (total + per_page - 1) per_page Hp) as B.
    split; [|nia].
    apply Z.div_le_lower_bound; lia.
  - assert (total = 0)%Z by (apply Z.gtb_ltb in E || idtac;
                             destruct (Z.gtb_spec total 0); lia).
    subst. lia.
Qed.

(** X5. The gallery of a user is cut into pages without loss: with
    [per_page > 0] and the images of the user all uploaded at different
    times, the pages 1 to [total_pages] of [get_user_images],
    [total_pages] computed as [images_list] does from
    [get_total_user_images], put one after the other are the images of
    the user, each once, newest first; newest first is one order only,
    so that the pages do not depend on how the store orders rows for
    each of them; no page holds more than [per_page] images and every
    page after [total_pages] is empty. *)
Theorem gallery_pages_cover (w : env) (email : str) (per_page : Z) (t : table) :
  reachable w = true -> fault w = None ->
  images_table (db w) = Some t -> has_column c_user_email t = true ->
  (0 < per_page)%Z ->
  NoDup (map i_upload_time
             (filter (fun i => opt_str_eqb (i_user_email i) (Some email))
                     (images_rows (db w)))) ->
  let total := Z.of_nat (List.length (user_gallery email (db w))) in
  let pages := total_pages total per_page in
  fst (get_total_user_images email w) = Return total
  /\ flat_map (fun k => fetched (fst (get_user_images email (Z.of_nat k)
                                                      per_page w)))
              (seq 1 (Z.to_nat pages))
     = user_gallery email (db w)
  /\ Permutation (user_gallery email (db w))
                 (filter (fun i => opt_str_eqb (i_user_email i) (Some email))
                         (images_rows (db w)))
  /\ decreasing i_upload_time (user_gallery email (db w))
  /\ (forall l,
        Permutation l (filter (fun i => opt_str_eqb (i_user_email i)
                                                    (Some email))
                              (images_rows (db w))) ->
        decreasing i_upload_time l -> l = user_gallery email (db w))
  /\ (forall page, (1 <= page)%Z ->
        exists rows,
          fst (get_user_images email page per_page w) = Return rows
          /\ (Z.of_nat (List.length rows) <= per_page)%Z
          /\ ((pages < page)%Z -> rows = [])).
Proof.
  intros Hr Hf Ht Hc Hpp Hnd. cbv zeta.
  set (L := user_gallery email (db w)).
  destruct (@total_pages_enough (Z.of_nat (List.length L)) per_page)
    as [P1 P2]; [lia | lia |].
  set (pages := total_pages (Z.of_nat (List.length L)) per_page) in *.
  split; [now apply get_total_user_images_count with (t := t)|].
  split.
  { transitivity (firstn (Z.to_nat pages * Z.to_nat per_page) L);
      [|apply firstn_all2; nia].
    rewrite <- chunks_cover, !flat_map_concat_map. f_equal.
    apply map_ext_in. intros k Hk. apply in_seq in Hk.
    rewrite (@get_user_images_page w email (Z.of_nat k) per_page t);
      auto; try lia.
    cbn [fetched]. replace (Z.to_nat (Z.of_nat k - 1)) with (k - 1)%nat by lia.
    reflexivity. }
  split; [apply sort_desc_perm|].
  assert (S : decreasing i_upload_time L)
    by (apply sort_desc_decreasing; exact Hnd).
  split; [exact S|]. split.
  { intros l Pl Sl. apply (@decreasing_unique _ i_upload_time); auto.
    rewrite Pl. symmetry. apply sort_desc_perm. }
  intros page Hp. eexists. split.
  { apply get_user_images_page with (t := t); auto. lia. }
  split.
  - rewrite length_firstn. lia.
  - intros Hlate. fold L.
    rewrite skipn_all2; [now rewrite firstn_nil|]. nia.
Qed.

Lemma NoDup_gallery_times :
  NoDup (map i_upload_time
             (filter (fun i => opt_str_eqb (i_user_email i) (Some owner_x))
                     (images_rows gallery_store))).
Proof. repeat constructor; simpl; intuition discriminate. Qed.

Lemma gallery_pages_cover_witness :
  fst (get_total_user_images owner_x (world gallery_store)) = Return 3%Z
  /\ flat_map (fun k => fetched (fst (get_user_images owner_x (Z.of_nat k) 2
                                                      (world gallery_store))))
              (seq 1 (Z.to_nat (total_pages 3 2)))
     = user_gallery owner_x gallery_store.
Proof.
  destruct (@gallery_pages_cover (world gallery_store) owner_x 2 ddl_images
              eq_refl eq_refl eq_refl eq_refl eq_refl NoDup_gallery_times)
    as [A [B _]].
  split; [exact A | exact B].
Defined.

(** ** Saving, looking up, deleting *)

Lemma insert_image_store (filename original_name : str) (size upload_time : Z)
  (file_type : str) (owner : option str) (expires : option Z) (s s' : store) :
  insert_image filename original_name size upload_time file_type owner expires s
  = Return s' ->
  (exists t, images_table s = Some t
             /\ missing_column images_insert_columns t = None)
  /\ s' = Db (users_table s) (users_rows s) (images_table s)
             (images_rows s ++
              [ImageRow (images_serial s + 1) filename original_name size
                        upload_time file_type owner expires])
             (images_serial s + 1)
             (statistics_table s) (statistics_rows s) (statistics_serial s).
Proof.
  unfold insert_image.
  destruct (images_table s) as [t|]; [|discriminate].
  destruct (missing_column _ _) eqn:Hm; [discriminate|].
  destruct (negb (in_int4 size)); [discriminate|].
  destruct (broken_fk _ _ _); [discriminate|].
  intros H. injection H as <-. split; [|reflexivity]. eauto.
Qed.

(** A [save_image] that returns [True] has carried out its INSERT. *)
Lemma save_image_stored (w w' : env) (filename original_name : str)
  (size upload_time : Z) (file_type : str) (owner : option str)
  (storage_days : Z) :
  save_image filename original_name size upload_time file_type owner
             storage_days w = (Return true, w') ->
  reachable w = true /\ fault w = None
  /\ reachable w' = true /\ fault w' = None /\ getenv w' = getenv w
  /\ insert_image filename original_name size upload_time file_type owner
       (if truthy owner
        then Some (clock w + storage_days * microseconds_per_day)%Z else None)
       (db w) = Return (db w').
Proof.
  unfold save_image. destruct w as [cfg r f clk s p l]. run_monad.
  destruct r; [|discriminate].
  destruct (truthy owner); run_monad.
  - unfold timedelta_days.
    destruct (Z.abs storage_days <=? 999999999)%Z; [|discriminate].
    unfold datetime_add. run_monad.
    destruct ((0 <=? _) && _)%Z; [|discriminate]. run_monad.
    destruct f; [discriminate|].
    destruct (insert_image _ _ _ _ _ _ _ _) eqn:E; [|discriminate].
    intros H. injection H as <-. cbn. auto 10.
  - destruct f; [discriminate|].
    destruct (insert_image _ _ _ _ _ _ _ _) eqn:E; [|discriminate].
    intros H. injection H as <-. cbn. auto 10.
Qed.

Lemma find_fresh_id (id : Z) (l : list images_row) (row : images_row) :
  forallb (fun i => (i_id i <=? id - 1)%Z) l = true -> i_id row = id ->
  find (fun i => (i_id i =? id)%Z) (l ++ [row]) = Some row.
Proof.
  intros Hb Hid. induction l as [|x l IH]; simpl in *.
  - now rewrite Hid, Z.eqb_refl.
  - apply andb_true_iff in Hb as [Hx Hl]. apply Z.leb_le in Hx.
    destruct (Z.eqb_spec (i_id x) id); [lia | auto].
Qed.

Lemma get_image_by_id_finds (w : env) (id : Z) (t : table) :
  reachable w = true -> fault w = None -> images_table (db w) = Some t ->
  fst (get_image_by_id id w)
  = Return (find (fun i => (i_id i =? id)%Z) (images_rows (db w))).
Proof.
  intros Hr Hf Ht. destruct w as [cfg r f clk s p l].
  cbn [reachable fault db] in *. subst r f.
  unfold get_image_by_id. run_monad. unfold images_of. now rewrite Ht.
Qed.

(** X6. An image that [save_image] stored is found under the
    identifier the sequence gave it: when no row carries an identifier
    beyond the sequence, [get_image_by_id] with the next identifier
    returns the row just stored, with the columns the call was given;
    and the rows stay within the sequence. *)
Theorem saved_image_is_found (w w' : env) (filename original_name : str)
  (size upload_time : Z) (file_type : str) (owner : option str)
  (storage_days : Z) :
  save_image filename original_name size upload_time file_type owner
             storage_days w = (Return true, w') ->
  serial_bounds (db w) = true ->
  fst (get_image_by_id (images_serial (db w) + 1) w')
  = Return (Some (ImageRow (images_serial (db w) + 1) filename original_name
                           size upload_time file_type owner
                           (if truthy owner
                            then Some (clock w + storage_days
                                                 * microseconds_per_day)%Z
                            else None)))
  /\ images_serial (db w') = (images_serial (db w) + 1)%Z
  /\ serial_bounds (db w') = true.
Proof.
  intros Hs Hb.
  destruct (save_image_stored _ _ _ _ _ _ _ _ Hs) as [_ [_ [Hr [Hf [_ Hi]]]]].
  apply insert_image_store in Hi as [[t [Ht _]] Hdb].
  assert (Hb' : forallb (fun i => (i_id i <=? images_serial (db w) + 1 - 1)%Z)
                        (images_rows (db w)) = true).
  { replace (images_serial (db w) + 1 - 1)%Z with (images_serial (db w)) by lia.
    exact Hb. }
  split.
  - rewrite (@get_image_by_id_finds w' _ t); auto.
    + rewrite Hdb. cbn [images_rows]. f_equal.
      now apply find_fresh_id.
    + rewrite Hdb. exact Ht.
  - rewrite Hdb. cbn [images_serial]. split; [reflexivity|].
    unfold serial_bounds. cbn [images_rows images_serial].
    rewrite forallb_app. cbn [forallb i_id].
    rewrite Z.leb_refl. cbn [andb]. rewrite andb_true_r.
    unfold serial_bounds in Hb. rewrite forallb_forall in Hb.
    apply forallb_forall. intros x Hx. specialize (Hb x Hx).
    apply Z.leb_le in Hb. apply Z.leb_le. lia.
Qed.

Lemma saved_image_is_found_witness :
  fst (save_image (lit "e.png") (lit "e.png") 50 600 (lit "png") (Some owner_x)
                  30 (world gallery_store)) = Return true
  /\ fst (get_image_by_id 5
            (snd (save_image (lit "e.png") (lit "e.png") 50 600 (lit "png")
                             (Some owner_x) 30 (world gallery_store))))
     = Return (Some (ImageRow 5 (lit "e.png") (lit "e.png") 50 600 (lit "png")
                              (Some owner_x)
                              (Some (30 * microseconds_per_day)%Z))).
Proof.
  split; [vm_compute; reflexivity|].
  apply (@saved_image_is_found (world gallery_store)
           (snd (save_image (lit "e.png") (lit "e.png") 50 600 (lit "png")
                            (Some owner_x) 30 (world gallery_store)))
           (lit "e.png") (lit "e.png") 50 600 (lit "png") (Some owner_x) 30).
  - vm_compute; reflexivity.
  - vm_compute; reflexivity.
Defined.

Lemma set_statistics_rows_same (s : store) :
  set_statistics_rows (statistics_rows s) s = s.
Proof. destruct s; reflexivity. Qed.

Lemma set_images_rows_same (s : store) : set_images_rows (images_rows s) s = s.
Proof. destruct s; reflexivity. Qed.

(** The referential actions on [statistics] leave the other relations
    alone. *)
Lemma settle_file_id_frame (gone : Z -> bool) (ks : list foreign_key)
  (s s' : store) :
  settle_statistics_file_id gone ks s = Return s' ->
  users_table s' = users_table s /\ users_rows s' = users_rows s
  /\ images_table s' = images_table s /\ images_rows s' = images_rows s
  /\ images_serial s' = images_serial s
  /\ statistics_table s' = statistics_table s.
Proof.
  revert s. induction ks as [|k ks IH]; intros s; cbn [settle_statistics_file_id].
  - intros H. injection H as <-. auto 10.
  - destruct (fk_on_delete k).
    + destruct (existsb _ _); [discriminate|]. apply IH.
    + intros H. apply IH in H. exact H.
    + intros H. apply IH in H. exact H.
Qed.

Lemma settle_file_id_nothing (ks : list foreign_key) (s : store) :
  settle_statistics_file_id (fun _ => false) ks s = Return s.
Proof.
  assert (R : forall x, st_refers_image (fun _ => false) x = false).
  { intros x. unfold st_refers_image. now destruct (st_file_id x). }
  induction ks as [|k ks IH]; cbn [settle_statistics_file_id]; [reflexivity|].
  destruct (fk_on_delete k).
  - replace (existsb (st_refers_image (fun _ => false)) (statistics_rows s))
      with false; [exact IH|].
    symmetry. induction (statistics_rows s) as [|x l IHl]; simpl;
      [reflexivity|]. now rewrite R.
  - replace (filter _ (statistics_rows s)) with (statistics_rows s).
    + now rewrite set_statistics_rows_same.
    + induction (statistics_rows s) as [|x l IHl]; simpl; [reflexivity|].
      rewrite R. simpl. now f_equal.
  - replace (map _ (statistics_rows s)) with (statistics_rows s).
    + now rewrite set_statistics_rows_same.
    + induction (statistics_rows s) as [|x l IHl]; simpl; [reflexivity|].
      rewrite R. now f_equal.
Qed.

Lemma delete_images_where_rows (doomed : images_row -> bool) (s s' : store) :
  delete_images_where doomed s = Return s' ->
  images_rows s' = filter (fun i => negb (doomed i)) (images_rows s)
  /\ images_table s' = images_table s /\ images_serial s' = images_serial s
  /\ users_table s' = users_table s /\ users_rows s' = users_rows s
  /\ statistics_table s' = statistics_table s.
Proof.
  unfold delete_images_where.
  destruct (images_table s) as [t|] eqn:Ht; [|discriminate].
  destruct (settle_statistics_file_id _ _ _) as [s1|] eqn:E; [|discriminate].
  apply settle_file_id_frame in E as [E1 [E2 [E3 [E4 [E5 E6]]]]].
  intros H. injection H as <-. unfold set_images_rows.
  cbn [images_rows images_table images_serial users_table users_rows
       statistics_table].
  rewrite E1, E2, E3, E4, E5, E6, Ht. auto 10.
Qed.

(** A [delete_image] that returns [True] has carried out its DELETE. *)
Lemma delete_image_done (w w' : env) (id : Z) :
  delete_image id w = (Return true, w') ->
  reachable w' = true /\ fault w' = None
  /\ delete_images_where (fun i => (i_id i =? id)%Z) (db w) = Return (db w').
Proof.
  unfold delete_image. destruct w as [cfg r f clk s p l]. run_monad.
  destruct r; [|discriminate]. run_monad.
  destruct f; [discriminate|].
  destruct (delete_images_where _ _) eqn:E; [|discriminate].
  intros H. injection H as <-. cbn. auto.
Qed.

Lemma find_filtered_out (id : Z) (l : list images_row) :
  find (fun i => (i_id i =? id)%Z)
       (filter (fun i => negb (i_id i =? id)%Z) l) = None.
Proof.
  induction l as [|x l IH]; simpl; [reflexivity|].
  destruct (i_id x =? id)%Z eqn:E; simpl; [exact IH|]. now rewrite E.
Qed.

(** X7. After a [delete_image] that returned [True] the identifier is
    free: [get_image_by_id] returns [None] for it; the other rows of
    [images] are the ones of before, in their order, and [users] is
    untouched. *)
Theorem deleted_image_is_gone (w w' : env) (id : Z) :
  delete_image id w = (Return true, w') ->
  fst (get_image_by_id id w') = Return None
  /\ images_rows (db w')
     = filter (fun i => negb (i_id i =? id)%Z) (images_rows (db w))
  /\ users_rows (db w') = users_rows (db w).
Proof.
  intros H. apply delete_image_done in H as [Hr [Hf Hd]].
  assert (Ht : exists t, images_table (db w) = Some t).
  { unfold delete_images_where in Hd.
    destruct (images_table (db w)); [eauto | discriminate]. }
  destruct Ht as [t Ht].
  apply delete_images_where_rows in Hd as [D1 [D2 [_ [_ [D5 _]]]]].
  split; [|split; [exact D1 | exact D5]].
  rewrite (@get_image_by_id_finds w' id t); auto; [|congruence].
  rewrite D1. now rewrite find_filtered_out.
Qed.

Lemma deleted_image_is_gone_witness :
  fst (delete_image 2 (world gallery_store)) = Return true
  /\ fst (get_image_by_id 2 (snd (delete_image 2 (world gallery_store))))
     = Return None.
Proof.
  split; [vm_compute; reflexivity|].
  apply (@deleted_image_is_gone (world gallery_store)
           (snd (delete_image 2 (world gallery_store))) 2).
  vm_compute; reflexivity.
Defined.

Lemma filter_unknown_id (id : Z) (l : list images_row) :
  existsb (fun i => (i_id i =? id)%Z) l = false ->
  filter (fun i => (i_id i =? id)%Z) l = []
  /\ filter (fun i => negb (i_id i =? id)%Z) l = l.
Proof.
  induction l as [|x l IH]; simpl; [auto|].
  intros H. apply orb_false_iff in H as [Hx Hl]. rewrite Hx. simpl.
  destruct (IH Hl) as [-> ->]. auto.
Qed.

(** X8. [delete_image] does not tell whether a row was deleted: for an
    identifier that no row of [images] has it returns [True] all the
    same, and the store is what it was. *)
Theorem deleting_nothing_succeeds (w : env) (id : Z) (t : table) :
  reachable w = true -> fault w = None -> images_table (db w) = Some t ->
  image_known id (db w) = false ->
  fst (delete_image id w) = Return true
  /\ db (snd (delete_image id w)) = db w
  /\ sent_by (delete_image id) w = [Statement sql_delete_image [PInt id]].
Proof.
  intros Hr Hf Ht Hk. destruct w as [cfg r f clk s p l].
  cbn [reachable fault db] in *. subst r f.
  unfold image_known in Hk. destruct (filter_unknown_id _ _ Hk) as [F1 F2].
  assert (D : delete_images_where (fun i => (i_id i =? id)%Z) s = Return s).
  { unfold delete_images_where. rewrite Ht, F1. cbn [map].
    change (fun i : Z => existsb (Z.eqb i) []) with (fun _ : Z => false).
    rewrite settle_file_id_nothing, F2. now rewrite set_images_rows_same. }
  unfold sent_by, delete_image. run_monad. rewrite D. cbn [fst snd db sent].
  now rewrite skipn_sent.
Qed.

Lemma deleting_nothing_succeeds_witness :
  fst (delete_image 9 (world gallery_store)) = Return true
  /\ db (snd (delete_image 9 (world gallery_store))) = gallery_store.
Proof.
  destruct (@deleting_nothing_succeeds (world gallery_store) 9 ddl_images
              eq_refl eq_refl eq_refl eq_refl) as [A [B _]].
  split; [exact A | exact B].
Defined.

(** ** Expiry *)

Lemma missing_none_has (cols : list str) (t : table) (c : str) :
  missing_column cols t = None -> In c cols -> has_column c t = true.
Proof.
  induction cols as [|x cols IH]; simpl; [tauto|].
  destruct (has_column x t) eqn:E; [|discriminate].
  intros H [<-|Hin]; auto.
Qed.

Lemma get_expired_images_rows (w : env) (t : table) :
  reachable w = true -> fault w = None -> images_table (db w) = Some t ->
  has_column c_expiration_date t = true ->
  fst (get_expired_images w)
  = Return (filter (expired (clock w)) (images_rows (db w))).
Proof.
  intros Hr Hf Ht Hc. destruct w as [cfg r f clk s p l].
  cbn [reachable fault db clock] in *. subst r f.
  unfold get_expired_images. run_monad. unfold select_expired_images.
  rewrite Ht, Hc. reflexivity.
Qed.

(** X9. The expiry [save_image] sets is the one [get_expired_images]
    goes by: whatever the clock shows later, the image just stored is
    reported as expired exactly when it has an owner and the clock is
    past the time of the call plus [storage_days] days; the images
    stored before are reported as they would have been; an image
    without owner never expires. *)
Theorem expiry_follows_the_clock (w w' : env) (filename original_name : str)
  (size upload_time : Z) (file_type : str) (owner : option str)
  (storage_days t0 : Z) :
  save_image filename original_name size upload_time file_type owner
             storage_days w = (Return true, w') ->
  fst (get_expired_images (at_clock t0 w'))
  = Return (filter (expired t0) (images_rows (db w)) ++
            (if truthy owner
                && (clock w + storage_days * microseconds_per_day <? t0)%Z
             then [ImageRow (images_serial (db w) + 1) filename original_name
                            size upload_time file_type owner
                            (Some (clock w
                                   + storage_days * microseconds_per_day)%Z)]
             else [])).
Proof.
  intros Hs.
  destruct (save_image_stored _ _ _ _ _ _ _ _ Hs) as [_ [_ [Hr [Hf [_ Hi]]]]].
  apply insert_image_store in Hi as [[t [Ht Hm]] Hdb].
  assert (Hc : has_column c_expiration_date t = true).
  { apply (@missing_none_has images_insert_columns t c_expiration_date Hm).
    simpl. auto 10. }
  rewrite (@get_expired_images_rows (at_clock t0 w') t); auto.
  2:{ cbn [at_clock db]. rewrite Hdb. exact Ht. }
  cbn [at_clock db clock]. rewrite Hdb. cbn [images_rows].
  rewrite filter_app. f_equal.
  destruct (truthy owner); cbn [andb filter]; unfold expired;
    cbn [i_expiration_date]; [|reflexivity].
  destruct (_ <? t0)%Z; reflexivity.
Qed.

Lemma expiry_follows_the_clock_witness :
  fst (get_expired_images
         (at_clock (31 * microseconds_per_day)
            (snd (save_image (lit "e.png") (lit "e.png") 50 600 (lit "png")
                             (Some owner_x) 30 (world gallery_store)))))
  = Return (filter (expired (31 * microseconds_per_day))
                   (images_rows gallery_store) ++
            [ImageRow 5 (lit "e.png") (lit "e.png") 50 600 (lit "png")
                      (Some owner_x) (Some (30 * microseconds_per_day)%Z)]).
Proof.
  apply (@expiry_follows_the_clock (world gallery_store)
           (snd (save_image (lit "e.png") (lit "e.png") 50 600 (lit "png")
                            (Some owner_x) 30 (world gallery_store)))
           (lit "e.png") (lit "e.png") 50 600 (lit "png") (Some owner_x) 30
           (31 * microseconds_per_day)).
  vm_compute; reflexivity.
Defined.

(** ** An owner who is not a user *)

(** X20. An image cannot be saved for an owner [users] does not know
    when [images] refers to [users] by a foreign key on [user_email]:
    [save_image] raises the violation of that key (it has no handler;
    the upload route has one), and the three relations hold the rows
    they held. *)
Theorem unknown_owner_is_refused (w : env) (filename original_name : str)
  (size upload_time : Z) (file_type owner : str) (storage_days : Z)
  (t : table) (k : foreign_key) (ks : list foreign_key) :
  reachable w = true -> fault w = None -> images_table (db w) = Some t ->
  missing_column images_insert_columns t = None ->
  fks_from Images c_user_email Users (db w) = k :: ks ->
  nonempty owner = true -> user_known owner (db w) = false ->
  in_int4 size = true ->
  (Z.abs storage_days <= 999999999)%Z ->
  (0 <= clock w + storage_days * microseconds_per_day < datetime_end)%Z ->
  fst (save_image filename original_name size upload_time file_type
                  (Some owner) storage_days w)
  = Raise (ForeignKeyViolation (fk_name k))
  /\ images_rows
       (db (snd (save_image filename original_name size upload_time file_type
                            (Some owner) storage_days w)))
     = images_rows (db w)
  /\ users_rows
       (db (snd (save_image filename original_name size upload_time file_type
                            (Some owner) storage_days w)))
     = users_rows (db w)
  /\ statistics_rows
       (db (snd (save_image filename original_name size upload_time file_type
                            (Some owner) storage_days w)))
     = statistics_rows (db w).
Proof.
  intros Hr Hf Ht Hm Hk Hn Hu Hs Hd Hc. destruct w as [cfg r f clk s p l].
  cbn [reachable fault db clock pending] in *. subst r f.
  unfold save_image. run_monad. cbn [truthy]. rewrite Hn. run_monad.
  unfold timedelta_days.
  assert (E1 : (Z.abs storage_days <=? 999999999)%Z = true)
    by (apply Z.leb_le; exact Hd).
  rewrite E1. run_monad. unfold datetime_add.
  assert (E2 : ((0 <=? clk + storage_days * microseconds_per_day)
                && (clk + storage_days * microseconds_per_day <? datetime_end))%Z
               = true).
  { apply andb_true_iff. split; [apply Z.leb_le | apply Z.ltb_lt]; lia. }
  rewrite E2. run_monad.
  unfold insert_image. rewrite Ht, Hm, Hs, Hk. cbn [negb broken_fk].
  rewrite Hu. auto 10.
Qed.

Lemma unknown_owner_is_refused_witness :
  fst (save_image (lit "f.png") (lit "f.png") 10 5 (lit "png")
                  (Some (lit "ghost@x.com")) 30 (world gallery_store))
  = Raise (ForeignKeyViolation (lit "images_user_email_fkey"))
  /\ images_rows
       (db (snd (save_image (lit "f.png") (lit "f.png") 10 5 (lit "png")
                            (Some (lit "ghost@x.com")) 30
                            (world gallery_store))))
     = images_rows gallery_store.
Proof.
  destruct (@unknown_owner_is_refused (world gallery_store) (lit "f.png")
              (lit "f.png") 10 5 (lit "png") (lit "ghost@x.com") 30 ddl_images
              (ForeignKey (lit "images_user_email_fkey") (lit "user_email")
                          Users (lit "email") Cascade) []
              eq_refl eq_refl eq_refl eq_refl eq_refl eq_refl eq_refl eq_refl
              ltac:(vm_compute; discriminate)
              ltac:(split; vm_compute; [discriminate | reflexivity]))
    as [A [B _]].
  split; [exact A | exact B].
Defined.

End Gallery.

(* ================================================================== *)
(** * celery_app.py: the nightly clean-up *)
(* ================================================================== *)

Module Tasks.
Import Py.
Import AdminDb.
Import Access.
Import Gallery.

(** The machine a task runs on: the paths of the files present, the
    paths [os.remove] fails on, and whether the broker takes a task. *)
Record host : Type := Host {
  files : list str;
  locked : list str;
  broker_up : bool
}.

(** [os.path.join(a, b)] of [posixpath]. *)
Definition path_join (a b : str) : str :=
  if startswith b [47%N] then b
  else if negb (nonempty a) || match rev a with
                               | c :: _ => (c =? 47)%N
                               | [] => false
                               end
       then a ++ b
       else a ++ [47%N] ++ b.

Definition images_dir : str := Eval vm_compute in lit "images".

(** [os.path.join('images', user_email, filename)]. *)
Definition image_path (user_email filename : str) : str :=
  path_join (path_join images_dir user_email) filename.

(** [os.remove(path)] for a path that exists. *)
Definition os_remove (path : str) (h : host) : option host :=
  if str_in path (locked h) then None
  else Some (Host (filter (fun p => negb (str_eqb p path)) (files h))
                  (locked h) (broker_up h)).

(** What the handler of one image caught. *)
Inductive failure : Type :=
| OsError                  (* os.remove failed *)
| DbError (e : exn).       (* delete_image raised *)

(** The dictionary the task returns. *)
Inductive cleanup_result : Type :=
| CleanupSuccess (deleted_count : Z) (errors : list (Z * failure))
| CleanupError (e : exn).

(** The name of the column a tuple of [SELECT * FROM images] has at an
    index: the columns come in the order of the relation. *)
Definition star_column (n : nat) (s : store) : option str :=
  match images_table s with
  | Some t => option_map col_name (nth_error (t_columns t) n)
  | None => None
  end.

(** The indices the callers read, [image[0]], [image[1]] and
    [image[6]], are the columns [id], [filename] and [user_email]: so it
    is for the relation every CREATE TABLE of the source declares, and
    for the older one once [ensure_schema] has added its columns. The
    callers are modelled for such a relation, with the fields of the
    row for the indices. *)
Definition tuple_order (s : store) : bool :=
  opt_str_eqb (star_column 0 s) (Some c_id)
  && opt_str_eqb (star_column 1 s) (Some c_filename)
  && opt_str_eqb (star_column 6 s) (Some c_user_email).

(** The body of the loop, image by image. *)
Fixpoint cleanup_loop (expired_images : list images_row) (h : host)
  (deleted_count : Z) (errors : list (Z * failure))
  : M (host * Z * list (Z * failure)) :=
  match expired_images with
  | [] => ret (h, deleted_count, errors)
  | image :: rest =>
    let image_id := i_id image in
    let filename := i_filename image in
    let user_email := i_user_email image in
    let removed :=
      match user_email with
      | Some u =>
        if nonempty u && nonempty filename then
          let file_path := image_path u filename in
          if str_in file_path (files h) then os_remove file_path h else Some h
        else Some h
      | None => Some h
      end in
    match removed with
    | None => cleanup_loop rest h deleted_count (errors ++ [(image_id, OsError)])
    | Some h' =>
      fun w =>
        match delete_image image_id w with
        | (Return _, w') => cleanup_loop rest h' (deleted_count + 1) errors w'
        | (Raise e, w') =>
          cleanup_loop rest h' deleted_count
                       (errors ++ [(image_id, DbError e)]) w'
        end
    end
  end.

(** celery_app.py, [cleanup_expired_images]. The handler of the whole
    body returns the error dictionary; what the loop removed before
    stays removed. The loop itself raises nothing: each image has its
    own handler. *)
Definition cleanup_expired_images (h : host) : M (cleanup_result * host) :=
  got <- try_except (expired_images <- get_expired_images ;;
                     ret (inl expired_images))
                    (fun e => ret (inr e)) ;;
  match got with
  | inr e => ret (CleanupError e, h)
  | inl expired_images =>
    r <- cleanup_loop expired_images h 0 [] ;;
    let '(h', deleted_count, errors) := r in
    (* log_statistics_async.delay(...) *)
    if broker_up h' then ret (CleanupSuccess deleted_count errors, h')
    else ret (CleanupError OperationalError, h')
  end.

(** No foreign key of [statistics] on [file_id] forbids the deletion
    of an image. *)
Definition deletable (s : store) : bool :=
  forallb (fun k => negb (on_delete_eqb (fk_on_delete k) NoAction))
          (fks_from Statistics c_file_id Images s).

(** The paths the loop removes for these images. *)
Definition paths_of (l : list images_row) : list str :=
  flat_map (fun i => match i_user_email i with
                     | Some u => if nonempty u && nonempty (i_filename i)
                                 then [image_path u (i_filename i)] else []
                     | None => []
                     end) l.

Definition gallery_host : host :=
  Host [lit "images/u@x.com/a.png"; lit "images/u@x.com/b.png";
        lit "images/u@x.com/d.png"] [] true.

(** A world in which [delete_image] does its work. *)
Definition workable (w : env) : Prop :=
  reachable w = true /\ fault w = None
  /\ (exists t, images_table (db w) = Some t
                /\ has_column c_expiration_date t = true)
  /\ deletable (db w) = true.

Lemma str_eqb_sym (a b : str) : str_eqb a b = str_eqb b a.
Proof.
  revert b. induction a as [|x a IH]; destruct b as [|y b]; simpl; auto.
  now rewrite IH, N.eqb_sym.
Qed.

Lemma filter_absent (p : str) (l : list str) :
  str_in p l = false -> filter (fun q => negb (str_eqb q p)) l = l.
Proof.
  unfold str_in. induction l as [|x l IH]; simpl; [reflexivity|].
  intros H. apply orb_false_iff in H as [Hx Hl].
  rewrite str_eqb_sym, Hx. simpl. now rewrite IH.
Qed.

Lemma filter_all {A : Type} (f : A -> bool) (l : list A) :
  (forall x, f x = true) -> filter f l = l.
Proof.
  intros H. induction l as [|x l IH]; simpl; [reflexivity|].
  now rewrite H, IH.
Qed.

Lemma filter_filter {A : Type} (f g : A -> bool) (l : list A) :
  filter f (filter g l) = filter (fun x => g x && f x) l.
Proof.
  induction l as [|x l IH]; simpl; [reflexivity|].
  destruct (g x); simpl; [destruct (f x)|]; now rewrite IH.
Qed.

Lemma filter_none_left {A : Type} (f : A -> bool) (l : list A) :
  filter f (filter (fun x => negb (f x)) l) = [].
Proof.
  induction l as [|x l IH]; simpl; [reflexivity|].
  destruct (f x) eqn:E; simpl; [exact IH|]. now rewrite E.
Qed.

Lemma settle_file_id_returns (gone : Z -> bool) (ks : list foreign_key)
  (s : store) :
  forallb (fun k => negb (on_delete_eqb (fk_on_delete k) NoAction)) ks = true ->
  exists s', settle_statistics_file_id gone ks s = Return s'.
Proof.
  revert s. induction ks as [|k ks IH]; intros s; cbn [settle_statistics_file_id].
  - eauto.
  - cbn [forallb]. intros H. apply andb_true_iff in H as [Hk Hks].
    destruct (fk_on_delete k); [discriminate| |]; now apply IH.
Qed.

Lemma deletable_frame (s s' : store) :
  statistics_table s' = statistics_table s -> deletable s' = deletable s.
Proof.
  intros H. unfold deletable, fks_from. cbn [lookup_table]. now rewrite H.
Qed.

Lemma delete_image_works (w : env) (id : Z) :
  workable w ->
  exists w',
    delete_image id w = (Return true, w') /\ workable w'
    /\ images_rows (db w')
       = filter (fun i => negb (i_id i =? id)%Z) (images_rows (db w))
    /\ users_rows (db w') = users_rows (db w) /\ clock w' = clock w.
Proof.
  intros [Hr [Hf [[t [Ht Hc]] Hd]]]. destruct w as [cfg r f clk s p l].
  cbn [reachable fault db clock] in *. subst r f.
  assert (D : exists s', delete_images_where (fun i => (i_id i =? id)%Z) s
                         = Return s').
  { unfold delete_images_where. rewrite Ht.
    destruct (settle_file_id_returns
                (fun i => existsb (Z.eqb i)
                            (map i_id (filter (fun i => (i_id i =? id)%Z)
                                              (images_rows s))))
                (fks_from Statistics c_file_id Images s) s Hd) as [s1 ->].
    eauto. }
  destruct D as [s' D]. eexists. unfold delete_image. run_monad. rewrite D.
  split; [reflexivity|].
  apply delete_images_where_rows in D as [D1 [D2 [_ [_ [D5 D6]]]]].
  unfold workable. cbn [reachable fault db clock].
  split; [|auto].
  split; [reflexivity|]. split; [reflexivity|]. split.
  - exists t. split; [congruence | exact Hc].
  - now rewrite (deletable_frame _ _ D6).
Qed.

(** What the loop does when nothing stands in its way. *)
Lemma cleanup_loop_runs (imgs : list images_row) (h : host)
  (deleted_count : Z) (errors : list (Z * failure)) (w : env) :
  workable w -> locked h = [] ->
  exists h' w',
    cleanup_loop imgs h deleted_count errors w
    = (Return (h', (deleted_count + Z.of_nat (List.length imgs))%Z, errors), w')
    /\ workable w' /\ clock w' = clock w
    /\ images_rows (db w')
       = filter (fun i => negb (existsb (Z.eqb (i_id i)) (map i_id imgs)))
                (images_rows (db w))
    /\ users_rows (db w') = users_rows (db w)
    /\ files h' = filter (fun p => negb (str_in p (paths_of imgs))) (files h)
    /\ locked h' = [] /\ broker_up h' = broker_up h.
Proof.
  revert h deleted_count w.
  induction imgs as [|image rest IH]; intros h d w Hw Hl.
  - exists h, w. cbn [cleanup_loop List.length map existsb paths_of flat_map].
    unfold ret. rewrite Z.add_0_r.
    split; [reflexivity|]. split; [exact Hw|]. split; [reflexivity|].
    split; [now rewrite filter_all|].
    split; [reflexivity|]. split; [|auto].
    now rewrite filter_all.
  - cbn [cleanup_loop].
    set (removed := match i_user_email image with
                    | Some u => _
                    | None => _
                    end).
    assert (R : exists h1, removed = Some h1 /\ locked h1 = []
                /\ broker_up h1 = broker_up h
                /\ files h1
                   = filter (fun p => negb (str_in p (paths_of [image])))
                            (files h)).
    { unfold removed, paths_of. cbn [flat_map]. rewrite app_nil_r.
      assert (Same : filter (fun p : str => negb (str_in p [])) (files h)
                     = files h) by now rewrite filter_all.
      destruct (i_user_email image) as [u|]; [|exists h; auto].
      destruct (nonempty u && nonempty (i_filename image)); [|exists h; auto].
      assert (F : forall l,
                 filter (fun p => negb (str_in p [image_path u (i_filename image)])) l
                 = filter (fun p => negb (str_eqb p (image_path u (i_filename image)))) l).
      { intros l. apply filter_ext. intros p. unfold str_in. simpl.
        now rewrite orb_false_r. }
      destruct (str_in (image_path u (i_filename image)) (files h)) eqn:E.
      - unfold os_remove. rewrite Hl. cbn [str_in existsb].
        eexists. split; [reflexivity|]. cbn [locked broker_up files].
        rewrite F. auto.
      - exists h. rewrite F, (filter_absent _ _ E). auto. }
    destruct R as [h1 [-> [Hl1 [Hb1 Hf1]]]].
    destruct (delete_image_works (i_id image) Hw)
      as [w1 [-> [Hw1 [Hrows [Husers Hclk]]]]].
    destruct (IH h1 (d + 1)%Z w1 Hw1 Hl1)
      as [h' [w' [-> [Hw' [Hc' [Hr' [Hu' [Hf' [Hl' Hb']]]]]]]]].
    exists h', w'. split.
    { replace (d + Z.of_nat (List.length (image :: rest)))%Z
        with (d + 1 + Z.of_nat (List.length rest))%Z
        by (cbn [List.length]; lia).
      reflexivity. }
    split; [exact Hw'|]. split; [congruence|]. split.
    { rewrite Hr', Hrows, filter_filter. apply filter_ext. intros i.
      cbn [map existsb]. rewrite negb_orb. reflexivity. }
    split; [congruence|]. split; [|split; [exact Hl' | congruence]].
    rewrite Hf', Hf1, filter_filter. apply filter_ext. intros p.
    unfold paths_of. cbn [flat_map]. unfold str_in.
    rewrite app_nil_r, existsb_app, negb_orb. reflexivity.
Qed.

Lemma NoDup_map_inj {A B : Type} (f : A -> B) (l : list A) (a b : A) :
  NoDup (map f l) -> In a l -> In b l -> f a = f b -> a = b.
Proof.
  induction l as [|x l IH]; simpl; [tauto|].
  intros Hn Ha Hb E. inversion Hn as [|? ? Hx Hl]; subst.
  destruct Ha as [<-|Ha], Hb as [<-|Hb]; auto.
  - exfalso. apply Hx. rewrite E. now apply in_map.
  - exfalso. apply Hx. rewrite <- E. now apply in_map.
Qed.

(** With identifiers that are a key, deleting the identifiers of the
    rows [f] selects deletes the rows [f] selects. *)
Lemma filter_by_ids (f : images_row -> bool) (l : list images_row) :
  NoDup (map i_id l) ->
  filter (fun i => negb (existsb (Z.eqb (i_id i)) (map i_id (filter f l)))) l
  = filter (fun i => negb (f i)) l.
Proof.
  intros Hn. apply filter_ext_in. intros i Hi. f_equal.
  destruct (f i) eqn:Ef.
  - apply existsb_exists. exists (i_id i). split; [|apply Z.eqb_refl].
    apply in_map. apply filter_In. auto.
  - apply not_true_is_false. intros H. apply existsb_exists in H as [z [Hz E]].
    apply Z.eqb_eq in E. subst z. apply in_map_iff in Hz as [j [Ej Hj]].
    apply filter_In in Hj as [Hj Fj].
    assert (j = i) by (eapply NoDup_map_inj; eauto). subst j. congruence.
Qed.

(** X10. The nightly clean-up removes what has expired and nothing
    else. With the store in reach, the columns of [images] in the
    order the task reads them, [id] a key of [images], no file
    that cannot be removed and no foreign key that forbids a deletion,
    [cleanup_expired_images] reports success with as many deletions as
    [get_expired_images] listed and no error; afterwards
    [get_expired_images] finds nothing, the rows that had not expired
    are all there, [users] is untouched, and of the files exactly those
    of the expired images are gone. *)
Theorem cleanup_removes_the_expired (h : host) (w : env) :
  workable w -> tuple_order (db w) = true ->
  locked h = [] -> broker_up h = true ->
  NoDup (map i_id (images_rows (db w))) ->
  let gone := filter (expired (clock w)) (images_rows (db w)) in
  exists h' w',
    cleanup_expired_images h w
    = (Return (CleanupSuccess (Z.of_nat (List.length gone)) [], h'), w')
    /\ fst (get_expired_images w') = Return []
    /\ images_rows (db w')
       = filter (fun i => negb (expired (clock w) i)) (images_rows (db w))
    /\ users_rows (db w') = users_rows (db w)
    /\ files h' = filter (fun p => negb (str_in p (paths_of gone))) (files h).
Proof.
  intros Hw _ Hl Hb Hn. cbv zeta.
  pose proof Hw as [Hr [Hf [[t [Ht Hc]] Hd]]].
  pose proof (get_expired_images_rows w Hr Hf Ht Hc) as G.
  assert (G' : exists w0, get_expired_images w
                          = (Return (filter (expired (clock w))
                                            (images_rows (db w))), w0)
                          /\ workable w0 /\ db w0 = db w /\ clock w0 = clock w).
  { clear G. destruct w as [cfg r f clk s p l].
    cbn [reachable fault db clock] in *. subst r f.
    unfold get_expired_images. run_monad. unfold select_expired_images.
    rewrite Ht, Hc. cbn [negb]. eexists. split; [reflexivity|].
    unfold workable. cbn. eauto 10. }
  destruct G' as [w0 [G0 [Hw0 [Hdb0 Hclk0]]]].
  destruct (@cleanup_loop_runs
              (filter (expired (clock w)) (images_rows (db w))) h 0%Z [] w0
              Hw0 Hl)
    as [h' [w' [L [Hw' [Hc' [Hr' [Hu' [Hf' [Hl' Hb']]]]]]]]].
  exists h', w'. split.
  { unfold cleanup_expired_images, bind, try_except. rewrite G0.
    unfold ret at 1 2. cbv beta iota. rewrite L. cbv beta iota.
    rewrite Hb', Hb. reflexivity. }
  assert (Rows : images_rows (db w')
                 = filter (fun i => negb (expired (clock w) i))
                          (images_rows (db w))).
  { rewrite Hr', Hdb0. now apply filter_by_ids. }
  split.
  { destruct Hw' as [Hr1 [Hf1 [[t1 [Ht1 Hc1]] _]]].
    rewrite (get_expired_images_rows w' Hr1 Hf1 Ht1 Hc1).
    rewrite Rows, Hc', Hclk0. f_equal. apply filter_none_left. }
  split; [exact Rows|]. split; [congruence | exact Hf'].
Qed.

Lemma workable_gallery : workable (world_at 800 gallery_store).
Proof.
  unfold workable. cbn.
  split; [reflexivity|]. split; [reflexivity|]. split; [|reflexivity].
  exists ddl_images. split; reflexivity.
Qed.

Lemma NoDup_gallery_ids :
  NoDup (map i_id (images_rows (db (world_at 800 gallery_store)))).
Proof. cbn. repeat constructor; simpl; intuition discriminate. Qed.

Lemma cleanup_removes_the_expired_witness :
  (exists h', fst (cleanup_expired_images gallery_host
                     (world_at 800 gallery_store))
              = Return (CleanupSuccess 2 [], h'))
  /\ images_rows (db (snd (cleanup_expired_images gallery_host
                             (world_at 800 gallery_store))))
     = filter (fun i => negb (expired 800 i)) (images_rows gallery_store).
Proof.
  destruct (@cleanup_removes_the_expired gallery_host
              (world_at 800 gallery_store) workable_gallery eq_refl eq_refl
              eq_refl NoDup_gallery_ids) as [h' [w' [A [_ [B _]]]]].
  split.
  - exists h'. rewrite A. reflexivity.
  - rewrite A. exact B.
Defined.

End Tasks.

(* ================================================================== *)
(** * Journal: what is logged and what the counters show *)
(* ================================================================== *)

Module Journal.
Import Py.
Import AdminDb.
Import Filters.
Import Access.
Import Gallery.
Import Tasks.

Definition download : str := Eval vm_compute in lit "download".

(** admin_db.py, get_total_downloads. *)
Definition sql_total_downloads : str :=
  Eval vm_compute in
  lit "SELECT COUNT(*) FROM statistics WHERE action_type = 'download'".

(** The answer of the store to [sql_total_downloads]. *)
Definition select_total_downloads (s : store) : result exn Z :=
  match statistics_table s with
  | None => Raise (UndefinedTable (relation_name Statistics))
  | Some t =>
    if negb (has_column c_action_type t)
    then Raise (UndefinedColumn c_action_type)
    else
      Return (Z.of_nat (List.length
                          (filter (fun r => str_eqb (st_action_type r) download)
                                  (statistics_rows s))))
  end.

(** admin_db.py, [get_total_downloads]. *)
Definition get_total_downloads : M Z :=
  try_except
    (conn <- connect_db ;;
     cursor conn ;;;
     total <- fetch (Statement sql_total_downloads []) select_total_downloads ;;
     ret total)
    (fun _ => ret 0%Z).

(** The user a row of [statistics] is written with: the address given
    when [users] has a row for it, NULL when it has none; an empty
    address is not looked up. *)
Definition logged_user (user_email : option str) (s : store) : option str :=
  match user_email with
  | Some u =>
    if nonempty u then if user_known u s then Some u else None else Some u
  | None => None
  end.

(** [users], [images] and [statistics] as [init_db.py] declares them,
    with one user and one image. *)
Definition init_store : store :=
  Db (Some ddl_users) [UserRow owner_x (lit "hash") 0]
     (Some ddl_images)
     [ImageRow 1 (lit "a.png") (lit "a.png") 10 100 (lit "png") (Some owner_x)
               (Some 500%Z)]
     1 (Some ddl_init_statistics) [] 0.

(** Three records of two users and a guest. *)
Definition journal_store : store :=
  Db (Some ddl_users) [UserRow owner_x (lit "hash") 0]
     (Some ddl_images) [] 0 (Some ddl_statistics)
     [StatRow 1 (lit "view") (Some owner_x) None None None None 10;
      StatRow 2 download None None None None None 30;
      StatRow 3 (lit "view") None None None None None 20;
      StatRow 4 download (Some (lit "v@y.org")) None None None None 40]
     4.

(** admin_db.py, get_unique_action_types. *)
Definition sql_unique_action_types : str :=
  Eval vm_compute in
  lit "SELECT DISTINCT action_type FROM statistics ORDER BY action_type".

(** admin_db.py, get_unique_users. *)
Definition sql_unique_users : str :=
  Eval vm_compute in
  lit "SELECT DISTINCT user_email FROM statistics WHERE user_email IS NOT NULL ORDER BY user_email".

(** admin_db.py, get_statistics_summary. *)
Definition sql_statistics_summary : str :=
  Eval vm_compute in
  lit "SELECT action_type, COUNT(*) FROM statistics GROUP BY action_type ORDER BY COUNT(*) DESC".

(** admin_db.py, get_total_files_size. *)
Definition sql_all_files : str :=
  Eval vm_compute in lit "SELECT filename, user_email FROM images".

(** DISTINCT: each value once. *)
Fixpoint distinct (l : list str) : list str :=
  match l with
  | [] => []
  | x :: l' => if str_in x l' then distinct l' else x :: distinct l'
  end.

(** The number of records of an action. *)
Definition count_action (a : str) (rows : list statistics_row) : Z :=
  Z.of_nat (List.length (filter (fun r => str_eqb (st_action_type r) a) rows)).

(** GROUP BY action_type with COUNT. *)
Definition group_by_action (rows : list statistics_row) : list (str * Z) :=
  map (fun a => (a, count_action a rows)) (distinct (map st_action_type rows)).

(** The answer of the store to [sql_statistics_summary]. The order of
    groups of equal count is the store's choice; here it is the order
    of [group_by_action]. *)
Definition select_summary (s : store) : result exn (list (str * Z)) :=
  match statistics_table s with
  | None => Raise (UndefinedTable (relation_name Statistics))
  | Some t =>
    if negb (has_column c_action_type t)
    then Raise (UndefinedColumn c_action_type)
    else Return (sort_desc (fun x y => (snd x <=? snd y)%Z)
                           (group_by_action (statistics_rows s)))
  end.

(** admin_db.py, [get_statistics_summary]. *)
Definition get_statistics_summary : M (list (str * Z)) :=
  try_except
    (conn <- connect_db ;;
     cursor conn ;;;
     summary <- fetch (Statement sql_statistics_summary []) select_summary ;;
     ret summary)
    (fun _ => ret []).

Definition sumZ (l : list Z) : Z := fold_right Z.add 0%Z l.

Fixpoint descending (l : list Z) : bool :=
  match l with
  | [] => true
  | x :: l' =>
    match l' with
    | [] => true
    | y :: _ => (y <=? x)%Z && descending l'
    end
  end.

Section Collation.

(** [a <= b] in the collation of the database. *)
Variable collate : str -> str -> bool.

Fixpoint insert_asc (x : str) (l : list str) : list str :=
  match l with
  | [] => [x]
  | y :: l' => if collate x y then x :: l else y :: insert_asc x l'
  end.

(** ORDER BY on a column of text. *)
Definition order_by (l : list str) : list str := fold_right insert_asc [] l.

(** The answer of the store to [sql_unique_action_types]. *)
Definition select_action_types (s : store) : result exn (list str) :=
  match statistics_table s with
  | None => Raise (UndefinedTable (relation_name Statistics))
  | Some t =>
    if negb (has_column c_action_type t)
    then Raise (UndefinedColumn c_action_type)
    else Return (order_by (distinct (map st_action_type (statistics_rows s))))
  end.

(** The user of a record, if it has one. *)
Definition user_of (r : statistics_row) : list str :=
  match st_user_email r with Some e => [e] | None => [] end.

(** The answer of the store to [sql_unique_users]. *)
Definition select_users (s : store) : result exn (list str) :=
  match statistics_table s with
  | None => Raise (UndefinedTable (relation_name Statistics))
  | Some t =>
    if negb (has_column c_user_email t)
    then Raise (UndefinedColumn c_user_email)
    else Return (order_by (distinct (flat_map user_of (statistics_rows s))))
  end.

(** admin_db.py, [get_unique_action_types]. *)
Definition get_unique_action_types : M (list str) :=
  try_except
    (conn <- connect_db ;;
     cursor conn ;;;
     rows <- fetch (Statement sql_unique_action_types []) select_action_types ;;
     ret rows)
    (fun _ => ret []).

(** admin_db.py, [get_unique_users]. *)
Definition get_unique_users : M (list str) :=
  try_except
    (conn <- connect_db ;;
     cursor conn ;;;
     rows <- fetch (Statement sql_unique_users []) select_users ;;
     ret rows)
    (fun _ => ret []).

End Collation.

(** The answer of the store to [sql_all_files]: the name and the owner
    of every image. *)
Definition select_all_files (s : store) : result exn (list (str * option str)) :=
  match images_table s with
  | None => Raise (UndefinedTable (relation_name Images))
  | Some t =>
    match missing_column [c_filename; c_user_email] t with
    | Some c => Raise (UndefinedColumn c)
    | None => Return (map (fun i => (i_filename i, i_user_email i))
                          (images_rows s))
    end
  end.

(** The loop of [get_total_files_size]. [disk] gives the size of the
    file at a path, [None] where [os.path.exists] is false.
    [os.path.join] raises on an owner that is [None]. *)
Fixpoint sum_sizes (upload_folder : str) (disk : str -> option Z)
  (files : list (str * option str)) (total_size : Z) : result exn Z :=
  match files with
  | [] => Return total_size
  | (filename, user_email) :: rest =>
    match user_email with
    | None => Raise TypeError
    | Some u =>
      let user_folder := path_join upload_folder u in
      let file_path := path_join user_folder filename in
      match disk file_path with
      | Some size => sum_sizes upload_folder disk rest (total_size + size)%Z
      | None => sum_sizes upload_folder disk rest total_size
      end
    end
  end.

(** admin_db.py, [get_total_files_size]. [UPLOAD_FOLDER] is the
    variable of the environment, unset when [None]. *)
Definition get_total_files_size (UPLOAD_FOLDER : option str)
  (disk : str -> option Z) : M Z :=
  try_except
    (conn <- connect_db ;;
     cursor conn ;;;
     files <- fetch (Statement sql_all_files []) select_all_files ;;
     let total_size := 0%Z in
     let upload_folder := getenv_default UPLOAD_FOLDER images_dir in
     total_size <- lift (sum_sizes upload_folder disk files total_size) ;;
     ret total_size)
    (fun _ => ret 0%Z).

(** The size on disk of the file of an image, 0 when there is none. *)
Definition size_on_disk (upload_folder : str) (disk : str -> option Z)
  (i : images_row) : Z :=
  match i_user_email i with
  | Some u =>
    match disk (path_join (path_join upload_folder u) (i_filename i)) with
    | Some size => size
    | None => 0%Z
    end
  | None => 0%Z
  end.

Definition has_owner (i : images_row) : bool :=
  match i_user_email i with Some _ => true | None => false end.

(** Every file of [gallery_store] that has an owner, 100 bytes each. *)
Definition gallery_disk (path : str) : option Z :=
  if startswith path (lit "images/u@x.com/") then Some 100%Z else None.

(** ** What [log_statistics] stores *)

Lemma insert_statistics_store (now : Z) (action_type : str)
  (user_email : option str) (file_id : option Z)
  (ip_address user_agent additional_info : option str) (s s' : store) :
  insert_statistics now action_type user_email file_id ip_address user_agent
                    additional_info s = Return s' ->
  (exists t, statistics_table s = Some t
             /\ missing_column statistics_insert_columns t = None)
  /\ s' = Db (users_table s) (users_rows s) (images_table s) (images_rows s)
             (images_serial s) (statistics_table s)
             (statistics_rows s ++
              [StatRow (statistics_serial s + 1) action_type user_email file_id
                       ip_address user_agent additional_info now])
             (statistics_serial s + 1).
Proof.
  unfold insert_statistics.
  destruct (statistics_table s) as [t|]; [|discriminate].
  destruct (missing_column _ _) eqn:Hm; [discriminate|].
  destruct (negb _); [discriminate|].
  destruct (broken_fk _ _ _); [discriminate|].
  destruct (broken_fk _ _ _); [discriminate|].
  intros H. injection H as <-. split; [|reflexivity]. eauto.
Qed.

Lemma find_known (email : str) (l : list users_row) :
  match find (fun u => str_eqb (u_email u) email) l with
  | Some _ => true
  | None => false
  end = existsb (fun u => str_eqb (u_email u) email) l.
Proof.
  induction l as [|u l IH]; simpl; [reflexivity|].
  destruct (str_eqb (u_email u) email); [reflexivity | exact IH].
Qed.

(** A [log_statistics] that returns [True] has carried out its
    INSERT. *)
Lemma log_statistics_stored (w w' : env) (action_type : str)
  (user_email : option str) (file_id : option Z)
  (ip_address user_agent additional_info : option str) :
  log_statistics action_type user_email file_id ip_address user_agent
                 additional_info w = (Return true, w') ->
  reachable w = true /\ fault w = None
  /\ reachable w' = true /\ fault w' = None
  /\ insert_statistics (clock w) action_type (logged_user user_email (db w))
       file_id ip_address user_agent additional_info (db w) = Return (db w').
Proof.
  unfold log_statistics, logged_user, user_known.
  destruct w as [cfg r f clk s p l]. run_monad.
  destruct r; run_monad; [|discriminate].
  destruct f; run_monad.
  { destruct user_email as [u|]; [destruct (nonempty u)|]; discriminate. }
  destruct user_email as [u|]; [destruct (nonempty u) eqn:Hn|]; run_monad.
  - unfold select_user. destruct (users_table s); [|discriminate].
    rewrite <- find_known.
    destruct (find _ _); run_monad;
      (destruct (insert_statistics _ _ _ _ _ _ _ _) eqn:E; [|discriminate]);
      intros H; injection H as <-; cbn; auto 10.
  - destruct (insert_statistics _ _ _ _ _ _ _ _) eqn:E; [|discriminate].
    intros H. injection H as <-. cbn. auto 10.
  - destruct (insert_statistics _ _ _ _ _ _ _ _) eqn:E; [|discriminate].
    intros H. injection H as <-. cbn. auto 10.
Qed.

(** ** The counters *)

Lemma get_total_downloads_value (w : env) (t : table) :
  reachable w = true -> fault w = None -> statistics_table (db w) = Some t ->
  has_column c_action_type t = true ->
  fst (get_total_downloads w)
  = Return (Z.of_nat
              (List.length
                 (filter (fun r => str_eqb (st_action_type r) download)
                         (statistics_rows (db w))))).
Proof.
  intros Hr Hf Ht Hc. destruct w as [cfg r f clk s p l].
  cbn [reachable fault db] in *. subst r f.
  unfold get_total_downloads. run_monad. unfold select_total_downloads.
  now rewrite Ht, Hc.
Qed.

(** X11. [log_statistics] writes no address that [users] does not
    have: a call that returns [True] has added one row, with the values
    given and the time of the call, whose user is the address given
    when it has a row in [users] and NULL when it has none. An action of
    an unknown, non-empty address is therefore counted among the
    guests: the count under the filter ['Гость'] grows by one. *)
Theorem unknown_user_is_logged_as_guest (w w' : env) (action_type : str)
  (user_email : option str) (file_id : option Z)
  (ip_address user_agent additional_info : option str) :
  log_statistics action_type user_email file_id ip_address user_agent
                 additional_info w = (Return true, w') ->
  statistics_rows (db w')
  = statistics_rows (db w) ++
    [StatRow (statistics_serial (db w) + 1) action_type
             (logged_user user_email (db w)) file_id ip_address user_agent
             additional_info (clock w)]
  /\ (forall u, user_email = Some u -> nonempty u = true ->
        logged_user user_email (db w)
        = (if user_known u (db w) then Some u else None))
  /\ (forall u, user_email = Some u -> nonempty u = true ->
        user_known u (db w) = false ->
        exists n,
          fst (get_statistics_count None (Some GUEST) w) = Return n
          /\ fst (get_statistics_count None (Some GUEST) w')
             = Return (n + 1)%Z).
Proof.
  intros H.
  destruct (log_statistics_stored _ _ _ _ _ _ _ H) as [Hr [Hf [Hr' [Hf' Hi]]]].
  apply insert_statistics_store in Hi as [[t [Ht _]] Hdb].
  split; [now rewrite Hdb|]. split.
  - intros u -> Hn. unfold logged_user. now rewrite Hn.
  - intros u -> Hn Hk. eexists. split.
    + apply (@get_statistics_count_value w None (Some GUEST) t); auto.
      vm_compute; discriminate.
    + rewrite (@get_statistics_count_value w' None (Some GUEST) t); auto.
      2:{ vm_compute; discriminate. }
      2:{ rewrite Hdb. exact Ht. }
      rewrite Hdb. cbn [statistics_rows]. rewrite filter_app, length_app.
      unfold logged_user. rewrite Hn, Hk. cbn [filter].
      f_equal. cbn. lia.
Qed.

Lemma unknown_user_is_logged_as_guest_witness :
  statistics_rows
    (db (snd (log_statistics (lit "view") (Some (lit "ghost@x.com")) None None
                             None None (world_at 7 one_user))))
  = [StatRow 1 (lit "view") None None None None None 7].
Proof.
  apply (@unknown_user_is_logged_as_guest (world_at 7 one_user)
           (snd (log_statistics (lit "view") (Some (lit "ghost@x.com")) None
                                None None None (world_at 7 one_user)))
           (lit "view") (Some (lit "ghost@x.com")) None None None None).
  vm_compute; reflexivity.
Defined.

(** X12. The download counter follows the log: after a
    [log_statistics] that returned [True], [get_total_downloads] is one
    more than before when the action logged is ['download'], and what
    it was for any other action. *)
Theorem downloads_follow_the_log (w w' : env) (action_type : str)
  (user_email : option str) (file_id : option Z)
  (ip_address user_agent additional_info : option str) :
  log_statistics action_type user_email file_id ip_address user_agent
                 additional_info w = (Return true, w') ->
  exists n,
    fst (get_total_downloads w) = Return n
    /\ fst (get_total_downloads w')
       = Return (n + (if str_eqb action_type download then 1 else 0))%Z.
Proof.
  intros H.
  destruct (log_statistics_stored _ _ _ _ _ _ _ H) as [Hr [Hf [Hr' [Hf' Hi]]]].
  apply insert_statistics_store in Hi as [[t [Ht Hm]] Hdb].
  assert (Hc : has_column c_action_type t = true).
  { apply (@missing_none_has statistics_insert_columns t c_action_type Hm).
    simpl. auto. }
  eexists. split.
  - apply (@get_total_downloads_value w t); auto.
  - rewrite (@get_total_downloads_value w' t); auto.
    2:{ rewrite Hdb. exact Ht. }
    rewrite Hdb. cbn [statistics_rows]. rewrite filter_app, length_app.
    cbn [filter st_action_type]. f_equal.
    destruct (str_eqb action_type download); cbn; lia.
Qed.

Lemma downloads_follow_the_log_witness :
  exists n,
    fst (get_total_downloads (world one_user)) = Return n
    /\ fst (get_total_downloads
              (snd (log_statistics download (Some owner_x) None None None None
                                   (world one_user))))
       = Return (n + 1)%Z.
Proof.
  apply (@downloads_follow_the_log (world one_user)
           (snd (log_statistics download (Some owner_x) None None None None
                                (world one_user)))
           download (Some owner_x) None None None None).
  vm_compute; reflexivity.
Defined.

(** ** Deleting, then logging the deletion *)

Lemma insert_statistics_refused (now : Z) (action_type : str)
  (user_email : option str) (id : Z)
  (ip_address user_agent additional_info : option str) (s : store)
  (k : foreign_key) (ks : list foreign_key) :
  fks_from Statistics c_file_id Images s = k :: ks ->
  image_known id s = false ->
  exists e, insert_statistics now action_type user_email (Some id) ip_address
                              user_agent additional_info s = Raise e.
Proof.
  intros Hk Hi. unfold insert_statistics.
  destruct (statistics_table s); [|eauto].
  destruct (missing_column _ _); [eauto|].
  destruct (negb _); [eauto|].
  destruct (broken_fk _ _ _); [eauto|].
  rewrite Hk. cbn [broken_fk]. rewrite Hi. eauto.
Qed.

Lemma log_statistics_refused (w : env) (action_type : str)
  (user_email : option str) (id : Z)
  (ip_address user_agent additional_info : option str)
  (k : foreign_key) (ks : list foreign_key) :
  fks_from Statistics c_file_id Images (db w) = k :: ks ->
  image_known id (db w) = false ->
  fst (log_statistics action_type user_email (Some id) ip_address user_agent
                      additional_info w) = Return false
  /\ db (snd (log_statistics action_type user_email (Some id) ip_address
                             user_agent additional_info w)) = db w.
Proof.
  intros Hk Hi. destruct w as [cfg r f clk s p l]. cbn [db] in *.
  assert (R : forall u,
             exists e, insert_statistics clk action_type u (Some id) ip_address
                                         user_agent additional_info s = Raise e).
  { intros u. eapply insert_statistics_refused; eauto. }
  unfold log_statistics. run_monad.
  destruct r; run_monad; [|auto].
  destruct f; run_monad.
  { destruct user_email as [u|]; [destruct (nonempty u)|]; auto. }
  destruct user_email as [u|]; [destruct (nonempty u)|]; run_monad.
  - destruct (select_user u s) as [[x|]|]; run_monad; [| |auto].
    + destruct (R (Some u)) as [e ->]. auto.
    + destruct (R None) as [e ->]. auto.
  - destruct (R (Some u)) as [e ->]. auto.
  - destruct (R None) as [e ->]. auto.
Qed.

Lemma unknown_after_filter (id : Z) (l : list images_row) :
  existsb (fun i => (i_id i =? id)%Z)
          (filter (fun i => negb (i_id i =? id)%Z) l) = false.
Proof.
  induction l as [|x l IH]; simpl; [reflexivity|].
  destruct (i_id x =? id)%Z eqn:E; simpl; [exact IH|]. now rewrite E.
Qed.

(** X13. Where [statistics] refers to [images] by a foreign key on
    [file_id], as in the relation [init_db.py] declares, the record of
    a deletion cannot be written with the identifier of the image:
    after a [delete_image] that returned [True], [log_statistics] with
    that [file_id] returns [False] and stores no row, whatever its
    other arguments. *)
Theorem deletion_statistic_is_lost (w w1 : env) (id : Z)
  (k : foreign_key) (ks : list foreign_key) (action_type : str)
  (user_email ip_address user_agent additional_info : option str) :
  delete_image id w = (Return true, w1) ->
  fks_from Statistics c_file_id Images (db w) = k :: ks ->
  fst (log_statistics action_type user_email (Some id) ip_address user_agent
                      additional_info w1) = Return false
  /\ statistics_rows
       (db (snd (log_statistics action_type user_email (Some id) ip_address
                                user_agent additional_info w1)))
     = statistics_rows (db w1)
  /\ images_rows
       (db (snd (log_statistics action_type user_email (Some id) ip_address
                                user_agent additional_info w1)))
     = images_rows (db w1)
  /\ users_rows
       (db (snd (log_statistics action_type user_email (Some id) ip_address
                                user_agent additional_info w1)))
     = users_rows (db w1).
Proof.
  intros H Hk. apply delete_image_done in H as [_ [_ Hd]].
  apply delete_images_where_rows in Hd as [D1 [_ [_ [_ [_ D6]]]]].
  destruct (@log_statistics_refused w1 action_type user_email id ip_address
              user_agent additional_info k ks) as [R1 R2].
  - unfold fks_from in *. cbn [lookup_table] in *. now rewrite D6.
  - unfold image_known. rewrite D1. apply unknown_after_filter.
  - rewrite R2. auto.
Qed.

Lemma deletion_statistic_is_lost_witness :
  fst (log_statistics (lit "delete") (Some owner_x) (Some 1%Z) None None None
                      (snd (delete_image 1 (world init_store))))
  = Return false
  /\ fst (log_statistics (lit "delete") (Some owner_x) (Some 1%Z) None None
                         None (snd (delete_image 1 (world gallery_store))))
     = Return true.
Proof.
  split.
  - apply (@deletion_statistic_is_lost (world init_store)
             (snd (delete_image 1 (world init_store))) 1
             (ForeignKey (lit "statistics_file_id_fkey") (lit "file_id")
                         Images (lit "id") SetNull) []
             (lit "delete") (Some owner_x) None None None);
      vm_compute; reflexivity.
  - vm_compute; reflexivity.
Defined.

(** ** The pages of the statistics view *)

(** app.py, [view_statistics]:
    [(total_records + per_page - 1) // per_page], for [per_page]
    other than zero. *)
Definition statistics_pages (total_records per_page : Z) : Z :=
  ((total_records + per_page - 1) / per_page)%Z.

(** X14. The pager of the statistics view loses no record. For every
    filter but ['ACTIVE_USERS'], with [per_page > 0] and the records
    the filters select all of different times, the pages 1 to
    [total_pages] of [get_statistics_with_filters], taken at the
    offsets and with the number of pages [view_statistics] computes
    from [get_statistics_count] under the same filters, put one after
    the other are the records the filters select, each once, newest
    first; and newest first is one order only, so that the pages do not
    depend on how the store orders rows for each of them. *)
Theorem statistics_pages_cover (w : env) (a u : option str) (per_page : Z)
  (t : table) :
  reachable w = true -> fault w = None -> statistics_table (db w) = Some t ->
  missing_column statistics_list_columns t = None ->
  (0 < per_page)%Z ->
  u <> Some ACTIVE_USERS ->
  NoDup (map st_timestamp
             (filter (fun r => wanted_action a r && wanted_user u r)
                     (statistics_rows (db w)))) ->
  let total := Z.of_nat (List.length (selected a u (db w))) in
  fst (get_statistics_count a u w) = Return total
  /\ flat_map (fun k => fetched
                          (fst (get_statistics_with_filters a u per_page
                                  ((Z.of_nat k - 1) * per_page) w)))
              (seq 1 (Z.to_nat (statistics_pages total per_page)))
     = selected a u (db w)
  /\ Permutation (selected a u (db w))
                 (filter (fun r => wanted_action a r && wanted_user u r)
                         (statistics_rows (db w)))
  /\ decreasing st_timestamp (selected a u (db w))
  /\ (forall l,
        Permutation l (filter (fun r => wanted_action a r && wanted_user u r)
                              (statistics_rows (db w))) ->
        decreasing st_timestamp l -> l = selected a u (db w)).
Proof.
  intros Hr Hf Ht Hm Hpp Hne Hnd. cbv zeta.
  assert (Hu : classify u <> Active).
  { intros H. apply Hne. now apply classify_active. }
  set (L := selected a u (db w)).
  assert (P : (Z.of_nat (List.length L)
               <= statistics_pages (Z.of_nat (List.length L)) per_page
                  * per_page)%Z).
  { unfold statistics_pages.
    pose proof (Z.div_mod (Z.of_nat (List.length L) + per_page - 1) per_page
                          ltac:(lia)) as D.
    pose proof (Z.mod_pos_bound (Z.of_nat (List.length L) + per_page - 1)
                                per_page Hpp) as B.
    nia. }
  assert (P0 : (0 <= statistics_pages (Z.of_nat (List.length L)) per_page)%Z).
  { unfold statistics_pages. apply Z.div_pos; lia. }
  assert (S : decreasing st_timestamp L)
    by (apply sort_desc_decreasing; exact Hnd).
  split.
  { rewrite (@get_statistics_count_value w a u t); auto.
    unfold L, selected. now rewrite (Permutation_length (sort_desc_perm _ _)). }
  split.
  { transitivity (firstn (Z.to_nat (statistics_pages (Z.of_nat (List.length L))
                                                     per_page)
                          * Z.to_nat per_page) L);
      [|apply firstn_all2; nia].
    rewrite <- chunks_cover, !flat_map_concat_map. f_equal.
    apply map_ext_in. intros k Hk. apply in_seq in Hk.
    rewrite (@get_statistics_page w a u (Z.of_nat k) per_page t);
      auto; try lia.
    cbn [fetched]. replace (Z.to_nat (Z.of_nat k - 1)) with (k - 1)%nat by lia.
    reflexivity. }
  split; [apply sort_desc_perm|]. split; [exact S|].
  intros l Pl Sl. apply (@decreasing_unique _ st_timestamp); auto.
  rewrite Pl. symmetry. apply sort_desc_perm.
Qed.

Lemma NoDup_journal_times :
  NoDup (map st_timestamp
             (filter (fun r => wanted_action None r && wanted_user None r)
                     (statistics_rows journal_store))).
Proof. repeat constructor; simpl; intuition discriminate. Qed.

Lemma NoDup_journal_downloads :
  NoDup (map st_timestamp
             (filter (fun r => wanted_action (Some download) r
                               && wanted_user None r)
                     (statistics_rows journal_store))).
Proof. repeat constructor; simpl; intuition discriminate. Qed.

Lemma statistics_pages_cover_witness :
  fst (get_statistics_count (Some download) None (world journal_store))
  = Return 2%Z
  /\ flat_map (fun k => fetched
                          (fst (get_statistics_with_filters None None 3
                                  ((Z.of_nat k - 1) * 3) (world journal_store))))
              (seq 1 (Z.to_nat (statistics_pages 4 3)))
     = selected None None journal_store.
Proof.
  assert (N : @None str <> Some ACTIVE_USERS) by discriminate.
  split.
  - destruct (@statistics_pages_cover (world journal_store) (Some download)
                None 3 ddl_statistics eq_refl eq_refl eq_refl eq_refl eq_refl N
                NoDup_journal_downloads) as [A _].
    exact A.
  - destruct (@statistics_pages_cover (world journal_store) None None
                3 ddl_statistics eq_refl eq_refl eq_refl eq_refl eq_refl N
                NoDup_journal_times) as [_ [B _]].
    exact B.
Defined.

(** ** The lists of the filter form *)

Lemma str_in_In (x : str) (l : list str) : str_in x l = true <-> In x l.
Proof.
  unfold str_in. rewrite existsb_exists. split.
  - intros [y [Hy E]]. apply str_eqb_eq in E. now subst.
  - intros H. exists x. split; [exact H | apply str_eqb_refl].
Qed.

Lemma distinct_In (x : str) (l : list str) : In x (distinct l) <-> In x l.
Proof.
  induction l as [|y l IH]; simpl; [tauto|].
  destruct (str_in y l) eqn:E.
  - apply str_in_In in E. rewrite IH. split; [tauto|].
    intros [<-|H]; auto.
  - simpl. rewrite IH. tauto.
Qed.

Lemma distinct_NoDup (l : list str) : NoDup (distinct l).
Proof.
  induction l as [|y l IH]; simpl; [constructor|].
  destruct (str_in y l) eqn:E; [exact IH|].
  constructor; [|exact IH]. rewrite distinct_In. intros H.
  apply str_in_In in H. congruence.
Qed.

Section CollationTheory.

Variable collate : str -> str -> bool.

Lemma insert_asc_perm (x : str) (l : list str) :
  Permutation (insert_asc collate x l) (x :: l).
Proof.
  induction l as [|y l IH]; simpl; [reflexivity|].
  destruct (collate x y); [reflexivity|].
  rewrite IH. apply perm_swap.
Qed.

Lemma order_by_perm (l : list str) : Permutation (order_by collate l) l.
Proof.
  induction l as [|x l IH]; simpl; [reflexivity|].
  rewrite insert_asc_perm. now constructor.
Qed.

(** X15. The two lists of the filter form hold what the log holds,
    each value once: [get_unique_action_types] returns the action types
    that occur in [statistics] and [get_unique_users] the addresses
    that occur there, never the guest (NULL), without repetition,
    whatever the collation the store orders them by. *)
Theorem unique_lists_are_exact (w : env) (t : table) :
  reachable w = true -> fault w = None -> statistics_table (db w) = Some t ->
  has_column c_action_type t = true -> has_column c_user_email t = true ->
  exists types users,
    fst (get_unique_action_types collate w) = Return types
    /\ fst (get_unique_users collate w) = Return users
    /\ NoDup types /\ NoDup users
    /\ (forall a, In a types
                  <-> exists r, In r (statistics_rows (db w))
                                /\ st_action_type r = a)
    /\ (forall e, In e users
                  <-> exists r, In r (statistics_rows (db w))
                                /\ st_user_email r = Some e).
Proof.
  intros Hr Hf Ht Ha Hu. destruct w as [cfg r f clk s p l].
  cbn [reachable fault db] in *. subst r f.
  do 2 eexists.
  split.
  { unfold get_unique_action_types. run_monad. unfold select_action_types.
    rewrite Ht, Ha. reflexivity. }
  split.
  { unfold get_unique_users. run_monad. unfold select_users.
    rewrite Ht, Hu. reflexivity. }
  split.
  { eapply Permutation_NoDup; [symmetry; apply order_by_perm|].
    apply distinct_NoDup. }
  split.
  { eapply Permutation_NoDup; [symmetry; apply order_by_perm|].
    apply distinct_NoDup. }
  split.
  - intros a. rewrite (Permutation_in' eq_refl (order_by_perm _)).
    rewrite distinct_In, in_map_iff. split; intros [x [H1 H2]]; eauto.
  - intros e. rewrite (Permutation_in' eq_refl (order_by_perm _)).
    rewrite distinct_In, in_flat_map. split.
    + intros [x [H1 H2]]. exists x. split; [exact H1|].
      unfold user_of in H2. destruct (st_user_email x); [|contradiction].
      destruct H2 as [<-|[]]. reflexivity.
    + intros [x [H1 H2]]. exists x. split; [exact H1|].
      unfold user_of. rewrite H2. now left.
Qed.

End CollationTheory.

Lemma unique_lists_are_exact_witness :
  exists types users,
    fst (get_unique_action_types str_leb (world journal_store)) = Return types
    /\ fst (get_unique_users str_leb (world journal_store)) = Return users
    /\ NoDup types /\ NoDup users.
Proof.
  destruct (@unique_lists_are_exact str_leb (world journal_store)
              ddl_statistics eq_refl eq_refl eq_refl eq_refl eq_refl)
    as [types [users [A [B [C [D _]]]]]].
  exists types, users. auto.
Defined.

(** ** The summary *)

Lemma sumZ_app (l1 l2 : list Z) : sumZ (l1 ++ l2) = (sumZ l1 + sumZ l2)%Z.
Proof. induction l1 as [|x l IH]; simpl; [reflexivity|]. rewrite IH. lia. Qed.

Lemma sumZ_perm (l1 l2 : list Z) : Permutation l1 l2 -> sumZ l1 = sumZ l2.
Proof. induction 1; simpl; lia. Qed.

Lemma sum_indicator (x : str) (keys : list str) :
  NoDup keys ->
  sumZ (map (fun a => if str_eqb x a then 1%Z else 0%Z) keys)
  = if str_in x keys then 1%Z else 0%Z.
Proof.
  unfold str_in. induction keys as [|k keys IH]; simpl; [reflexivity|].
  intros Hn. inversion Hn as [|? ? Hk Hks]; subst. rewrite (IH Hks).
  destruct (str_eqb x k) eqn:E; simpl; [|reflexivity].
  apply str_eqb_eq in E. subst k.
  destruct (existsb (str_eqb x) keys) eqn:E'; [|reflexivity].
  exfalso. apply Hk. now apply str_in_In.
Qed.

Lemma count_action_cons (a : str) (r : statistics_row)
  (rows : list statistics_row) :
  count_action a (r :: rows)
  = ((if str_eqb (st_action_type r) a then 1 else 0) + count_action a rows)%Z.
Proof.
  unfold count_action. cbn [filter].
  destruct (str_eqb (st_action_type r) a); cbn [List.length]; lia.
Qed.

Lemma sum_counts (keys : list str) (rows : list statistics_row) :
  NoDup keys ->
  (forall r, In r rows -> In (st_action_type r) keys) ->
  sumZ (map (fun a => count_action a rows) keys) = Z.of_nat (List.length rows).
Proof.
  intros Hn. induction rows as [|r rows IH]; intros Hc.
  - clear. induction keys as [|k keys IHk]; [reflexivity|].
    simpl in *. exact IHk.
  - assert (E : sumZ (map (fun a => count_action a (r :: rows)) keys)
                = (sumZ (map (fun a => if str_eqb (st_action_type r) a
                                       then 1 else 0) keys)
                   + sumZ (map (fun a => count_action a rows) keys))%Z).
    { clear. induction keys as [|k keys IHk]; [reflexivity|].
      cbn [map sumZ fold_right]. fold (sumZ (map (fun a => count_action a (r :: rows)) keys)).
      fold (sumZ (map (fun a => if str_eqb (st_action_type r) a
                                then 1%Z else 0%Z) keys)).
      fold (sumZ (map (fun a => count_action a rows) keys)).
      rewrite IHk, count_action_cons. lia. }
    rewrite E, (sum_indicator _ Hn), IH.
    + assert (Hin : str_in (st_action_type r) keys = true).
      { apply str_in_In. apply Hc. now left. }
      rewrite Hin. cbn [List.length]. lia.
    + intros x Hx. apply Hc. now right.
Qed.

Lemma insert_desc_descending (x : str * Z) (l : list (str * Z)) :
  descending (map snd l) = true ->
  descending (map snd (insert_desc (fun a b => (snd a <=? snd b)%Z) x l)) = true.
Proof.
  induction l as [|y l IH]; [reflexivity|].
  intros H. cbn [insert_desc].
  destruct (snd x <=? snd y)%Z eqn:E.
  - cbn [map descending] in *.
    destruct l as [|z l].
    + cbn. now rewrite E.
    + cbn [map] in *. apply andb_true_iff in H as [H1 H2].
      specialize (IH H2). cbn [insert_desc] in *.
      destruct (snd x <=? snd z)%Z eqn:E'.
      * cbn [map] in *. now rewrite H1, IH.
      * cbn [map] in *. now rewrite E, IH.
  - cbn [map descending] in *. apply Z.leb_gt in E.
    assert (E' : (snd y <=? snd x)%Z = true) by (apply Z.leb_le; lia).
    now rewrite E', H.
Qed.

Lemma sort_desc_descending (l : list (str * Z)) :
  descending (map snd (sort_desc (fun a b => (snd a <=? snd b)%Z) l)) = true.
Proof.
  induction l as [|x l IH]; [reflexivity|].
  unfold sort_desc in *. cbn [fold_right]. now apply insert_desc_descending.
Qed.

Lemma count_action_filter (a : str) (rows : list statistics_row) :
  nonempty a = true ->
  filter (fun r => wanted_action (Some a) r && wanted_user None r) rows
  = filter (fun r => str_eqb (st_action_type r) a) rows.
Proof.
  intros Hn. apply filter_ext. intros r. unfold wanted_action, wanted_user.
  rewrite Hn. apply andb_true_r.
Qed.



(** ** The size of the files *)

Lemma sum_sizes_owned (upload_folder : str) (disk : str -> option Z)
  (l : list images_row) (total : Z) :
  forallb has_owner l = true ->
  sum_sizes upload_folder disk
            (map (fun i => (i_filename i, i_user_email i)) l) total
  = Return (total + sumZ (map (size_on_disk upload_folder disk) l))%Z.
Proof.
  revert total. induction l as [|i l IH]; intros total H.
  - cbn. f_equal. lia.
  - cbn [forallb] in H. apply andb_true_iff in H as [Hi Hl].
    cbn [map sum_sizes]. unfold has_owner in Hi. unfold size_on_disk at 1.
    destruct (i_user_email i) as [u|]; [|discriminate].
    cbn [sumZ fold_right].
    fold (sumZ (map (size_on_disk upload_folder disk) l)).
    destruct (disk _); rewrite IH by exact Hl; f_equal; lia.
Qed.

Lemma sum_sizes_anonymous (upload_folder : str) (disk : str -> option Z)
  (l : list images_row) (total : Z) :
  forallb has_owner l = false ->
  sum_sizes upload_folder disk
            (map (fun i => (i_filename i, i_user_email i)) l) total
  = Raise TypeError.
Proof.
  revert total. induction l as [|i l IH]; intros total H; [discriminate|].
  cbn [forallb] in H. cbn [map sum_sizes]. unfold has_owner in H at 1.
  destruct (i_user_email i) as [u|]; [|reflexivity].
  cbn [andb] in H. destruct (disk _); now apply IH.
Qed.

(** X17. One image without owner hides the size of all files:
    [get_total_files_size] returns the sum of the sizes of the files
    that exist under [UPLOAD_FOLDER/owner/filename] when every row of
    [images] has an owner, and 0 as soon as one row has none, because
    the path of that row cannot be built and the error is answered
    with 0. *)
Theorem anonymous_image_hides_the_total (w : env) (t : table)
  (UPLOAD_FOLDER : option str) (disk : str -> option Z) :
  reachable w = true -> fault w = None -> images_table (db w) = Some t ->
  has_column c_filename t = true -> has_column c_user_email t = true ->
  fst (get_total_files_size UPLOAD_FOLDER disk w)
  = Return (if forallb has_owner (images_rows (db w))
            then sumZ (map (size_on_disk
                              (getenv_default UPLOAD_FOLDER images_dir) disk)
                           (images_rows (db w)))
            else 0%Z).
Proof.
  intros Hr Hf Ht H1 H2. destruct w as [cfg r f clk s p l].
  cbn [reachable fault db] in *. subst r f.
  unfold get_total_files_size. run_monad. unfold select_all_files.
  rewrite Ht. cbn [missing_column]. rewrite H1, H2.
  destruct (forallb has_owner (images_rows s)) eqn:E.
  - rewrite (sum_sizes_owned _ _ _ _ E). reflexivity.
  - rewrite (sum_sizes_anonymous _ _ _ _ E). reflexivity.
Qed.

Lemma anonymous_image_hides_the_total_witness :
  fst (get_total_files_size None gallery_disk (world gallery_store))
  = Return 0%Z
  /\ fst (get_total_files_size None gallery_disk
            (snd (delete_image 3 (world gallery_store))))
     = Return 300%Z.
Proof.
  split.
  - apply (@anonymous_image_hides_the_total (world gallery_store) ddl_images
             None gallery_disk eq_refl eq_refl eq_refl eq_refl eq_refl).
  - apply (@anonymous_image_hides_the_total
             (snd (delete_image 3 (world gallery_store))) ddl_images
             None gallery_disk eq_refl eq_refl eq_refl eq_refl eq_refl).
Defined.

End Journal.

(* ================================================================== *)
(** * db_pool.py: the health check and the functions kept for
      compatibility *)
(* ================================================================== *)

Module PoolCompat.
Import Pool.
Import Scoped.

(** db_pool.py, [connect_db]: [db_pool._pool.getconn()], no counter
    touched. *)
Definition connect_db (d : DatabasePool)
  : Py.result pexn (option nat) * DatabasePool :=
  match pg_getconn (_pool d) with
  | (r, p) => (r, with_pool p d)
  end.

(** db_pool.py, [close_db]: [db_pool._pool.putconn(conn)] for a
    connection that is not [None]. *)
Definition close_db (conn : option nat) (d : DatabasePool)
  : Py.result pexn unit * DatabasePool :=
  match conn with
  | None => (Py.Return tt, d)
  | Some c =>
    match pg_putconn c false (_pool d) with
    | (r, p) => (r, with_pool p d)
    end
  end.

(** The block of [health_check]: [SELECT 1] on the connection. A
    connection whose session is gone raises and is marked closed; a
    closed one raises at [cursor()] ([BlockError 0] stands for that
    InterfaceError). The transaction the query opens stays open. *)
Definition select_one (conn : option nat) (d : DatabasePool)
  : outcome * DatabasePool :=
  match conn with
  | None => (Raised AttributeError, d)
  | Some c =>
    match state_of (_pool d) c with
    | Ready | InTransaction => (Normal, set_conn_state c InTransaction d)
    | Lost | LostInTransaction | Broken =>
      (Raised OperationalError, set_conn_state c Closed d)
    | Closed => (Raised (BlockError 0), d)
    end
  end.

(** db_pool.py, [DatabasePool.health_check]. *)
Definition health_check (d : DatabasePool)
  : Py.result pexn bool * DatabasePool :=
  match get_connection select_one d with
  | (Normal, d') => (Py.Return true, d')
  | (Raised e, d') =>
    if is_exception e then (Py.Return false, d') else (Py.Raise e, d')
  end.

(** A block that gives its connection back itself. *)
Definition hands_back (conn : option nat) (d : DatabasePool)
  : outcome * DatabasePool :=
  match close_db conn d with
  | (Py.Return _, d') => (Normal, d')
  | (Py.Raise e, d') => (Raised e, d')
  end.

Lemma select_one_restoring : restoring (fun _ => True) select_one.
Proof.
  intros conn d W _. unfold select_one.
  destruct conn as [c|].
  2:{ cbn [snd]. split; [now apply restores_refl|]. split; [exact I|].
      intros c H. discriminate. }
  destruct (state_of (_pool d) c) eqn:S; cbn [snd];
    (split; [try (now apply restores_set_conn_state); now apply restores_refl|]);
    (split; [exact I|]); intros x H; injection H as <-;
    unfold set_conn_state, with_pool, set_state; cbn [_pool state_of];
    rewrite ?Nat.eqb_refl, ?S; discriminate.
Qed.

Lemma select_one_exception (conn : option nat) (d d' : DatabasePool) (e : pexn) :
  select_one conn d = (Raised e, d') -> is_exception e = true.
Proof.
  unfold select_one. destruct conn as [c|].
  - destruct (state_of (_pool d) c); intros H; inversion H; reflexivity.
  - intros H; inversion H; reflexivity.
Qed.

(** An exception that leaves [get_connection] around [select_one] is
    an [Exception]. *)
Lemma health_check_exception (d d' : DatabasePool) (e : pexn) :
  wf d -> get_connection select_one d = (Raised e, d') -> is_exception e = true.
Proof.
  intros [Hp _]. unfold get_connection.
  destruct (pg_getconn_cases Hp)
    as [[e0 [-> He0]] | [c [p1 [-> [Hp1 [Hu1 [Hc1 _]]]]]]].
  { intros H. inversion H; subst. destruct He0; subst; reflexivity. }
  destruct (pg_closed c p1).
  2:{ cbv zeta. cbv iota.
      destruct (select_one _ _) as [[|e1] d2] eqn:E; intros H; inversion H.
      subst. eapply select_one_exception; eauto. }
  assert (Hin : In c (used p1)).
  { rewrite Hu1. apply in_app_iff. right. now left. }
  destruct (@pg_putconn_out c true _ Hp1 Hin (or_introl eq_refl))
    as [p2 [-> [Hp2 _]]].
  destruct (pg_getconn_cases Hp2)
    as [[e0 [-> He0]] | [c' [p3 [-> _]]]]; cbv zeta; cbv iota.
  - intros H. inversion H; subst. destruct He0; subst; reflexivity.
  - destruct (select_one _ _) as [[|e1] d2] eqn:E; intros H; inversion H.
    subst. eapply select_one_exception; eauto.
Qed.



(** ** The functions kept for compatibility *)

(** X19. The functions kept for compatibility go past the counter.
    [connect_db] hands out a connection of the pool without counting
    it, so that until [close_db] puts it back the active count is one
    less than the number of connections out; [close_db] after
    [connect_db] leaves the connections out as they were. And a block
    under [get_connection] that gives its connection back with
    [close_db] leaves the active count one more than the number of
    connections out: the release at the end of the block fails and the
    count is not taken down. *)
Theorem compatibility_functions_miss_the_counter (d : DatabasePool)
  (c : nat) (rest : list nat) :
  wf d -> idle (_pool d) = c :: rest ->
  alive (state_of (_pool d) c) = true ->
  let d1 := snd (connect_db d) in
  let d2 := snd (close_db (Some c) d1) in
  let d3 := snd (get_connection hands_back d) in
  fst (connect_db d) = Py.Return (Some c)
  /\ used (_pool d1) = used (_pool d) ++ [c]
  /\ active_connections (_stats d1)
     = (Z.of_nat (List.length (used (_pool d1))) - 1)%Z
  /\ fst (close_db (Some c) d1) = Py.Return tt
  /\ used (_pool d2) = used (_pool d)
  /\ active_connections (_stats d2)
     = Z.of_nat (List.length (used (_pool d2)))
  /\ fst (get_connection hands_back d) = Normal
  /\ used (_pool d3) = used (_pool d)
  /\ active_connections (_stats d3)
     = (Z.of_nat (List.length (used (_pool d3))) + 1)%Z.
Proof.
  intros [Hp Ha] Hi Hal. cbv zeta.
  assert (Hc : ~ In c (used (_pool d))).
  { destruct Hp as [_ [_ [Hd _]]]. apply Hd. rewrite Hi. now left. }
  assert (Hnc : pg_closed c (_pool d) = false).
  { unfold pg_closed. destruct (state_of (_pool d) c); simpl in Hal;
      congruence. }
  set (p1 := handed_out c rest (_pool d)).
  assert (Hin : In c (used p1)).
  { unfold p1, handed_out. cbn [used]. apply in_app_iff. right. now left. }
  assert (Hst : state_of p1 c <> LostInTransaction).
  { unfold p1, handed_out. cbn [state_of]. intros E. rewrite E in Hal.
    discriminate. }
  destruct (@pg_putconn_put_away c false p1 Hin Hst) as [st [kept P]].
  assert (Hu : used (put_away c st kept p1) = used (_pool d)).
  { unfold put_away, p1, handed_out. cbn [used].
    now apply remove_conn_last. }
  assert (E1 : connect_db d = (Py.Return (Some c), with_pool p1 d)).
  { unfold connect_db, pg_getconn. rewrite Hi. reflexivity. }
  rewrite E1. cbn [fst snd with_pool _pool _stats].
  split; [reflexivity|]. split; [reflexivity|].
  split.
  { unfold p1, handed_out. cbn [used]. rewrite length_app.
    cbn [List.length]. lia. }
  assert (E2 : forall st0,
             close_db (Some c) (DbPool p1 st0)
             = (Py.Return tt, DbPool (put_away c st kept p1) st0)).
  { intros st0. unfold close_db, with_pool. cbn [_pool _stats].
    now rewrite P. }
  unfold with_pool. rewrite !E2. cbn [fst snd _pool _stats].
  split; [reflexivity|]. split; [exact Hu|].
  split; [rewrite Hu; exact Ha|].
  rewrite (@get_connection_idle hands_back d c rest Hi Hnc).
  fold p1. unfold hands_back, add_active, with_pool. cbn [_pool _stats].
  rewrite E2. cbn [fst snd].
  unfold finally_release. cbn [_pool].
  rewrite pg_putconn_not_out by (rewrite Hu; exact Hc).
  unfold with_pool. cbn [_pool _stats active_connections]. rewrite Hu.
  split; [reflexivity|]. split; [reflexivity|]. lia.
Qed.

Lemma compatibility_functions_miss_the_counter_witness :
  active_connections (_stats (snd (connect_db fresh_pool))) = 0%Z
  /\ used (_pool (snd (connect_db fresh_pool))) = [0%nat]
  /\ active_connections (_stats (snd (get_connection hands_back fresh_pool)))
     = 1%Z
  /\ used (_pool (snd (get_connection hands_back fresh_pool))) = [].
Proof.
  destruct (@compatibility_functions_miss_the_counter fresh_pool 0%nat
              [1; 2]%nat wf_fresh_pool eq_refl eq_refl)
    as [_ [A [B [_ [_ [_ [_ [C D]]]]]]]].
  split; [exact B|]. split; [exact A|]. split; [exact D | exact C].
Defined.

End PoolCompat.

(* ================================================================== *)
(** * Setting the store up: init_db.py and a migration that fails *)
(* ================================================================== *)

Module Setup.
Import Py.
Import AdminDb.
Import Access.
Import Reconciler.

(** The keys the foreign keys of the application point at: [email] of
    [users] and [id] of [images], where these relations exist. *)
Definition keyed (s : store) : bool :=
  match users_table s with
  | Some t => opt_str_eqb (t_primary_key t) (Some c_email)
  | None => true
  end &&
  match images_table s with
  | Some t => opt_str_eqb (t_primary_key t) (Some c_id)
  | None => true
  end.

(** The store with the relation [r] declared as [t] unless it exists. *)
Definition with_table (r : relation) (t : table) (s : store) : store :=
  match lookup_table r s with
  | Some _ => s
  | None => set_table r (Some t) s
  end.

(** A store of an earlier version in which [users] has no key. *)
Definition unkeyed_store : store :=
  Db (Some (Table (t_columns ddl_users) None []))
     [UserRow owner_x (lit "hash") 0]
     (Some ddl_legacy_images)
     [ImageRow 1 (lit "a.png") (lit "a.png") 10 100 (lit "png") None None]
     1 None [] 0.

Lemma init_create_runs (text : str) (r : relation) (t : table) (w : env)
  (s' : store) :
  reachable w = true -> fault w = None ->
  create_table_if_not_exists r t (db w) = Return s' ->
  init_create text r t w
  = (Return true,
     Env (getenv w) true None (clock w) s' None (sent w ++ [Statement text []])).
Proof.
  intros Hr Hf Hc. destruct w as [cfg r0 f clk s p l].
  cbn [reachable fault db] in *. subst r0 f.
  unfold init_create. run_monad. now rewrite Hc.
Qed.

Lemma create_users (s : store) :
  create_table_if_not_exists Users ddl_users s
  = Return (with_table Users ddl_users s).
Proof.
  unfold create_table_if_not_exists, with_table.
  destruct (lookup_table Users s); reflexivity.
Qed.

Lemma create_images (s : store) (t : table) :
  users_table s = Some t ->
  opt_str_eqb (t_primary_key t) (Some c_email) = true ->
  create_table_if_not_exists Images ddl_images s
  = Return (with_table Images ddl_images s).
Proof.
  intros Hu Hk. unfold create_table_if_not_exists, with_table.
  destruct (lookup_table Images s); [reflexivity|].
  set (ks := t_foreign_keys ddl_images). cbv in ks. subst ks.
  unfold fk_targets_ok, fk_target_ok. cbn [fk_ref_table lookup_table].
  rewrite Hu. cbn [fk_ref_column]. unfold c_email in Hk. now rewrite Hk.
Qed.

Lemma create_statistics (s : store) (tu ti : table) :
  users_table s = Some tu ->
  opt_str_eqb (t_primary_key tu) (Some c_email) = true ->
  images_table s = Some ti ->
  opt_str_eqb (t_primary_key ti) (Some c_id) = true ->
  create_table_if_not_exists Statistics ddl_init_statistics s
  = Return (with_table Statistics ddl_init_statistics s).
Proof.
  intros Hu Hku Hi Hki. unfold create_table_if_not_exists, with_table.
  destruct (lookup_table Statistics s); [reflexivity|].
  set (ks := t_foreign_keys ddl_init_statistics). cbv in ks. subst ks.
  unfold fk_targets_ok, fk_target_ok. cbn [fk_ref_table lookup_table].
  rewrite Hu, Hi. cbn [fk_ref_column]. unfold c_email in Hku.
  unfold c_id in Hki. now rewrite Hku, Hki.
Qed.

(** The store [init_db.py] leaves. *)
Definition initialised (s : store) : store :=
  with_table Statistics ddl_init_statistics
    (with_table Images ddl_images (with_table Users ddl_users s)).

Lemma with_table_users (s : store) :
  keyed s = true ->
  exists t, users_table (with_table Users ddl_users s) = Some t
            /\ opt_str_eqb (t_primary_key t) (Some c_email) = true
            /\ images_table (with_table Users ddl_users s) = images_table s.
Proof.
  unfold keyed, with_table. cbn [lookup_table]. intros H.
  apply andb_true_iff in H as [Hu _].
  destruct (users_table s) as [t|] eqn:E.
  - exists t. auto.
  - exists ddl_users. destruct s; cbn. auto.
Qed.

Lemma with_table_images (s : store) (tu : table) :
  users_table s = Some tu ->
  match images_table s with
  | Some t => opt_str_eqb (t_primary_key t) (Some c_id)
  | None => true
  end = true ->
  users_table (with_table Images ddl_images s) = Some tu
  /\ exists t, images_table (with_table Images ddl_images s) = Some t
               /\ opt_str_eqb (t_primary_key t) (Some c_id) = true.
Proof.
  unfold with_table. cbn [lookup_table]. intros Hu Hi.
  destruct (images_table s) as [t|] eqn:E.
  - split; [exact Hu|]. exists t. auto.
  - destruct s; cbn in *. split; [exact Hu|]. exists ddl_images. auto.
Qed.

Lemma init_db_main_runs (w : env) :
  reachable w = true -> fault w = None -> keyed (db w) = true ->
  init_db_main w
  = (Return true,
     Env (getenv w) true None (clock w) (initialised (db w)) None
         (sent w ++ [Statement sql_init_users []; Statement sql_init_images [];
                     Statement sql_init_statistics []])).
Proof.
  intros Hr Hf Hk.
  destruct (with_table_users _ Hk) as [tu [Hu [Hku Hi]]].
  assert (Hk2 : match images_table (with_table Users ddl_users (db w)) with
                | Some t => opt_str_eqb (t_primary_key t) (Some c_id)
                | None => true
                end = true).
  { rewrite Hi. unfold keyed in Hk. now apply andb_true_iff in Hk. }
  destruct (with_table_images _ Hu Hk2) as [Hu2 [ti [Hi2 Hki]]].
  unfold init_db_main, bind.
  rewrite (@init_create_runs sql_init_users Users ddl_users w _ Hr Hf
             (create_users (db w))).
  cbn [negb].
  set (w1 := Env _ _ _ _ (with_table Users ddl_users (db w)) _ _).
  rewrite (@init_create_runs sql_init_images Images ddl_images w1 _
             eq_refl eq_refl (create_images _ Hu Hku)).
  cbn [negb].
  set (w2 := Env _ _ _ _ (with_table Images ddl_images _) _ _).
  rewrite (@init_create_runs sql_init_statistics Statistics
             ddl_init_statistics w2 _ eq_refl eq_refl
             (create_statistics _ Hu2 Hku Hi2 Hki)).
  unfold w2, w1. cbn [getenv clock sent db]. unfold initialised.
  rewrite <- !app_assoc. reflexivity.
Qed.

Lemma with_table_keeps (r r' : relation) (t t' : table) (s : store) :
  lookup_table r' s = Some t' -> lookup_table r' (with_table r t s) = Some t'.
Proof.
  unfold with_table. destruct (lookup_table r s) eqn:E; [auto|].
  destruct r, r'; destruct s; cbn in *; congruence.
Qed.

Lemma with_table_exists (r : relation) (t : table) (s : store) :
  table_exists r (with_table r t s) = true.
Proof.
  unfold with_table, table_exists. destruct (lookup_table r s) eqn:E.
  - now rewrite E.
  - destruct r; destruct s; reflexivity.
Qed.

Lemma with_table_still (r r' : relation) (t : table) (s : store) :
  table_exists r' s = true -> table_exists r' (with_table r t s) = true.
Proof.
  unfold table_exists. destruct (lookup_table r' s) as [t'|] eqn:E;
    [|discriminate].
  intros _. now rewrite (with_table_keeps r r' t s E).
Qed.

Lemma with_table_rows (r : relation) (t : table) (s : store) :
  users_rows (with_table r t s) = users_rows s
  /\ images_rows (with_table r t s) = images_rows s
  /\ statistics_rows (with_table r t s) = statistics_rows s.
Proof.
  unfold with_table. destruct (lookup_table r s); [auto|].
  destruct r; destruct s; cbn; auto.
Qed.

Lemma with_table_twice (r : relation) (t : table) (s : store) :
  table_exists r s = true -> with_table r t s = s.
Proof.
  unfold table_exists, with_table. now destruct (lookup_table r s).
Qed.

Lemma keyed_initialised (s : store) :
  keyed s = true -> keyed (initialised s) = true.
Proof.
  intros Hk. destruct (with_table_users _ Hk) as [tu [Hu [Hku Hi]]].
  assert (Hk2 : match images_table (with_table Users ddl_users s) with
                | Some t => opt_str_eqb (t_primary_key t) (Some c_id)
                | None => true
                end = true).
  { rewrite Hi. unfold keyed in Hk. now apply andb_true_iff in Hk. }
  destruct (with_table_images _ Hu Hk2) as [Hu2 [ti [Hi2 Hki]]].
  pose proof (with_table_keeps Statistics Users ddl_init_statistics _ Hu2) as U.
  pose proof (with_table_keeps Statistics Images ddl_init_statistics _ Hi2) as I.
  cbn [lookup_table] in U, I.
  unfold initialised, keyed. now rewrite U, I, Hku, Hki.
Qed.

(** X21. [init_db.py] only adds, and adds once. From a store in reach
    in which [users] and [images], if they exist, have the keys the
    foreign keys point at, [main] runs to its end; afterwards the three
    relations exist, every relation that existed is declared as it was,
    and no row has changed; a second run changes nothing. *)
Theorem init_db_is_additive (w : env) :
  reachable w = true -> fault w = None -> keyed (db w) = true ->
  let w1 := snd (init_db_main w) in
  fst (init_db_main w) = Return true
  /\ table_exists Users (db w1) = true
  /\ table_exists Images (db w1) = true
  /\ table_exists Statistics (db w1) = true
  /\ (forall r t, lookup_table r (db w) = Some t ->
                  lookup_table r (db w1) = Some t)
  /\ users_rows (db w1) = users_rows (db w)
  /\ images_rows (db w1) = images_rows (db w)
  /\ statistics_rows (db w1) = statistics_rows (db w)
  /\ fst (init_db_main w1) = Return true
  /\ db (snd (init_db_main w1)) = db w1.
Proof.
  intros Hr Hf Hk. cbv zeta. rewrite (init_db_main_runs w Hr Hf Hk).
  cbn [fst snd db].
  assert (E1 : table_exists Users (initialised (db w)) = true).
  { unfold initialised. do 2 apply with_table_still. apply with_table_exists. }
  assert (E2 : table_exists Images (initialised (db w)) = true).
  { unfold initialised. apply with_table_still. apply with_table_exists. }
  assert (E3 : table_exists Statistics (initialised (db w)) = true).
  { unfold initialised. apply with_table_exists. }
  split; [reflexivity|]. split; [exact E1|]. split; [exact E2|].
  split; [exact E3|]. split.
  { intros r t H. unfold initialised. now do 3 apply with_table_keeps. }
  unfold initialised at 1 2 3.
  destruct (with_table_rows Statistics ddl_init_statistics
              (with_table Images ddl_images (with_table Users ddl_users (db w))))
    as [A1 [A2 A3]].
  destruct (with_table_rows Images ddl_images
              (with_table Users ddl_users (db w))) as [B1 [B2 B3]].
  destruct (with_table_rows Users ddl_users (db w)) as [C1 [C2 C3]].
  split; [congruence|]. split; [congruence|]. split; [congruence|].
  set (w1 := Env _ _ _ _ (initialised (db w)) _ _).
  rewrite (@init_db_main_runs w1 eq_refl eq_refl (keyed_initialised _ Hk)).
  cbn [fst snd db w1]. split; [reflexivity|].
  unfold initialised at 1.
  rewrite (with_table_twice Users ddl_users _ E1).
  rewrite (with_table_twice Images ddl_images _ E2).
  now rewrite (with_table_twice Statistics ddl_init_statistics _ E3).
Qed.

Lemma init_db_is_additive_witness :
  fst (init_db_main (world legacy_store)) = Return true
  /\ table_exists Statistics (db (snd (init_db_main (world legacy_store))))
     = true
  /\ lookup_table Images (db (snd (init_db_main (world legacy_store))))
     = Some ddl_legacy_images.
Proof.
  assert (H := @init_db_is_additive (world legacy_store)
                 eq_refl eq_refl eq_refl).
  split; [apply H|]. split; [apply H|]. apply H. reflexivity.
Defined.

(** ** A migration that fails *)

Lemma add_fk_refused (s : store) (t tu : table) :
  images_table s = Some t -> users_table s = Some tu ->
  has_column c_user_email t = true ->
  has_constraint (fk_name fk_images_user_email) t = true
  \/ opt_str_eqb (t_primary_key tu) (Some c_email) = false ->
  exists e, alter_add_constraint Images fk_images_user_email s = Raise e.
Proof.
  intros Hi Hu Hcol Hbad. unfold alter_add_constraint, fk_target_ok.
  cbn [lookup_table]. rewrite Hi.
  destruct (has_constraint (fk_name fk_images_user_email) t) eqn:Hc; [eauto|].
  destruct Hbad as [Hbad|Hbad]; [discriminate|].
  change (fk_column fk_images_user_email) with c_user_email. rewrite Hcol.
  change (fk_ref_table fk_images_user_email) with Users.
  change (fk_ref_column fk_images_user_email) with c_email.
  cbn [negb lookup_table]. rewrite Hu, Hbad. eauto.
Qed.

(** X22. The two statements that give [images] its owner are one
    transaction. When [images] lacks [user_email] and the foreign key
    cannot be added (a constraint of its name exists, or [email] is not
    the key of [users]), [ensure_schema] returns [False] and the store
    is what it was: the column the first statement added is rolled
    back with the second. *)
Theorem failed_migration_leaves_no_trace (sha : str -> str) (w : env)
  (tu ti : table) :
  reachable w = true -> fault w = None -> pending w = None ->
  users_table (db w) = Some tu -> images_table (db w) = Some ti ->
  has_column c_user_email ti = false ->
  has_constraint (fk_name fk_images_user_email) ti = true
  \/ opt_str_eqb (t_primary_key tu) (Some c_email) = false ->
  fst (ensure_schema sha w) = Return false
  /\ db (snd (ensure_schema sha w)) = db w
  /\ pending (snd (ensure_schema sha w)) = None
  /\ sent_by (ensure_schema sha) w
     = [Statement sql_users_exists []; Statement sql_images_exists [];
        Statement sql_user_email_exists []; Statement sql_add_user_email [];
        Statement sql_add_fk_user_email []].
Proof.
  intros Hr Hf Hp Hu Hi Hc Hbad. destruct w as [cfg r f clk s p l].
  cbn [reachable fault pending db] in *. subst r f p.
  set (t1 := Table (t_columns ti ++ [col_user_email]) (t_primary_key ti)
                   (t_foreign_keys ti)).
  set (s1 := null_column Images c_user_email (set_table Images (Some t1) s)).
  destruct (null_set_tables c_user_email t1 s) as [N1 [N2 _]].
  fold s1 in N1, N2.
  assert (Hcol1 : has_column c_user_email t1 = true).
  { unfold t1. rewrite has_column_added.
    change (str_eqb (col_name col_user_email) c_user_email) with true.
    apply orb_true_r. }
  assert (Hbad1 : has_constraint (fk_name fk_images_user_email) t1 = true
                  \/ opt_str_eqb (t_primary_key tu) (Some c_email) = false)
    by exact Hbad.
  assert (Hu1 : users_table s1 = Some tu) by congruence.
  destruct (add_fk_refused s1 N2 Hu1 Hcol1 Hbad1) as [e He].
  assert (X1 : table_exists Users s = true)
    by (unfold table_exists; cbn [lookup_table]; now rewrite Hu).
  assert (X2 : table_exists Images s = true)
    by (unfold table_exists; cbn [lookup_table]; now rewrite Hi).
  assert (X3 : column_exists Images c_user_email s = false)
    by (unfold column_exists; cbn [lookup_table]; now rewrite Hi).
  unfold sent_by, ensure_schema. run_monad.
  rewrite X1. cbn [negb]. run_monad.
  rewrite X2. cbn [negb]. run_monad.
  rewrite X3. cbn [negb]. run_monad.
  rewrite (add_user_email_ok s ti Hi Hc). fold t1. fold s1. run_monad.
  rewrite He. cbn [fst snd db pending sent].
  rewrite <- !app_assoc, skipn_sent. auto.
Qed.

Lemma failed_migration_leaves_no_trace_witness :
  fst (ensure_schema sha (world unkeyed_store)) = Return false
  /\ db (snd (ensure_schema sha (world unkeyed_store))) = unkeyed_store.
Proof.
  destruct (@failed_migration_leaves_no_trace sha (world unkeyed_store)
              (Table (t_columns ddl_users) None []) ddl_legacy_images
              eq_refl eq_refl eq_refl eq_refl eq_refl eq_refl
              (or_intror eq_refl)) as [A [B _]].
  split; [exact A | exact B].
Defined.

End Setup.

(* ================================================================== *)
(** * app.py: which files may be uploaded *)
(* ================================================================== *)

Module Upload.
Import Py.
Import Sql.

Definition dot : str := Eval vm_compute in lit ".".

Definition ALLOWED_EXTENSIONS : list str :=
  Eval vm_compute in map lit ["png"; "jpeg"; "jpg"; "gif"; "webp"]%string.

(** The string before and the string after the first [sep] of [s]. *)
Fixpoint break_at (sep : N) (s : str) : option (str * str) :=
  match s with
  | [] => None
  | c :: t =>
    if (c =? sep)%N then Some ([], t)
    else match break_at sep t with
         | Some (a, b) => Some (c :: a, b)
         | None => None
         end
  end.

(** [s.rsplit(sep, 1)] for a separator of one character. *)
Definition rsplit1 (sep : N) (s : str) : list str :=
  match break_at sep (rev s) with
  | None => [s]
  | Some (a, b) => [rev b; rev a]
  end.

(** app.py, [allowed_file]. [lower] is the lower case of the letters
    A-Z: no other character has a lower case made of the letters of the
    allowed extensions, so the verdict is that of [str.lower]. *)
Definition allowed_file (filename : str) : bool :=
  if negb (contains dot filename) then false
  else
    let file_extension := lower (nth 1 (rsplit1 46 filename) []) in
    str_in file_extension ALLOWED_EXTENSIONS.

Definition has_dot (s : str) : bool := existsb (fun c => (c =? 46)%N) s.

Lemma contains_dot (s : str) : contains dot s = has_dot s.
Proof.
  induction s as [|c s IH]; [reflexivity|].
  cbn [contains has_dot existsb]. rewrite IH. unfold dot. cbn [startswith].
  now rewrite andb_true_r.
Qed.

Lemma break_at_first (sep : N) (a b : str) :
  existsb (fun c => (c =? sep)%N) a = false ->
  break_at sep (a ++ sep :: b) = Some (a, b).
Proof.
  induction a as [|c a IH]; simpl; intros H.
  - now rewrite N.eqb_refl.
  - apply orb_false_iff in H as [Hc Ha]. now rewrite Hc, IH.
Qed.

Lemma break_at_none (sep : N) (s : str) :
  break_at sep s = None -> existsb (fun c => (c =? sep)%N) s = false.
Proof.
  induction s as [|c s IH]; simpl; [reflexivity|].
  destruct (c =? sep)%N; [discriminate|].
  destruct (break_at sep s) as [[a b]|]; [discriminate|]. auto.
Qed.

Lemma break_at_some (sep : N) (s a b : str) :
  break_at sep s = Some (a, b) ->
  s = a ++ sep :: b /\ existsb (fun c => (c =? sep)%N) a = false.
Proof.
  revert a. induction s as [|c s IH]; simpl; intros a; [discriminate|].
  destruct (c =? sep)%N eqn:E.
  - intros H. injection H as <- <-. apply N.eqb_eq in E. subst. auto.
  - destruct (break_at sep s) as [[a' b']|]; [|discriminate].
    intros H. injection H as <- <-. destruct (IH a' eq_refl) as [-> Ha].
    simpl. now rewrite E.
Qed.

Lemma existsb_rev {A : Type} (f : A -> bool) (l : list A) :
  existsb f (rev l) = existsb f l.
Proof.
  induction l as [|x l IH]; [reflexivity|].
  simpl. rewrite existsb_app, IH. simpl. rewrite orb_false_r. apply orb_comm.
Qed.

(** The two parts of a name around its last dot. *)
Lemma rsplit1_last_dot (stem ext : str) :
  has_dot ext = false -> rsplit1 46 (stem ++ 46%N :: ext) = [stem; ext].
Proof.
  intros H. unfold rsplit1. rewrite rev_app_distr. cbn [rev].
  rewrite <- app_assoc. cbn [app].
  rewrite break_at_first by (rewrite existsb_rev; exact H).
  now rewrite !rev_involutive.
Qed.

Lemma last_dot_exists (s : str) :
  has_dot s = true ->
  exists stem ext, s = stem ++ 46%N :: ext /\ has_dot ext = false.
Proof.
  intros H. destruct (break_at 46 (rev s)) as [[a b]|] eqn:E.
  - apply break_at_some in E as [E Ha]. exists (rev b), (rev a). split.
    + rewrite <- (rev_involutive s), E, rev_app_distr. cbn [rev].
      now rewrite <- app_assoc.
    + unfold has_dot. now rewrite existsb_rev.
  - apply break_at_none in E. rewrite existsb_rev in E.
    unfold has_dot in H. congruence.
Qed.

Lemma has_dot_app (a b : str) : has_dot (a ++ 46%N :: b) = true.
Proof.
  unfold has_dot. rewrite existsb_app. simpl. apply orb_true_r.
Qed.

(** X23. [allowed_file] goes by what follows the last dot: a name is
    accepted exactly when it has a dot and the part after its last dot,
    with A-Z in lower case, is one of png, jpeg, jpg, gif and webp.
    What precedes the last dot does not matter, not even whether there
    is anything: ['.png'] is accepted; ['a.png.'] and ['png'] are
    not. *)
Theorem allowed_file_reads_the_last_extension (filename : str) :
  (allowed_file filename = true
   <-> exists stem ext,
         filename = stem ++ 46%N :: ext /\ has_dot ext = false
         /\ str_in (lower ext) ALLOWED_EXTENSIONS = true)
  /\ allowed_file (lit ".png") = true
  /\ allowed_file (lit "photo.tar.JPeG") = true
  /\ allowed_file (lit "a.png.") = false
  /\ allowed_file (lit "png") = false
  /\ allowed_file (lit "a.png ") = false.
Proof.
  split; [|repeat split; vm_compute; reflexivity].
  unfold allowed_file. rewrite contains_dot. split.
  - destruct (has_dot filename) eqn:H; [|discriminate]. cbn [negb].
    destruct (last_dot_exists _ H) as [stem [ext [-> Hext]]].
    rewrite (@rsplit1_last_dot stem ext Hext). cbn [nth]. eauto.
  - intros [stem [ext [-> [Hext Hin]]]].
    rewrite has_dot_app. cbn [negb].
    rewrite (@rsplit1_last_dot stem ext Hext). cbn [nth]. exact Hin.
Qed.

End Upload.

(* ================================================================== *)
(** * app.py: the session check and the deletion of one image *)
(* ================================================================== *)

Module Routes.
Import Py.
Import AdminDb.
Import Access.
Import Accounts.
Import Gallery.
Import Tasks.
Import Journal.

Definition delete_error : str := Eval vm_compute in lit "delete_error".
Definition delete_access_denied : str :=
  Eval vm_compute in lit "delete_access_denied".
Definition delete_done : str := Eval vm_compute in lit "успешное_удаление".
Definition login_done : str := Eval vm_compute in lit "успешный_вход".

Definition info_not_found : str :=
  Eval vm_compute in lit "Изображение не найдено".
Definition info_denied : str :=
  Eval vm_compute in lit "Попытка удаления изображения пользователя ".
Definition info_deleted : str :=
  Eval vm_compute in lit "Удалено изображение ".
Definition info_error : str := Eval vm_compute in lit "Ошибка: ".

(** [f'{o}'] for a string that may be [None]. *)
Definition format_opt (o : option str) : str :=
  match o with
  | Some s => s
  | None => lit "None"
  end.

(** What a protected route does with a request. *)
Inductive verdict : Type :=
| Proceed            (* the route itself runs *)
| RedirectLogin.     (* redirect(url_for('login')) *)

(** app.py, [login_required]: the check made before the route runs.
    [session] is the key [user_email] of the session; [session.clear()]
    removes it with every other key. The value returned carries the
    session as the check leaves it. *)
Definition login_required (session : option str)
  : M (verdict * option str) :=
  match session with
  | None => ret (RedirectLogin, session)
  | Some user_email =>
    try_except
      (conn <- connect_db ;;
       match conn with
       | Some _ =>
         cursor conn ;;;
         row <- fetch (Statement sql_user_by_email [PStr user_email])
                      (select_user user_email) ;;
         let user_exists := match row with Some _ => true | None => false end in
         if negb user_exists then ret (RedirectLogin, None)
         else ret (Proceed, session)
       | None => ret (RedirectLogin, session)
       end)
      (fun _ => ret (RedirectLogin, None))
  end.

(** The message a route flashes. *)
Inductive flashed : Type :=
| ImageNotFound      (* 'Изображение не найдено' *)
| NoRights           (* 'У вас нет прав для удаления этого изображения' *)
| ImageDeleted       (* 'Изображение успешно удалено' *)
| DeletionFailed.    (* 'Ошибка при удалении изображения' *)

Section Request.

(** [app.config['UPLOAD_FOLDER']]. *)
Variable UPLOAD_FOLDER : str.
(** [session['user_email']]. *)
Variable session_user : str.
(** [get_client_ip()] and [request.user_agent.string]. *)
Variable ip_address : option str.
Variable user_agent : option str.
(** [str(e)] of what the handler caught. *)
Variable str_of : failure -> str.

(** app.py, [delete_image_route], on a host; every path ends in
    [redirect(url_for('images_list'))]. [image[1]] and [image[6]] are
    the fields [filename] and [user_email] of the row, as for a
    relation in [tuple_order]. *)
Definition delete_image_route (id : Z) (h : host) : M (flashed * host) :=
  image <- get_image_by_id id ;;
  match image with
  | None =>
    log_statistics delete_error (Some session_user) (Some id) ip_address
                   user_agent (Some info_not_found) ;;;
    ret (ImageNotFound, h)
  | Some image =>
    let user_email := session_user in
    let image_user_email := i_user_email image in
    if negb (opt_str_eqb image_user_email (Some user_email)) then
      log_statistics delete_access_denied (Some user_email) (Some id)
                     ip_address user_agent
                     (Some (info_denied ++ format_opt image_user_email)) ;;;
      ret (NoRights, h)
    else
      let filename := i_filename image in
      let file_path := path_join (path_join UPLOAD_FOLDER user_email) filename in
      let failed (e : failure) (h' : host) : M (flashed * host) :=
        log_statistics delete_error (Some user_email) (Some id) ip_address
                       user_agent (Some (info_error ++ str_of e)) ;;;
        ret (DeletionFailed, h') in
      let removed :=
        if str_in file_path (files h) then os_remove file_path h else Some h in
      match removed with
      | None => failed OsError h
      | Some h' =>
        fun w =>
          match delete_image id w with
          | (Return _, w') =>
            (log_statistics delete_done (Some user_email) (Some id) ip_address
                            user_agent (Some (info_deleted ++ filename)) ;;;
             ret (ImageDeleted, h')) w'
          | (Raise e, w') => failed (DbError e) h' w'
          end
      end
  end.

End Request.

(** ** What the routes guarantee *)

Lemma log_statistics_frame (action_type : str) (user_email : option str)
  (file_id : option Z) (ip_address user_agent additional_info : option str)
  (w : env) :
  exists b w',
    log_statistics action_type user_email file_id ip_address user_agent
                   additional_info w = (Return b, w')
    /\ reachable w' = reachable w /\ fault w' = fault w
    /\ users_table (db w') = users_table (db w)
    /\ users_rows (db w') = users_rows (db w)
    /\ images_table (db w') = images_table (db w)
    /\ images_rows (db w') = images_rows (db w).
Proof.
  destruct w as [cfg r f clk s p l].
  unfold log_statistics. run_monad.
  destruct r; run_monad;
    [|do 2 eexists; split; [reflexivity|]; cbn; auto 10].
  destruct f as [e|]; run_monad.
  { destruct user_email as [u|]; [destruct (nonempty u)|];
      do 2 eexists; (split; [reflexivity|]); cbn; auto 10. }
  destruct user_email as [u|]; [destruct (nonempty u)|]; run_monad.
  - destruct (select_user u s) as [[x|]|]; run_monad.
    + destruct (insert_statistics _ _ _ _ _ _ _ _) as [s'|e] eqn:E.
      * apply insert_statistics_store in E as [_ ->].
        do 2 eexists; (split; [reflexivity|]); cbn; auto 10.
      * do 2 eexists; (split; [reflexivity|]); cbn; auto 10.
    + destruct (insert_statistics _ _ _ _ _ _ _ _) as [s'|e] eqn:E.
      * apply insert_statistics_store in E as [_ ->].
        do 2 eexists; (split; [reflexivity|]); cbn; auto 10.
      * do 2 eexists; (split; [reflexivity|]); cbn; auto 10.
    + do 2 eexists; (split; [reflexivity|]); cbn; auto 10.
  - destruct (insert_statistics _ _ _ _ _ _ _ _) as [s'|e] eqn:E.
    + apply insert_statistics_store in E as [_ ->].
      do 2 eexists; (split; [reflexivity|]); cbn; auto 10.
    + do 2 eexists; (split; [reflexivity|]); cbn; auto 10.
  - destruct (insert_statistics _ _ _ _ _ _ _ _) as [s'|e] eqn:E.
    + apply insert_statistics_store in E as [_ ->].
      do 2 eexists; (split; [reflexivity|]); cbn; auto 10.
    + do 2 eexists; (split; [reflexivity|]); cbn; auto 10.
Qed.

Lemma get_image_by_id_frame (id : Z) (w : env) :
  exists r w0,
    get_image_by_id id w = (r, w0)
    /\ reachable w0 = reachable w /\ fault w0 = fault w /\ db w0 = db w
    /\ clock w0 = clock w
    /\ forall image, r = Return (Some image) ->
         find (fun i => (i_id i =? id)%Z) (images_rows (db w)) = Some image.
Proof.
  destruct w as [cfg r f clk s p l]. unfold get_image_by_id. run_monad.
  destruct r; run_monad.
  - destruct f as [e|]; run_monad.
    + do 2 eexists. split; [reflexivity|]. cbn. repeat split. discriminate.
    + unfold images_of. destruct (images_table s); run_monad.
      * do 2 eexists. split; [reflexivity|]. cbn. repeat split.
        intros image H. now injection H.
      * do 2 eexists. split; [reflexivity|]. cbn. repeat split. discriminate.
  - do 2 eexists. split; [reflexivity|]. cbn. repeat split. discriminate.
Qed.

Section RequestTheory.

Variable UPLOAD_FOLDER : str.
Variable session_user : str.
Variable ip_address : option str.
Variable user_agent : option str.
Variable str_of : failure -> str.

(** X24. Only the owner deletes. When the image the identifier names
    is not one of the session's user (another user's, or one with no
    owner), [delete_image_route] removes no row of [images], changes no
    row of [users] and removes no file, whatever else the state of the
    store and of the host, for a relation [images] with its columns in
    the order the route reads them; what it flashes is that the image
    was not found or that the user has no right to it. *)
Theorem only_the_owner_deletes (id : Z) (h : host) (w : env) :
  tuple_order (db w) = true ->
  (forall image,
     find (fun i => (i_id i =? id)%Z) (images_rows (db w)) = Some image ->
     i_user_email image <> Some session_user) ->
  let r := delete_image_route UPLOAD_FOLDER session_user ip_address user_agent
                              str_of id h w in
  images_rows (db (snd r)) = images_rows (db w)
  /\ users_rows (db (snd r)) = users_rows (db w)
  /\ forall f h', fst r = Return (f, h') ->
       h' = h /\ (f = ImageNotFound \/ f = NoRights).
Proof.
  intros _ Hown. cbv zeta.
  remember (delete_image_route UPLOAD_FOLDER session_user ip_address
              user_agent str_of id h w) as res eqn:R.
  destruct (get_image_by_id_frame id w) as [r [w0 [G [_ [_ [Hdb [_ Hfind]]]]]]].
  unfold delete_image_route in R. unfold bind at 1 in R. rewrite G in R.
  destruct r as [[image|]|e].
  - specialize (Hfind image eq_refl). specialize (Hown image Hfind).
    assert (N : opt_str_eqb (i_user_email image) (Some session_user) = false).
    { destruct (opt_str_eqb _ _) eqn:E; [|reflexivity]. exfalso. apply Hown.
      destruct (i_user_email image) as [o|]; [|discriminate].
      cbn in E. apply str_eqb_eq in E. now subst o. }
    rewrite N in R. cbn [negb] in R.
    destruct (log_statistics_frame delete_access_denied (Some session_user)
                (Some id) ip_address user_agent
                (Some (info_denied ++ format_opt (i_user_email image))) w0)
      as [b [w' [L [_ [_ [_ [U [_ I]]]]]]]].
    unfold bind, ret in R. rewrite L in R. subst res. cbn [fst snd].
    rewrite I, U, Hdb. repeat split; injection H as <- <-; auto.
  - destruct (log_statistics_frame delete_error (Some session_user)
                (Some id) ip_address user_agent (Some info_not_found) w0)
      as [b [w' [L [_ [_ [_ [U [_ I]]]]]]]].
    unfold bind, ret in R. rewrite L in R. subst res. cbn [fst snd].
    rewrite I, U, Hdb. repeat split; injection H as <- <-; auto.
  - subst res. cbn [fst snd]. rewrite Hdb. repeat split; discriminate.
Qed.

(** X25. The owner's deletion completes. With the store in reach, the
    columns of [images] in the order the route reads them, no foreign
    key that forbids the deletion, and a file that can be removed,
    [delete_image_route] for an image of the session's user
    flashes the success, leaves no row with that identifier in [images],
    keeps the other rows and [users], and removes from the host the file
    [UPLOAD_FOLDER/user/filename] and no other. *)
Theorem owner_deletion_completes (id : Z) (h : host) (w : env)
  (image : images_row) :
  workable w -> tuple_order (db w) = true -> locked h = [] ->
  find (fun i => (i_id i =? id)%Z) (images_rows (db w)) = Some image ->
  i_user_email image = Some session_user ->
  exists h' w',
    delete_image_route UPLOAD_FOLDER session_user ip_address user_agent
                       str_of id h w
    = (Return (ImageDeleted, h'), w')
    /\ images_rows (db w')
       = filter (fun i => negb (i_id i =? id)%Z) (images_rows (db w))
    /\ users_rows (db w') = users_rows (db w)
    /\ files h'
       = filter (fun p => negb (str_eqb p
                   (path_join (path_join UPLOAD_FOLDER session_user)
                              (i_filename image)))) (files h)
    /\ fst (get_image_by_id id w') = Return None.
Proof.
  intros Hw _ Hl Hfind Hown.
  pose proof Hw as [Hr [Hf [[t [Ht Hc]] Hd]]].
  destruct (get_image_by_id_frame id w) as [r [w0 [G [Hr0 [Hf0 [Hdb0 [_ _]]]]]]].
  pose proof (get_image_by_id_finds w id Hr Hf Ht) as G1.
  rewrite G in G1. cbn [fst] in G1. subst r. rewrite Hfind in G.
  assert (Hw0 : workable w0).
  { unfold workable. rewrite Hr0, Hf0, Hdb0. eauto 10. }
  destruct (delete_image_works id Hw0) as [w1 [D [Hw1 [I1 [U1 _]]]]].
  destruct (log_statistics_frame delete_done (Some session_user) (Some id)
              ip_address user_agent
              (Some (info_deleted ++ i_filename image)) w1)
    as [b [w' [L [Hr' [Hf' [_ [U' [T' I']]]]]]]].
  set (file_path := path_join (path_join UPLOAD_FOLDER session_user)
                              (i_filename image)).
  assert (Hrem : exists h',
             (if str_in file_path (files h) then os_remove file_path h
              else Some h) = Some h'
             /\ files h' = filter (fun p => negb (str_eqb p file_path))
                                  (files h)).
  { destruct (str_in file_path (files h)) eqn:E.
    - unfold os_remove. rewrite Hl. cbn [str_in existsb].
      eexists. split; [reflexivity|]. reflexivity.
    - exists h. split; [reflexivity|]. symmetry. now apply filter_absent. }
  destruct Hrem as [h' [Hrem Hfiles]].
  exists h', w'. split.
  - unfold delete_image_route. unfold bind at 1. rewrite G.
    rewrite Hown. cbn [opt_str_eqb]. rewrite str_eqb_refl. cbn [negb].
    fold file_path. rewrite Hrem. rewrite D.
    unfold bind, ret. rewrite L. reflexivity.
  - rewrite I', U', I1, U1, Hdb0. repeat split; [exact Hfiles|].
    destruct Hw1 as [Hr1 [Hf1 [[t1 [Ht1 _]] _]]].
    assert (Ht' : images_table (db w') = Some t1) by congruence.
    rewrite (@get_image_by_id_finds w' id t1); try congruence.
    rewrite I', I1, Hdb0. now rewrite find_filtered_out.
Qed.

End RequestTheory.

Section Login.

Variable sha256_hexdigest : str -> str.

(** X26. A session opened by a login passes the check of the protected
    routes. After an [authenticate_user] that succeeded, and after the
    record of the login is written (or fails to be), [login_required]
    with the address in the session lets the route run and keeps the
    session. *)
Theorem login_opens_the_routes (email password : str) (m : str)
  (ip_address user_agent : option str) (w w1 : env) :
  authenticate_user sha256_hexdigest email password w
  = (Return (true, m), w1) ->
  fst (login_required (Some email)
         (snd (log_statistics login_done (Some email) None ip_address
                              user_agent None w1)))
  = Return (Proceed, Some email).
Proof.
  intros A.
  assert (K : reachable w1 = true /\ fault w1 = None
              /\ exists t u, users_table (db w1) = Some t
                   /\ find (fun x => str_eqb (u_email x) email)
                           (users_rows (db w1)) = Some u).
  { destruct w as [cfg r f clk s p l]. revert A.
    unfold authenticate_user. run_monad.
    destruct r; run_monad; [|discriminate].
    destruct f as [e|]; run_monad; [discriminate|].
    unfold select_credentials.
    destruct (users_table s) as [t|] eqn:Ht; [|discriminate].
    destruct (missing_column _ _); [discriminate|].
    destruct (find _ _) as [u|] eqn:F; run_monad; [|discriminate].
    destruct (str_eqb _ _); intros H; [injection H as _ <-|discriminate].
    cbn. eauto 10. }
  destruct K as [Hr [Hf [t [u [Ht Hu]]]]].
  destruct (log_statistics_frame login_done (Some email) None ip_address
              user_agent None w1)
    as [b [w2 [L [Hr2 [Hf2 [T2 [U2 _]]]]]]].
  rewrite L. cbn [snd].
  destruct w2 as [cfg r f clk s p l]. cbn [reachable fault db] in *.
  unfold login_required. run_monad. rewrite Hr2, Hr. run_monad.
  rewrite Hf2, Hf. unfold select_user. rewrite T2, Ht, U2, Hu. reflexivity.
Qed.

End Login.

Definition owned_world : env := world_at 800 gallery_store.

Lemma only_the_owner_deletes_witness :
  images_rows (db (snd (delete_image_route images_dir (lit "v@y.org") None None
                          (fun _ => []) 1 gallery_host owned_world)))
  = images_rows gallery_store
  /\ fst (delete_image_route images_dir (lit "v@y.org") None None
            (fun _ => []) 1 gallery_host owned_world)
     = Return (NoRights, gallery_host).
Proof.
  split.
  - apply (@only_the_owner_deletes images_dir (lit "v@y.org") None None
             (fun _ => []) 1 gallery_host owned_world eq_refl).
    intros image H. vm_compute in H. injection H as <-. discriminate.
  - vm_compute; reflexivity.
Defined.

Lemma owner_deletion_completes_witness :
  exists h',
    fst (delete_image_route images_dir owner_x None None (fun _ => []) 1
                            gallery_host owned_world)
    = Return (ImageDeleted, h')
    /\ files h' = [lit "images/u@x.com/b.png"; lit "images/u@x.com/d.png"].
Proof.
  destruct (@owner_deletion_completes images_dir owner_x None None
              (fun _ => []) 1 gallery_host owned_world
              (ImageRow 1 (lit "a.png") (lit "a.png") 10 100 (lit "png")
                        (Some owner_x) (Some 500%Z))
              workable_gallery eq_refl eq_refl eq_refl eq_refl)
    as [h' [w' [A [_ [_ [B _]]]]]].
  exists h'. rewrite A. split; [reflexivity|]. rewrite B. reflexivity.
Defined.

Lemma login_opens_the_routes_witness :
  fst (login_required (Some owner_x)
         (snd (log_statistics login_done (Some owner_x) None None None None
                 (snd (authenticate_user (fun p => p) owner_x (lit "hash")
                         (world one_user))))))
  = Return (Proceed, Some owner_x).
Proof.
  apply (@login_opens_the_routes (fun p => p) owner_x (lit "hash")
           msg_authenticated None None (world one_user)
           (snd (authenticate_user (fun p => p) owner_x (lit "hash")
                   (world one_user)))).
  vm_compute; reflexivity.
Defined.

End Routes.
